(* ===== verification/_CoqProject ===== *)
-Q . S2P
Prelude.v
BinaryHeap.v
Floats.v
Types.v
JitterPipe.v
SequenceBuffer.v
SequenceWindow.v
Cursor.v
BufferPool.v
AckHeader.v
Message.v
Packets.v
Reassembler.v
Channel.v
Dispatcher.v
Endpoint.v
Compose.v
Acks.v
Incoming.v
Control.v
Pieces.v
Reports.v
Lifetime.v
Calm.v
Link.v
Client.v
ClientFacts.v
Server.v
Session.v
Handshake.v
TestUtils.v
Agreement.v
Harness.v
Acts.v
ClientEnd.v
ServerEnd.v
Connection.v
