(* ===== verification/Prelude.v ===== *)
(** * Pickleback: messages over unreliable packets, verified

    Pickleback is a Rust crate that carries messages over UDP-like packets:
    two endpoints exchange packets; every packet header acks up to 350 earlier
    packets of the peer; messages travel on channels, reliable or not; a
    message too large for a packet is cut into fragments; a client and a server
    add a handshake, keep-alives and timeouts.  This library is a shallow
    embedding of the crate (the files under [src/src]) and of its theorems.

    ** How code becomes definitions

    A method on [&mut self] is a computation in the monad [M S A], a state
    and error monad over the object's state: [None] is a panic (an overflow in
    a debug build, an index out of range, a failed [assert!], [unwrap] or
    [expect]), [Some (s', Ok a)] and [Some (s', Err e)] are the outcomes of a
    [Result].  A call on a field of [self] is [st_zoom], on a local variable
    [st_local] or [st_with]; a [match] on a call's [Result] is [st_try]; a
    closure that is handed packets ([send_fn]) becomes the list of packets it
    is called with.  Integers are [Z] with the wrap-around written out;
    [BuildProfile] says whether overflow panics (debug) or wraps (release).
    [f32] and [f64] are IEEE 754 binary32 and binary64, bit for bit.  Maps from
    channel to data are [gmap]s.

    Third-party crates are parameters: [byteorder] is the class [ByteOrder]
    with the laws [ByteOrderLaws] (instance [big_endian]); [smallmap], whose
    iteration order the code depends on, is [SmallMap] with [SmallMapLaws]
    (instance [elements_order]); random numbers are arguments.  Logging has no
    effect and is left out, as are [Display], [Debug] and plain accessors.

    ** The files

    - [Prelude]: machine integers, the monad with its laws for triples ([wp]),
      runs ([run_step]), computations that cannot panic ([no_panic]) or that
      keep a part of the state ([keeps]), each with a hint database.
    - [Floats]: Rust's [f32] and [f64].
    - [Types]: [error.rs], [config.rs], [lib.rs], [protocol/mod.rs].
    - [SequenceBuffer]: [sequence_buffer.rs], the ring indexed by sequence
      number that remembers sent packets, received packets and messages.  It
      refines a finite map whose keys are within a window ([SeqBufRefines]).
    - [SequenceWindow]: the filter that packets and messages pass, compared
      with an ideal filter over unbounded numbers.
    - [Cursor]: [cursor.rs], std's [Cursor], [Write] and the combinators
      [emits] and [reads] from which the round trips are composed, and
      [parses], which says what a reader accepts.
    - [BufferPool]: [buffer_pool.rs].
    - [AckHeader]: [protocol/ack_header.rs], the ack field of a header.
    - [Message], [Packets]: [protocol/message.rs], [protocol/packets.rs].
    - [Reassembler]: [message_reassembler.rs], [received_message.rs].
    - [Channel]: [channel.rs].  The trait is the class [ChannelT] with laws
      that both channels discharge and that the dispatcher's proofs use.
    - [Dispatcher]: [dispatcher.rs]: message ids, fragmentation, acks.
    - [Endpoint]: [endpoint.rs], the whole endpoint; its proofs are in
      [Compose] (sending), [Acks] (acks) and [Incoming] (receiving).
    - [Client] and [ClientFacts]: [client.rs] and its state machine.
    - [Server] and [Session]: [server.rs], what a packet can change in it, and
      its timeouts.
    - [Control]: what an endpoint does with the packets of the handshake, and
      that its update succeeds; [Calm], an endpoint while it does nothing else.
    - [Handshake]: the rounds of a handshake, from [connect] to a connected
      client, and a late [connect].
    - [Agreement]: a network that loses, repeats, delays and reorders packets
      between a client and a server, with the history of what was sent.
    - [Pieces]: what travels of a history of messages, one piece each or one
      per fragment, and what a channel's filter and the reassembler make of the
      pieces in any order of arrival.
    - [Reports]: what the acks say about a history of messages, and what the
      reliable channel keeps of it until they do.
    - [Lifetime]: what is true of an endpoint at any moment of its life, as a
      sender and as a receiver, and that each operation keeps it.
    - [Link]: two endpoints over a network that loses, repeats, delays and
      reorders packets, as a step relation on both ends and all packets: what
      arrives was sent, once; what is acked has arrived; what is reliable is
      kept until it has, and arrives with the packets of a visit.  The packets
      may be keep-alives, and the two may start after a handshake.
    - [Acts], [ClientEnd], [ServerEnd], [Connection]: a connected client and
      the server it is connected to, which serves others, as the two ends of a
      [Link].  [Acts] says what their users can call and what can arrive;
      [ClientEnd] and [ServerEnd] show that every call does to the
      connection's endpoint what some events of [Link] do, or nothing;
      [Connection] puts both together as a step relation.
    - [BinaryHeap]: std's [BinaryHeap], in Rust's order of operations, with
      the facts the pipe needs.
    - [JitterPipe]: [jitter_pipe.rs], the lossy pipe of the tests.
    - [TestUtils] and [Harness]: [test_utils.rs], the two harnesses that run
      endpoints, or a client and a server, over jitter pipes.

    Calls go downwards: [TestUtils] drives [Client] and [Server], which hand
    control packets and [process_incoming_packet] to [Endpoint], which packs
    and unpacks [Packets] and leaves messages to [Dispatcher], which keeps
    [Channel]s, the [Reassembler] and rings of [SequenceBuffer].

    ** What the theorems show

    The numbers C1, C2, ... are those of the theorems' doc comments.

    Safety and invariants:
    - C1 [Connection.connection_delivers_at_most_once]: while a client is
      connected and the server has not dropped it, whatever the server does
      for its other clients and however the network loses, repeats, delays or
      reorders the session's packets, what the client's user receives are
      messages the server's user sent to it on that channel, whole, each at
      most once, and the other way round. Any other bytes may arrive too,
      except ones that carry the session's salt and are not the two ends' own
      message packets and keep-alives (so packets forged with it, late
      challenge responses and disconnects are excluded). Bounds: payloads the
      code can carry, message ids below 32768, packet ids at most 16000.
    - C4 [Connection.connected_client_never_panics]: in every state of a
      connection each call on the client returns, within the bounds of ids and
      messages: receiving any packet of the session, any bytes from other
      addresses than the server's, and from the server's address any bytes
      that do not carry the session's salt (bytes that do can panic it, see
      bad_fragment_panics).
    - C5 [Link.link_delivers_at_most_once]: two endpoints over a network that
      loses, repeats, delays and reorders packets: each user receives only
      messages the other queued on that channel, whole, under their ids, each
      at most once, as long as message ids stay below 32768 and packet ids do
      not exceed 16000 (after a wrap of the message ids duplicates are
      accepted).
    - C7 [Link.link_keeps_reliable_messages]: in every state two endpoints can
      reach while the sender's message ids are within the first 10000, a
      message queued on the reliable channel has arrived at the other end or
      has a piece that still waits in the sender's channel, with the bytes to
      be sent.
    - C8 [Link.link_acks_are_truthful]: however the network treats the
      packets, while the sender's message ids are within the first 10000, a
      message that an end reports as acked was queued by its user on that
      channel and has arrived whole at the other end.
    - C9 [Link.link_never_panics]: whatever two endpoints do and whatever the
      network does to their packets, no call panics while messages and ids are
      within their bounds.
    - C10 [Agreement.connected_client_was_accepted]: over a network that
      loses, repeats, delays, reorders and misdelivers the server's packets
      and feeds the server arbitrary bytes, a connected client's session was
      accepted by the server.
    - C14 [Compose.visit_packets_sends_bounded_packets]: for an endpoint with
      a session's salt, packets of at least 63 bytes and records of sent
      packets and of their messages at most 16000 ids behind, sending never
      panics or stalls, keeps packets within max_packet_size and the ack
      window, and leaves no message due to be sent unless the window is full;
      reliable messages stay queued until acked.
    - C17 [Session.server_gate]: a client becomes connected only by answering
      its own pending challenge from its own address, and a packet only
      touches the connection of the salt it carries.
    - C18 [ClientFacts.client_follows_state_machine]: from every reachable
      state each call moves the client along the handshake's state machine
      only.
    - C19 [ClientFacts.connected_client_has_salts]: a connected client knows
      both salts, and its session salt, also its endpoint's, is their
      exclusive or.
    - C22 [Channel.reliable_keeps_until_acked]: a reliable channel keeps every
      message until it is acked, whatever operations run.
    - C29 [Packets.read_packet_total]: no bytes from the network make
      read_packet panic.

    What operations do:
    - C3 [Connection.connection_reliable_messages_arrive]: when every waiting
      reliable message is ready to be sent (its resend interval of 0.1 s has
      elapsed) and the server visits its packets, then once the packets for a
      connected client have reached it, in any order and among anything else
      without the session's salt, every reliable message the server's user
      sent to it before has arrived. This needs that afterwards neither end is
      350 packets behind with its acks, that the ids are within the first
      10000, and that the packets arrive before so many more are sent that the
      client finds them too old.
    - C6 [Link.link_reliable_messages_arrive]: when every waiting reliable
      message is ready to be sent (its resend interval of 0.1 s has elapsed)
      and its endpoint visits its packets, then once these have arrived, in
      any order and among any other events, every message queued on the
      reliable channel before has arrived, whatever was lost earlier. This
      needs that afterwards neither end is 350 packets behind with its acks,
      that the ids are within the first 10000, and that the packets arrive
      before so many more are sent that the receiver finds them too old.
    - C11 [Harness.handshake_completes]: over a perfect network (disabled
      pipes) the harness's client and server are connected after three ticks,
      with the same session salt on both sides, when the first tick is longer
      than the resend interval of 0.1 s (compared strictly, so 0.1 s itself is
      not enough), the third lasts at least 16 ms, and neither the first two
      together nor the second or the third exceeds the timeout of 5 s.
    - C12 [Incoming.packet_delivered_exactly_once]: from a fresh packet of
      unfragmented messages, the messages that the channels' filters do not
      know yet, and no others, are appended to the inboxes of their channels,
      in order (all of them, when their ids are new, different and near each
      other); the same packet again is refused and changes the statistics
      only.
    - C15 [Acks.ack_takes_effect_once]: the first ack of a packet marks it and
      reports, in order, its whole messages and, with a fragment that is the
      last one a large message still waited for, that large message; later
      acks of the packet, or of unknown packets, change nothing.
    - C16 [Acks.acked_packet_reports_its_messages]: for an endpoint that may
      send, whose ack window is not full and in whose channels no fragment
      shares its id with a whole message: one packed packet is remembered with
      handles that name exactly its messages, and the first ack of it reports
      exactly, each in its channel's inbox and in order, the ids of its whole
      messages and, with a fragment that is the last one a large message still
      waited for, that large message's id.
    - C21 [Acks.packet_acks_always_processed]: under the endpoint's invariant,
      processing the acks of a well-formed header, the loss estimate included,
      always succeeds and marks exactly the acked packets.
    - C24 [Dispatcher.parent_acked_exactly_once]: the parent of fragments is
      reported acked exactly once, when the last of its fragments is acked.
    - C30 [Session.single_timeout_disconnects]: when, at the new time, at most
      one connected client has been silent for too long and at most one
      pending client has waited too long, the others and the pending ones
      being endpoints in order (their invariant, salts of 64 bits, indexes of
      32), update returns, disconnects exactly that client with the event,
      drops exactly that pending client, and keeps all others with their salts
      and addresses.
    - C39 [JitterPipe.pipe_conserves_packets]: a pipe never panics, and only
      loses, repeats (once) and reorders packets.

    Round trips:
    - C13 [Incoming.sent_packets_are_delivered]: when the messages queued at a
      sender are unfragmented, every packet visit_packets_to_send hands out is
      parsed by every receiver it is fresh to, and exactly those of its
      messages that the receiver's filters do not know yet are appended to its
      inboxes.
    - C20 [Dispatcher.large_message_delivered]: a message of more than 1024
      bytes and up to 1 MB (below 64 kB with overflow checks), of fewer than
      256 fragments or with a tail of more than 255 bytes, whose id is not too
      far from the last large message's for the sender's record, is
      reassembled by the peer, in whatever order its fragments arrive, each
      once, into exactly one message with the payload sent.
    - C26 [AckHeader.acks_reach_the_peer]: the acks taken from the received
      packets, for any count the code sends (1 to 350), encoded and parsed by
      the peer, are the same acks.
    - C27 [Message.message_roundtrip]: a message of at most 1024 bytes built
      by new_outbound and parsed by the peer keeps id, payload and fragment,
      and its channel (below 64) modulo 32. A fragment of at most 255 bytes,
      whose header stores the count in one byte, must belong to a message of
      fewer than 256 fragments.
    - C28 [Packets.packet_roundtrip]: every packet type but Messages is parsed
      back as it was written, or is refused when it does not fit.

    Specifications and equivalences:
    - C2 [Connection.connection_refines_link]: a client and its entry in a
      server that serves others too do, as long as both consider themselves
      connected, what two bare endpoints do when nothing but each other's
      packets arrives. Any bytes that do not carry the session's salt may
      arrive as well; message and packet ids are within the same bounds as for
      two endpoints (below 32768 and at most 16000).
    - C23 [Reassembler.reassembly_refines_ideal]: fed copies of the fragments
      of any number of messages (2 to 1024 fragments each), in any order and
      any of them as often as it likes, the reassembler never panics and
      refines an ideal one: an arrival gives a message exactly when it is the
      last missing fragment of its message since that was last complete, and
      then with the payloads in order of their indices.
    - C25 [SequenceWindow.filter_refines_ideal]: for a buffer whose size
      divides 65536 and is below 16384, as the packet buffers' 512 (not the
      channels' 10000), and arrivals within 16384 of the newest number, the
      duplicate filter made of the sequence buffer accepts exactly what an
      ideal filter that remembers all numbers accepts, across any number of
      wraps.
    - C31 [Packets.read_packet_accepts_format]: on any bytes read_packet
      returns a packet with a given rest exactly when the bytes are that
      packet's header with its ack field, then its fields at their widths and
      in wire order, then the rest, which for the padded handshake packets
      must have room for the padding; all other bytes are refused.
    - C38 [JitterPipe.disabled_pipe_is_a_queue]: a disabled pipe returns
      exactly what a first-in first-out queue returns, for its first 2^24 - 1
      packets.
    - C40 [Harness.tick_is_an_exchange]: a tick of the protocol harness over
      disabled pipes does exactly what handing the packets over in order does.

    Bounds and errors:
    - C32 [Session.simultaneous_timeouts_panic]: when all of two or more
      connected clients time out at once, process_connected_clients, which the
      server's update always calls, panics.
    - C33 [Compose.quiet_connection_panics]: once the next packet id is too
      old for the record of the packets' messages (after more than half the
      packet ids went to packets without messages), the next visit with a
      message to send panics.
    - C34 [Incoming.unused_channel_discards]: a channel that has not received
      anything discards every message with an id from 22768 to 55536.
    - C35 [Dispatcher.late_large_message_refused]: with the default
      configuration a first large message sent when the ids are from 7768 to
      40535 is refused, although its fragments were queued.
    - C36 [Channel.duplicate_after_wrap]: when message ids wrap, message 0
      takes the slot of message 60000 in the 10000-slot filter, and a late
      copy of 60000 is accepted again.
    - C37 [Dispatcher.large_message_panics]: with overflow checks, sending
      65536 bytes or more, up to the configured maximum of 1 MB, panics.

    ** Bounds and fuel

    Every loop that is not structural runs on fuel, and running out of fuel is
    a panic, so that the theorems that exclude panics show the fuel to be
    enough.  [compose_loop] has 351 rounds: each sends a packet, and after 350
    unacked packets the ack window is full.  [write_channel_messages] has one
    more than the queue's length, [fill_packet] one more than the messages of
    all channels, [read_messages] one per remaining byte, [sample_loss] one
    more than the ring's length; the iteration over an ack field is bounded by
    the 350 bits it can hold.  [take_all], which empties
    a pipe, has one more than the packets in its heap, and the loops that sift
    the heap at most one more than the heap's length.

    [Link] runs two endpoints while the ids of messages stay below 32768 and
    those of packets below 16000, where ids compare as numbers do, and with
    messages as large as the sender can cut up and the tail's header can say
    ([good_sent]).  What an ack means, and that reliable messages arrive, is
    shown while all ids are within the first 10000 ([short]): beyond one window
    a channel's filter may discard what has not arrived, and the packet is acked
    all the same.

    A [Connection] runs within the same bounds: ids of packets up to 15500 when
    packets are visited (a visit sends at most 351 and a keep-alive) and below
    16000 when time passes.  It begins after any handshake that left both
    endpoints in the states [joined] describes, as the three ticks of
    [handshake_connected] do; in the history of packets, keep-alives stand in
    for the handshake's.  It ends when the client is no longer [Connected] or
    the server no longer has it, after a timeout or because one side's user
    breaks it off.  What arrives that is not one
    of the session's packets may be anything that does not carry the session's
    salt: no authentication protects a connection from who knows it.  A late
    [ConnectionChallengeResponse] and a [Disconnect] carry it too, and are not
    among what may arrive.  Messages from the client are sent with [send_message] of its
    endpoint, as [client.rs] has no method for it.  That the server's calls
    return is not claimed: they may panic over other clients, as
    [simultaneous_timeouts_panic] shows.

    What happens beyond these bounds is what
    [duplicate_after_wrap], [unused_channel_discards], [quiet_connection_panics],
    [large_message_panics], [fragment_of_256_panics] and
    [late_large_message_refused] show.

    ** What is not modelled

    The accessors that return a reference or a copy of a field,
    [Display] and [Debug], log messages, the [PartialEq] of the pipe's sort
    wrapper (the heap compares with [Ord] only), [init_logger] and the crate's
    own tests.
    [collect_packets_to_send_inefficiently] is the list of packets that
    [visit_packets_to_send] returns here.  Time is an argument: nothing reads
    a clock.

    ** What the proofs found

    Theorems whose names end in [_panic] or [_panics], and
    [unused_channel_discards], [goodbye_is_never_sent],
    [duplicate_after_wrap], [late_large_message_refused], [late_connect_times_out], [small_buffer_comes_back]
    and [old_pipe_reorders], state behaviour of the code that its comments do
    not intend; the doc comment of each says what happens. *)

From stdpp Require Export prelude list gmap.
From Stdlib Require Export ZArith Lia.

#[global] Open Scope Z_scope.
#[global] Arguments Z.testbit : simpl never.
#[global] Arguments Z.lor : simpl never.
#[global] Arguments Z.land : simpl never.

(** ** Machine integers

    A [u8], [u16], [u32] or [u64] is a [Z] in the range of its width; the
    ranges are notations, so that [lia] sees through them. *)

Abbreviation u8 z := (0 <= z < 256)%Z.
Abbreviation u16 z := (0 <= z < 65536)%Z.
Abbreviation u32 z := (0 <= z < 4294967296)%Z.
Abbreviation u64 z := (0 <= z < 18446744073709551616)%Z.

(** Wrap-around at each width: the value an [as u8] cast, a [wrapping_add]
    or a [wrapping_sub] leaves. *)
Definition wrap8 (z : Z) : Z := z mod 256.
Definition wrap16 (z : Z) : Z := z mod 65536.
Definition wrap32 (z : Z) : Z := z mod 4294967296.
Definition wrap64 (z : Z) : Z := z mod 18446744073709551616.

Lemma wrap8_range z : u8 (wrap8 z).
Proof. apply Z.mod_pos_bound; lia. Qed.

Lemma wrap16_range z : u16 (wrap16 z).
Proof. apply Z.mod_pos_bound; lia. Qed.

Lemma wrap8_small z : u8 z -> wrap8 z = z.
Proof. apply Z.mod_small. Qed.

Lemma wrap16_small z : u16 z -> wrap16 z = z.
Proof. apply Z.mod_small. Qed.

(** [wrap16] as the value [lia] can use: the quotient is existential. *)
Lemma wrap16_spec z : exists q, wrap16 z = z - 65536 * q /\ u16 (wrap16 z).
Proof.
  exists (z / 65536). split; [|apply wrap16_range].
  unfold wrap16. rewrite Z.mod_eq; lia.
Qed.

Lemma wrap16_sub_add z k : wrap16 (wrap16 (z - k) + k) = wrap16 z.
Proof.
  unfold wrap16. rewrite Zplus_mod_idemp_l. f_equal. lia.
Qed.

Lemma wrap16_idemp z : wrap16 (wrap16 z) = wrap16 z.
Proof. apply wrap16_small, wrap16_range. Qed.

(** [u16_solve] replaces every [wrap16] by its quotient form and calls [lia]. *)
Ltac u16_destruct :=
  repeat match goal with
  | |- context [wrap16 ?z] =>
      let q := fresh "q" in let w := fresh "w" in
      destruct (wrap16_spec z) as (q & ? & ?); set (wrap16 z) as w in *; clearbody w
  | H : context [wrap16 ?z] |- _ =>
      let q := fresh "q" in let w := fresh "w" in
      destruct (wrap16_spec z) as (q & ? & ?); set (wrap16 z) as w in *; clearbody w
  end.
Ltac u16_solve := u16_destruct; lia.

(** ** Build profile

    Rust's [+], [-] and [*] on fixed-width integers panic on overflow when
    overflow checks are on (a debug build) and wrap when they are off (a
    release build).  [overflow_checks] is the build's setting. *)
Class BuildProfile := overflow_checks : bool.

Definition debug_build : BuildProfile := true.
Definition release_build : BuildProfile := false.

(** The value of an arithmetic operation on [u16] whose exact result is [z]:
    [None] is the overflow panic. *)
Definition arith16 `{BuildProfile} (z : Z) : option Z :=
  if (0 <=? z) && (z <? 65536) then Some z
  else if overflow_checks then None else Some (wrap16 z).

(** The same on [u32]. *)
Definition arith32 `{BuildProfile} (z : Z) : option Z :=
  if (0 <=? z) && (z <? 4294967296) then Some z
  else if overflow_checks then None else Some (wrap32 z).

Lemma arith32_in_range `{BuildProfile} z : u32 z -> arith32 z = Some z.
Proof.
  intros [??]. unfold arith32.
  rewrite (proj2 (Z.leb_le _ _)), (proj2 (Z.ltb_lt _ _)) by lia. done.
Qed.

Lemma arith16_in_range `{BuildProfile} z : u16 z -> arith16 z = Some z.
Proof.
  intros [??]. unfold arith16.
  rewrite (proj2 (Z.leb_le _ _)), (proj2 (Z.ltb_lt _ _)) by lia. done.
Qed.

Lemma arith16_wrapping `{BP : BuildProfile} z : overflow_checks = false -> arith16 z = Some (wrap16 z).
Proof.
  intros Hrel. unfold arith16. rewrite Hrel.
  destruct (_ && _) eqn:E; [|done].
  apply andb_true_iff in E as [?%Z.leb_le ?%Z.ltb_lt].
  by rewrite wrap16_small.
Qed.

Lemma arith16_overflow `{BP : BuildProfile} z : overflow_checks = true -> ~ u16 z -> arith16 z = None.
Proof.
  intros Hdbg Hz. unfold arith16. rewrite Hdbg.
  destruct (_ && _) eqn:E; [|done].
  apply andb_true_iff in E as [?%Z.leb_le ?%Z.ltb_lt]. lia.
Qed.

(** ** Results, panics and state

    [result A E] is Rust's [Result].  A method on [&mut self] is a value of
    [ST E S A]: it takes the state and returns the new state with the
    outcome, also when the outcome is an error (Rust does not roll back), or
    [None] when it panics. *)
Inductive result (A E : Type) : Type :=
| Ok (a : A)
| Err (e : E).
Arguments Ok {A E} _.
Arguments Err {A E} _.

#[export] Instance result_eq_dec `{EqDecision A, EqDecision E} : EqDecision (result A E).
Proof. solve_decision. Defined.

Definition ST (E S A : Type) : Type := S -> option (S * result A E).

Section st_ops.
Context {E S : Type}.

#[export] Instance ST_ret : MRet (ST E S) := fun A a s => Some (s, Ok a).

(** [m ≫= k] is [let x = m?; k]: an error of [m] ends the function, with
    the state [m] left. *)
#[export] Instance ST_bind : MBind (ST E S) := fun A B k m s =>
  match m s with
  | Some (s', Ok a) => k a s'
  | Some (s', Err e) => Some (s', Err e)
  | None => None
  end.

Definition st_get : ST E S S := fun s => Some (s, Ok s).
Definition st_put (s : S) : ST E S unit := fun _ => Some (s, Ok tt).
Definition st_modify (f : S -> S) : ST E S unit := fun s => Some (f s, Ok tt).
Definition st_throw {A} (e : E) : ST E S A := fun s => Some (s, Err e).
Definition st_panic {A} : ST E S A := fun _ => None.

(** A computation that reads the state and may panic. *)
Definition st_asks {A} (f : S -> option A) : ST E S A := fun s =>
  match f s with Some a => Some (s, Ok a) | None => None end.

(** An update of the state that may panic (an index out of range). *)
Definition st_update (f : S -> option S) : ST E S unit := fun s =>
  match f s with Some s' => Some (s', Ok tt) | None => None end.

(** An option whose [None] is a panic ([unwrap], [expect], arithmetic). *)
Definition st_lift {A} (o : option A) : ST E S A := st_asks (fun _ => o).

(** [assert!]. *)
Definition st_assert (b : bool) : ST E S unit := if b then mret tt else st_panic.

(** A [Result] computed without the state, with [?]. *)
Definition st_result {A} (r : result A E) : ST E S A := fun s => Some (s, r).

(** The call's [Result] as a value: [match m { Ok(_) => .., Err(_) => .. }]. *)
Definition st_try {A} (m : ST E S A) : ST E S (result A E) := fun s =>
  match m s with
  | Some (s', r) => Some (s', Ok r)
  | None => None
  end.

(** [m.unwrap()] on a [Result]: an error panics. *)
Definition st_unwrap {A} (m : ST E S A) : ST E S A := fun s =>
  match m s with
  | Some (s', Ok a) => Some (s', Ok a)
  | _ => None
  end.

(** A call on a local variable [w] of the function, with [?]. *)
Definition st_local {W A} (w : W) (m : ST E W A) : ST E S (W * A) := fun s =>
  match m w with
  | Some (w', Ok a) => Some (s, Ok (w', a))
  | Some (_, Err e) => Some (s, Err e)
  | None => None
  end.

(** A [for x in l] loop whose body may return early with an error. *)
Fixpoint st_for {X} (l : list X) (body : X -> ST E S unit) : ST E S unit :=
  match l with
  | [] => mret tt
  | x :: l' => body x ≫= fun _ => st_for l' body
  end.
End st_ops.

(** A call on a field of the state: [get] reads the field, [set] stores it
    back, whatever the call's outcome. *)
Definition st_zoom {E S T A} (get : S -> T) (set : T -> S -> S) (m : ST E T A) : ST E S A :=
  fun s =>
    match m (get s) with
    | Some (t', r) => Some (set t' s, r)
    | None => None
    end.

(** A function body with a local variable [w] that is lent along with the
    state; the state is kept whatever the outcome. *)
Definition st_with {E S W A} (w : W) (m : ST E (S * W) A) : ST E S (W * A) := fun s =>
  match m (s, w) with
  | Some ((s', w'), Ok a) => Some (s', Ok (w', a))
  | Some ((s', _), Err e) => Some (s', Err e)
  | None => None
  end.

(** Calls on one of two borrowed objects. *)
Definition st_fst {E S T A} (m : ST E S A) : ST E (S * T) A := st_zoom fst (fun s p => (s, p.2)) m.
Definition st_snd {E S T A} (m : ST E T A) : ST E (S * T) A := st_zoom snd (fun t p => (p.1, t)) m.

(** ** Total-correctness triples

    [wp m Q s]: run from [s], [m] does not panic, and its final state and
    outcome satisfy [Q]. *)
Definition wp {E S A} (m : ST E S A) (Q : S -> result A E -> Prop) (s : S) : Prop :=
  match m s with
  | Some (s', r) => Q s' r
  | None => False
  end.

Section wp_rules.
Context {E S : Type}.

Lemma wp_mono {A} (m : ST E S A) (P Q : S -> result A E -> Prop) s :
  wp m P s -> (forall s' r, P s' r -> Q s' r) -> wp m Q s.
Proof. unfold wp. destruct (m s) as [[s' r]|]; eauto. Qed.

Lemma wp_ret {A} (a : A) (Q : S -> result A E -> Prop) s :
  Q s (Ok a) -> wp (mret a) Q s.
Proof. done. Qed.

Lemma wp_bind {A B} (m : ST E S A) (k : A -> ST E S B) Q s :
  wp m (fun s' r => match r with Ok a => wp (k a) Q s' | Err e => Q s' (Err e) end) s ->
  wp (m ≫= k) Q s.
Proof.
  unfold wp, mbind, ST_bind.
  destruct (m s) as [[s' [a|e]]|]; eauto.
Qed.

Lemma wp_get (Q : S -> result S E -> Prop) s : Q s (Ok s) -> wp st_get Q s.
Proof. done. Qed.

Lemma wp_put (s' : S) (Q : S -> result unit E -> Prop) s : Q s' (Ok tt) -> wp (st_put s') Q s.
Proof. done. Qed.

Lemma wp_modify (f : S -> S) (Q : S -> result unit E -> Prop) s :
  Q (f s) (Ok tt) -> wp (st_modify f) Q s.
Proof. done. Qed.

Lemma wp_throw {A} (e : E) (Q : S -> result A E -> Prop) s :
  Q s (Err e) -> wp (st_throw e) Q s.
Proof. done. Qed.

Lemma wp_asks {A} (f : S -> option A) (Q : S -> result A E -> Prop) s a :
  f s = Some a -> Q s (Ok a) -> wp (st_asks f) Q s.
Proof. unfold wp, st_asks. by intros ->. Qed.

Lemma wp_update (f : S -> option S) (Q : S -> result unit E -> Prop) s s' :
  f s = Some s' -> Q s' (Ok tt) -> wp (st_update f) Q s.
Proof. unfold wp, st_update. by intros ->. Qed.

Lemma wp_lift {A} (o : option A) (Q : S -> result A E -> Prop) s a :
  o = Some a -> Q s (Ok a) -> wp (st_lift o) Q s.
Proof. intros ->. done. Qed.

Lemma wp_assert (b : bool) (Q : S -> result unit E -> Prop) s :
  b = true -> Q s (Ok tt) -> wp (st_assert b) Q s.
Proof. intros ->. done. Qed.

Lemma wp_try {A} (m : ST E S A) Q s :
  wp m (fun s' r => Q s' (Ok r)) s -> wp (st_try m) Q s.
Proof. unfold wp, st_try. destruct (m s) as [[s' r]|]; eauto. Qed.

Lemma wp_unwrap {A} (m : ST E S A) Q s :
  wp m (fun s' r => match r with Ok a => Q s' (Ok a) | Err _ => False end) s ->
  wp (st_unwrap m) Q s.
Proof. unfold wp, st_unwrap. by destruct (m s) as [[s' [a|e]]|]. Qed.

Lemma wp_zoom {T A} (get : S -> T) (set : T -> S -> S) (m : ST E T A) Q s :
  wp m (fun t' r => Q (set t' s) r) (get s) -> wp (st_zoom get set m) Q s.
Proof. unfold wp, st_zoom. by destruct (m (get s)) as [[t' r]|]. Qed.

(** The rule of [for] loops: an invariant over the part already visited. *)
Lemma wp_for {X} (I : list X -> S -> Prop) (body : X -> ST E S unit) l Q s :
  I [] s ->
  (forall done x todo s', l = done ++ x :: todo -> I done s' ->
     wp (body x) (fun s'' r => match r with
                   | Ok _ => I (done ++ [x]) s''
                   | Err e => Q s'' (Err e) end) s') ->
  (forall s', I l s' -> Q s' (Ok tt)) ->
  wp (st_for l body) Q s.
Proof.
  intros H0 Hstep Hend.
  assert (Hgen : forall todo done s0, l = done ++ todo -> I done s0 ->
            wp (st_for todo body) Q s0).
  { induction todo as [|x todo IH]; intros done s0 Hl HI; simpl.
    - apply wp_ret, Hend. rewrite Hl, app_nil_r. done.
    - apply wp_bind. eapply wp_mono; [by eapply Hstep|].
      intros s'' [[]|e]; [|done].
      intros HI'. eapply IH; [|done]. rewrite Hl, <- app_assoc. done. }
  by apply (Hgen l [] s).
Qed.

(** Equations of runs, for the components whose functional behaviour is
    stated as an equation. *)
Lemma run_bind_ok {A B} (m : ST E S A) (k : A -> ST E S B) s s' a :
  m s = Some (s', Ok a) -> (m ≫= k) s = k a s'.
Proof. unfold mbind, ST_bind. by intros ->. Qed.

Lemma run_bind_err {A B} (m : ST E S A) (k : A -> ST E S B) s s' e :
  m s = Some (s', Err e) -> (m ≫= k) s = Some (s', Err e).
Proof. unfold mbind, ST_bind. by intros ->. Qed.

Lemma run_bind_panic {A B} (m : ST E S A) (k : A -> ST E S B) s :
  m s = None -> (m ≫= k) s = None.
Proof. unfold mbind, ST_bind. by intros ->. Qed.

Lemma run_get {B} (k : S -> ST E S B) s : (st_get ≫= k) s = k s s.
Proof. done. Qed.

Lemma run_assoc {A B C} (m : ST E S A) (k : A -> ST E S B) (h : B -> ST E S C) s :
  ((m ≫= k) ≫= h) s = (m ≫= fun a => k a ≫= h) s.
Proof. unfold mbind, ST_bind. by destruct (m s) as [[? [?|?]]|]. Qed.

(** Three statements and what follows them. *)
Lemma run_seq3 {A B} (a b : ST E S unit) (c : ST E S A) (k : A -> ST E S B) s s' u :
  (a;; b;; c) s = Some (s', Ok u) -> (a;; b;; (c ≫= k)) s = k u s'.
Proof.
  unfold mbind, ST_bind. destruct (a s) as [[s1 [[]|e]]|]; [|done..].
  destruct (b s1) as [[s2 [[]|e]]|]; [|done..]. by intros ->.
Qed.

(** What a triple says of the run itself. *)
Lemma wp_run {A} (m : ST E S A) (Q : S -> result A E -> Prop) s s' r :
  wp m Q s -> m s = Some (s', r) -> Q s' r.
Proof. unfold wp. intros H Hm. by rewrite Hm in H. Qed.

Lemma wp_returns {A} (m : ST E S A) Q s :
  wp m Q s -> exists s' r, m s = Some (s', r) /\ Q s' r.
Proof. unfold wp. destruct (m s) as [[s' r]|]; naive_solver. Qed.
End wp_rules.

(** ** Computations that never panic, whatever state they start from *)
Definition no_panic {E S A} (m : ST E S A) : Prop := forall s, exists s' r, m s = Some (s', r).

Section no_panic_rules.
Context {E S : Type}.

Lemma no_panic_ret {A} (a : A) : no_panic (mret a : ST E S A).
Proof. intros s. by do 2 eexists. Qed.

Lemma no_panic_throw {A} (e : E) : no_panic (st_throw e : ST E S A).
Proof. intros s. by do 2 eexists. Qed.

Lemma no_panic_result {A} (r : result A E) : no_panic (st_result r : ST E S A).
Proof. intros s. by do 2 eexists. Qed.

Lemma no_panic_get : no_panic (st_get : ST E S S).
Proof. intros s. by do 2 eexists. Qed.

Lemma no_panic_put s : no_panic (st_put s : ST E S unit).
Proof. intros s'. by do 2 eexists. Qed.

Lemma no_panic_modify f : no_panic (st_modify f : ST E S unit).
Proof. intros s'. by do 2 eexists. Qed.

Lemma no_panic_bind {A B} (m : ST E S A) (k : A -> ST E S B) :
  no_panic m -> (forall a, no_panic (k a)) -> no_panic (m ≫= k).
Proof.
  intros Hm Hk s. destruct (Hm s) as (s' & [a|e] & Hr); unfold mbind, ST_bind; rewrite Hr.
  - apply Hk.
  - by do 2 eexists.
Qed.

Lemma no_panic_local {T A} (w : T) (m : ST E T A) : no_panic m -> no_panic (st_local w m : ST E S (T * A)).
Proof.
  intros Hm s. unfold st_local. destruct (Hm w) as (w' & [a|e] & ->); by do 2 eexists.
Qed.

Lemma no_panic_zoom {T A} (get : S -> T) (set : T -> S -> S) (m : ST E T A) :
  no_panic m -> no_panic (st_zoom get set m).
Proof. intros Hm s. unfold st_zoom. destruct (Hm (get s)) as (t & r & ->). by do 2 eexists. Qed.
End no_panic_rules.

Create HintDb no_panic discriminated.
#[export] Hint Resolve no_panic_ret no_panic_throw no_panic_result no_panic_get no_panic_put
  no_panic_modify no_panic_local no_panic_zoom : no_panic.

(** Binds and case distinctions of a panic-free computation. *)
Ltac no_panic_tac :=
  repeat first
    [ solve [auto with no_panic]
    | apply no_panic_bind; [|intros ?]
    | match goal with |- no_panic (match ?x with _ => _ end) => destruct x end ].

(** ** Computations that leave a view of the state alone *)
Definition keeps {E S A X} (f : S -> X) (m : ST E S A) : Prop := forall s s' r, m s = Some (s', r) -> f s' = f s.

Section keeps_rules.
Context {E S X : Type} (f : S -> X).

Lemma keeps_ret {A} (a : A) : keeps f (mret a : ST E S A).
Proof. by intros s s' r [= <- _]. Qed.

Lemma keeps_throw {A} (e : E) : keeps f (st_throw e : ST E S A).
Proof. by intros s s' r [= <- _]. Qed.

Lemma keeps_panic {A} : keeps f (st_panic : ST E S A).
Proof. by intros s s' r. Qed.

Lemma keeps_result {A} (x : result A E) : keeps f (st_result x : ST E S A).
Proof. by intros s s' r [= <- _]. Qed.

Lemma keeps_get : keeps f (st_get : ST E S S).
Proof. by intros s s' r [= <- _]. Qed.

Lemma keeps_asks {A} (g : S -> option A) : keeps f (st_asks g : ST E S A).
Proof. intros s s' r. unfold st_asks. destruct (g s); [|done]. by intros [= <- _]. Qed.

Lemma keeps_lift {A} (o : option A) : keeps f (st_lift o : ST E S A).
Proof. apply keeps_asks. Qed.

Lemma keeps_modify g : (forall s, f (g s) = f s) -> keeps f (st_modify g : ST E S unit).
Proof. intros Hg s s' r [= <- _]. apply Hg. Qed.

Lemma keeps_bind {A B} (m : ST E S A) (k : A -> ST E S B) :
  keeps f m -> (forall a, keeps f (k a)) -> keeps f (m ≫= k).
Proof.
  intros Hm Hk s s' r. unfold mbind, ST_bind. destruct (m s) as [[s1 [a|e]]|] eqn:Hs; [| |done].
  - intros H. rewrite (Hk a _ _ _ H). by eapply Hm.
  - intros [= <- _]. by eapply Hm.
Qed.

Lemma keeps_try {A} (m : ST E S A) : keeps f m -> keeps f (st_try m).
Proof.
  intros Hm s s' r. unfold st_try. destruct (m s) as [[s1 x]|] eqn:Hs; [|done]. intros [= <- _]. by eapply Hm.
Qed.

Lemma keeps_zoom {T A} (get : S -> T) (set : T -> S -> S) (m : ST E T A) :
  (forall t s, f (set t s) = f s) -> keeps f (st_zoom get set m).
Proof. intros Hs s s' r. unfold st_zoom. destruct (m (get s)) as [[t x]|]; [|done]. by intros [= <- _]. Qed.

Lemma keeps_local {W A} (w : W) (m : ST E W A) : keeps f (st_local w m : ST E S (W * A)).
Proof. intros s s' r. unfold st_local. destruct (m w) as [[w' [a|e]]|]; [| |done]; by intros [= <- _]. Qed.

Lemma keeps_for {Y} (l : list Y) (body : Y -> ST E S unit) : (forall y, keeps f (body y)) -> keeps f (st_for l body).
Proof. intros Hb. induction l as [|y l IH]; [apply keeps_ret|]. by apply keeps_bind. Qed.
End keeps_rules.

Create HintDb keeps discriminated.
#[export] Hint Resolve keeps_ret keeps_throw keeps_panic keeps_result keeps_get keeps_asks keeps_lift keeps_local
  keeps_try keeps_for : keeps.

(** Binds and case distinctions of a computation; a modification or a call on
    a field must not show in the view. *)
Ltac keeps_tac :=
  repeat first
    [ solve [auto with keeps]
    | apply keeps_bind; [|intros ?]
    | apply keeps_try
    | apply keeps_for; intros ?
    | apply keeps_modify; reflexivity
    | apply keeps_zoom; reflexivity
    | match goal with |- keeps _ (match ?x with _ => _ end) => destruct x end ].

(** What a run of a bind is made of. *)
Lemma run_bind_inv {E S A B} (m : ST E S A) (k : A -> ST E S B) s s' r : (m ≫= k) s = Some (s', r) ->
  (exists s1 a, m s = Some (s1, Ok a) /\ k a s1 = Some (s', r)) \/ (exists e, m s = Some (s', Err e) /\ r = Err e).
Proof.
  unfold mbind, ST_bind. destruct (m s) as [[s1 [a|e]]|]; [| |done].
  - intros H. left. eauto.
  - intros [= <- <-]. right. eauto.
Qed.

(** ** Computations whose result is never an error *)
Definition infallible {E S A} (m : ST E S A) : Prop := forall s s' r, m s = Some (s', r) -> exists a, r = Ok a.

Section infallible_rules.
Context {E S : Type}.

Lemma infallible_ret {A} (a : A) : infallible (mret a : ST E S A).
Proof. intros s s' r [= _ <-]. by eexists. Qed.

Lemma infallible_get : infallible (st_get : ST E S S).
Proof. intros s s' r [= _ <-]. by eexists. Qed.

Lemma infallible_modify g : infallible (st_modify g : ST E S unit).
Proof. intros s s' r [= _ <-]. by eexists. Qed.

Lemma infallible_panic {A} : infallible (st_panic : ST E S A).
Proof. by intros s s' r. Qed.

Lemma infallible_try {A} (m : ST E S A) : infallible (st_try m).
Proof. intros s s' r. unfold st_try. destruct (m s) as [[s1 x]|]; [|done]. intros [= _ <-]. by eexists. Qed.

Lemma infallible_bind {A B} (m : ST E S A) (k : A -> ST E S B) : infallible m -> (forall a, infallible (k a)) -> infallible (m ≫= k).
Proof.
  intros Hm Hk s s' r [(s1 & a & _ & H)|(e & H & _)]%run_bind_inv; [by eapply Hk|]. by destruct (Hm _ _ _ H).
Qed.

Lemma infallible_zoom {T A} (get : S -> T) (set : T -> S -> S) (m : ST E T A) : infallible m -> infallible (st_zoom get set m).
Proof.
  intros Hm s s' r. unfold st_zoom. destruct (m (get s)) as [[t x]|] eqn:Hrun; [|done]. intros [= _ <-]. by eapply Hm.
Qed.

Lemma infallible_for {Y} (l : list Y) (body : Y -> ST E S unit) : (forall y, infallible (body y)) -> infallible (st_for l body).
Proof. intros Hb. induction l as [|y l IH]; [apply infallible_ret|]. by apply infallible_bind. Qed.
End infallible_rules.

Create HintDb infallible discriminated.
#[export] Hint Resolve infallible_ret infallible_get infallible_modify infallible_panic infallible_try : infallible.

Ltac infallible_tac :=
  repeat first
    [ solve [auto with infallible]
    | apply infallible_bind; [|intros ?]
    | apply infallible_zoom
    | apply infallible_for; intros ?
    | match goal with |- infallible (match ?x with _ => _ end) => destruct x end ].

(** ** Computations that preserve an invariant, whenever they return *)
Definition preserves {E S A} (P : S -> Prop) (m : ST E S A) : Prop := forall s s' r, P s -> m s = Some (s', r) -> P s'.

Section preserves_rules.
Context {E S : Type} (P : S -> Prop).

Lemma preserves_keeps {A X} (f : S -> X) (m : ST E S A) : (forall s s', f s' = f s -> P s -> P s') -> keeps f m -> preserves P m.
Proof. intros HP Hm s s' r Hs Hrun. eapply HP; [by eapply Hm|done]. Qed.

Lemma preserves_ret {A} (a : A) : preserves P (mret a : ST E S A).
Proof. by intros s s' r Hs [= <- _]. Qed.

Lemma preserves_throw {A} (e : E) : preserves P (st_throw e : ST E S A).
Proof. by intros s s' r Hs [= <- _]. Qed.

Lemma preserves_panic {A} : preserves P (st_panic : ST E S A).
Proof. by intros s s' r. Qed.

Lemma preserves_result {A} (x : result A E) : preserves P (st_result x : ST E S A).
Proof. by intros s s' r Hs [= <- _]. Qed.

Lemma preserves_get : preserves P (st_get : ST E S S).
Proof. by intros s s' r Hs [= <- _]. Qed.

Lemma preserves_lift {A} (o : option A) : preserves P (st_lift o : ST E S A).
Proof. intros s s' r Hs. unfold st_lift, st_asks. destruct o; [|done]. by intros [= <- _]. Qed.

Lemma preserves_local {W A} (w : W) (m : ST E W A) : preserves P (st_local w m : ST E S (W * A)).
Proof. intros s s' r Hs. unfold st_local. destruct (m w) as [[w' [a|e]]|]; [| |done]; by intros [= <- _]. Qed.

Lemma preserves_modify g : (forall s, P s -> P (g s)) -> preserves P (st_modify g : ST E S unit).
Proof. intros Hg s s' r Hs [= <- _]. by apply Hg. Qed.

Lemma preserves_bind {A B} (m : ST E S A) (k : A -> ST E S B) :
  preserves P m -> (forall a, preserves P (k a)) -> preserves P (m ≫= k).
Proof.
  intros Hm Hk s s' r Hs [(s1 & a & H1 & H2)|(e & H & _)]%run_bind_inv; [|by eapply Hm].
  eapply Hk; [|done]. by eapply Hm.
Qed.

(** The state read is one the invariant holds of. *)
Lemma preserves_bind_get {B} (k : S -> ST E S B) : (forall s, P s -> preserves P (k s)) -> preserves P (st_get ≫= k).
Proof. intros Hk s s' r Hs. rewrite run_get. by apply Hk. Qed.

Lemma preserves_try {A} (m : ST E S A) : preserves P m -> preserves P (st_try m).
Proof.
  intros Hm s s' r Hs. unfold st_try. destruct (m s) as [[s1 x]|] eqn:Hrun; [|done]. intros [= <- _]. by eapply Hm.
Qed.

Lemma preserves_zoom {T A} (R : T -> Prop) (get : S -> T) (set : T -> S -> S) (m : ST E T A) :
  preserves R m -> (forall s, P s -> R (get s)) -> (forall t s, P s -> R t -> P (set t s)) -> preserves P (st_zoom get set m).
Proof.
  intros Hm Hget Hset s s' r Hs. unfold st_zoom. destruct (m (get s)) as [[t x]|] eqn:Hrun; [|done].
  intros [= <- _]. apply Hset; [done|]. eapply Hm; [by apply Hget|done].
Qed.

Lemma preserves_for {Y} (l : list Y) (body : Y -> ST E S unit) :
  (forall y, preserves P (body y)) -> preserves P (st_for l body).
Proof. intros Hb. induction l as [|y l IH]; [apply preserves_ret|]. by apply preserves_bind. Qed.
End preserves_rules.

Create HintDb preserves discriminated.
#[export] Hint Resolve preserves_ret preserves_throw preserves_panic preserves_result preserves_get preserves_lift
  preserves_local preserves_try preserves_for : preserves.

Ltac preserves_tac :=
  repeat match goal with
    | |- preserves _ (st_get ≫= _) => apply preserves_bind_get; intros ? ?
    | |- preserves _ (_ ≫= _) => apply preserves_bind; [|intros ?]
    | |- preserves _ (st_try _) => apply preserves_try
    | |- preserves _ (st_for _ _) => apply preserves_for; intros ?
    | |- preserves _ (match ?x with _ => _ end) => destruct x
    | |- preserves _ _ => solve [auto with preserves]
    end.

Ltac wp_step :=
  lazymatch goal with
  | |- wp (mret _) _ _ => apply wp_ret
  | |- wp (_ ≫= _) _ _ => apply wp_bind
  | |- wp st_get _ _ => apply wp_get
  | |- wp (st_put _) _ _ => apply wp_put
  | |- wp (st_modify _) _ _ => apply wp_modify
  | |- wp (st_throw _) _ _ => apply wp_throw
  | |- wp (st_try _) _ _ => apply wp_try
  | |- wp (st_unwrap _) _ _ => apply wp_unwrap
  | |- wp (st_zoom _ _ _) _ _ => apply wp_zoom
  end; cbn beta iota.
Ltac wp_steps := repeat wp_step.

(** One step of a run, by the equation of its first call. *)
Tactic Notation "run_step" constr(H) := erewrite run_bind_ok by (exact H); cbn beta iota.
Ltac run_done := erewrite run_bind_ok by done; cbn beta iota.

(** ** Vectors

    [v[i] = x] panics out of range, where stdpp's update does nothing. *)
Definition vec_set {A} (i : nat) (x : A) (l : list A) : option (list A) :=
  if decide (i < length l)%nat then Some (<[i:=x]> l) else None.

Lemma vec_set_in_range {A} i (x : A) l : (i < length l)%nat -> vec_set i x l = Some (<[i:=x]> l).
Proof. intros H. unfold vec_set. by rewrite decide_True. Qed.

(** ** Rust's [Default] *)
Class Default (T : Type) := default_value : T.
#[export] Instance default_bool : Default bool := false.
#[export] Instance default_list {A} : Default (list A) := [].
#[export] Instance default_Z : Default Z := 0.
