(* ===== verification/BinaryHeap.v ===== *)
(** * [std::collections::BinaryHeap], as [jitter_pipe.rs] uses it

    The Standard Library's array-based max-heap: [push] appends and sifts up;
    [pop] puts the last element at the root, sifts it down to the bottom and
    up again.  The sifting moves a hole: the element being placed is out of
    the array until its position is known.  The order of equal elements is
    what the algorithm makes it. *)

From S2P Require Import Prelude.

Section heap.
Context {X : Type} (le : X -> X -> bool).

(** [sift_up(start, pos)] with [start = 0] and the hole at [pos]; positions
    halve, so [pos] rounds are enough. *)
Fixpoint sift_up (fuel : nat) (x : X) (pos : nat) (d : list X) : option (list X) :=
  match fuel, pos with
  | _, O => Some (<[pos:=x]> d)
  | O, _ => None
  | S fuel, _ =>
      let parent := ((pos - 1) / 2)%nat in
      y ← d !! parent;
      if le x y then Some (<[pos:=x]> d)
      else sift_up fuel x parent (<[pos:=y]> d)
  end.

(** The descent of [sift_down_to_bottom]: the hole moves to the greater
    child, to the right one of two equals; it returns where the hole ends. *)
Fixpoint sift_down (fuel : nat) (pos : nat) (d : list X) : option (nat * list X) :=
  match fuel with
  | O => None
  | S fuel =>
      let end_ := length d in
      let child := (2 * pos + 1)%nat in
      if (child <=? end_ - 2)%nat then
        l ← d !! child;
        r ← d !! S child;
        let child := if le l r then S child else child in
        y ← d !! child;
        sift_down fuel child (<[pos:=y]> d)
      else if (child =? end_ - 1)%nat then
        y ← d !! child;
        Some (child, <[pos:=y]> d)
      else Some (pos, d)
  end.

Definition sift_down_to_bottom (x : X) (d : list X) : option (list X) :=
  '(pos, d) ← sift_down (S (length d)) 0 d;
  sift_up pos x pos d.

Definition heap_push (x : X) (d : list X) : option (list X) :=
  sift_up (length d) x (length d) (d ++ [x]).

(** [data.pop()], then the swap of its element with the root. *)
Definition heap_pop (d : list X) : option (option X * list X) :=
  match reverse d with
  | [] => Some (None, [])
  | item :: rest =>
      match reverse rest with
      | [] => Some (Some item, [])
      | root :: tl =>
          d ← sift_down_to_bottom item (root :: tl);
          Some (Some root, d)
      end
  end.
End heap.

(** ** Correctness *)
Section facts.
Context {X : Type} (le : X -> X -> bool).

Definition parent (j : nat) : nat := ((j - 1) / 2)%nat.

Lemma parent_lt j : (0 < j)%nat -> (parent j < j)%nat.
Proof. intros H. unfold parent. apply Nat.Div0.div_lt_upper_bound. lia. Qed.

Lemma parent_children j p : (0 < j)%nat -> parent j = p <-> j = (2 * p + 1)%nat \/ j = S (2 * p + 1).
Proof.
  intros H. unfold parent. pose proof (Nat.div_mod (j - 1) 2 ltac:(lia)).
  pose proof (Nat.mod_upper_bound (j - 1) 2 ltac:(lia)). lia.
Qed.

(** An element written over another. *)
Lemma insert_perm i (x y : X) d : d !! i = Some y -> y :: <[i:=x]> d ≡ₚ x :: d.
Proof.
  intros Hd. rewrite insert_take_drop by by eapply lookup_lt_Some.
  rewrite <- (take_drop_middle d i y Hd) at 3. rewrite <- !Permutation_middle. apply Permutation_swap.
Qed.

(** Moving the hole keeps the elements. *)
Lemma move_perm i j (x y : X) d : i <> j -> (i < length d)%nat -> d !! j = Some y ->
  <[j:=x]> (<[i:=y]> d) ≡ₚ <[i:=x]> d.
Proof.
  intros Hij Hi Hj. destruct (lookup_lt_is_Some_2 d i Hi) as [w Hw].
  apply (Permutation_cons_inv (a:=y)), (Permutation_cons_inv (a:=w)).
  transitivity (x :: y :: d).
  - rewrite (insert_perm j x y) by (by rewrite list_lookup_insert_ne).
    rewrite Permutation_swap. by rewrite (insert_perm i y w d Hw).
  - rewrite Permutation_swap. symmetry. rewrite Permutation_swap. by rewrite (insert_perm i x w d Hw).
Qed.

(** Without any assumption on the order the elements are kept. *)
Lemma sift_up_perm fuel x pos d : (pos <= fuel)%nat -> (pos < length d)%nat ->
  exists d', sift_up le fuel x pos d = Some d' /\ d' ≡ₚ <[pos:=x]> d.
Proof.
  revert pos d. induction fuel as [|fuel IH]; intros pos d Hf Hp.
  { assert (pos = 0%nat) as -> by lia. by eexists. }
  destruct pos as [|pos]; [by eexists|]. pose proof (parent_lt (S pos) ltac:(lia)) as Hlt.
  cbn [sift_up]. fold (parent (S pos)). destruct (lookup_lt_is_Some_2 d (parent (S pos))) as [y Hy]; [lia|].
  rewrite Hy. cbn [mbind option_bind]. destruct (le x y); [by eexists|].
  destruct (IH (parent (S pos)) (<[S pos:=y]> d)) as (d' & Hrun & Hperm); [lia|rewrite length_insert; lia|].
  exists d'. split; [done|]. rewrite Hperm. apply move_perm; [lia|lia|done].
Qed.

Lemma sift_down_perm fuel x pos d : (length d < pos + fuel)%nat -> (pos < length d)%nat ->
  exists pos' d', sift_down le fuel pos d = Some (pos', d') /\ length d' = length d /\ (pos' < length d)%nat /\
    <[pos':=x]> d' ≡ₚ <[pos:=x]> d.
Proof.
  revert pos d. induction fuel as [|fuel IH]; intros pos d Hf Hp; [lia|]. cbn [sift_down].
  destruct (Nat.leb_spec (2 * pos + 1) (length d - 2)).
  - destruct (lookup_lt_is_Some_2 d (2 * pos + 1)) as [l Hl]; [lia|].
    destruct (lookup_lt_is_Some_2 d (S (2 * pos + 1))) as [r Hr]; [lia|].
    rewrite Hl, Hr. cbn [mbind option_bind]. set (child := if le l r then _ else _).
    assert (Hc : (child = 2 * pos + 1 \/ child = S (2 * pos + 1))%nat) by (unfold child; destruct (le l r); auto).
    destruct (lookup_lt_is_Some_2 d child) as [y Hy]; [lia|]. rewrite Hy. cbn [mbind option_bind].
    destruct (IH child (<[pos:=y]> d)) as (pos' & d' & Hrun & Hlen & Hp' & Hperm); [rewrite length_insert; lia..|].
    rewrite length_insert in *. exists pos', d'. do 3 (split; [done|]). rewrite Hperm. apply move_perm; [lia|done..].
  - destruct (Nat.eqb_spec (2 * pos + 1) (length d - 1)); [|by exists pos, d].
    destruct (lookup_lt_is_Some_2 d (2 * pos + 1)) as [y Hy]; [lia|]. rewrite Hy. cbn [mbind option_bind].
    eexists _, _. split; [done|]. rewrite length_insert. do 2 (split; [lia|]). apply move_perm; [lia|done..].
Qed.

Lemma sift_down_to_bottom_perm x d : (0 < length d)%nat ->
  exists d', sift_down_to_bottom le x d = Some d' /\ d' ≡ₚ <[0%nat:=x]> d.
Proof.
  intros Hd. destruct (sift_down_perm (S (length d)) x 0 d) as (pos & d1 & Hrun & Hlen & Hp & Hperm); [lia..|].
  unfold sift_down_to_bottom. rewrite Hrun. cbn [mbind option_bind].
  destruct (sift_up_perm pos x pos d1) as (d2 & Hrun2 & Hperm2); [lia..|]. exists d2. split; [done|]. by rewrite Hperm2.
Qed.

Lemma heap_push_perm x d : exists d', heap_push le x d = Some d' /\ d' ≡ₚ x :: d.
Proof.
  unfold heap_push. destruct (sift_up_perm (length d) x (length d) (d ++ [x])) as (d' & Hrun & Hperm).
  { lia. } { rewrite length_app. simpl. lia. }
  exists d'. split; [done|]. rewrite Hperm, list_insert_id; [by rewrite Permutation_app_comm|].
  rewrite lookup_app_r, Nat.sub_diag by lia. done.
Qed.

Lemma heap_pop_perm d : exists o d', heap_pop le d = Some (o, d') /\
  match o with None => d = [] /\ d' = [] | Some x => d !! 0%nat = Some x /\ d ≡ₚ x :: d' end.
Proof.
  unfold heap_pop. destruct (reverse d) as [|item rest] eqn:Hd.
  { exists None, []. assert (d = []) by (apply (inj reverse); by rewrite Hd). done. }
  assert (d = reverse rest ++ [item]) as -> by (rewrite <- (reverse_involutive d), Hd, reverse_cons; done).
  destruct (reverse rest) as [|root tl]; [by exists (Some item), []|].
  destruct (sift_down_to_bottom_perm item (root :: tl)) as (d' & Hrun & Hperm); [simpl; lia|].
  exists (Some root), d'. rewrite Hrun. split; [done|]. split; [done|]. rewrite Hperm. simpl.
  apply perm_skip. symmetry. apply Permutation_cons_append.
Qed.

(** ** The order

    It need be transitive on the elements that are in the heap only. *)
Context (P : X -> Prop) (Htotal : forall x y, le x y = true \/ le y x = true)
  (Htrans : forall x y z, P x -> P y -> P z -> le x y = true -> le y z = true -> le x z = true).

(** No element is greater than its parent. *)
Definition is_heap (d : list X) : Prop :=
  forall j x y, (0 < j)%nat -> d !! j = Some x -> d !! parent j = Some y -> le x y = true.

(** A heap but for the element at [pos], which may be greater than its
    parent; the children of [pos] are below that parent. *)
Record heap_but (pos : nat) (d : list X) : Prop := {
  hb_order : forall j x y, (0 < j)%nat -> j <> pos -> d !! j = Some x -> d !! parent j = Some y -> le x y = true;
  hb_above : forall j x y, (0 < pos)%nat -> (0 < j)%nat -> parent j = pos -> d !! j = Some x ->
    d !! parent pos = Some y -> le x y = true;
}.

Lemma le_refl x : le x x = true.
Proof. destruct (Htotal x x); done. Qed.

Lemma sift_up_heap fuel x pos d d' : sift_up le fuel x pos d = Some d' -> (pos < length d)%nat ->
  Forall P (<[pos:=x]> d) -> heap_but pos (<[pos:=x]> d) -> is_heap d'.
Proof.
  revert pos d. induction fuel as [|fuel IH]; intros pos d Hrun Hp HP [Ho Ha].
  { destruct pos; [|done]. injection Hrun as <-. intros j a b Hj. apply Ho; lia. }
  destruct pos as [|pos]; [injection Hrun as <-; intros j a b Hj; apply Ho; lia|].
  cbn [sift_up] in Hrun. fold (parent (S pos)) in Hrun. pose proof (parent_lt (S pos) ltac:(lia)) as Hlt.
  destruct (d !! parent (S pos)) as [y|] eqn:Hy; [|done]. cbn [mbind option_bind] in Hrun.
  assert (Hpar : <[S pos:=x]> d !! parent (S pos) = Some y) by (rewrite list_lookup_insert_ne; [done|lia]).
  destruct (le x y) eqn:Hxy.
  - injection Hrun as <-. intros j a b Hj. destruct (decide (j = S pos)) as [->|]; [|by apply Ho].
    rewrite list_lookup_insert_eq, Hpar by done. congruence.
  - assert (Hyx : le y x = true) by (destruct (Htotal x y); congruence).
    assert (HPk : forall k z, <[S pos:=x]> d !! k = Some z -> P z) by (by apply Forall_lookup).
    assert (HPx : P x) by (apply (HPk (S pos)), list_lookup_insert_eq; lia).
    (* the array with [x] at the parent and [y] at [pos] *)
    assert (Hlook : forall k, <[parent (S pos):=x]> (<[S pos:=y]> d) !! k =
      if decide (k = parent (S pos)) then Some x else if decide (k = S pos) then Some y else <[S pos:=x]> d !! k).
    { intros k. repeat case_decide; subst.
      - apply list_lookup_insert_eq. rewrite length_insert. lia.
      - rewrite list_lookup_insert_ne by done. by apply list_lookup_insert_eq.
      - by rewrite !list_lookup_insert_ne by done. }
    apply IH in Hrun; [done|rewrite length_insert; lia| |].
    { apply Forall_lookup. intros k z. rewrite Hlook. repeat case_decide; [by intros [= <-]| |by apply HPk].
      intros [= <-]. by apply (HPk (parent (S pos))). }
    split.
    + intros j a b Hj Hne. rewrite !Hlook. rewrite decide_False by done.
      destruct (decide (j = S pos)) as [->|Hjp]; [rewrite decide_True by done; congruence|].
      intros Hja. destruct (decide (parent j = parent (S pos))) as [Hpp|].
      { intros [= <-]. apply (Htrans a y); [by apply (HPk j)|by apply (HPk (parent (S pos)))|done| |done].
        apply (Ho j); try done. by rewrite Hpp. }
      destruct (decide (parent j = S pos)) as [Hjs|]; [|by apply (Ho j)].
      intros [= <-]. by apply (Ha j); [lia|..].
    + intros j a b Hpos Hj Hpj. rewrite !Hlook.
      pose proof (parent_lt j Hj). pose proof (parent_lt (parent (S pos)) Hpos).
      rewrite decide_False by lia. rewrite (decide_False (P:=parent (parent (S pos)) = parent (S pos))) by lia.
      rewrite (decide_False (P:=parent (parent (S pos)) = S pos)) by lia. intros Hja Hb.
      assert (Hyb : le y b = true) by (apply (Ho (parent (S pos))); [lia|lia|done..]).
      destruct (decide (j = S pos)) as [->|]; [congruence|].
      apply (Htrans a y); [by apply (HPk j)|by apply (HPk (parent (S pos)))|by apply (HPk (parent (parent (S pos))))| |done].
      apply (Ho j); [done|done|done|]. by rewrite Hpj.
Qed.

(** The descent keeps the order of everything but the hole. *)
Record holed (pos : nat) (d : list X) : Prop := {
  ho_order : forall j x y, (0 < j)%nat -> j <> pos -> parent j <> pos -> d !! j = Some x -> d !! parent j = Some y -> le x y = true;
  ho_above : forall j x y, (0 < pos)%nat -> (0 < j)%nat -> parent j = pos -> d !! j = Some x ->
    d !! parent pos = Some y -> le x y = true;
}.

Lemma holed_move pos child y d : holed pos d -> (0 < child)%nat -> parent child = pos -> d !! child = Some y ->
  (forall j x, (0 < j)%nat -> parent j = pos -> d !! j = Some x -> le x y = true) -> holed child (<[pos:=y]> d).
Proof.
  intros [Ho Ha] Hc Hpc Hy Hbest. pose proof (parent_lt child Hc) as Hlt.
  assert (Hlen : (child < length d)%nat) by by eapply lookup_lt_Some.
  split.
  - intros j a b Hj Hne Hnp Hja Hb. destruct (decide (j = pos)) as [->|Hjp].
    + rewrite list_lookup_insert_eq in Hja by lia. injection Hja as <-.
      pose proof (parent_lt pos Hj). rewrite list_lookup_insert_ne in Hb by lia. by apply (Ha child).
    + rewrite list_lookup_insert_ne in Hja by done. destruct (decide (parent j = pos)) as [Hpj|].
      * rewrite Hpj, list_lookup_insert_eq in Hb by lia. injection Hb as <-. by apply (Hbest j).
      * rewrite list_lookup_insert_ne in Hb by done. by apply (Ho j).
  - intros j a b _ Hj Hpj Hja Hb. pose proof (parent_lt j Hj). rewrite list_lookup_insert_ne in Hja by lia.
    rewrite Hpc, list_lookup_insert_eq in Hb by lia. injection Hb as <-. apply (Ho j); try done; lia || congruence.
Qed.

Lemma sift_down_holed fuel pos d pos' d' : sift_down le fuel pos d = Some (pos', d') -> (pos < length d)%nat ->
  holed pos d -> holed pos' d' /\ (length d' <= 2 * pos' + 1)%nat.
Proof.
  revert pos d. induction fuel as [|fuel IH]; intros pos d Hrun Hp Hh; [done|]. cbn [sift_down] in Hrun.
  destruct (Nat.leb_spec (2 * pos + 1) (length d - 2)).
  - destruct (d !! (2 * pos + 1)%nat) as [l|] eqn:Hl; [|done].
    destruct (d !! S (2 * pos + 1)) as [r|] eqn:Hr; [|done]. cbn [mbind option_bind] in Hrun.
    destruct (d !! (if le l r then S (2 * pos + 1) else 2 * pos + 1)%nat) as [y|] eqn:Hy; [|done].
    cbn [mbind option_bind] in Hrun. apply IH in Hrun; [done|rewrite length_insert|].
    { apply lookup_lt_Some in Hy. destruct (le l r); lia. }
    apply holed_move; [done|destruct (le l r); lia| |done|].
    + apply parent_children; [destruct (le l r); lia|]. destruct (le l r); auto.
    + intros j x Hj [-> | ->]%parent_children Hx; try done; simplify_eq; destruct (le l r) eqn:Hlr; simplify_eq; try done;
        try apply le_refl.
      match goal with H : le ?a ?b = false |- _ => destruct (Htotal b a); congruence end.
  - destruct (Nat.eqb_spec (2 * pos + 1) (length d - 1)) as [He|He].
    + destruct (d !! (2 * pos + 1)%nat) as [y|] eqn:Hy; [|done]. cbn [mbind option_bind] in Hrun.
      injection Hrun as <- <-. rewrite length_insert. split; [|lia].
      apply holed_move; [done|lia|apply parent_children; lia|done|].
      intros j x Hj [-> | ->]%parent_children Hx; try done; [simplify_eq; apply le_refl|].
      apply lookup_lt_Some in Hx. lia.
    + injection Hrun as <- <-. split; [done|lia].
Qed.

Lemma holed_heap_but pos x d : holed pos d -> (length d <= 2 * pos + 1)%nat -> (pos < length d)%nat ->
  heap_but pos (<[pos:=x]> d).
Proof.
  intros [Ho Ha] Hl Hp.
  assert (Hno : forall j z, (0 < j)%nat -> parent j = pos -> <[pos:=x]> d !! j = Some z -> False).
  { intros j z Hj Hpj Hz. apply lookup_lt_Some in Hz. rewrite length_insert in Hz.
    apply parent_children in Hpj; [|done]. lia. }
  split.
  - intros j a b Hj Hne Hja Hb. destruct (decide (parent j = pos)) as [Hpj|]; [by destruct (Hno j a)|].
    rewrite list_lookup_insert_ne in Hja, Hb by done. by apply (Ho j).
  - intros j a b _ Hj Hpj Hja. by destruct (Hno j a).
Qed.

(** The root is a greatest element. *)
Lemma heap_root d x y : Forall P d -> is_heap d -> d !! 0%nat = Some x -> y ∈ d -> le y x = true.
Proof.
  intros HP Hh Hx [j Hj]%list_elem_of_lookup. revert y Hj. induction (lt_wf j) as [j _ IH]. intros y Hj.
  destruct (decide (j = 0%nat)) as [->|]; [simplify_eq; apply le_refl|].
  pose proof (parent_lt j ltac:(lia)) as Hlt.
  destruct (lookup_lt_is_Some_2 d (parent j)) as [z Hz]; [apply lookup_lt_Some in Hj; lia|].
  assert (HPk : forall k z, d !! k = Some z -> P z) by (by apply Forall_lookup).
  apply (Htrans y z); [by eapply HPk..|by apply (Hh j); [lia|..]|]. by apply (IH (parent j)).
Qed.

(** The heap as an abstract priority queue: [push] adds an element, [pop]
    takes a greatest one. *)
Lemma heap_push_spec x d : P x -> Forall P d -> is_heap d -> exists d', heap_push le x d = Some d' /\ d' ≡ₚ x :: d /\ is_heap d'.
Proof.
  intros HPx HP Hh. destruct (heap_push_perm x d) as (d' & Hrun & Hperm). exists d'. split; [done|]. split; [done|].
  unfold heap_push in Hrun. assert (Hid : <[length d:=x]> (d ++ [x]) = d ++ [x]).
  { apply list_insert_id. rewrite lookup_app_r, Nat.sub_diag by lia. done. }
  eapply sift_up_heap; [exact Hrun|rewrite length_app; simpl; lia| |]; rewrite Hid.
  { apply Forall_app. auto. }
  split.
  - intros j a b Hj Hne Hja Hb. pose proof (lookup_lt_Some _ _ _ Hja) as Hl. rewrite length_app in Hl. simpl in Hl.
    pose proof (parent_lt j Hj). rewrite lookup_app_l in Hja, Hb by lia. by apply (Hh j).
  - intros j a b _ Hj Hpj Hja. apply lookup_lt_Some in Hja. rewrite length_app in Hja. simpl in Hja.
    pose proof (parent_lt j Hj). lia.
Qed.

Lemma heap_pop_spec d : Forall P d -> is_heap d -> exists o d', heap_pop le d = Some (o, d') /\ is_heap d' /\
  match o with
  | None => d = [] /\ d' = []
  | Some x => d ≡ₚ x :: d' /\ forall y, y ∈ d -> le y x = true
  end.
Proof.
  intros HP Hh. destruct (heap_pop_perm d) as (o & d' & Hrun & Ho). exists o, d'. split; [done|]. split.
  2: { destruct o as [x|]; [|done]. destruct Ho as [Hx Hperm]. split; [done|]. intros y Hy. by eapply heap_root. }
  unfold heap_pop in Hrun. destruct (reverse d) as [|item rest] eqn:Hd; [by injection Hrun as _ <-|].
  assert (Hd' : d = reverse rest ++ [item]) by (rewrite <- (reverse_involutive d), Hd, reverse_cons; done).
  destruct (reverse rest) as [|root tl]; [by injection Hrun as _ <-|].
  unfold sift_down_to_bottom in Hrun.
  destruct (sift_down_perm (S (length (root :: tl))) item 0 (root :: tl)) as (pos & d1 & Hdown & Hlen & Hp & Hperm); [simpl; lia..|].
  rewrite Hdown in Hrun. cbn [mbind option_bind] in Hrun.
  destruct (sift_up le pos item pos d1) as [d2|] eqn:Hup; [|done]. injection Hrun as _ <-.
  apply sift_down_holed in Hdown as [Hho Hbot]; [|simpl; lia|].
  - eapply sift_up_heap; [exact Hup|lia| |].
    { rewrite Hperm. simpl. subst d. apply Forall_app in HP as [HP Hi]. apply Forall_cons in HP as [_ HP].
      apply Forall_cons. split; [by apply Forall_singleton|done]. }
    apply holed_heap_but; [done|done|lia].
  - subst d. split; [|lia]. intros j a b Hj Hne Hnp Hja Hb. pose proof (lookup_lt_Some _ _ _ Hja).
    pose proof (parent_lt j Hj). apply (Hh j); [done|rewrite lookup_app_l by lia; done|rewrite lookup_app_l by lia; done].
Qed.
End facts.
