(* ===== verification/Floats.v ===== *)
(** * IEEE 754 arithmetic: Rust's [f64] and [f32]

    Times are [f64] and round-trip times, losses and ack-field lengths are
    computed in [f32].  Both are modelled bit for bit by the Standard
    Library's [spec_float] (binary64 is [prec = 53], [emax = 1024]; binary32
    is [prec = 24], [emax = 128]), round to nearest even.  NaN payloads,
    which the program never looks at, are not represented. *)

From S2P Require Import Prelude.
From Stdlib Require Export Floats.SpecFloat.

Abbreviation f64 := spec_float (only parsing).
Abbreviation f32 := spec_float (only parsing).

(** ** Operations *)
Definition f64_add : f64 -> f64 -> f64 := SFadd 53 1024.
Definition f64_sub : f64 -> f64 -> f64 := SFsub 53 1024.
Definition f64_mul : f64 -> f64 -> f64 := SFmul 53 1024.
Definition f32_add : f32 -> f32 -> f32 := SFadd 24 128.
Definition f32_sub : f32 -> f32 -> f32 := SFsub 24 128.
Definition f32_mul : f32 -> f32 -> f32 := SFmul 24 128.
Definition f32_div : f32 -> f32 -> f32 := SFdiv 24 128.

(** [a < b], [a >= b], [a > b], [a == b]: false when an operand is a NaN. *)
Definition f_lt (a b : spec_float) : bool := SFltb a b.
Definition f_gt (a b : spec_float) : bool := SFltb b a.
Definition f_ge (a b : spec_float) : bool := SFleb b a.

Definition f_eq (a b : spec_float) : bool := SFeqb a b.
Definition f_abs (a : spec_float) : spec_float := SFabs a.

(** Integer to float ([n as f32], [n as f64]). *)
Definition f64_of_Z (n : Z) : f64 := binary_normalize 53 1024 n 0 false.
Definition f32_of_Z (n : Z) : f32 := binary_normalize 24 128 n 0 false.

(** The literal [num / den]: division is correctly rounded, so this is the
    float nearest to the decimal the source writes. *)
Definition f64_lit (num den : Z) : f64 := SFdiv 53 1024 (f64_of_Z num) (f64_of_Z den).
Definition f32_lit (num den : Z) : f32 := SFdiv 24 128 (f32_of_Z num) (f32_of_Z den).

(** [x as f32] for an [f64], and [x as f64] for an [f32] (exact). *)
Definition f32_of_f64 (x : f64) : f32 :=
  match x with
  | S754_finite s m e => binary_normalize 24 128 (cond_Zopp s (Zpos m)) e s
  | _ => x
  end.
Definition f64_of_f32 (x : f32) : f64 :=
  match x with
  | S754_finite s m e => binary_normalize 53 1024 (cond_Zopp s (Zpos m)) e s
  | _ => x
  end.

(** [f32::ceil]. *)
Definition f32_ceil (x : f32) : f32 :=
  match x with
  | S754_finite s m e =>
      if 0 <=? e then x
      else
        let c := - ((- cond_Zopp s (Zpos m)) / 2 ^ (- e)) in
        if c =? 0 then S754_zero s else f32_of_Z c
  | _ => x
  end.

(** [x as uN] where [max] is the largest [uN]: truncation towards zero,
    saturating, and 0 for a NaN. *)
Definition f_as_uint (max : Z) (x : spec_float) : Z :=
  match x with
  | S754_zero _ | S754_nan => 0
  | S754_infinity s => if s then 0 else max
  | S754_finite true _ _ => 0
  | S754_finite false m e =>
      Z.min max (if 0 <=? e then Zpos m * 2 ^ e else Zpos m / 2 ^ (- e))
  end.

(** ** Facts *)

(** [x - x] is a zero or a NaN, never a positive duration. *)
Lemma f64_sub_diag x : exists s, f64_sub x x = S754_zero s \/ f64_sub x x = S754_nan.
Proof.
  unfold f64_sub.
  destruct x as [[]|[]| |s m e]; simpl; rewrite ?Z.sub_diag; exists false; auto.
Qed.

(** So a time difference of equal times never reaches a positive cutoff. *)
Lemma f64_sub_diag_not_ge x m e : f_ge (f64_sub x x) (S754_finite false m e) = false.
Proof. destruct (f64_sub_diag x) as (s & [-> | ->]); destruct s; done. Qed.

(** A property of [n] consecutive integers from [z], checked by evaluation. *)
Fixpoint forall_from (P : Z -> bool) (n : nat) (z : Z) : bool :=
  match n with
  | O => true
  | S n' => if P z then forall_from P n' (z + 1) else false
  end.

Lemma forall_from_spec P n z k :
  forall_from P n z = true -> z <= k < z + Z.of_nat n -> P k = true.
Proof.
  revert z. induction n as [|n IH]; intros z H Hk; [lia|]. simpl in H.
  destruct (P z) eqn:E; [|done].
  destruct (decide (k = z)) as [->|]; [done|]. apply (IH (z + 1)); [done|lia].
Qed.

(** [(n as f32 / 7.0).ceil()] is the exact rounded-up quotient for every
    length an ack field can have (350 acks at most): no rounding error of
    binary32 shows. *)
Definition ceil7 (n : Z) : f32 := f32_ceil (f32_div (f32_of_Z n) (f32_of_Z 7)).

Lemma ceil7_exact n : 0 <= n <= 350 -> f_as_uint 65535 (ceil7 n) = (n + 6) / 7.
Proof.
  intros Hn. apply Z.eqb_eq.
  apply (forall_from_spec (fun n => f_as_uint 65535 (ceil7 n) =? (n + 6) / 7) 351 0);
    [vm_compute; reflexivity|lia].
Qed.

Lemma ceil7_exact_u8 n : 0 <= n <= 350 -> f_as_uint 255 (ceil7 n) = (n + 6) / 7.
Proof.
  intros Hn. apply Z.eqb_eq.
  apply (forall_from_spec (fun n => f_as_uint 255 (ceil7 n) =? (n + 6) / 7) 351 0);
    [vm_compute; reflexivity|lia].
Qed.

(** ** Whole numbers in binary32

    Below [2^24] every whole number is a binary32 value, and adding one to it
    is exact. *)

Lemma digits2_pos_spec p : 2 ^ (Zpos (digits2_pos p) - 1) <= Zpos p < 2 ^ Zpos (digits2_pos p).
Proof.
  assert (Hs : forall q d, 2 ^ (Zpos d - 1) <= Zpos q < 2 ^ Zpos d ->
    2 ^ (Zpos (Pos.succ d) - 1) <= 2 * Zpos q /\ 2 * Zpos q + 1 < 2 ^ Zpos (Pos.succ d)).
  { intros q d. rewrite Pos2Z.inj_succ. replace (Z.succ (Zpos d) - 1) with (Z.succ (Zpos d - 1)) by lia.
    rewrite !Z.pow_succ_r by lia. lia. }
  induction p as [p IH|p IH|]; cbn [digits2_pos]; [..|done].
  - destruct (Hs p _ IH). lia.
  - destruct (Hs p _ IH). lia.
Qed.

Lemma digits2_pos_unique p d : 0 < d -> 2 ^ (d - 1) <= Zpos p < 2 ^ d -> Zpos (digits2_pos p) = d.
Proof.
  intros Hd Hp. pose proof (digits2_pos_spec p) as Hs. set (k := Zpos (digits2_pos p)) in *.
  assert (0 < k) by (unfold k; lia).
  destruct (Z.lt_trichotomy k d) as [H0|[H0|H0]]; [|done|].
  - assert (2 ^ k <= 2 ^ (d - 1)) by (apply Z.pow_le_mono_r; lia). lia.
  - assert (2 ^ d <= 2 ^ (k - 1)) by (apply Z.pow_le_mono_r; lia). lia.
Qed.

(** Shifting right by bits that are zero loses nothing. *)
Lemma iter_pos_nat {A} (f : A -> A) p x : iter_pos f p x = Nat.iter (Pos.to_nat p) f x.
Proof.
  revert x. induction p as [p IH|p IH|]; intros x; cbn [iter_pos]; [| |done].
  - rewrite !IH, <- Nat.iter_add, <- Nat.iter_succ_r. f_equal. lia.
  - rewrite !IH, <- Nat.iter_add. f_equal. lia.
Qed.

Lemma shr_1_exact k m q : Zpos q = Zpos m * 2 ^ Z.of_nat k ->
  Nat.iter k shr_1 (Build_shr_record (Zpos q) false false) = Build_shr_record (Zpos m) false false.
Proof.
  revert q. induction k as [|k IH]; intros q Hq.
  - cbn. do 2 f_equal. lia.
  - rewrite Nat.iter_succ_r. rewrite Nat2Z.inj_succ, Z.pow_succ_r in Hq by lia.
    destruct q as [q|q|]; [lia| |lia]. cbn [shr_1 orb]. apply IH. lia.
Qed.

Lemma pos_iter_xO m d : Zpos (Pos.iter xO m d) = Zpos m * 2 ^ Zpos d.
Proof.
  induction d as [|d IH] using Pos.peano_ind; [cbn; lia|].
  rewrite Pos.iter_succ, Pos2Z.inj_succ, Z.pow_succ_r by lia. lia.
Qed.

(** [x] is the number [n], with all 24 bits of the mantissa in use. *)
Definition f32_is (x : f32) (n : Z) : Prop :=
  exists m e, x = S754_finite false m e /\ 2 ^ 23 <= Zpos m < 2 ^ 24 /\ -23 <= e <= 0 /\ Zpos m = n * 2 ^ (- e).

Lemma round_aux_exact q m E k : 2 ^ 23 <= Zpos m < 2 ^ 24 -> Zpos q = Zpos m * 2 ^ k -> 0 <= k ->
  -24 <= E + k <= 100 -> binary_round_aux 24 128 false (Zpos q) E loc_Exact = S754_finite false m (E + k).
Proof.
  intros Hm Hq Hk HE.
  assert (Hdm : Zpos (digits2_pos m) = 24) by (apply digits2_pos_unique; lia).
  assert (Hdq : Zpos (digits2_pos q) = 24 + k).
  { apply digits2_pos_unique; [lia|]. replace (24 + k - 1) with (23 + k) by lia. rewrite !Z.pow_add_r, Hq by lia. nia. }
  unfold binary_round_aux, shr_fexp, shr_record_of_loc. cbn [Zdigits2]. rewrite Hdq.
  replace (fexp 24 128 (24 + k + E) - E) with k by (unfold fexp, emin; lia).
  assert (Hshr : shr (Build_shr_record (Zpos q) false false) E k = (Build_shr_record (Zpos m) false false, E + k)).
  { unfold shr. destruct k as [|k|k]; [|f_equal; rewrite iter_pos_nat; apply shr_1_exact; rewrite positive_nat_Z; exact Hq|lia].
    rewrite Z.add_0_r. do 2 f_equal. lia. }
  rewrite Hshr. cbn [shr_m loc_of_shr_record round_nearest_even]. cbn [Zdigits2]. rewrite Hdm.
  replace (fexp 24 128 (24 + (E + k)) - (E + k)) with 0 by (unfold fexp, emin; lia).
  cbn [shr shr_m]. by rewrite (proj2 (Z.leb_le _ _)) by lia.
Qed.

Lemma binary_round_exact M E n : 0 < n < 2 ^ 24 -> -23 <= E <= 0 -> Zpos M = n * 2 ^ (- E) ->
  f32_is (binary_round 24 128 false M E) n.
Proof.
  intros Hn HE HM. destruct n as [|n|n]; [lia| |lia].
  pose proof (digits2_pos_spec n) as Hd. set (d := Zpos (digits2_pos n)) in *.
  assert (Hd24 : 1 <= d <= 24).
  { split; [unfold d; lia|]. destruct (Z.le_gt_cases d 24) as [|Hgt]; [done|].
    assert (2 ^ 24 <= 2 ^ (d - 1)) by (apply Z.pow_le_mono_r; lia). lia. }
  assert (HdM : Zpos (digits2_pos M) = d - E).
  { apply digits2_pos_unique; [lia|]. replace (d - E - 1) with ((d - 1) + (- E)) by lia.
    replace (d - E) with (d + (- E)) by lia. rewrite !Z.pow_add_r, HM by lia. nia. }
  (* the mantissa *)
  assert (Hm : exists m, Zpos m = Zpos n * 2 ^ (24 - d)).
  { exists (Z.to_pos (Zpos n * 2 ^ (24 - d))). rewrite Z2Pos.id; [done|]. assert (0 < 2 ^ (24 - d)) by (apply Z.pow_pos_nonneg; lia). nia. }
  destruct Hm as [m Hm].
  assert (Hmr : 2 ^ 23 <= Zpos m < 2 ^ 24).
  { rewrite Hm. replace (2 ^ 23) with (2 ^ (d - 1) * 2 ^ (24 - d)) by (rewrite <- Z.pow_add_r by lia; f_equal; lia).
    replace (2 ^ 24) with (2 ^ d * 2 ^ (24 - d)) by (rewrite <- Z.pow_add_r by lia; f_equal; lia).
    assert (0 < 2 ^ (24 - d)) by (apply Z.pow_pos_nonneg; lia). nia. }
  unfold binary_round. rewrite HdM.
  replace (fexp 24 128 (d - E + E)) with (d - 24) by (unfold fexp, emin; lia).
  exists m, (d - 24). split; [|split; [done|split; [lia|by rewrite Hm, Z.opp_sub_distr; do 2 f_equal; lia]]].
  unfold shl_align. destruct (d - 24 - E) as [|k|k] eqn:Hk.
  - replace (d - 24) with (E + 0) by lia. apply round_aux_exact; [done| |lia|lia].
    rewrite HM, Hm, Z.mul_1_r. do 2 f_equal. lia.
  - replace (d - 24) with (E + Zpos k) by lia. apply round_aux_exact; [done| |lia|lia].
    rewrite HM, Hm, <- Z.mul_assoc, <- Z.pow_add_r by lia. do 2 f_equal. lia.
  - cbn beta iota. replace (d - 24) with (d - 24 + 0) at 2 by lia. apply round_aux_exact; [done| |lia|lia].
    rewrite pos_iter_xO, HM, Hm, Z.mul_1_r, <- Z.mul_assoc, <- Z.pow_add_r by lia. do 2 f_equal. lia.
Qed.

Lemma f32_of_Z_is n : 0 < n < 2 ^ 24 -> f32_is (f32_of_Z n) n.
Proof.
  intros Hn. unfold f32_of_Z, binary_normalize. destruct n as [|n|n]; [lia| |lia].
  apply binary_round_exact; [done|lia|cbn; lia].
Qed.

(** [x + 1.0], exactly. *)
Lemma f32_add_one x n : f32_is x n -> 0 < n -> n + 1 < 2 ^ 24 -> f32_is (f32_add x (f32_of_Z 1)) (n + 1).
Proof.
  intros (m & e & -> & Hm & He & Hn) Hpos Hlt. change (f32_of_Z 1) with (S754_finite false 8388608 (-23)).
  unfold f32_add, SFadd, cond_Zopp. rewrite (Z.min_r e (-23)) by lia.
  assert (H1 : Zpos (fst (shl_align m e (-23))) = n * 2 ^ 23).
  { unfold shl_align. destruct (-23 - e) as [|k|k] eqn:Hk; cbn [fst].
    - rewrite Hn. do 2 f_equal. lia.
    - lia.
    - rewrite pos_iter_xO, Hn, <- Z.mul_assoc, <- Z.pow_add_r by lia. do 2 f_equal. lia. }
  rewrite H1. change (Zpos (fst (shl_align 8388608 (-23) (-23)))) with (2 ^ 23).
  unfold binary_normalize. destruct (n * 2 ^ 23 + 2 ^ 23) as [|s|s] eqn:Hs; [lia| |lia].
  apply binary_round_exact; [lia|lia|]. change (- -23) with 23. lia.
Qed.

(** Such numbers compare as the integers they are. *)
Lemma f32_is_compare x y a b : f32_is x a -> f32_is y b -> 0 < a -> 0 < b -> SFcompare x y = Some (a ?= b).
Proof.
  intros (m & e & -> & Hm & He & Ha) (m' & e' & -> & Hm' & He' & Hb) Hpa Hpb. cbn [SFcompare]. f_equal.
  assert (Hscale : forall i j, i < j <= 0 -> 2 ^ (- i) = 2 ^ (j - i) * 2 ^ (- j) /\ 2 <= 2 ^ (j - i)).
  { intros i j Hij. split; [rewrite <- Z.pow_add_r by lia; f_equal; lia|]. change 2 with (2 ^ 1) at 1.
    apply Z.pow_le_mono_r; lia. }
  destruct (Z.compare_spec e e') as [<-|Hlt|Hlt].
  - change (Pos.compare_cont Eq m m') with (Zpos m ?= Zpos m'). rewrite Ha, Hb.
    assert (0 < 2 ^ (- e)) by (apply Z.pow_pos_nonneg; lia). symmetry.
    destruct (Z.compare_spec a b) as [<-|Hab|Hab]; symmetry; [apply Z.compare_refl|apply Z.compare_lt_iff; nia|apply Z.compare_gt_iff; nia].
  - symmetry. apply Z.compare_lt_iff. destruct (Hscale e e') as [Heq H2]; [lia|].
    assert (0 < 2 ^ (- e')) by (apply Z.pow_pos_nonneg; lia). rewrite Heq in Ha. nia.
  - symmetry. apply Z.compare_gt_iff. destruct (Hscale e' e) as [Heq H2]; [lia|].
    assert (0 < 2 ^ (- e)) by (apply Z.pow_pos_nonneg; lia). rewrite Heq in Hb. nia.
Qed.

(** Comparing the other way round. *)
Lemma SFcompare_antisym x y : SFcompare x y = Some Lt -> SFcompare y x = Some Gt.
Proof.
  destruct x as [[]|[]| |[] m e], y as [[]|[]| |[] m' e']; cbn; try done.
  all: rewrite (Z.compare_antisym e e'); destruct (e ?= e'); cbn; try done.
  all: change (Pos.compare_cont Eq m' m) with (m' ?= m)%positive; change (Pos.compare_cont Eq m m') with (m ?= m')%positive;
    rewrite (Pos.compare_antisym m m'); by destruct (m ?= m')%positive.
Qed.
