(* ===== verification/Types.v ===== *)
(** * Shared data: errors, identifiers, configuration, statistics

    The data types and constants of [error.rs], [config.rs], [lib.rs] and
    [protocol/mod.rs] that every component uses. *)

From S2P Require Import Prelude Floats.

(** ** Errors ([error.rs]) *)

(** The [std::io::Error] kinds the program's readers and writers produce:
    a [read_exact] past the end, and a [write_all] into a full writer. *)
Inductive IoError := UnexpectedEof | WriteZero.

Inductive Backpressure := TooManyPending.

Inductive PicklebackError :=
| Io (e : IoError)
| SequenceTooOld
| InvalidPacket
| StalePacket
| DuplicatePacket
| InvalidMessage
| BackpressureErr (b : Backpressure)
| PayloadTooBig
| NoSuchChannel
| SocketAddrMismatch
| NoSuchClient.

#[export] Instance IoError_eq_dec : EqDecision IoError.
Proof. solve_decision. Defined.
#[export] Instance Backpressure_eq_dec : EqDecision Backpressure.
Proof. solve_decision. Defined.
#[export] Instance PicklebackError_eq_dec : EqDecision PicklebackError.
Proof. solve_decision. Defined.

(** Every method of the program that can fail fails with a [PicklebackError]. *)
Abbreviation M S := (ST PicklebackError S).

(** ** Identifiers ([lib.rs]): newtypes of [u16]. *)
Abbreviation PacketId := Z (only parsing).
Abbreviation MessageId := Z (only parsing).

(** ** Constants ([lib.rs], [ack_header.rs], [protocol/mod.rs]) *)
Definition HANDSHAKE_RESEND_INTERVAL : f64 := f64_lit 1 10.
Definition KEEPALIVE_INTERVAL : f64 := f64_lit 16 1000.
Definition CONNECTION_TIMEOUT : f64 := f64_lit 5 1.
Definition PACKET_LOSS_RECALCULATE_INTERVAL : Z := 100.
Definition MAX_CHANNELS : Z := 32.
Definition MAX_FRAGMENTS : Z := 1024.
Definition MAX_ACK_BYTES : Z := 50.
Definition MAX_UNACKED_PACKETS : Z := 7 * MAX_ACK_BYTES.
Definition PROTOCOL_VERSION : Z := 1.

(** ** Why a connection ended ([protocol/mod.rs]) *)
Inductive DisconnectReason :=
| Normal | ProtocolMismatch | HandshakeTimeout | TimedOut | ServerFull.

#[export] Instance DisconnectReason_eq_dec : EqDecision DisconnectReason.
Proof. solve_decision. Defined.

(** [reason as u8]: the [repr(u8)] discriminant. *)
Definition DisconnectReason_as_u8 (r : DisconnectReason) : Z :=
  match r with
  | Normal => 0 | ProtocolMismatch => 1 | HandshakeTimeout => 2
  | TimedOut => 3 | ServerFull => 4
  end.

Definition DisconnectReason_try_from (value : Z) : result DisconnectReason PicklebackError :=
  if value =? 0 then Ok Normal
  else if value =? 1 then Ok ProtocolMismatch
  else if value =? 2 then Ok HandshakeTimeout
  else if value =? 3 then Ok TimedOut
  else if value =? 4 then Ok ServerFull
  else Err InvalidPacket.

Lemma DisconnectReason_roundtrip r :
  DisconnectReason_try_from (DisconnectReason_as_u8 r) = Ok r.
Proof. by destruct r. Qed.

Lemma DisconnectReason_as_u8_range r : u8 (DisconnectReason_as_u8 r).
Proof. destruct r; simpl; lia. Qed.

(** ** Buffer-pool configuration ([buffer_pool.rs]) *)
Record PoolConfig := {
  starting_size : Z;
  max_size : Z;
  buffer_capacity : Z;
}.

(** ** Tunables ([config.rs]) *)
Record PicklebackConfig := {
  buffer_pools_config : option (list PoolConfig);
  max_message_size : Z;
  max_packet_size : Z;
  sent_packets_buffer_size : Z;
  received_packets_buffer_size : Z;
  rtt_smoothing_factor : f32;
  packet_loss_smoothing_factor : f32;
  packet_header_size : Z;
  sent_frag_map_size : Z;
}.

Definition PicklebackConfig_default : PicklebackConfig := {|
  buffer_pools_config := None;
  max_message_size := 1024 * MAX_FRAGMENTS;
  max_packet_size := 1150;
  sent_packets_buffer_size := 512;
  received_packets_buffer_size := 512;
  rtt_smoothing_factor := f32_lit 25 10000;
  packet_header_size := 28;
  packet_loss_smoothing_factor := f32_lit 5 10;
  sent_frag_map_size := 25000;
|}.

(** ** Statistics ([lib.rs]).  The counters are [u64]; they start at 0 and
    grow by one at a time, so they are not wrapped here. *)
Record PicklebackStats := {
  packets_sent : Z;
  packets_received : Z;
  packets_acked : Z;
  packets_stale : Z;
  packets_duplicate : Z;
  message_sends : Z;
  messages_sent : Z;
  messages_received : Z;
}.

Definition PicklebackStats_default : PicklebackStats := {|
  packets_sent := 0; packets_received := 0; packets_acked := 0; packets_stale := 0;
  packets_duplicate := 0; message_sends := 0; messages_sent := 0; messages_received := 0;
|}.

(** ** Records of sent and received packets ([lib.rs]) *)
Record SentMeta := {
  sm_time : f64;
  sm_acked : bool;
  sm_size : Z;
  sm_acked_up_to : PacketId;
}.

Definition SentMeta_new (time : f64) (size : Z) (acked_up_to : PacketId) : SentMeta :=
  {| sm_time := time; sm_size := size; sm_acked := false; sm_acked_up_to := acked_up_to |}.

#[export] Instance SentMeta_default : Default SentMeta :=
  {| sm_time := S754_zero false; sm_size := 0; sm_acked := false; sm_acked_up_to := 0 |}.

Record ReceivedMeta := {
  rm_time : f64;
  rm_size : Z;
}.

Definition ReceivedMeta_new (time : f64) (size : Z) : ReceivedMeta :=
  {| rm_time := time; rm_size := size |}.

#[export] Instance ReceivedMeta_default : Default ReceivedMeta :=
  {| rm_time := S754_zero false; rm_size := 0 |}.
