(* ===== verification/JitterPipe.v ===== *)
(** * The jitter pipe ([jitter_pipe.rs])

    A queue of packets that drops, duplicates and reorders them, as a network
    does: a packet gets a sort key, the number of packets so far plus or minus
    a random jitter, and waits in a binary heap.  The random draws of one
    [insert] are an argument. *)

From S2P Require Import Prelude BinaryHeap Floats Types.
From Stdlib Require Import Sorting.Sorted.

Record JitterPipeConfig := MkPipeConfig {
  enabled : bool;
  drop_chance : f32;
  duplicate_chance : f32;
  max_jitter : f32;
}.

Definition JitterPipeConfig_default : JitterPipeConfig := {|
  enabled := true; drop_chance := f32_lit 1 100; duplicate_chance := f32_lit 1 1000; max_jitter := f32_lit 75 100 |}.

Definition bad : JitterPipeConfig := {|
  enabled := true; drop_chance := f32_lit 5 100; duplicate_chance := f32_lit 5 1000; max_jitter := f32_lit 2 1 |}.
Definition very_bad : JitterPipeConfig := {|
  enabled := true; drop_chance := f32_lit 1 10; duplicate_chance := f32_lit 1 100; max_jitter := f32_lit 3 1 |}.
Definition very_very_bad : JitterPipeConfig := {|
  enabled := true; drop_chance := f32_lit 3 10; duplicate_chance := f32_lit 4 100; max_jitter := f32_lit 12 1 |}.
Definition disabled : JitterPipeConfig := {|
  enabled := false;
  drop_chance := drop_chance JitterPipeConfig_default;
  duplicate_chance := duplicate_chance JitterPipeConfig_default;
  max_jitter := max_jitter JitterPipeConfig_default |}.

(** What [rand::random] returns during one [insert]: the draws for dropping
    and for duplicating, and a magnitude and a sign for each jitter. *)
Record Draws := MkDraws {
  drop_draw : f32;
  duplicate_draw : f32;
  duplicate_jitter : f32 * bool;
  item_jitter : f32 * bool;
}.

Definition should_drop (draw : f32) (self : JitterPipeConfig) : bool := enabled self && f_lt draw (drop_chance self).
Definition should_duplicate (draw : f32) (self : JitterPipeConfig) : bool :=
  enabled self && f_lt draw (duplicate_chance self).
Definition jitter (draw : f32 * bool) (self : JitterPipeConfig) : f32 :=
  if negb (enabled self) then S754_zero false
  else
    let j := f32_mul draw.1 (max_jitter self) in
    if draw.2 then j else SFopp j.

Record SortWrapper (T : Type) := MkWrapper { key : f32; item : T }.
Arguments MkWrapper {_} _ _.
Arguments key {_} _.
Arguments item {_} _.

Record JitterPipe (T : Type) := MkPipe {
  heap : list (SortWrapper T);
  key_seq : f32;
  jp_config : JitterPipeConfig;
}.
Arguments MkPipe {_} _ _ _.
Arguments heap {_} _.
Arguments key_seq {_} _.
Arguments jp_config {_} _.

Section pipe.
Context {T : Type}.
Implicit Types (self : JitterPipe T).

(** [Ord::cmp]: the greatest element, which the heap pops, has the least key. *)
Definition cmp (self other : SortWrapper T) : comparison :=
  if f_eq (key self) (key other) then Eq
  else if f_lt (key self) (key other) then Gt
  else Lt.

(** [self <= other] through [partial_cmp]. *)
Definition wrapper_le (self other : SortWrapper T) : bool :=
  match cmp self other with Gt => false | _ => true end.

Definition JitterPipe_new (config : JitterPipeConfig) : JitterPipe T :=
  {| heap := []; key_seq := S754_zero false; jp_config := config |}.

(** [config_mut]: what the caller does with the configuration is [m]. *)
Definition config_mut {A} (m : M JitterPipeConfig A) : M (JitterPipe T) A :=
  st_zoom jp_config (fun cfg p => MkPipe (heap p) (key_seq p) cfg) m.

Definition next_key (draw : f32 * bool) : M (JitterPipe T) f32 :=
  st_modify (fun p => MkPipe (heap p) (f32_add (key_seq p) (f32_lit 1 1)) (jp_config p));;
  self ← st_get;
  mret (f32_add (key_seq self) (jitter draw (jp_config self))).

(** [self.heap.push(SortWrapper { key, item })]. *)
Definition pipe_push (w : SortWrapper T) : M (JitterPipe T) unit :=
  st_update (fun p => h ← heap_push wrapper_le w (heap p); Some (MkPipe h (key_seq p) (jp_config p))).

Definition pipe_insert (d : Draws) (x : T) : M (JitterPipe T) unit :=
  self ← st_get;
  if should_drop (drop_draw d) (jp_config self) then mret tt
  else
    (if should_duplicate (duplicate_draw d) (jp_config self) then
       key ← next_key (duplicate_jitter d);
       pipe_push (MkWrapper key x)
     else mret tt);;
    key ← next_key (item_jitter d);
    pipe_push (MkWrapper key x).

Definition take_next : M (JitterPipe T) (option T) :=
  self ← st_get;
  '(o, h) ← st_lift (heap_pop wrapper_le (heap self));
  st_put (MkPipe h (key_seq self) (jp_config self));;
  mret (item <$> o).

Definition pipe_is_empty (self : JitterPipe T) : bool := match heap self with [] => true | _ => false end.
End pipe.

(** ** Sequences of calls *)
Inductive pipe_op (T : Type) :=
| PipeInsert (d : Draws) (x : T)
| PipeTake.
Arguments PipeInsert {_} _ _.
Arguments PipeTake {_}.

Lemma StronglySorted_snoc (l : list Z) x : StronglySorted Z.lt l -> Forall (fun y => y < x) l -> StronglySorted Z.lt (l ++ [x]).
Proof.
  induction 1 as [|y l Hl IH Hy]; intros Hx; [by repeat constructor|]. apply Forall_cons in Hx as [Hyx Hx].
  constructor; [auto|]. apply Forall_app. by repeat constructor.
Qed.

Section runs.
Context {T : Type}.
Implicit Types (self : JitterPipe T) (op : pipe_op T) (w : SortWrapper T).

(** The state after the calls, and what the [take_next]s returned. *)
Fixpoint run_pipe (ops : list (pipe_op T)) self : option (JitterPipe T * list (option T)) :=
  match ops with
  | [] => Some (self, [])
  | PipeInsert d x :: ops =>
      match pipe_insert d x self with
      | Some (self, Ok _) => run_pipe ops self
      | _ => None
      end
  | PipeTake :: ops =>
      match take_next self with
      | Some (self, Ok o) => '(self, outs) ← run_pipe ops self; Some (self, o :: outs)
      | _ => None
      end
  end.

(** A first-in first-out queue with the same interface. *)
Fixpoint run_queue (ops : list (pipe_op T)) (q : list T) : list T * list (option T) :=
  match ops with
  | [] => (q, [])
  | PipeInsert _ x :: ops => run_queue ops (q ++ [x])
  | PipeTake :: ops => let '(q', outs) := run_queue ops (tail q) in (q', head q :: outs)
  end.

Definition inserted (ops : list (pipe_op T)) : list T :=
  omap (fun op => match op with PipeInsert _ x => Some x | PipeTake => None end) ops.

(** *** The pipe as a bag of packets *)

(** One key and one push. *)
Definition push_next (j : f32 * bool) (x : T) : M (JitterPipe T) unit := key ← next_key j; pipe_push (MkWrapper key x).

Lemma push_next_run j x self h :
  heap_push wrapper_le (MkWrapper (f32_add (f32_add (key_seq self) (f32_lit 1 1)) (jitter j (jp_config self))) x)
    (heap self) = Some h ->
  push_next j x self = Some (MkPipe h (f32_add (key_seq self) (f32_lit 1 1)) (jp_config self), Ok tt).
Proof.
  intros Hrun. unfold push_next, next_key, pipe_push, st_update, mbind, ST_bind, st_modify, st_get.
  cbn [heap key_seq jp_config mret ST_ret]. by rewrite Hrun.
Qed.

Lemma pipe_insert_run d x self : exists self' n, pipe_insert d x self = Some (self', Ok tt) /\ (n <= 2)%nat /\
  item <$> heap self' ≡ₚ replicate n x ++ (item <$> heap self).
Proof.
  unfold pipe_insert. rewrite run_get. destruct (should_drop _ _); [by exists self, 0%nat; split_and!; [|lia|]|].
  assert (Hone : forall j p, exists p', push_next j x p = Some (p', Ok tt) /\ item <$> heap p' ≡ₚ x :: (item <$> heap p)).
  { intros j p. set (k := f32_add (f32_add (key_seq p) (f32_lit 1 1)) (jitter j (jp_config p))).
    destruct (heap_push_perm wrapper_le (MkWrapper k x) (heap p)) as (h & Hrun & Hperm). eexists. split; [by apply push_next_run|]. cbn. by rewrite Hperm. }
  fold (push_next (item_jitter d) x). fold (push_next (duplicate_jitter d) x).
  destruct (should_duplicate _ _).
  - destruct (Hone (duplicate_jitter d) self) as (p1 & Hrun1 & Hp1). run_step Hrun1.
    destruct (Hone (item_jitter d) p1) as (p2 & Hrun2 & Hp2). exists p2, 2%nat. split; [done|]. split; [lia|].
    by rewrite Hp2, Hp1.
  - run_done. destruct (Hone (item_jitter d) self) as (p1 & Hrun1 & Hp1). exists p1, 1%nat. split; [done|]. split; [lia|done].
Qed.

Lemma take_next_run self : exists self' o, take_next self = Some (self', Ok o) /\
  item <$> heap self ≡ₚ option_list o ++ (item <$> heap self') /\ (o = None -> heap self' = []).
Proof.
  destruct (heap_pop_perm wrapper_le (heap self)) as (o & h & Hrun & Ho).
  exists (MkPipe h (key_seq self) (jp_config self)), (item <$> o). split.
  - unfold take_next. rewrite run_get, Hrun. done.
  - destruct o as [w|]; cbn; [|by destruct Ho as [-> ->]]. destruct Ho as [_ Hperm]. by rewrite Hperm.
Qed.

Lemma run_pipe_conserves ops self :
  exists self' outs ns, run_pipe ops self = Some (self', outs) /\
    length ns = length (inserted ops) /\ Forall (fun n => (n <= 2)%nat) ns /\
    omap id outs ++ (item <$> heap self') ≡ₚ (item <$> heap self) ++ concat (zip_with replicate ns (inserted ops)).
Proof.
  revert self. induction ops as [|[d x|] ops IH]; intros self.
  - exists self, [], []. split_and!; [done..|]. by rewrite app_nil_r.
  - destruct (pipe_insert_run d x self) as (self1 & n & Hrun & Hn & Hperm).
    destruct (IH self1) as (self' & outs & ns & Hruns & Hlen & Hns & Hall). exists self', outs, (n :: ns).
    cbn [run_pipe]. rewrite Hrun. split; [done|]. split; [by cbn; rewrite Hlen|]. split; [by constructor|].
    rewrite Hall, Hperm. cbn. rewrite !app_assoc.
    apply Permutation_app; [apply Permutation_app_comm|done].
  - destruct (take_next_run self) as (self1 & o & Hrun & Hperm & _).
    destruct (IH self1) as (self' & outs & ns & Hruns & Hlen & Hns & Hall). exists self', (o :: outs), ns.
    cbn [run_pipe]. rewrite Hrun. cbn. rewrite Hruns. split; [done|]. split; [done|]. split; [done|].
    rewrite Hperm, <- app_assoc, <- Hall. by destruct o.
Qed.

(** *** The order *)

(** A wrapper whose key is a whole number. *)
Definition numbered (w : SortWrapper T) : Prop := exists n, 0 < n /\ f32_is (key w) n.

Lemma wrapper_le_total (x y : SortWrapper T) : wrapper_le x y = true \/ wrapper_le y x = true.
Proof.
  unfold wrapper_le, cmp, f_eq, f_lt, SFeqb, SFltb.
  destruct (SFcompare (key x) (key y)) as [[]|] eqn:Hxy; [by left| |by left..].
  right. assert (Hyx : SFcompare (key y) (key x) = Some Gt) by (by apply SFcompare_antisym).
  by rewrite Hyx.
Qed.

Lemma wrapper_le_numbered (x y : SortWrapper T) a b : f32_is (key x) a -> f32_is (key y) b -> 0 < a -> 0 < b ->
  wrapper_le x y = (b <=? a).
Proof.
  intros Hx Hy Ha Hb. unfold wrapper_le, cmp, f_eq, f_lt, SFeqb, SFltb.
  rewrite (f32_is_compare _ _ a b) by done. destruct (Z.compare_spec a b); symmetry; lia.
Qed.

Lemma wrapper_le_trans (x y z : SortWrapper T) : numbered x -> numbered y -> numbered z ->
  wrapper_le x y = true -> wrapper_le y z = true -> wrapper_le x z = true.
Proof.
  intros (a & Ha & Hx) (b & Hb & Hy) (c & Hc & Hz).
  rewrite (wrapper_le_numbered x y a b), (wrapper_le_numbered y z b c), (wrapper_le_numbered x z a c) by done. lia.
Qed.

(** A disabled pipe after [n] insertions, with the packets [q] inside: they
    carry increasing whole numbers as keys. *)
Record fifo (n : Z) (q : list T) self : Prop := {
  ff_off : enabled (jp_config self) = false;
  ff_seq : (n = 0 /\ key_seq self = S754_zero false) \/ (0 < n /\ f32_is (key_seq self) n);
  ff_heap : is_heap wrapper_le (heap self);
  ff_queue : exists ws ks, heap self ≡ₚ ws /\ item <$> ws = q /\ Forall2 (fun w k => f32_is (key w) k) ws ks /\
    StronglySorted Z.lt ks /\ Forall (fun k => 0 < k <= n) ks;
}.

Lemma fifo_numbered n q self : fifo n q self -> Forall numbered (heap self).
Proof.
  intros [_ _ _ (ws & ks & Hperm & _ & Hkeys & _ & Hks)]. rewrite Hperm. clear Hperm.
  induction Hkeys as [|w k ws ks Hk Hkeys IH]; [done|]. apply Forall_cons in Hks as [Hr Hks].
  constructor; [exists k; split; [lia|done]|auto].
Qed.

Lemma fifo_new cfg : enabled cfg = false -> fifo 0 [] (JitterPipe_new cfg).
Proof.
  intros Hoff. split; [done|by left|intros j a b Hj Ha; cbn [heap JitterPipe_new] in Ha; by rewrite lookup_nil in Ha|].
  exists [], []. split_and!; try done; constructor.
Qed.

Lemma fifo_insert n q self d x : fifo n q self -> 0 <= n -> n + 1 < 2 ^ 24 ->
  exists self', pipe_insert d x self = Some (self', Ok tt) /\ fifo (n + 1) (q ++ [x]) self'.
Proof.
  intros Hf Hn Hlt. pose proof (fifo_numbered n q self Hf) as Hnum. destruct Hf as [Hoff Hseq Hheap (ws & ks & Hperm & Hq & Hkeys & Hsort & Hks)].
  set (k := f32_add (key_seq self) (f32_lit 1 1)).
  assert (Hk : f32_is k (n + 1)).
  { unfold k. change (f32_lit 1 1) with (f32_of_Z 1). destruct Hseq as [[-> ->]|[Hpos Hseq]].
    - by apply (f32_of_Z_is 1).
    - by apply f32_add_one. }
  assert (Hk0 : f32_add k (S754_zero false) = k) by (destruct Hk as (m & e & -> & _); done).
  destruct (heap_push_spec wrapper_le numbered wrapper_le_total wrapper_le_trans (MkWrapper k x) (heap self))
    as (h & Hrun & Hh & Hheap'); [exists (n + 1); split; [lia|done]|done..|].
  exists (MkPipe h k (jp_config self)). split.
  - unfold pipe_insert, should_drop, should_duplicate. rewrite run_get, Hoff. cbn [andb].
    run_done.
    fold (push_next (item_jitter d) x). rewrite (push_next_run _ _ _ h); [done|]. unfold jitter. rewrite Hoff. cbn [negb].
    fold k. by rewrite Hk0.
  - split; cbn; [done|right; split; [lia|done]|done|].
    exists (ws ++ [MkWrapper k x]), (ks ++ [n + 1]). split_and!.
    + by rewrite Hh, Hperm, (Permutation_app_comm ws).
    + by rewrite fmap_app, Hq.
    + apply Forall2_app; [done|]. by repeat constructor.
    + apply StronglySorted_snoc; [done|]. eapply Forall_impl; [exact Hks|]. simpl. lia.
    + apply Forall_app. split; [eapply Forall_impl; [exact Hks|]; simpl; lia|]. constructor; [lia|done].
Qed.

Lemma fifo_take n q self : fifo n q self ->
  exists self', take_next self = Some (self', Ok (head q)) /\ fifo n (tail q) self'.
Proof.
  intros Hf. pose proof (fifo_numbered n q self Hf) as Hnum. destruct Hf as [Hoff Hseq Hheap (ws & ks & Hperm & Hq & Hkeys & Hsort & Hks)].
  destruct (heap_pop_spec wrapper_le numbered wrapper_le_total wrapper_le_trans (heap self) Hnum Hheap) as (o & h & Hrun & Hh & Ho).
  exists (MkPipe h (key_seq self) (jp_config self)).
  assert (Htake : take_next self = Some (MkPipe h (key_seq self) (jp_config self), Ok (item <$> o))).
  { unfold take_next. by rewrite run_get, Hrun. }
  rewrite Htake. destruct Hkeys as [|w k ws ks Hk Hkeys].
  - destruct o as [x|].
    { destruct Ho as [Hx _]. rewrite Hx in Hperm. by apply Permutation_nil_r in Hperm. }
    destruct Ho as [_ ->]. subst q. split; [done|]. split; try done. by exists [], [].
  - destruct o as [x|]; [|destruct Ho as [Ho _]; rewrite Ho in Hperm; by apply Permutation_nil_l in Hperm].
    destruct Ho as [Hx Hmax]. apply StronglySorted_inv in Hsort as [Hsort Hlt]. apply Forall_cons in Hks as [Hkr Hks].
    assert (x = w) as ->.
    { assert (Hin : x ∈ w :: ws) by (rewrite <- Hperm, Hx; constructor).
      apply elem_of_cons in Hin as [|Hin]; [done|]. exfalso.
      assert (Hle : wrapper_le w x = true) by (apply Hmax; rewrite Hperm; constructor).
      apply list_elem_of_lookup in Hin as [i Hi]. destruct (Forall2_lookup_l _ _ _ _ _ Hkeys Hi) as (kx & Hkx & Hkey).
      rewrite Forall_lookup in Hlt. rewrite Forall_lookup in Hks. specialize (Hlt i kx Hkx). specialize (Hks i kx Hkx).
      rewrite (wrapper_le_numbered w x k kx) in Hle by (done || lia). lia. }
    subst q. split; [done|]. split; try done. exists ws, ks. split_and!; try done.
    apply (Permutation_cons_inv (a:=w)). by rewrite <- Hx, Hperm.
Qed.

Lemma run_pipe_fifo ops n q self : fifo n q self -> 0 <= n -> n + Z.of_nat (length (inserted ops)) < 2 ^ 24 ->
  exists self', run_pipe ops self = Some (self', (run_queue ops q).2) /\
    fifo (n + Z.of_nat (length (inserted ops))) (run_queue ops q).1 self'.
Proof.
  revert n q self. induction ops as [|[d x|] ops IH]; intros n q self Hf Hn Hlt.
  - exists self. split; [done|]. by rewrite Z.add_0_r.
  - cbn [inserted omap list_omap length] in *. change (omap _ ops) with (inserted ops) in *.
    destruct (fifo_insert n q self d x Hf Hn) as (self1 & Hrun & Hf1); [lia|].
    destruct (IH (n + 1) (q ++ [x]) self1 Hf1) as (self' & Hruns & Hf'); [lia..|]. exists self'.
    cbn [run_pipe run_queue]. rewrite Hrun. split; [done|]. replace (n + _) with (n + 1 + Z.of_nat (length (inserted ops))) by lia. done.
  - change (inserted (PipeTake :: ops)) with (inserted ops) in *.
    destruct (fifo_take n q self Hf) as (self1 & Hrun & Hf1).
    destruct (IH n (tail q) self1 Hf1 Hn Hlt) as (self' & Hruns & Hf'). exists self'.
    cbn [run_pipe run_queue]. rewrite Hrun, Hruns. destruct (run_queue ops (tail q)) as [q' outs]. done.
Qed.
End runs.

(** C39. A pipe only ever loses, repeats and reorders: whatever the draws and the
    calls, it never panics, and what was taken out together with what still
    waits is, up to order, every inserted packet zero, one or two times. *)
Theorem pipe_conserves_packets {T} cfg (ops : list (pipe_op T)) :
  exists self outs ns, run_pipe ops (JitterPipe_new cfg) = Some (self, outs) /\
    length ns = length (inserted ops) /\ Forall (fun n => (n <= 2)%nat) ns /\
    omap id outs ++ (item <$> heap self) ≡ₚ concat (zip_with replicate ns (inserted ops)).
Proof. apply (run_pipe_conserves ops (JitterPipe_new cfg)). Qed.

(** C38. A disabled pipe is a perfect queue, as its documentation says, for its
    first [2^24 - 1] packets: whatever the order of insertions and removals, it
    returns exactly what a first-in first-out queue returns.  (The keys are
    whole [f32] numbers, and up to there adding one is exact.) *)
Theorem disabled_pipe_is_a_queue {T} cfg (ops : list (pipe_op T)) : enabled cfg = false ->
  Z.of_nat (length (inserted ops)) < 2 ^ 24 ->
  exists self, run_pipe ops (JitterPipe_new cfg) = Some (self, (run_queue ops []).2).
Proof.
  intros Hoff Hlt. destruct (run_pipe_fifo ops 0 [] (JitterPipe_new cfg) (fifo_new cfg Hoff)) as (self & Hrun & _); [lia..|].
  by exists self.
Qed.

Definition no_draws : Draws := MkDraws (S754_zero false) (S754_zero false) (S754_zero false, true) (S754_zero false, true).

Definition example_pipe_ops : list (pipe_op Z) :=
  [PipeInsert no_draws 7; PipeInsert no_draws 8; PipeTake; PipeInsert no_draws 9; PipeTake; PipeTake; PipeTake].

Lemma disabled_pipe_is_a_queue_witness : exists self,
  run_pipe example_pipe_ops (JitterPipe_new disabled) = Some (self, [Some 7; Some 8; Some 9; None]).
Proof. apply (disabled_pipe_is_a_queue disabled example_pipe_ops); [reflexivity|vm_compute; reflexivity]. Defined.

(** After that the counter no longer counts: [2^24 + 1] is not an [f32],
    the next keys are all equal, and the disabled pipe returns the third of
    four packets second. *)
Theorem old_pipe_reorders (a b c d : Z) self : enabled (jp_config self) = false -> heap self = [] ->
  key_seq self = f32_of_Z (2 ^ 24) ->
  exists self', run_pipe [PipeInsert no_draws a; PipeInsert no_draws b; PipeInsert no_draws c; PipeInsert no_draws d;
      PipeTake; PipeTake; PipeTake; PipeTake] self = Some (self', [Some a; Some c; Some b; Some d]).
Proof.
  destruct self as [h k [e dr du mj]]. cbn. intros -> -> ->. eexists. vm_compute. reflexivity.
Qed.

Lemma old_pipe_reorders_witness : exists self',
  run_pipe [PipeInsert no_draws 1; PipeInsert no_draws 2; PipeInsert no_draws 3; PipeInsert no_draws 4;
      PipeTake; PipeTake; PipeTake; PipeTake] (MkPipe [] (f32_of_Z (2 ^ 24)) disabled) =
    Some (self', [Some 1; Some 3; Some 2; Some 4]).
Proof. apply old_pipe_reorders; reflexivity. Defined.
