(* ===== verification/SequenceBuffer.v ===== *)
(** * Sequence buffers ([sequence_buffer.rs])

    A ring of [len] slots indexed by sequence number modulo [len]; a slot
    remembers the full sequence number it holds ([0xFFFF_FFFF] when empty). *)

From S2P Require Import Prelude Floats Types.

Record SequenceBuffer (T : Type) := MkSequenceBuffer {
  entries : list T;
  entry_sequences : list Z;
  sequence : Z;
}.
Arguments MkSequenceBuffer {T} _ _ _.
Arguments entries {T} _.
Arguments entry_sequences {T} _.
Arguments sequence {T} _.

(** The marker of an empty slot. *)
Definition EMPTY_SLOT : Z := 4294967295.

(** ** Wrapping comparison of sequence numbers *)
Definition sequence_greater_than (s1 s2 : Z) : bool :=
  ((s2 <? s1) && (s1 - s2 <=? 32768)) || ((s1 <? s2) && (32768 <? s2 - s1)).

Definition sequence_less_than (s1 s2 : Z) : bool := sequence_greater_than s2 s1.

Module SeqBuf.
Section ops.
Context {T : Type} `{!Default T}.

Definition with_capacity (size : Z) : SequenceBuffer T := {|
  sequence := 0;
  entries := replicate (Z.to_nat size) default_value;
  entry_sequences := replicate (Z.to_nat size) EMPTY_SLOT;
|}.

Definition len (self : SequenceBuffer T) : Z := Z.of_nat (length (entries self)).

(** [is_empty] as the source has it: [self.len() > 0]. *)
Definition is_empty (self : SequenceBuffer T) : bool := 0 <? len self.

(** [sequence % self.entries.len() as u16]: a remainder by zero panics. *)
Definition index (self : SequenceBuffer T) (seq : Z) : option nat :=
  let l := wrap16 (len self) in
  if l =? 0 then None else Some (Z.to_nat (seq mod l)).

Definition exists_ (self : SequenceBuffer T) (seq : Z) : option bool :=
  i ← index self seq;
  e ← entry_sequences self !! i;
  Some (e =? seq).

Definition get (self : SequenceBuffer T) (seq : Z) : option (option T) :=
  i ← index self seq;
  e ← entry_sequences self !! i;
  if negb (e =? seq) then Some None
  else v ← entries self !! i; Some (Some v).

(** A write to [self.entries[index]]. *)
Definition set_entry (i : nat) (v : T) (self : SequenceBuffer T) : option (SequenceBuffer T) :=
  es ← vec_set i v (entries self);
  Some {| entries := es; entry_sequences := entry_sequences self; sequence := sequence self |}.

(** A write to [self.entry_sequences[index]]. *)
Definition set_entry_sequence (i : nat) (e : Z) (self : SequenceBuffer T) : option (SequenceBuffer T) :=
  qs ← vec_set i e (entry_sequences self);
  Some {| entries := entries self; entry_sequences := qs; sequence := sequence self |}.

Definition set_sequence (seq : Z) (self : SequenceBuffer T) : SequenceBuffer T :=
  {| entries := entries self; entry_sequences := entry_sequences self; sequence := seq |}.

(** [get_mut]: the entry, with the write through the reference it yields. *)
Definition get_mut (self : SequenceBuffer T) (seq : Z)
  : option (option (T * (T -> option (SequenceBuffer T)))) :=
  i ← index self seq;
  e ← entry_sequences self !! i;
  if negb (e =? seq) then Some None
  else v ← entries self !! i; Some (Some (v, fun v' => set_entry i v' self)).

Definition remove (seq : Z) : M (SequenceBuffer T) (option T) :=
  i ← st_asks (fun self => index self seq);
  e ← st_asks (fun self => entry_sequences self !! i);
  ret ← (if negb (e =? seq) then
           st_update (set_entry i default_value);;
           mret None
         else
           el ← st_asks (fun self => entries self !! i);
           st_update (set_entry i default_value);;
           mret (Some el));
  st_update (set_entry_sequence i EMPTY_SLOT);;
  mret ret.

(** [for i in start..=end]: empty when [start > end]. *)
Definition remove_range (start end_ : Z) : M (SequenceBuffer T) unit :=
  st_for (seqZ start (end_ - start + 1)) (fun i => remove i;; mret tt).

Definition insert (seq : Z) (data : T) : M (SequenceBuffer T) unit :=
  self ← st_get;
  if sequence_less_than seq (wrap16 (sequence self - wrap16 (len self))) then
    st_throw SequenceTooOld
  else
    (if sequence_greater_than seq (sequence self) then
       let first_candidate := wrap16 (sequence self + 1) in
       (if negb (first_candidate =? seq) then remove_range first_candidate seq
        else mret tt);;
       st_modify (set_sequence seq)
     else mret tt);;
    i ← st_asks (fun self => index self seq);
    st_update (set_entry i data);;
    st_update (set_entry_sequence i seq).

Definition check_sequence (self : SequenceBuffer T) (seq : Z) : bool :=
  sequence_greater_than seq (wrap16 (sequence self - wrap16 (len self))).

Definition check_newer_than_current (self : SequenceBuffer T) (seq : Z) : bool :=
  sequence_greater_than seq (sequence self).

(** [reset]; the capacity of the vectors, which [with_capacity] makes the
    requested size, is the number of slots. *)
Definition reset (self : SequenceBuffer T) : SequenceBuffer T := with_capacity (len self).
End ops.
End SeqBuf.

(** ** Facts about the wrapping comparison *)

(** [s1] is greater than [s2] when it is less than half the number space
    ahead; exactly half the space apart, the plain order decides. *)
Lemma sequence_greater_than_spec s1 s2 : u16 s1 -> u16 s2 ->
  sequence_greater_than s1 s2 = true <->
  0 < wrap16 (s1 - s2) < 32768 \/ (wrap16 (s1 - s2) = 32768 /\ s2 < s1).
Proof.
  intros H1 H2. unfold sequence_greater_than.
  rewrite orb_true_iff, !andb_true_iff, !Z.ltb_lt, Z.leb_le. u16_solve.
Qed.

Lemma sequence_greater_than_irrefl s : sequence_greater_than s s = false.
Proof. unfold sequence_greater_than. rewrite Z.ltb_irrefl. done. Qed.

Lemma sequence_greater_than_total s1 s2 : u16 s1 -> u16 s2 -> s1 <> s2 ->
  sequence_greater_than s1 s2 = negb (sequence_greater_than s2 s1).
Proof.
  intros H1 H2 Hne. unfold sequence_greater_than.
  apply eq_true_iff_eq.
  rewrite negb_true_iff, <- not_true_iff_false, !orb_true_iff, !andb_true_iff, !Z.ltb_lt, !Z.leb_le.
  lia.
Qed.

Lemma sequence_greater_than_succ s d : u16 s -> 0 < d < 32768 ->
  sequence_greater_than (wrap16 (s + d)) s = true.
Proof.
  intros Hs Hd. apply sequence_greater_than_spec; [apply wrap16_range|done|].
  left. u16_solve.
Qed.

(** ** Well-formed buffers and their contents *)
Module SeqBufFacts.
Export SeqBuf.
Section facts.
Context {T : Type} `{!Default T}.
Implicit Types sb : SequenceBuffer T.

Record wf sb : Prop := {
  wf_length : length (entry_sequences sb) = length (entries sb);
  wf_len : 0 < len sb < 65536;
  wf_sequence : u16 (sequence sb);
  wf_slot : forall i e, entry_sequences sb !! i = Some e ->
    e = EMPTY_SLOT \/ (u16 e /\ Z.to_nat (e mod len sb) = i);
}.

Definition slot sb (k : Z) : nat := Z.to_nat (k mod len sb).

(** The entry a sequence number finds. *)
Definition find sb (k : Z) : option T :=
  if decide (entry_sequences sb !! slot sb k = Some k) then entries sb !! slot sb k else None.

Lemma slot_lt sb k : wf sb -> (slot sb k < length (entries sb))%nat.
Proof.
  intros []. unfold slot, len in *.
  pose proof (Z.mod_pos_bound k (Z.of_nat (length (entries sb)))). lia.
Qed.

Lemma index_slot sb k : wf sb -> index sb k = Some (slot sb k).
Proof.
  intros []. unfold index, slot. rewrite wrap16_small by lia.
  rewrite (proj2 (Z.eqb_neq _ _)) by lia. done.
Qed.

Lemma slot_eq_iff sb j k : wf sb ->
  slot sb j = slot sb k <-> j mod len sb = k mod len sb.
Proof.
  intros []. unfold slot.
  pose proof (Z.mod_pos_bound j (len sb)). pose proof (Z.mod_pos_bound k (len sb)). lia.
Qed.

(** A slot holds one sequence number. *)
Lemma find_same_slot sb j k : is_Some (find sb j) -> is_Some (find sb k) -> slot sb j = slot sb k -> j = k.
Proof. unfold find. intros [? Hj] [? Hk] Hs. repeat case_decide; try done. rewrite Hs in *. congruence. Qed.

Lemma get_find sb k : wf sb -> get sb k = Some (find sb k).
Proof.
  intros Hwf. pose proof (slot_lt sb k Hwf) as Hlt.
  unfold get, find. rewrite index_slot by done. cbn [mbind option_bind].
  destruct (lookup_lt_is_Some_2 (entry_sequences sb) (slot sb k)) as [e He].
  { destruct Hwf. lia. }
  destruct (lookup_lt_is_Some_2 (entries sb) (slot sb k)) as [v Hv]; [done|].
  rewrite He, Hv. cbn [mbind option_bind].
  destruct (Z.eqb_spec e k) as [->|Hne]; simpl.
  - by rewrite decide_True.
  - by rewrite decide_False by congruence.
Qed.

Lemma exists_find sb k : wf sb -> exists_ sb k = Some (bool_decide (is_Some (find sb k))).
Proof.
  intros Hwf. pose proof (get_find sb k Hwf) as Hg. revert Hg.
  unfold get, exists_. rewrite index_slot by done. cbn [mbind option_bind].
  destruct (entry_sequences sb !! slot sb k) as [e|]; [|done]. cbn [mbind option_bind].
  destruct (e =? k); simpl.
  - destruct (entries sb !! slot sb k) as [v|]; [|done]. simpl.
    intros [= <-]. by rewrite bool_decide_true by eauto.
  - intros [= <-]. rewrite bool_decide_false; [done|]. by intros [? ?].
Qed.

(** [get_mut] finds what [get] finds, and its write-back replaces just
    that entry. *)
Lemma get_mut_find sb k : wf sb ->
  get_mut sb k = Some ((fun v => (v, fun v' => set_entry (slot sb k) v' sb)) <$> find sb k).
Proof.
  intros Hwf. pose proof (get_find sb k Hwf) as Hg. revert Hg.
  unfold get, get_mut. rewrite index_slot by done. cbn [mbind option_bind].
  destruct (entry_sequences sb !! slot sb k) as [e|]; [|done]. cbn [mbind option_bind].
  destruct (e =? k); simpl; [|by intros [= <-]].
  destruct (entries sb !! slot sb k) as [v|]; [|done]. simpl. by intros [= <-].
Qed.

Lemma with_capacity_wf size : 0 < size < 65536 -> wf (with_capacity size).
Proof.
  intros Hs. split; unfold len; simpl; rewrite ?length_replicate; try lia.
  intros i e [-> _]%lookup_replicate. by left.
Qed.

(** Emptying a slot. *)
Definition clear_slot (i : nat) sb : SequenceBuffer T := {|
  entries := <[i:=default_value]> (entries sb);
  entry_sequences := <[i:=EMPTY_SLOT]> (entry_sequences sb);
  sequence := sequence sb |}.

(** Filling a slot. *)
Definition fill_slot (k : Z) (v : T) sb : SequenceBuffer T := {|
  entries := <[slot sb k:=v]> (entries sb);
  entry_sequences := <[slot sb k:=k]> (entry_sequences sb);
  sequence := sequence sb |}.

Lemma clear_slot_wf i sb : wf sb -> wf (clear_slot i sb).
Proof.
  intros []. split; unfold len in *; simpl; rewrite ?length_insert; try done.
  intros j e [[-> [<- _]]|[_ He]]%list_lookup_insert_Some; auto.
Qed.

Lemma fill_slot_wf k v sb : wf sb -> u16 k -> wf (fill_slot k v sb).
Proof.
  intros [] Hk. split; unfold len in *; simpl; rewrite ?length_insert; try done.
  intros j e [[<- [<- _]]|[_ He]]%list_lookup_insert_Some; auto.
Qed.

Lemma slot_clear_slot i sb k : slot (clear_slot i sb) k = slot sb k.
Proof. unfold slot, len. simpl. by rewrite length_insert. Qed.

Lemma slot_fill_slot k v sb j : slot (fill_slot k v sb) j = slot sb j.
Proof. unfold slot at 1, len. simpl. by rewrite length_insert. Qed.

Lemma find_clear_slot i sb k : wf sb -> u16 k ->
  find (clear_slot i sb) k = if decide (slot sb k = i) then None else find sb k.
Proof.
  intros Hwf Hk. unfold find. rewrite slot_clear_slot. simpl.
  pose proof (slot_lt sb k Hwf) as Hlt. pose proof (wf_length sb Hwf) as Hl.
  destruct (decide (slot sb k = i)) as [<-|Hne].
  - rewrite list_lookup_insert_eq by lia.
    rewrite decide_False; [done|]. unfold EMPTY_SLOT. intros [= ?]. lia.
  - by rewrite !list_lookup_insert_ne by congruence.
Qed.

Lemma find_fill_slot k v sb j : wf sb ->
  find (fill_slot k v sb) j =
    if decide (j = k) then Some v
    else if decide (slot sb j = slot sb k) then None else find sb j.
Proof.
  intros Hwf. unfold find at 1. rewrite slot_fill_slot. simpl.
  pose proof (slot_lt sb j Hwf) as Hlt. pose proof (wf_length sb Hwf) as Hl.
  destruct (decide (slot sb j = slot sb k)) as [Heq|Hne].
  - rewrite Heq in *. rewrite !list_lookup_insert_eq by lia.
    destruct (decide (j = k)) as [->|]; [by rewrite decide_True|].
    by rewrite decide_False by congruence.
  - rewrite !list_lookup_insert_ne by congruence.
    destruct (decide (j = k)) as [->|]; [done|]. done.
Qed.

Lemma remove_run sb k : wf sb -> remove k sb = Some (clear_slot (slot sb k) sb, Ok (find sb k)).
Proof.
  intros Hwf. pose proof (slot_lt sb k Hwf) as Hlt. pose proof (wf_length sb Hwf) as Hl.
  unfold remove, mbind, ST_bind, st_asks, st_update, set_entry, set_entry_sequence, find.
  rewrite index_slot by done.
  destruct (lookup_lt_is_Some_2 (entry_sequences sb) (slot sb k)) as [e He]; [lia|].
  destruct (lookup_lt_is_Some_2 (entries sb) (slot sb k)) as [v Hv]; [done|].
  rewrite He. destruct (Z.eqb_spec e k) as [->|Hne]; simpl.
  - rewrite Hv, vec_set_in_range by done. simpl. rewrite vec_set_in_range by (simpl; lia).
    by rewrite decide_True.
  - rewrite vec_set_in_range by done. simpl. rewrite vec_set_in_range by (simpl; lia).
    by rewrite decide_False by congruence.
Qed.

Definition clear_slots (l : list Z) sb : SequenceBuffer T :=
  foldl (fun sb k => clear_slot (slot sb k) sb) sb l.

Lemma clear_slots_wf l sb : wf sb -> wf (clear_slots l sb).
Proof. revert sb. induction l as [|k l IH]; intros sb Hwf; [done|]. by apply IH, clear_slot_wf. Qed.

Lemma clear_slots_len l sb : len (clear_slots l sb) = len sb.
Proof.
  revert sb. induction l as [|k l IH]; intros sb; [done|]. simpl. rewrite IH.
  unfold len. simpl. by rewrite length_insert.
Qed.

Lemma clear_slots_sequence l sb : sequence (clear_slots l sb) = sequence sb.
Proof. revert sb. induction l as [|k l IH]; intros sb; [done|]. simpl. by rewrite IH. Qed.

Lemma find_clear_slots l sb j : wf sb -> u16 j ->
  find (clear_slots l sb) j =
    if decide (slot sb j ∈ slot sb <$> l) then None else find sb j.
Proof.
  intros Hwf Hj. revert sb Hwf. induction l as [|k l IH]; intros sb Hwf.
  { rewrite decide_False; [done|]. by intros ?%elem_of_nil. }
  simpl. rewrite IH by (by apply clear_slot_wf).
  rewrite slot_clear_slot, (list_fmap_ext _ (slot sb) l)
    by (intros; apply slot_clear_slot).
  rewrite find_clear_slot by done.
  destruct (decide (slot sb j ∈ slot sb <$> l)) as [Hin|Hin],
    (decide (slot sb j = slot sb k)) as [He|He];
    case_decide as Hc; rewrite elem_of_cons in Hc; tauto || done.
Qed.

Lemma remove_range_run sb a b : wf sb ->
  remove_range a b sb = Some (clear_slots (seqZ a (b - a + 1)) sb, Ok tt).
Proof.
  intros Hwf. unfold remove_range. generalize (seqZ a (b - a + 1)). intros l.
  revert sb Hwf. induction l as [|k l IH]; intros sb Hwf; [done|].
  simpl. unfold mbind, ST_bind. rewrite remove_run by done. simpl.
  apply IH. by apply clear_slot_wf.
Qed.

(** The slots [insert] empties before it fills the new one: those of the
    sequence numbers it skips. *)
Definition skipped (seq k : Z) : list Z :=
  if sequence_greater_than k seq && negb (wrap16 (seq + 1) =? k)
  then seqZ (wrap16 (seq + 1)) (k - wrap16 (seq + 1) + 1) else [].

Definition advance (k : Z) sb : SequenceBuffer T :=
  if sequence_greater_than k (sequence sb)
  then set_sequence k (clear_slots (skipped (sequence sb) k) sb) else sb.

Definition too_old sb (k : Z) : bool :=
  sequence_less_than k (wrap16 (sequence sb - wrap16 (len sb))).

Lemma set_sequence_wf k sb : wf sb -> u16 k -> wf (set_sequence k sb).
Proof. intros [] Hk. by split. Qed.

Lemma advance_wf k sb : wf sb -> u16 k -> wf (advance k sb).
Proof.
  intros Hwf Hk. unfold advance. case_match; [|done].
  by apply set_sequence_wf, Hk; apply clear_slots_wf.
Qed.

Lemma advance_len k sb : len (advance k sb) = len sb.
Proof. unfold advance. case_match; [|done]. apply (clear_slots_len _ sb). Qed.

Lemma insert_run sb k v : wf sb -> u16 k ->
  insert k v sb =
    Some (if too_old sb k then (sb, Err SequenceTooOld)
          else (fill_slot k v (advance k sb), Ok tt)).
Proof.
  intros Hwf Hk. unfold insert, too_old. rewrite run_get.
  destruct (sequence_less_than k _); [done|].
  assert (Hfill : forall sb', wf sb' ->
    (i ← st_asks (fun self => index self k);
     st_update (set_entry i v);; st_update (set_entry_sequence i k)) sb'
    = Some (fill_slot k v sb', Ok tt (E:=PicklebackError))).
  { intros sb' Hwf'. pose proof (slot_lt sb' k Hwf'). pose proof (wf_length sb' Hwf').
    unfold mbind, ST_bind, st_asks, st_update, set_entry, set_entry_sequence.
    rewrite index_slot by done. rewrite vec_set_in_range by done. simpl.
    rewrite vec_set_in_range by (simpl; lia). done. }
  pose proof (advance_wf k sb Hwf Hk) as Hadv. revert Hadv. unfold advance, skipped.
  destruct (sequence_greater_than k (sequence sb)) eqn:Hgt; simpl.
  - destruct (wrap16 (sequence sb + 1) =? k) eqn:Hf; simpl.
    + intros Hadv. apply (Hfill _ Hadv).
    + intros Hadv. unfold mbind, ST_bind in Hfill |- *.
      rewrite remove_range_run by done. simpl. apply (Hfill _ Hadv).
  - intros Hadv. apply (Hfill _ Hadv).
Qed.

Lemma find_advance k sb j : wf sb -> u16 j ->
  find (advance k sb) j =
    if decide (j mod len sb ∈ (fun r => r mod len sb) <$> skipped (sequence sb) k)
    then None else find sb j.
Proof.
  intros Hwf Hj. unfold advance.
  assert (Hin : slot sb j ∈ slot sb <$> skipped (sequence sb) k <->
                j mod len sb ∈ (fun r => r mod len sb) <$> skipped (sequence sb) k).
  { rewrite !list_elem_of_fmap. split; intros (r & Hr & ?); exists r; split; try done;
      by apply (slot_eq_iff sb). }
  destruct (sequence_greater_than k (sequence sb)) eqn:Hgt.
  - change (find (set_sequence _ ?x) j) with (find x j).
    rewrite find_clear_slots by done. repeat case_decide; tauto.
  - unfold skipped. rewrite Hgt. case_decide as Hc; [|done].
    by apply elem_of_nil in Hc.
Qed.

(** What a sequence number finds after an accepted insertion. *)
Lemma find_insert k v sb j : wf sb -> u16 k -> u16 j ->
  find (fill_slot k v (advance k sb)) j =
    if decide (j = k) then Some v
    else if decide (j mod len sb = k mod len sb) then None
    else if decide (j mod len sb ∈ (fun r => r mod len sb) <$> skipped (sequence sb) k) then None
    else find sb j.
Proof.
  intros Hwf Hk Hj. rewrite find_fill_slot by (by apply advance_wf).
  rewrite find_advance by done.
  pose proof (slot_eq_iff (advance k sb) j k (advance_wf k sb Hwf Hk)) as Hiff.
  rewrite advance_len in Hiff. repeat case_decide; tauto.
Qed.

Lemma insert_sequence k v sb :
  sequence (fill_slot k v (advance k sb)) =
    if sequence_greater_than k (sequence sb) then k else sequence sb.
Proof. unfold advance. by destruct (sequence_greater_than k (sequence sb)). Qed.

Lemma insert_len k v sb : len (fill_slot k v (advance k sb)) = len sb.
Proof. rewrite <- (advance_len k sb). unfold len. simpl. by rewrite length_insert. Qed.

(** A write through [get_mut]. *)
Lemma set_entry_run k v w sb : wf sb -> find sb k = Some w ->
  exists sb', set_entry (slot sb k) v sb = Some sb' /\ wf sb' /\ sequence sb' = sequence sb /\
    len sb' = len sb /\ (forall j, find sb' j = if decide (j = k) then Some v else find sb j).
Proof.
  intros Hwf Hf. pose proof (slot_lt sb k Hwf) as Hlt. unfold set_entry.
  rewrite vec_set_in_range by done. simpl. eexists. split; [done|].
  assert (Hl : len {| entries := <[slot sb k:=v]> (entries sb);
                      entry_sequences := entry_sequences sb; sequence := sequence sb |} = len sb)
    by (unfold len; simpl; by rewrite length_insert).
  destruct Hwf as [Hlen Hn Hs Hsl]. split; [|split; [done|split; [done|]]].
  { split; [simpl; by rewrite length_insert|by rewrite Hl|done|]. rewrite Hl. exact Hsl. }
  intros j. unfold find, slot in *. rewrite Hl. simpl.
  destruct (decide (entry_sequences sb !! Z.to_nat (k mod len sb) = Some k)) as [Hk|]; [|done].
  destruct (decide (j = k)) as [->|Hne].
  - rewrite decide_True by done. by rewrite list_lookup_insert_eq.
  - destruct (decide (entry_sequences sb !! Z.to_nat (j mod len sb) = Some j)) as [Hj|]; [|done].
    rewrite list_lookup_insert_ne; [done|]. intros Heq. rewrite <- Heq in Hj. congruence.
Qed.

Lemma find_with_capacity size k : u16 k -> find (with_capacity size) k = None.
Proof.
  intros Hk. unfold find. rewrite decide_False; [done|].
  simpl. intros [? _]%lookup_replicate. unfold EMPTY_SLOT in *. lia.
Qed.

Lemma find_u16 sb k v : wf sb -> find sb k = Some v -> k <> EMPTY_SLOT -> u16 k.
Proof.
  intros Hwf. unfold find. case_decide as Hs; [|done]. intros _ Hne.
  destruct (wf_slot sb Hwf _ _ Hs) as [?|[? _]]; done.
Qed.
End facts.
End SeqBufFacts.

(** ** Abstract specification: a sliding window of numbered entries

    The window is a finite map from sequence numbers to entries, with the
    greatest number inserted so far.  Inserting a number drops the entries
    that share a slot with it, or with a number it skips. *)
Module Window.
Section spec.
Context {T : Type}.

Record window := MkWindow { w_len : Z; w_seq : Z; w_map : gmap Z T }.

Definition drops (w : window) (k j : Z) : bool :=
  bool_decide (j mod w_len w ∈ (fun r => r mod w_len w) <$> (k :: SeqBufFacts.skipped (w_seq w) k)).

Definition insert (k : Z) (v : T) (w : window) : window * result unit PicklebackError :=
  if sequence_less_than k (wrap16 (w_seq w - w_len w)) then (w, Err SequenceTooOld)
  else
    ({| w_len := w_len w;
        w_seq := if sequence_greater_than k (w_seq w) then k else w_seq w;
        w_map := <[k:=v]> (filter (fun p => drops w k p.1 = false) (w_map w)) |},
     Ok tt).

Definition remove (k : Z) (w : window) : window * option T :=
  ({| w_len := w_len w; w_seq := w_seq w;
      w_map := filter (fun p => p.1 mod w_len w <> k mod w_len w) (w_map w) |},
   w_map w !! k).
End spec.
Arguments window : clear implicits.
End Window.

Module SeqBufRefines.
Import SeqBufFacts.
Section refines.
Context {T : Type} `{!Default T}.
Implicit Types sb : SequenceBuffer T.

(** The entries a buffer holds. *)
Definition contents sb : gmap Z T :=
  list_to_map (filter (fun p => p.1 <> EMPTY_SLOT) (zip (entry_sequences sb) (entries sb))).

Definition absr sb : Window.window T :=
  Window.MkWindow (len sb) (sequence sb) (contents sb).

Lemma contents_lookup sb k : wf sb ->
  contents sb !! k = if decide (k = EMPTY_SLOT) then None else find sb k.
Proof.
  intros Hwf.
  assert (Hel : forall v, (k, v) ∈ filter (fun p : Z * T => p.1 <> EMPTY_SLOT)
                    (zip (entry_sequences sb) (entries sb)) <->
                  k <> EMPTY_SLOT /\ find sb k = Some v).
  { intros v. rewrite list_elem_of_filter, list_elem_of_lookup. simpl. unfold find.
    split; intros [Hne Hv]; (split; [done|]).
    - destruct Hv as (i & (? & ? & [= <- <-] & Hq & He)%lookup_zip_with_Some).
      destruct (wf_slot sb Hwf _ _ Hq) as [?|[_ Hi]]; [done|].
      fold (slot sb k) in Hi. subst i. by rewrite decide_True.
    - case_decide; [|done]. exists (slot sb k).
      apply lookup_zip_with_Some. eauto. }
  destruct (contents sb !! k) as [v|] eqn:Hc.
  - apply elem_of_list_to_map_2, Hel in Hc as [Hne ->]. by rewrite decide_False.
  - case_decide as Hne; [done|]. destruct (find sb k) as [v|] eqn:Hf; [|done].
    assert (contents sb !! k = Some v); [|congruence].
    apply elem_of_list_to_map'; [|by apply Hel].
    intros y _ Hy. apply Hel in Hy as [_ Hy]. congruence.
Qed.

Lemma contents_u16 sb k : wf sb -> u16 k -> contents sb !! k = find sb k.
Proof.
  intros Hwf Hk. rewrite contents_lookup by done.
  case_decide; [unfold EMPTY_SLOT in *; lia|done].
Qed.

Lemma contents_key sb k v : wf sb -> contents sb !! k = Some v -> u16 k.
Proof.
  intros Hwf. rewrite contents_lookup by done. case_decide; [done|].
  intros Hf. by eapply find_u16.
Qed.

(** Two window maps over [u16] keys are equal when they agree on [u16]. *)
Lemma window_map_eq (m1 m2 : gmap Z T) :
  (forall k v, m1 !! k = Some v -> u16 k) -> (forall k v, m2 !! k = Some v -> u16 k) ->
  (forall k, u16 k -> m1 !! k = m2 !! k) -> m1 = m2.
Proof.
  intros H1 H2 Heq. apply map_eq. intros k.
  destruct (m1 !! k) as [v|] eqn:E1; [rewrite <- E1; eauto|].
  destruct (m2 !! k) as [v|] eqn:E2; [|done].
  rewrite <- E1, <- E2. eauto.
Qed.

Lemma insert_contents sb k v : wf sb -> u16 k ->
  contents (fill_slot k v (advance k sb)) =
    <[k:=v]> (filter (fun p => Window.drops (absr sb) k p.1 = false) (contents sb)).
Proof.
  intros Hwf Hk.
  assert (Hwf' : wf (fill_slot k v (advance k sb))) by (by apply fill_slot_wf, Hk; apply advance_wf).
  apply window_map_eq.
  - intros j w. by apply contents_key.
  - intros j w [[-> _]|[_ [Hj _]%map_lookup_filter_Some]]%lookup_insert_Some; [done|].
    by eapply (contents_key sb).
  - intros j Hj. rewrite contents_u16, find_insert by done.
    rewrite lookup_insert, map_lookup_filter, contents_u16 by done.
    destruct (decide (k = j)) as [->|Hne]; [by rewrite decide_True|].
    rewrite (decide_False (P:=j = k)) by congruence.
    assert (Hd : Window.drops (absr sb) k j = true <->
                 j mod len sb = k mod len sb \/
                 j mod len sb ∈ (fun r => r mod len sb) <$> skipped (sequence sb) k).
    { unfold Window.drops. rewrite bool_decide_eq_true. apply elem_of_cons. }
    destruct (find sb j) as [w|]; simpl.
    + destruct (Window.drops (absr sb) k j) eqn:E;
        case_guard; repeat case_decide; intuition congruence.
    + by repeat case_decide.
Qed.

Lemma remove_contents sb k : wf sb -> u16 k ->
  contents (clear_slot (slot sb k) sb) =
    filter (fun p => p.1 mod len sb <> k mod len sb) (contents sb).
Proof.
  intros Hwf Hk. apply window_map_eq.
  - intros j w. by apply contents_key, clear_slot_wf.
  - intros j w [Hj _]%map_lookup_filter_Some. by eapply (contents_key sb).
  - intros j Hj. rewrite contents_u16, find_clear_slot by (try apply clear_slot_wf; done).
    rewrite map_lookup_filter, contents_u16 by done.
    pose proof (slot_eq_iff sb j k Hwf) as Hs.
    destruct (find sb j) as [w|]; simpl; [case_guard|]; case_decide; intuition congruence.
Qed.

(** [insert] on the ring is [Window.insert] on the window it represents. *)
Lemma insert_window sb k v : wf sb -> u16 k ->
  exists sb' r, insert k v sb = Some (sb', r) /\ wf sb' /\
    (absr sb', r) = Window.insert k v (absr sb).
Proof.
  intros Hwf Hk. rewrite insert_run by done.
  unfold Window.insert, too_old. simpl.
  rewrite (wrap16_small (len sb)) by (pose proof (wf_len sb Hwf); lia).
  destruct (sequence_less_than k _); [by exists sb, (Err SequenceTooOld)|].
  do 2 eexists. split; [done|].
  split; [by apply fill_slot_wf, Hk; apply advance_wf|].
  unfold absr at 1. by rewrite insert_contents, insert_sequence, insert_len.
Qed.

Lemma remove_window sb k : wf sb -> u16 k ->
  exists sb' o, remove k sb = Some (sb', Ok o) /\ wf sb' /\
    (absr sb', o) = Window.remove k (absr sb).
Proof.
  intros Hwf Hk. rewrite remove_run by done. do 2 eexists. split; [done|].
  split; [by apply clear_slot_wf|].
  unfold absr at 1, Window.remove. simpl.
  rewrite remove_contents, contents_u16 by done.
  unfold len. simpl. by rewrite length_insert.
Qed.
End refines.
End SeqBufRefines.
