(* ===== verification/SequenceWindow.v ===== *)
(** * The acceptance filter of a sequence buffer, over unbounded numbers

    The endpoint (for packets) and the channels (for messages) accept a
    number when [check_sequence] passes and the number is not already there,
    and then insert it.  Here that filter is compared with the ideal one,
    which works on the sender's unbounded counters and remembers everything. *)

From S2P Require Import Prelude Floats Types SequenceBuffer.
Import SeqBufFacts.

Inductive verdict := Stale | Duplicate | Fresh.

Section filter.
Context {T : Type} `{!Default T}.
Implicit Types sb : SequenceBuffer T.

(** The filter as the program runs it. *)
Definition offer (k : Z) (v : T) : M (SequenceBuffer T) verdict :=
  self ← st_get;
  if negb (check_sequence self k) then mret Stale
  else
    e ← st_asks (fun self => exists_ self k);
    if e : bool then mret Duplicate
    else insert k v;; mret Fresh.

(** The ideal filter: [newest] is the greatest counter accepted and
    [accepted] is all of them; [L] is the width of the window. *)
Record ideal := MkIdeal { newest : Z; accepted : gset Z }.

Definition ideal_offer (L e : Z) (s : ideal) : ideal * verdict :=
  if e <=? newest s - L then (s, Stale)
  else if decide (e ∈ accepted s) then (s, Duplicate)
  else ({| newest := Z.max (newest s) e; accepted := {[e]} ∪ accepted s |}, Fresh).

(** How far from the newest counter an arriving one may be. *)
Definition JUMP : Z := 16384.

(** An entry left over from before the last time the numbers wrapped. *)
Definition left_over (L E e : Z) : Prop :=
  exists w, wrap16 w < JUMP /\ w <= E /\ w - JUMP - L < e < w /\
    forall x, w <= x <= E -> x mod L <> e mod L.

Record tracks sb (s : ideal) : Prop := {
  tr_wf : wf sb;
  tr_divides : (len sb | 65536);
  tr_len : len sb < JUMP;
  tr_newest : sequence sb = wrap16 (newest s);
  tr_accepted : forall e, e ∈ accepted s -> e <= newest s;
  tr_complete : forall e, newest s - len sb < e <= newest s ->
    is_Some (find sb (wrap16 e)) <-> e ∈ accepted s;
  tr_sound : forall k, u16 k -> is_Some (find sb k) ->
    exists e, wrap16 e = k /\ e <= newest s /\
      (newest s - len sb < e \/ left_over (len sb) (newest s) e);
}.

Lemma wrap16_mod_len L x : 0 < L -> (L | 65536) -> wrap16 x mod L = x mod L.
Proof. intros HL Hd. unfold wrap16. by apply Z.mod_mod_divide. Qed.

Lemma wrap16_inj_close x y : - 65536 < x - y < 65536 -> wrap16 x = wrap16 y -> x = y.
Proof. intros. u16_solve. Qed.

Lemma mod_inj_close L x y : 0 < L -> - L < x - y < L -> x mod L = y mod L -> x = y.
Proof.
  intros HL Hxy Hm. rewrite (Z.div_mod x L), (Z.div_mod y L), Hm by lia.
  rewrite (Z.div_mod x L), (Z.div_mod y L), Hm in Hxy by lia.
  assert (x / L = y / L) as -> by nia. done.
Qed.

(** Within [JUMP] of the newest counter, the wrapped comparisons agree
    with the comparisons of the counters. *)
Lemma check_sequence_ideal sb s e : tracks sb s -> Z.abs (e - newest s) <= JUMP ->
  check_sequence sb (wrap16 e) = true <-> newest s - len sb < e.
Proof.
  intros [Hwf _ HL HE _ _ _] He. pose proof (wf_len sb Hwf). unfold JUMP in *.
  unfold check_sequence. rewrite sequence_greater_than_spec by apply wrap16_range.
  rewrite HE, (wrap16_small (len sb)) by lia. u16_solve.
Qed.

Lemma greater_ideal E e : Z.abs (e - E) <= JUMP ->
  sequence_greater_than (wrap16 e) (wrap16 E) = (E <? e).
Proof.
  intros He. unfold JUMP in *. apply eq_true_iff_eq.
  rewrite sequence_greater_than_spec, Z.ltb_lt by apply wrap16_range. u16_solve.
Qed.

Lemma not_too_old sb s e : tracks sb s -> Z.abs (e - newest s) <= JUMP ->
  newest s - len sb < e -> too_old sb (wrap16 e) = false.
Proof.
  intros Htr He Hlt. apply not_true_iff_false. intros Hold.
  pose proof (proj2 (check_sequence_ideal sb s e Htr He) Hlt) as Hc.
  unfold check_sequence, too_old, sequence_less_than in *.
  rewrite sequence_greater_than_total in Hold by
    (try apply wrap16_range; intros Heq; rewrite Heq, sequence_greater_than_irrefl in Hc; done).
  by rewrite Hc in Hold.
Qed.

(** A counter ahead of the newest one is never taken for a duplicate. *)
Lemma fresh_not_found sb s e : tracks sb s -> newest s < e <= newest s + JUMP ->
  find sb (wrap16 e) = None.
Proof.
  intros [Hwf _ HL _ _ _ Hsound] He. apply eq_None_not_Some. intros Hs.
  apply Hsound in Hs; [|apply wrap16_range].
  destruct Hs as (e' & Heq & Hle & Hcase). unfold JUMP in *.
  pose proof (wf_len sb Hwf).
  assert (Hclose : newest s - 3 * 16384 < e').
  { destruct Hcase as [?|(w & _ & _ & Hw & Hslots)]; [lia|]. unfold JUMP in Hw.
    destruct (decide (w + len sb <= newest s)) as [Hfar|]; [|lia].
    exfalso. pose proof (Z.mod_pos_bound (e' - w) (len sb)).
    apply (Hslots (w + (e' - w) mod len sb)); [lia|].
    rewrite Zplus_mod_idemp_r. f_equal. lia. }
  assert (e' = e); [|lia]. apply wrap16_inj_close; [lia|done].
Qed.

(** The counters whose slots an accepted counter [e] empties or takes: all
    of those it moves past, unless it crosses the wrap of the numbers;
    then, and when it arrives late, only its own. *)
Definition visited (E e x : Z) : Prop :=
  x = e \/ (E < x <= e /\ wrap16 (E + 1) <= wrap16 e).

Lemma visited_skipped L E e j : 0 < L -> (L | 65536) -> Z.abs (e - E) <= JUMP ->
  (exists x, visited E e x /\ x mod L = j mod L) <->
  j mod L = e mod L \/
  j mod L ∈ (fun r => r mod L) <$> skipped (wrap16 E) (wrap16 e).
Proof.
  intros HL Hd He. unfold visited, skipped, JUMP in *.
  rewrite greater_ideal by (unfold JUMP; lia).
  assert (Hf : wrap16 (wrap16 E + 1) = wrap16 (E + 1)) by u16_solve. rewrite Hf.
  split.
  - intros (x & [->|[Hx Hnc]] & Hm); [by left|].
    rewrite (proj2 (Z.ltb_lt _ _)) by lia. simpl.
    destruct (Z.eqb_spec (wrap16 (E + 1)) (wrap16 e)) as [Heq|Hne]; simpl.
    { left. assert (E + 1 = e) by (apply wrap16_inj_close; [lia|done]).
      assert (x = e) as -> by lia. done. }
    right. apply list_elem_of_fmap. exists (wrap16 x).
    rewrite wrap16_mod_len by done. split; [done|]. apply elem_of_seqZ. u16_solve.
  - intros [Hm|Hin]; [by exists e; auto|].
    apply list_elem_of_fmap in Hin as (r & Hm & Hr).
    destruct (Z.ltb_spec E e) as [Hlt|]; simpl in Hr; [|by apply elem_of_nil in Hr].
    destruct (negb _); [|by apply elem_of_nil in Hr]. apply elem_of_seqZ in Hr.
    exists (E + 1 + (r - wrap16 (E + 1))).
    assert (Hw : r = wrap16 (E + 1 + (r - wrap16 (E + 1)))) by u16_solve.
    split; [right; split; u16_solve|].
    rewrite Hm. rewrite Hw at 2. by rewrite wrap16_mod_len.
Qed.

Lemma find_insert_ideal sb s e v j : tracks sb s -> Z.abs (e - newest s) <= JUMP -> u16 j ->
  is_Some (find (fill_slot (wrap16 e) v (advance (wrap16 e) sb)) j) <->
  j = wrap16 e \/
  (is_Some (find sb j) /\ forall x, visited (newest s) e x -> x mod len sb <> j mod len sb).
Proof.
  intros [Hwf Hd HL HE _ _ _] He Hj. pose proof (wf_len sb Hwf).
  rewrite find_insert by (try apply wrap16_range; done). rewrite HE, wrap16_mod_len by (done || lia).
  pose proof (visited_skipped (len sb) (newest s) e j ltac:(lia) Hd He) as Hv.
  destruct (decide (j = wrap16 e)) as [->|]; [split; eauto|].
  destruct (decide (j mod len sb = e mod len sb)) as [Hm|Hm];
    [|destruct (decide (j mod len sb ∈ _)) as [Hin|Hin]].
  - split; [by intros [? ?]|]. intros [?|[_ Hx]]; [done|]. by destruct (Hx e); [left|].
  - split; [by intros [? ?]|]. intros [?|[_ Hx]]; [done|].
    destruct (proj2 Hv (or_intror Hin)) as (x & Hvx & ?). by destruct (Hx x Hvx).
  - split; [|by intros [?|[? _]]]. intros Hs. right. split; [done|].
    intros x Hvx Hxm. destruct (proj1 Hv); [by exists x|done|done].
Qed.

(** A run of unvisited slots is shorter than the buffer. *)
Lemma unvisited_short L w E e : 0 < L ->
  (forall x, w <= x <= E -> x mod L <> e mod L) -> E < w + L.
Proof.
  intros HL Hx. destruct (decide (w + L <= E)) as [Hfar|]; [|lia]. exfalso.
  pose proof (Z.mod_pos_bound (e - w) L HL).
  apply (Hx (w + (e - w) mod L)); [lia|].
  rewrite Zplus_mod_idemp_r. f_equal. lia.
Qed.

Lemma insert_complete sb s e v e2 : tracks sb s -> Z.abs (e - newest s) <= JUMP ->
  newest s - len sb < e -> Z.max (newest s) e - len sb < e2 <= Z.max (newest s) e ->
  is_Some (find (fill_slot (wrap16 e) v (advance (wrap16 e) sb)) (wrap16 e2)) <->
  e2 = e \/ e2 ∈ accepted s.
Proof.
  intros Htr He Hin He2. pose proof Htr as [Hwf Hd HL HE Hacc Hcomp Hsound].
  pose proof (wf_len sb Hwf). unfold JUMP in *.
  rewrite find_insert_ideal by (try apply wrap16_range; done || (unfold JUMP; lia)).
  destruct (decide (e2 = e)) as [->|Hne]; [split; auto|].
  assert (wrap16 e2 <> wrap16 e) by (intros ?%wrap16_inj_close; lia).
  destruct (Z.le_gt_cases e2 (newest s)) as [Hle|Hgt].
  - rewrite <- (Hcomp e2) by lia. split; [intros [?|[? _]]; tauto|].
    intros [?|Hs]; [done|]. right. split; [done|].
    intros x Hx Hm. rewrite wrap16_mod_len in Hm by (done || lia).
    apply mod_inj_close in Hm; [|lia|]; destruct Hx as [->|[? _]]; lia.
  - rewrite (fresh_not_found sb s e2) by (done || unfold JUMP; lia).
    split; [by intros [?|[[? ?] _]]|]. intros [?|Ha%Hacc]; [done|lia].
Qed.

Lemma insert_sound sb s e v k : tracks sb s -> Z.abs (e - newest s) <= JUMP ->
  newest s - len sb < e -> u16 k ->
  is_Some (find (fill_slot (wrap16 e) v (advance (wrap16 e) sb)) k) ->
  exists e', wrap16 e' = k /\ e' <= Z.max (newest s) e /\
    (Z.max (newest s) e - len sb < e' \/ left_over (len sb) (Z.max (newest s) e) e').
Proof.
  intros Htr He Hin Hk. pose proof Htr as [Hwf Hd HL HE Hacc Hcomp Hsound].
  pose proof (wf_len sb Hwf) as Hlen.
  rewrite find_insert_ideal by done.
  intros [->|[Hs Hvis]]; [exists e; split; [done|lia]|].
  destruct (Hsound k Hk Hs) as (e' & <- & Hle & Hcase).
  rewrite wrap16_mod_len in Hvis by (done || lia).
  exists e'. split; [done|]. split; [lia|].
  destruct (Z.le_gt_cases e (newest s)) as [Hback|Hahead].
  { rewrite Z.max_l by lia. exact Hcase. }
  rewrite Z.max_r by lia.
  destruct (Z.le_gt_cases (wrap16 (newest s + 1)) (wrap16 e)) as [Hnc|Hcross].
  - destruct Hcase as [Hwin|(w & Hw1 & Hw2 & Hw3 & Hslots)].
    + destruct (Z.le_gt_cases e' (e - len sb)) as [Hold|]; [|by left]. exfalso.
      apply (Hvis (e' + len sb)); [right; lia|].
      rewrite <- (Z.mul_1_l (len sb)) at 1. apply Z_mod_plus_full.
    + right. exists w. split_and!; try lia. intros x Hx.
      destruct (Z.le_gt_cases x (newest s)); [apply Hslots; lia|].
      apply Hvis. right. lia.
  - destruct Hcase as [Hwin|(w & Hw1 & Hw2 & Hw3 & Hslots)].
    + right. exists e. unfold JUMP in *. split_and!; [u16_solve|lia..|].
      intros x Hx. assert (x = e) as -> by lia. apply Hvis. by left.
    + exfalso. apply unvisited_short in Hslots; [|lia]. unfold JUMP in *. u16_solve.
Qed.

Lemma tracks_insert sb s e v : tracks sb s -> Z.abs (e - newest s) <= JUMP ->
  newest s - len sb < e ->
  tracks (fill_slot (wrap16 e) v (advance (wrap16 e) sb))
    {| newest := Z.max (newest s) e; accepted := {[e]} ∪ accepted s |}.
Proof.
  intros Htr He Hin. pose proof Htr as [Hwf Hd HL HE Hacc _ _].
  split; rewrite ?insert_len; cbn [newest accepted]; try done.
  - apply fill_slot_wf, wrap16_range. by apply advance_wf; [|apply wrap16_range].
  - rewrite insert_sequence, HE, greater_ideal by done.
    destruct (Z.ltb_spec (newest s) e); f_equal; lia.
  - intros x [->%elem_of_singleton|Hx%Hacc]%elem_of_union; lia.
  - intros e2 He2. rewrite elem_of_union, elem_of_singleton.
    by apply insert_complete.
  - intros k Hk. by apply insert_sound.
Qed.

Lemma tracks_new size : 0 < size < JUMP -> (size | 65536) ->
  tracks (with_capacity size) {| newest := 0; accepted := ∅ |}.
Proof.
  intros Hs Hd. unfold JUMP in *.
  assert (Hl : len (with_capacity size) = size).
  { unfold len. simpl. rewrite length_replicate. lia. }
  split; rewrite ?Hl; cbn [newest accepted]; try done.
  - apply with_capacity_wf. lia.
  - unfold JUMP. lia.
  - intros e He. rewrite find_with_capacity by apply wrap16_range.
    split; [by intros [? ?]|set_solver].
  - intros k Hk. rewrite find_with_capacity by done. by intros [? ?].
Qed.

(** The program's filter computes the ideal verdict, and keeps tracking. *)
Lemma offer_ideal sb s e v : tracks sb s -> Z.abs (e - newest s) <= JUMP ->
  exists sb', offer (wrap16 e) v sb = Some (sb', Ok (ideal_offer (len sb) e s).2) /\
    tracks sb' (ideal_offer (len sb) e s).1 /\ len sb' = len sb.
Proof.
  intros Htr He. pose proof Htr as [Hwf Hd HL HE Hacc Hcomp _].
  unfold offer. rewrite run_get.
  pose proof (check_sequence_ideal sb s e Htr He) as Hc.
  unfold ideal_offer. destruct (Z.leb_spec e (newest s - len sb)) as [Hst|Hw].
  { destruct (check_sequence sb (wrap16 e)); [|by exists sb].
    exfalso. pose proof (proj1 Hc eq_refl). lia. }
  rewrite (proj2 Hc Hw). cbn [negb].
  unfold mbind, ST_bind, st_asks. rewrite exists_find by done.
  destruct (decide (e ∈ accepted s)) as [Ha|Hna].
  { rewrite bool_decide_true; [by exists sb|]. apply Hcomp; [|done].
    split; [lia|auto]. }
  rewrite bool_decide_false; cycle 1.
  { destruct (Z.le_gt_cases e (newest s)); [rewrite Hcomp by lia; done|].
    rewrite (fresh_not_found sb s e) by (done || lia). by intros [? ?]. }
  rewrite insert_run, (not_too_old sb s e) by (done || apply wrap16_range).
  eexists. split; [done|]. split; [by apply tracks_insert|apply insert_len].
Qed.

(** *** Runs of the filter *)
Fixpoint offer_all (es : list (Z * T)) : M (SequenceBuffer T) (list verdict) :=
  match es with
  | [] => mret []
  | (e, v) :: es' =>
      r ← offer (wrap16 e) v;
      rs ← offer_all es';
      mret (r :: rs)
  end.

Fixpoint ideal_run (L : Z) (es : list (Z * T)) (s : ideal) : list verdict :=
  match es with
  | [] => []
  | (e, _) :: es' => (ideal_offer L e s).2 :: ideal_run L es' (ideal_offer L e s).1
  end.

(** Every counter arrives within [JUMP] of the newest one accepted so far. *)
Fixpoint in_reach (L : Z) (es : list (Z * T)) (s : ideal) : bool :=
  match es with
  | [] => true
  | (e, _) :: es' =>
      (Z.abs (e - newest s) <=? JUMP) && in_reach L es' (ideal_offer L e s).1
  end.

Lemma offer_all_ideal es sb s : tracks sb s -> in_reach (len sb) es s = true ->
  exists sb', offer_all es sb = Some (sb', Ok (ideal_run (len sb) es s)).
Proof.
  revert sb s. induction es as [|[e v] es IH]; intros sb s Htr Hr; [by exists sb|].
  simpl in Hr. apply andb_true_iff in Hr as [He%Z.leb_le Hr].
  destruct (offer_ideal sb s e v Htr He) as (sb1 & Hrun & Htr1 & Hl).
  pose proof (IH sb1 _ Htr1) as IH1. rewrite Hl in IH1. destruct (IH1 Hr) as (sb2 & Hrun2).
  exists sb2. simpl. erewrite run_bind_ok by exact Hrun.
  by erewrite run_bind_ok by exact Hrun2.
Qed.
End filter.

(** C25. The duplicate filter of a sequence buffer ([check_sequence], then
    [exists], then [insert]) works like the ideal filter over the sender's
    unbounded counters: for a buffer whose size divides 65536 and is below
    16384 (the packet buffers have 512 slots), and any run of arrivals each
    within 16384 of the newest counter accepted so far, in any order and
    across any number of wraps of the 16-bit numbers, a number is judged
    stale, duplicate or fresh exactly when its counter is outside the
    window, already accepted, or new.  In particular no counter is accepted
    twice and no new counter inside the window is refused. *)
Theorem filter_refines_ideal {T} `{!Default T} (size : Z) (es : list (Z * T)) :
  0 < size < JUMP -> (size | 65536) ->
  in_reach size es {| newest := 0; accepted := ∅ |} = true ->
  exists sb', offer_all es (SeqBuf.with_capacity size) =
    Some (sb', Ok (ideal_run size es {| newest := 0; accepted := ∅ |})).
Proof.
  intros Hs Hd Hr. pose proof (tracks_new (T:=T) size Hs Hd) as Htr.
  assert (Hl : SeqBuf.len (SeqBuf.with_capacity (T:=T) size) = size).
  { unfold SeqBuf.len. simpl. rewrite length_replicate. lia. }
  pose proof (offer_all_ideal es _ _ Htr) as Hrun. rewrite Hl in Hrun. by apply Hrun.
Qed.

Definition filter_sample : list (Z * bool) :=
  (fun e => (e, true)) <$> [1; 3; 2; 3; 16000; 32000; 48000; 64000; 65535; 65537; 65536; 65537; 65024].

Lemma filter_refines_ideal_witness :
  in_reach 512 filter_sample {| newest := 0; accepted := ∅ |} = true /\
  exists sb', offer_all filter_sample (SeqBuf.with_capacity 512) =
    Some (sb', Ok (ideal_run 512 filter_sample {| newest := 0; accepted := ∅ |})).
Proof.
  split; [vm_compute; reflexivity|].
  apply (filter_refines_ideal 512 filter_sample).
  - unfold JUMP. lia.
  - exists 128. reflexivity.
  - vm_compute. reflexivity.
Defined.
