(* ===== verification/Cursor.v ===== *)
(** * Byte readers and writers ([cursor.rs] and the standard library's)

    [Cursor<&[u8]>] with [CursorExtras], the writers [Cursor<&mut Vec<u8>>],
    [&mut [u8]] and [WriteLimiter], and the [byteorder] crate's network-order
    integers, which are a parameter of the model.  The combinators [reads]
    and [emits] state what a parser consumes and what a serialiser produces;
    the components' round trips are built from them. *)

From S2P Require Import Prelude Floats Types.

Abbreviation is_bytes bs := (Forall (fun b => u8 b) bs) (only parsing).

(** ** Network byte order

    The crate [byteorder] is not part of the program: [be_put n v] stands for
    the [n] bytes its [write_uN::<NetworkEndian>] writes, [be_get] for the
    value its [read_uN::<NetworkEndian>] makes of the bytes it read. *)
Class ByteOrder := {
  be_put : nat -> Z -> list Z;
  be_get : list Z -> Z;
}.

(** What its documentation promises and the program relies on. *)
Class ByteOrderLaws (BO : ByteOrder) : Prop := {
  be_put_length n v : length (be_put n v) = n;
  be_put_bytes n v : is_bytes (be_put n v);
  be_get_put n v : 0 <= v < 256 ^ Z.of_nat n -> be_get (be_put n v) = v;
  be_get_range bs : is_bytes bs -> 0 <= be_get bs < 256 ^ Z.of_nat (length bs);
  be_put_get bs : is_bytes bs -> be_put (length bs) (be_get bs) = bs;
}.

(** Big-endian digits, the order's definition. *)
Fixpoint big_endian_put (n : nat) (v : Z) : list Z :=
  match n with
  | O => []
  | S n' => (v / 256 ^ Z.of_nat n') mod 256 :: big_endian_put n' v
  end.

Definition big_endian_get (bs : list Z) : Z := foldl (fun a b => 256 * a + b) 0 bs.

Definition big_endian : ByteOrder := {| be_put := big_endian_put; be_get := big_endian_get |}.

Lemma big_endian_get_acc bs a :
  foldl (fun a b => 256 * a + b) a bs = a * 256 ^ Z.of_nat (length bs) + big_endian_get bs.
Proof.
  unfold big_endian_get. revert a. induction bs as [|b bs IH]; intros a; cbn [foldl length].
  - lia.
  - rewrite (IH (256 * a + b)), (IH (256 * 0 + b)), Nat2Z.inj_succ, Z.pow_succ_r by lia. lia.
Qed.

Lemma big_endian_get_put n v : big_endian_get (big_endian_put n v) = v mod 256 ^ Z.of_nat n.
Proof.
  unfold big_endian_get. induction n as [|n IH]; cbn [big_endian_put foldl].
  - by rewrite Z.mod_1_r.
  - rewrite big_endian_get_acc. unfold big_endian_get. rewrite IH.
    assert (Hl : length (big_endian_put n v) = n).
    { clear. induction n; simpl; congruence. }
    rewrite Hl, Nat2Z.inj_succ, Z.pow_succ_r, (Z.mul_comm 256 (256 ^ _)), Z.rem_mul_r by lia. ring.
Qed.

Lemma big_endian_put_mod n b v : big_endian_put n (b * 256 ^ Z.of_nat n + v) = big_endian_put n v.
Proof.
  revert b. induction n as [|n IH]; intros b; [done|]. cbn [big_endian_put].
  rewrite Nat2Z.inj_succ, Z.pow_succ_r by lia. rewrite Z.mul_assoc. f_equal; [|apply IH].
  rewrite Z.div_add_l, (Z.mul_comm b 256) by lia. rewrite Z.add_comm, Z.mul_comm. apply Z_mod_plus_full.
Qed.

Lemma big_endian_laws : ByteOrderLaws big_endian.
Proof.
  split; simpl.
  - induction n; intros v; simpl; [done|]. by rewrite IHn.
  - induction n; intros v; simpl; constructor; [|apply IHn]. apply Z.mod_pos_bound. lia.
  - intros n v Hv. rewrite big_endian_get_put. by apply Z.mod_small.
  - unfold big_endian_get. intros bs. induction bs as [|b bs IH] using rev_ind; [simpl; lia|].
    intros [Hbs [Hb _]%Forall_cons]%Forall_app. specialize (IH Hbs).
    rewrite foldl_app, length_app, Nat2Z.inj_add, Z.pow_add_r by lia. simpl. lia.
  - intros bs. induction bs as [|b bs IH]; [done|]. intros [Hb Hbs]%Forall_cons. cbn [length big_endian_put].
    assert (Hr : 0 <= big_endian_get bs < 256 ^ Z.of_nat (length bs)).
    { clear IH Hb. unfold big_endian_get. induction bs as [|x bs IH] using rev_ind; [simpl; lia|].
      apply Forall_app in Hbs as [Hbs [Hx _]%Forall_cons]. specialize (IH Hbs).
      rewrite foldl_app, length_app, Nat2Z.inj_add, Z.pow_add_r by lia. simpl. lia. }
    change (big_endian_get (b :: bs)) with (foldl (fun a b => 256 * a + b) b bs). rewrite big_endian_get_acc. f_equal.
    + rewrite Z.div_add_l, Z.div_small, Z.add_0_r by lia. apply Z.mod_small. lia.
    + etrans; [apply big_endian_put_mod|by apply IH].
Qed.

(** ** Reading: [Cursor<&[u8]>] *)
Record Cursor := MkCursor { get_ref : list Z; position : Z }.

Definition Cursor_new (bs : list Z) : Cursor := MkCursor bs 0.

(** [CursorExtras]. *)
Definition remaining (c : Cursor) : Z :=
  if position c <=? Z.of_nat (length (get_ref c))
  then Z.of_nat (length (get_ref c)) - position c else 0.

Definition remaining_slice (c : Cursor) : list Z :=
  drop (Z.to_nat (Z.min (position c) (Z.of_nat (length (get_ref c))))) (get_ref c).

Definition is_empty (c : Cursor) : bool := Z.of_nat (length (get_ref c)) <=? position c.

(** [Read::read_exact]: a short input is an [UnexpectedEof] error, after
    which the program never looks at the cursor again. *)
Definition read_exact (n : nat) : M Cursor (list Z) :=
  c ← st_get;
  if (Z.of_nat n <=? remaining c) then
    st_put (MkCursor (get_ref c) (position c + Z.of_nat n));;
    mret (take n (remaining_slice c))
  else st_throw (Io UnexpectedEof).

Definition read_u8 : M Cursor Z := bs ← read_exact 1; mret (hd 0 bs).

Section byteorder.
Context `{BO : ByteOrder}.
Definition read_uint (n : nat) : M Cursor Z := bs ← read_exact n; mret (be_get bs).
Definition read_u16 : M Cursor Z := read_uint 2.
Definition read_u32 : M Cursor Z := read_uint 4.
Definition read_u64 : M Cursor Z := read_uint 8.
End byteorder.

Lemma remaining_length c : 0 <= position c ->
  remaining c = Z.of_nat (length (remaining_slice c)).
Proof. intros Hp. unfold remaining, remaining_slice. rewrite length_drop. case_match; lia. Qed.

Lemma remaining_slice_new bs : remaining_slice (Cursor_new bs) = bs.
Proof. unfold remaining_slice. simpl. rewrite Z.min_l by lia. done. Qed.

(** [m] parses [bs] into [a]: on any input that starts with [bs] it stops
    right behind them. *)
Definition reads {A} (m : M Cursor A) (bs : list Z) (a : A) : Prop :=
  forall c rest, 0 <= position c -> remaining_slice c = bs ++ rest ->
    exists c', m c = Some (c', Ok a) /\ remaining_slice c' = rest /\
      get_ref c' = get_ref c /\ position c' = position c + Z.of_nat (length bs).

Lemma reads_new {A} (m : M Cursor A) bs a rest : reads m bs a ->
  exists c', m (Cursor_new (bs ++ rest)) = Some (c', Ok a) /\ remaining_slice c' = rest.
Proof.
  intros Hm. destruct (Hm (Cursor_new (bs ++ rest)) rest) as (c' & ? & ? & _); eauto.
  - done.
  - apply remaining_slice_new.
Qed.

Lemma reads_ret {A} (a : A) : reads (mret a) [] a.
Proof. intros c rest Hp Hc. exists c. simpl in *. split_and!; [done..|lia]. Qed.

Lemma reads_bind {A B} (m : M Cursor A) (k : A -> M Cursor B) bs1 bs2 a b :
  reads m bs1 a -> reads (k a) bs2 b -> reads (m ≫= k) (bs1 ++ bs2) b.
Proof.
  intros Hm Hk c rest Hp Hc. rewrite <- app_assoc in Hc.
  destruct (Hm c _ Hp Hc) as (c1 & Hrun & Hs1 & Hr1 & Hp1).
  destruct (Hk c1 rest) as (c2 & Hrun2 & Hs2 & Hr2 & Hp2); [lia|done|].
  exists c2. erewrite run_bind_ok by done. rewrite length_app.
  split_and!; [done|done|congruence|lia].
Qed.

(** The last binds of a parser consume nothing. *)
Lemma reads_bind_last {A B} (m : M Cursor A) (k : A -> M Cursor B) bs a b :
  reads m bs a -> reads (k a) [] b -> reads (m ≫= k) bs b.
Proof. intros Hm Hk. rewrite <- (app_nil_r bs). by eapply reads_bind. Qed.

(** One step of a parser's run. *)
Lemma reads_step {A B} (m : M Cursor A) (k : A -> M Cursor B) bs a c rest (Q : option (Cursor * result B PicklebackError) -> Prop) :
  reads m bs a -> 0 <= position c -> remaining_slice c = bs ++ rest ->
  (forall c', 0 <= position c' -> remaining_slice c' = rest -> Q (k a c')) -> Q ((m ≫= k) c).
Proof.
  intros Hm Hp Hc HQ. destruct (Hm c rest Hp Hc) as (c' & Hrun & Hr & _ & Hpos).
  erewrite run_bind_ok by done. apply HQ; [lia|done].
Qed.

Lemma read_exact_reads n bs : length bs = n -> reads (read_exact n) bs bs.
Proof.
  intros <- c rest Hp Hc. unfold read_exact. rewrite run_get, remaining_length, Hc by done.
  rewrite length_app, (proj2 (Z.leb_le _ _)) by lia.
  exists (MkCursor (get_ref c) (position c + Z.of_nat (length bs))).
  split_and!; try done.
  - unfold mbind, ST_bind, st_put, mret, ST_ret. rewrite take_app_length. done.
  - pose proof (f_equal length Hc) as Hl. unfold remaining_slice in *. simpl.
    rewrite length_drop, length_app in Hl.
    apply (f_equal (drop (length bs))) in Hc. rewrite drop_app_length, drop_drop in Hc.
    rewrite <- Hc. f_equal. lia.
Qed.

Lemma read_u8_reads b : reads read_u8 [b] b.
Proof.
  rewrite <- (app_nil_r [b]). eapply reads_bind; [by apply read_exact_reads|].
  apply (reads_ret b).
Qed.

Section byteorder_reads.
Context `{BO : ByteOrder, BL : !ByteOrderLaws BO}.

Lemma read_uint_reads n v : 0 <= v < 256 ^ Z.of_nat n -> reads (read_uint n) (be_put n v) v.
Proof.
  intros Hv. eapply reads_bind_last; [apply read_exact_reads, be_put_length|].
  rewrite be_get_put by done. apply reads_ret.
Qed.

Lemma read_u16_reads v : u16 v -> reads read_u16 (be_put 2 v) v.
Proof. intros Hv. apply (read_uint_reads 2 v). exact Hv. Qed.
Lemma read_u32_reads v : u32 v -> reads read_u32 (be_put 4 v) v.
Proof. intros Hv. apply (read_uint_reads 4 v). exact Hv. Qed.
Lemma read_u64_reads v : u64 v -> reads read_u64 (be_put 8 v) v.
Proof. intros Hv. apply (read_uint_reads 8 v). exact Hv. Qed.
End byteorder_reads.

(** A short input is refused, and nothing is made of it. *)
Lemma read_exact_short n c : remaining c < Z.of_nat n ->
  read_exact n c = Some (c, Err (Io UnexpectedEof)).
Proof.
  intros H. unfold read_exact. rewrite run_get, (proj2 (Z.leb_gt _ _)) by lia. done.
Qed.

(** ** Vectors of bytes: [Vec<u8>] with its capacity *)
Record VecU8 := MkVec { vdata : list Z; vcapacity : Z }.

Definition vec_len (v : VecU8) : Z := Z.of_nat (length (vdata v)).

(** The capacity after room was made for [needed] bytes: the standard
    library's amortised growth. *)
Definition vec_grow (cap needed : Z) : Z :=
  if needed <=? cap then cap else Z.max 8 (Z.max (2 * cap) needed).

(** ** Writing *)

(** [std::io::Write]: [write buf] says how many bytes it took. *)
Class Write (W : Type) := write : list Z -> M W Z.

(** The standard library's [write_all]: call [write] until all is written;
    a call that takes nothing is a [WriteZero] error.  Every other call
    takes at least one byte, so one call per byte is fuel enough. *)
Fixpoint write_all_fuel `{Write W} (fuel : nat) (buf : list Z) : M W unit :=
  match buf, fuel with
  | [], _ => mret tt
  | _, O => st_panic
  | _, S fuel' =>
      n ← write buf;
      if n =? 0 then st_throw (Io WriteZero)
      else write_all_fuel fuel' (drop (Z.to_nat n) buf)
  end.
Definition write_all `{Write W} (buf : list Z) : M W unit := write_all_fuel (S (length buf)) buf.

Section write_ext.
Context `{Write W, BO : ByteOrder}.
Definition write_u8 (n : Z) : M W unit := write_all [n].
Definition write_u16 (n : Z) : M W unit := write_all (be_put 2 n).
Definition write_u32 (n : Z) : M W unit := write_all (be_put 4 n).
Definition write_u64 (n : Z) : M W unit := write_all (be_put 8 n).
End write_ext.

(** [Cursor<&mut Vec<u8>>]: overwrites from the position, growing the vector. *)
Record VecCursor := MkVecCursor { vc_vec : VecU8; vc_pos : Z }.

Definition VecCursor_new (v : VecU8) : VecCursor := MkVecCursor v 0.

Definition overwrite (pos : nat) (bs data : list Z) : list Z :=
  take pos (data ++ replicate (pos - length data) 0) ++ bs ++ drop (pos + length bs) data.

#[export] Instance VecCursor_write : Write VecCursor := fun buf =>
  c ← st_get;
  let v := vc_vec c in
  let data := overwrite (Z.to_nat (vc_pos c)) buf (vdata v) in
  st_put {| vc_vec := {| vdata := data;
                         vcapacity := vec_grow (vcapacity v) (Z.of_nat (length data)) |};
            vc_pos := vc_pos c + Z.of_nat (length buf) |};;
  mret (Z.of_nat (length buf)).

(** [&mut [u8]]: fills the slice and moves past what it filled. *)
Record SliceWriter := MkSliceWriter { sw_filled : list Z; sw_rest : list Z }.

Definition SliceWriter_new (slice : list Z) : SliceWriter := MkSliceWriter [] slice.

(** The slice's bytes. *)
Definition sw_slice (w : SliceWriter) : list Z := sw_filled w ++ sw_rest w.

#[export] Instance SliceWriter_write : Write SliceWriter := fun buf =>
  w ← st_get;
  let n := Nat.min (length buf) (length (sw_rest w)) in
  st_put (MkSliceWriter (sw_filled w ++ take n buf) (drop n (sw_rest w)));;
  mret (Z.of_nat n).

(** [WriteLimiter] ([cursor.rs]). *)
Record WriteLimiter (W : Type) := MkWriteLimiter { wl_writer : W; wl_limit : Z; wl_written : Z }.
Arguments MkWriteLimiter {W} _ _ _.
Arguments wl_writer {W} _.
Arguments wl_limit {W} _.
Arguments wl_written {W} _.

Definition WriteLimiter_new {W} (writer : W) (limit : Z) : WriteLimiter W :=
  MkWriteLimiter writer limit 0.

(** [limit.saturating_sub(written)]. *)
Definition WriteLimiter_remaining {W} (w : WriteLimiter W) : Z :=
  Z.max 0 (wl_limit w - wl_written w).

#[export] Instance WriteLimiter_write `{Write W} : Write (WriteLimiter W) := fun buf =>
  self ← st_get;
  if wl_limit self <=? wl_written self then mret 0
  else
    let allowed_to_write := wl_limit self - wl_written self in
    let to_write := Z.min allowed_to_write (Z.of_nat (length buf)) in
    bytes_written ← st_zoom wl_writer
      (fun w s => MkWriteLimiter w (wl_limit s) (wl_written s))
      (write (take (Z.to_nat to_write) buf));
    st_modify (fun s => MkWriteLimiter (wl_writer s) (wl_limit s) (wl_written s + bytes_written));;
    mret bytes_written.

Abbreviation BufferLimitedWriter := (WriteLimiter VecCursor).

(** ** What a serialiser produces *)

(** A writer that appends: its bytes so far and, when it is bounded, the room
    left.  The law is about [write_all], the only way the program writes. *)
Definition fits (room : option Z) (n : nat) : Prop :=
  match room with None => True | Some k => Z.of_nat n <= k end.

#[export] Instance fits_dec room n : Decision (fits room n).
Proof. destruct room; simpl; apply _. Defined.

Class Appends (W : Type) `{Write W} := {
  ap_ok : W -> Prop;
  ap_out : W -> list Z;
  ap_room : W -> option Z;
  ap_room_nonneg w : ap_ok w -> fits (ap_room w) 0;
  ap_write_all w bs : ap_ok w -> exists w' r, write_all bs w = Some (w', r) /\ ap_ok w' /\
    if decide (fits (ap_room w) (length bs))
    then r = Ok tt /\ ap_out w' = ap_out w ++ bs /\
         ap_room w' = (fun k => k - Z.of_nat (length bs)) <$> ap_room w
    else r = Err (Io WriteZero);
}.

(** [m] writes [bs] and returns [a]; with too little room it fails with
    [WriteZero]. *)
Definition emits {W A} `{Appends W} (m : M W A) (bs : list Z) (a : A) : Prop :=
  forall w, ap_ok w -> exists w' r, m w = Some (w', r) /\ ap_ok w' /\
    if decide (fits (ap_room w) (length bs))
    then r = Ok a /\ ap_out w' = ap_out w ++ bs /\
         ap_room w' = (fun k => k - Z.of_nat (length bs)) <$> ap_room w
    else r = Err (Io WriteZero).

Section emits.
Context {W : Type} `{Appends W}.

Lemma emits_ret {A} (a : A) : emits (mret a) [] a.
Proof.
  intros w Hw. exists w, (Ok a). split; [done|]. split; [done|].
  rewrite decide_True by (by apply ap_room_nonneg). rewrite app_nil_r.
  split_and!; [done|done|]. destruct (ap_room w); simpl; [f_equal; lia|done].
Qed.

Lemma emits_write_all bs : emits (write_all bs) bs tt.
Proof. intros w Hw. by apply ap_write_all. Qed.

Lemma fits_app room n m :
  fits room (n + m) <-> fits room n /\ fits ((fun k => k - Z.of_nat n) <$> room) m.
Proof. destruct room; simpl; [lia|tauto]. Qed.

Lemma emits_bind {A B} (m : M W A) (k : A -> M W B) bs1 bs2 a b :
  emits m bs1 a -> emits (k a) bs2 b -> emits (m ≫= k) (bs1 ++ bs2) b.
Proof.
  intros Hm Hk w Hw. destruct (Hm w Hw) as (w1 & r1 & Hrun & Hw1 & Hr1).
  rewrite length_app. destruct (decide (fits (ap_room w) (length bs1))) as [Hf1|Hf1].
  - destruct Hr1 as (-> & Ho1 & Hm1). destruct (Hk w1 Hw1) as (w2 & r2 & Hrun2 & Hw2 & Hr2).
    exists w2, r2. erewrite run_bind_ok by done. split_and!; [done|done|].
    rewrite Hm1 in Hr2. destruct (decide (fits _ (length bs2))) as [Hf2|Hf2].
    + rewrite decide_True by (by apply fits_app). destruct Hr2 as (-> & -> & ->).
      rewrite Ho1, app_assoc. split_and!; [done|done|].
      destruct (ap_room w); simpl; [f_equal; lia|done].
    + rewrite decide_False; [done|]. by intros [_ ?]%fits_app.
  - subst r1. exists w1, (Err (Io WriteZero)). erewrite run_bind_err by done.
    split_and!; [done|done|]. rewrite decide_False; [done|]. by intros [? _]%fits_app.
Qed.

Lemma emits_bind_last {A B} (m : M W A) (k : A -> M W B) bs a b :
  emits m bs a -> emits (k a) [] b -> emits (m ≫= k) bs b.
Proof. intros Hm Hk. rewrite <- (app_nil_r bs). by eapply emits_bind. Qed.

Lemma write_u8_emits b : emits (write_u8 b) [b] tt.
Proof. apply emits_write_all. Qed.

Context `{BO : ByteOrder}.
Lemma write_u16_emits v : emits (write_u16 v) (be_put 2 v) tt.
Proof. apply emits_write_all. Qed.
Lemma write_u32_emits v : emits (write_u32 v) (be_put 4 v) tt.
Proof. apply emits_write_all. Qed.
Lemma write_u64_emits v : emits (write_u64 v) (be_put 8 v) tt.
Proof. apply emits_write_all. Qed.
End emits.

Create HintDb emits discriminated.
#[export] Hint Resolve write_u8_emits write_u16_emits write_u32_emits write_u64_emits
  emits_write_all emits_ret : emits.
Create HintDb reads discriminated.
#[export] Hint Resolve read_u8_reads read_u16_reads read_u32_reads read_u64_reads
  reads_ret : reads.

Lemma overwrite_end bs data : overwrite (length data) bs data = data ++ bs.
Proof.
  unfold overwrite. rewrite Nat.sub_diag. simpl. rewrite app_nil_r, firstn_all.
  rewrite drop_ge by lia. by rewrite app_nil_r.
Qed.

(** A write that takes the whole buffer at once. *)
Lemma write_all_full `{Write W} bs w w' :
  bs <> [] -> write bs w = Some (w', Ok (Z.of_nat (length bs))) ->
  write_all bs w = Some (w', Ok tt).
Proof.
  intros Hne Hw. unfold write_all. destruct bs as [|b bs]; [done|]. cbn [write_all_fuel].
  erewrite run_bind_ok by done.
  rewrite (proj2 (Z.eqb_neq _ _)) by (cbn [length]; lia).
  rewrite drop_ge by lia. by destruct (length (b :: bs)).
Qed.

(** Writers that run out: the call that takes nothing ends [write_all]. *)
Lemma write_all_zero `{Write W} bs w w' :
  bs <> [] -> write bs w = Some (w', Ok 0) ->
  write_all bs w = Some (w', Err (Io WriteZero)).
Proof.
  intros Hne Hw. unfold write_all. destruct bs as [|b bs]; [done|]. cbn [write_all_fuel].
  by erewrite run_bind_ok by done.
Qed.

Lemma write_all_partial `{Write W} bs n w w1 w2 :
  (0 < n < length bs)%nat -> write bs w = Some (w1, Ok (Z.of_nat n)) ->
  write (drop n bs) w1 = Some (w2, Ok 0) ->
  write_all bs w = Some (w2, Err (Io WriteZero)).
Proof.
  intros Hn Hw1 Hw2. unfold write_all. destruct bs as [|b bs]; [simpl in Hn; lia|].
  cbn [write_all_fuel]. erewrite run_bind_ok by done.
  rewrite (proj2 (Z.eqb_neq _ _)), Nat2Z.id by lia.
  destruct (drop n (b :: bs)) as [|b' bs'] eqn:Ed.
  { apply (f_equal length) in Ed. rewrite length_drop in Ed. simpl in *. lia. }
  cbn [length]. cbn [write_all_fuel]. by erewrite run_bind_ok by done.
Qed.

#[export] Program Instance VecCursor_appends : Appends VecCursor := {|
  ap_ok c := vc_pos c = vec_len (vc_vec c);
  ap_out c := vdata (vc_vec c);
  ap_room c := None;
|}.
Next Obligation. done. Qed.
Next Obligation.
  intros c bs Hc. destruct (decide (bs = [])) as [->|Hne].
  { exists c, (Ok tt). simpl. by rewrite app_nil_r. }
  eexists _, _. split; [apply write_all_full; [done|];
    cbv [write VecCursor_write mbind ST_bind st_get st_put mret ST_ret]; reflexivity|].
  cbn in Hc |- *. unfold vec_len in *. rewrite Hc, Nat2Z.id, overwrite_end. cbn.
  rewrite length_app. split; [lia|]. done.
Qed.

(** One call on a slice writer. *)
Lemma SliceWriter_write_run bs w :
  let n := Nat.min (length bs) (length (sw_rest w)) in
  write bs w = Some (MkSliceWriter (sw_filled w ++ take n bs) (drop n (sw_rest w)), Ok (Z.of_nat n)).
Proof. done. Qed.

#[export] Program Instance SliceWriter_appends : Appends SliceWriter := {|
  ap_ok w := True;
  ap_out w := sw_filled w;
  ap_room w := Some (Z.of_nat (length (sw_rest w)));
|}.
Next Obligation. intros w _. simpl. lia. Qed.
Next Obligation.
  intros w bs _. destruct (decide (bs = [])) as [->|Hne].
  { exists w, (Ok tt). rewrite decide_True by (simpl; lia).
    simpl. rewrite app_nil_r. split_and!; [done..|f_equal; lia]. }
  pose proof (SliceWriter_write_run bs w) as Hw. cbn zeta in Hw.
  destruct (decide (length bs <= length (sw_rest w))%nat) as [Hle|Hgt].
  - rewrite Nat.min_l, firstn_all in Hw by lia.
    do 2 eexists. split; [by apply write_all_full|]. split; [done|].
    rewrite decide_True by (simpl; lia). split_and!; [done..|]. simpl.
    rewrite length_drop. f_equal. lia.
  - rewrite Nat.min_r, drop_all in Hw by lia.
    destruct (decide (length (sw_rest w) = 0%nat)) as [Hz|Hz].
    + eexists _, (Err (Io WriteZero)). rewrite decide_False by (simpl; lia).
      split; [apply write_all_zero; [done|]; by rewrite Hw, Hz|by split].
    + eexists _, (Err (Io WriteZero)). rewrite decide_False by (simpl; lia). split; [|by split].
      eapply write_all_partial; [|exact Hw|]; [lia|].
      rewrite SliceWriter_write_run. cbn [sw_rest length]. by rewrite Nat.min_0_r.
Qed.

(** One call on a limited writer with room left. *)
Lemma WriteLimiter_write_run bs v lim wr :
  wr < lim ->
  let n := Z.to_nat (Z.min (lim - wr) (Z.of_nat (length bs))) in
  write bs (MkWriteLimiter (MkVecCursor v (vec_len v)) lim wr) =
    Some (MkWriteLimiter
      {| vc_vec := {| vdata := vdata v ++ take n bs;
                      vcapacity := vec_grow (vcapacity v) (Z.of_nat (length (vdata v ++ take n bs))) |};
         vc_pos := vec_len v + Z.of_nat n |} lim (wr + Z.of_nat n), Ok (Z.of_nat n)).
Proof.
  intros Hlt n. cbv [write WriteLimiter_write VecCursor_write]. rewrite run_get.
  cbn [wl_limit wl_written]. rewrite (proj2 (Z.leb_gt _ _)) by lia.
  unfold mbind, ST_bind, st_zoom, st_get, st_put, st_modify, mret, ST_ret.
  cbn [wl_writer wl_limit wl_written vc_vec vc_pos]. fold n.
  unfold vec_len. rewrite Nat2Z.id, overwrite_end.
  assert (length (take n bs) = n) as -> by (rewrite length_take; lia). done.
Qed.

Lemma WriteLimiter_write_full bs v pos lim wr :
  lim <= wr -> write bs (MkWriteLimiter (MkVecCursor v pos) lim wr) =
    Some (MkWriteLimiter (MkVecCursor v pos) lim wr, Ok 0).
Proof.
  intros Hle. cbv [write WriteLimiter_write]. rewrite run_get. cbn [wl_limit wl_written].
  by rewrite (proj2 (Z.leb_le _ _)) by lia.
Qed.

(** A limited writer over a vector that was empty at the start: the room is
    what the limit leaves. *)
#[export] Program Instance WriteLimiter_appends : Appends BufferLimitedWriter := {|
  ap_ok w := vc_pos (wl_writer w) = vec_len (vc_vec (wl_writer w)) /\
    vec_len (vc_vec (wl_writer w)) = wl_written w /\ 0 <= wl_written w <= wl_limit w;
  ap_out w := vdata (vc_vec (wl_writer w));
  ap_room w := Some (WriteLimiter_remaining w);
|}.
Next Obligation. intros w _. unfold WriteLimiter_remaining. simpl. lia. Qed.
Next Obligation.
  intros [[v pos] lim wr] bs (Hc & Hv & Hl). cbn in Hc, Hv, Hl. subst pos.
  destruct (decide (bs = [])) as [->|Hne].
  { eexists _, (Ok tt). split; [done|]. unfold WriteLimiter_remaining. cbn.
    rewrite decide_True by lia. rewrite app_nil_r. split_and!; try done; try lia; f_equal; lia. }
  destruct (decide (lim <= wr)) as [Hfull|Hroom].
  { eexists _, (Err (Io WriteZero)).
    split; [by apply write_all_zero; [|apply WriteLimiter_write_full]|].
    unfold WriteLimiter_remaining. cbn. destruct bs; [done|].
    rewrite decide_False by (cbn [length]; lia). done. }
  pose proof (WriteLimiter_write_run bs v lim wr ltac:(lia)) as Hw. cbn zeta in Hw.
  destruct (decide (Z.of_nat (length bs) <= lim - wr)) as [Hfit|Hshort].
  - rewrite Z.min_r, Nat2Z.id, firstn_all in Hw by lia.
    do 2 eexists. split; [by apply write_all_full|].
    unfold WriteLimiter_remaining, vec_len in *. cbn. rewrite length_app.
    split_and!; [lia..|]. rewrite decide_True by lia. split_and!; [done..|f_equal; lia].
  - rewrite Z.min_l in Hw by lia.
    eexists _, (Err (Io WriteZero)). split.
    + eapply write_all_partial; [|exact Hw|]; [lia|]. apply WriteLimiter_write_full. lia.
    + unfold WriteLimiter_remaining, vec_len in *. cbn. rewrite length_app, length_take.
      split_and!; [lia..|]. by rewrite decide_False by lia.
Qed.

(** A serialiser on a local cursor at the end of a vector. *)
Lemma emits_local {S A} (m : M VecCursor A) bs a (v : VecU8) (s : S) : emits m bs a ->
  exists v', st_local (MkVecCursor v (vec_len v)) (st_unwrap m) s =
      Some (s, Ok (MkVecCursor v' (vec_len v'), a)) /\ vdata v' = vdata v ++ bs.
Proof.
  intros Hm. destruct (Hm (MkVecCursor v (vec_len v))) as ([v' pos] & r & Hrun & Hok & -> & Hout & _);
    [done|]. simpl in Hok, Hout. subst pos. exists v'. unfold st_local, st_unwrap. rewrite Hrun. done.
Qed.

(** A parser on the second of two borrowed objects. *)
Lemma reads_snd {S A} (m : M Cursor A) bs a (s : S) c rest :
  reads m bs a -> 0 <= position c -> remaining_slice c = bs ++ rest ->
  exists c', st_snd m (s, c) = Some ((s, c'), Ok a) /\ remaining_slice c' = rest /\ 0 <= position c'.
Proof.
  intros Hm Hp Hc. destruct (Hm c rest Hp Hc) as (c' & Hrun & Hr & _ & Hpos).
  exists c'. unfold st_snd, st_zoom. simpl. rewrite Hrun. split_and!; [done|done|lia].
Qed.

(** Readers and writers that never panic. *)
Lemma read_exact_no_panic n : no_panic (read_exact n).
Proof. unfold read_exact. no_panic_tac. Qed.

Lemma read_u8_no_panic : no_panic read_u8.
Proof. unfold read_u8. apply no_panic_bind; [apply read_exact_no_panic|]. auto with no_panic. Qed.

Lemma read_uint_no_panic `{ByteOrder} n : no_panic (read_uint n).
Proof. unfold read_uint. apply no_panic_bind; [apply read_exact_no_panic|]. auto with no_panic. Qed.

#[export] Hint Resolve read_exact_no_panic read_u8_no_panic : no_panic.
#[export] Hint Extern 1 (no_panic read_u16) => apply read_uint_no_panic : no_panic.
#[export] Hint Extern 1 (no_panic read_u32) => apply read_uint_no_panic : no_panic.
#[export] Hint Extern 1 (no_panic read_u64) => apply read_uint_no_panic : no_panic.

Lemma write_u8_slice_no_panic b : no_panic (write_u8 b : M SliceWriter unit).
Proof. intros w. destruct (write_u8_emits b w) as (w' & r & -> & _); [done|]. by do 2 eexists. Qed.
#[export] Hint Resolve write_u8_slice_no_panic : no_panic.

(** ** What parsers return *)

(** One step of a parser that succeeded, [H], from a cursor over bytes,
    [Hc]: the first parser does what [L] says. *)
Tactic Notation "parses_step" hyp(H) hyp(Hc) uconstr(L) "as" ident(a) simple_intropattern(pat) :=
  let H1 := fresh in let c := fresh "c" in let Hn := fresh in
  apply run_bind_inv in H as [(c & a & H1 & H)|(? & _ & [=])];
  apply L in H1 as [Hn pat]; [|exact Hc]; clear Hc; rename Hn into Hc.

(** A cursor over bytes. *)
Definition reading (c : Cursor) : Prop := is_bytes (get_ref c) /\ 0 <= position c.

(** On bytes, what [m] returns is related by [Q] to what there was to read
    and to what remains. *)
Definition parses {A} (m : M Cursor A) (Q : list Z -> A -> list Z -> Prop) : Prop := forall c c' a,
  reading c -> m c = Some (c', Ok a) -> reading c' /\ Q (remaining_slice c) a (remaining_slice c').

Section parsing.
Context `{BO : ByteOrder, BL : !ByteOrderLaws BO}.

Lemma parses_ret {A} (a : A) : parses (mret a) (fun s b s' => b = a /\ s' = s).
Proof. by intros c c' a' Hc [= <- <-]. Qed.

Lemma parses_throw {A} e (Q : list Z -> A -> list Z -> Prop) : parses (st_throw e) Q.
Proof. by intros c c' a. Qed.

(** One after the other; the second parser need only do well on what the
    first one leaves. *)
Lemma parses_bind {A B} (m : M Cursor A) (k : A -> M Cursor B) Q (R : A -> list Z -> B -> list Z -> Prop) :
  parses m Q -> (forall a, parses (k a) (R a)) -> parses (m ≫= k) (fun s b s' => exists a s1, Q s a s1 /\ R a s1 b s').
Proof.
  intros Hm Hk c c' b Hc [(c1 & a & H1 & H2)|(e & _ & [=])]%run_bind_inv.
  destruct (Hm _ _ _ Hc H1) as [Hc1 Ha]. destruct (Hk _ _ _ _ Hc1 H2) as [Hc2 Hb]. split; [done|]. by exists a, (remaining_slice c1).
Qed.

Lemma parses_mono {A} (m : M Cursor A) (Q R : list Z -> A -> list Z -> Prop) :
  parses m Q -> (forall s a s', Q s a s' -> R s a s') -> parses m R.
Proof. intros Hm HR c c' a Hc Hrun. destruct (Hm _ _ _ Hc Hrun) as [Hc' Ha]. split; [done|by apply HR]. Qed.

Lemma read_exact_parses n : parses (read_exact n) (fun s bs s' => is_bytes bs /\ length bs = n /\ s = bs ++ s').
Proof.
  intros c c' bs [Hb Hp]. unfold read_exact. rewrite run_get. destruct (Z.leb_spec (Z.of_nat n) (remaining c)) as [Hle|]; [|done].
  intros [= <- <-]. rewrite remaining_length in Hle by done. split; [split; cbn; lia || done|].
  split; [by apply Forall_take, Forall_drop|]. split; [rewrite length_take; lia|].
  destruct (read_exact_reads n (take n (remaining_slice c))) with (c := c) (rest := drop n (remaining_slice c)) as (c1 & Hrun & Hs & _);
    [rewrite length_take; lia|done|by rewrite take_drop|].
  unfold read_exact in Hrun. rewrite run_get, remaining_length in Hrun by done. rewrite (proj2 (Z.leb_le _ _)) in Hrun by lia.
  injection Hrun as Hc1. rewrite Hc1, Hs. by rewrite take_drop.
Qed.

Lemma read_uint_parses n : parses (read_uint n) (fun s v s' => 0 <= v < 256 ^ Z.of_nat n /\ s = be_put n v ++ s').
Proof.
  eapply parses_mono; [unfold read_uint; eapply parses_bind; [apply read_exact_parses|intros bs; apply parses_ret]|].
  intros s v s' (bs & s1 & (Hb & Hl & ->) & -> & ->). split; [|by rewrite <- Hl, be_put_get].
  rewrite <- Hl. by apply be_get_range.
Qed.

Lemma read_u8_parses : parses read_u8 (fun s b s' => u8 b /\ s = b :: s').
Proof.
  eapply parses_mono; [unfold read_u8; eapply parses_bind; [apply read_exact_parses|intros bs; apply parses_ret]|].
  intros s v s' (bs & s1 & (Hb & Hl & ->) & -> & ->). destruct bs as [|b [|? ?]]; try done.
  apply Forall_cons in Hb as [Hb _]. by split.
Qed.
End parsing.
