(* ===== verification/BufferPool.v ===== *)
(** * Buffer pools ([buffer_pool.rs])

    A [BufPool] is a list of pools of reusable byte vectors, by increasing
    capacity.  A vector is modelled with its capacity, because the pools are
    chosen by it. *)

From S2P Require Import Prelude Floats Types Cursor.
From Stdlib Require Import Sorting.Sorted.

(** The newtype [PooledBuffer(Vec<u8>)]. *)
Abbreviation PooledBuffer := VecU8.

(** [PooledBuffer::default()]: an empty vector without storage. *)
Definition PooledBuffer_default : PooledBuffer := MkVec [] 0.

(** [Clone]: the clone's storage is just large enough for the bytes. *)
Definition PooledBuffer_clone (b : PooledBuffer) : PooledBuffer := MkVec (vdata b) (vec_len b).

Definition vec_with_capacity (cap : Z) : PooledBuffer := MkVec [] cap.

(** [Vec::clear]: the storage is kept. *)
Definition vec_clear (b : PooledBuffer) : PooledBuffer := MkVec [] (vcapacity b).

Record Pool := MkPool {
  buffers : list PooledBuffer;
  pool_config : PoolConfig;
  overflow_allocations : Z;
  discarded_checkins : Z;
}.

Definition Pool_new (config : PoolConfig) : Pool := {|
  buffers := replicate (Z.to_nat (starting_size config)) (vec_with_capacity (buffer_capacity config));
  pool_config := config;
  overflow_allocations := 0;
  discarded_checkins := 0;
|}.

(** [Vec::pop] takes the last element. *)
Definition vec_pop {A} (l : list A) : option (A * list A) :=
  match rev l with
  | [] => None
  | x :: l' => Some (x, rev l')
  end.

Definition Pool_checkout (self : Pool) : PooledBuffer * Pool :=
  match vec_pop (buffers self) with
  | Some (existing, rest) =>
      (vec_clear existing,
       {| buffers := rest; pool_config := pool_config self;
          overflow_allocations := overflow_allocations self;
          discarded_checkins := discarded_checkins self |})
  | None =>
      (vec_with_capacity (buffer_capacity (pool_config self)),
       {| buffers := buffers self; pool_config := pool_config self;
          overflow_allocations := overflow_allocations self + 1;
          discarded_checkins := discarded_checkins self |})
  end.

Definition Pool_checkin (buffer : PooledBuffer) (self : Pool) : Pool :=
  if max_size (pool_config self) <=? Z.of_nat (length (buffers self)) then
    {| buffers := buffers self; pool_config := pool_config self;
       overflow_allocations := overflow_allocations self;
       discarded_checkins := discarded_checkins self + 1 |}
  else
    {| buffers := buffers self ++ [buffer]; pool_config := pool_config self;
       overflow_allocations := overflow_allocations self;
       discarded_checkins := discarded_checkins self |}.

(** ** The pools by capacity *)
Record BufPool := MkBufPool { pools : list (PoolConfig * Pool) }.

(** [sort_by_key]: the standard library's stable sort. *)
Fixpoint insert_by_capacity (c : PoolConfig) (l : list PoolConfig) : list PoolConfig :=
  match l with
  | [] => [c]
  | d :: l' => if buffer_capacity c <=? buffer_capacity d then c :: l
               else d :: insert_by_capacity c l'
  end.
Definition sort_by_capacity (l : list PoolConfig) : list PoolConfig :=
  foldr insert_by_capacity [] l.

Definition BufPool_new (configs : list PoolConfig) : BufPool :=
  MkBufPool ((fun config => (config, Pool_new config)) <$> sort_by_capacity configs).

Definition BufPool_default_configs : list PoolConfig := [
  {| starting_size := 1000; max_size := 1000000; buffer_capacity := 64 |};
  {| starting_size := 1000; max_size := 100000; buffer_capacity := 256 |};
  {| starting_size := 100; max_size := 10000; buffer_capacity := 1200 |};
  {| starting_size := 0; max_size := 10; buffer_capacity := 2048 |}].
Definition BufPool_default : BufPool := BufPool_new BufPool_default_configs.

Definition BufPool_full_packets_only : BufPool :=
  BufPool_new [{| starting_size := 1; max_size := 10; buffer_capacity := 1500 |}].

Definition BufPool_empty : BufPool :=
  BufPool_new [{| starting_size := 0; max_size := 0; buffer_capacity := 0 |}].

(** A pool's configuration suits a request for [min_size]. *)
Definition suits (min_size : Z) (config : PoolConfig) : bool :=
  (min_size <=? buffer_capacity config) || (buffer_capacity config =? 0).

(** Apply [f] to the first pool that suits, or to the last one; no pool at
    all is the [unwrap] panic. *)
Fixpoint on_pool {A} (min_size : Z) (f : Pool -> A * Pool) (l : list (PoolConfig * Pool))
  : option (A * list (PoolConfig * Pool)) :=
  match l with
  | [] => None
  | (config, pool) :: l' =>
      if suits min_size config || (match l' with [] => true | _ => false end) then
        let '(a, pool') := f pool in Some (a, (config, pool') :: l')
      else
        '(a, l'') ← on_pool min_size f l'; Some (a, (config, pool) :: l'')
  end.

Definition get_buffer (min_size : Z) : M BufPool PooledBuffer := fun self =>
  match on_pool min_size Pool_checkout (pools self) with
  | Some (b, l) => Some (MkBufPool l, Ok b)
  | None => None
  end.

Definition return_buffer (buffer : PooledBuffer) : M BufPool unit := fun self =>
  match on_pool (vcapacity buffer) (fun p => (tt, Pool_checkin buffer p)) (pools self) with
  | Some (_, l) => Some (MkBufPool l, Ok tt)
  | None => None
  end.

(** ** Facts *)

Lemma vec_pop_snoc {A} (l : list A) x : vec_pop (l ++ [x]) = Some (x, l).
Proof. unfold vec_pop. rewrite rev_app_distr. simpl. by rewrite rev_involutive. Qed.

Lemma vec_pop_Some {A} (l : list A) x l' : vec_pop l = Some (x, l') -> l = l' ++ [x].
Proof.
  unfold vec_pop. destruct (rev l) as [|y r] eqn:E; [done|]. intros [= <- <-].
  rewrite <- (rev_involutive l), E. done.
Qed.

Lemma vec_pop_None {A} (l : list A) : vec_pop l = None -> l = [].
Proof.
  unfold vec_pop. destruct (rev l) as [|y r] eqn:E; [|done]. intros _.
  by rewrite <- (rev_involutive l), E.
Qed.

Lemma insert_by_capacity_perm c l : insert_by_capacity c l ≡ₚ c :: l.
Proof.
  induction l as [|d l IH]; simpl; [done|]. case_match; [done|].
  rewrite IH. constructor.
Qed.

Lemma sort_by_capacity_perm l : sort_by_capacity l ≡ₚ l.
Proof. induction l as [|c l IH]; simpl; [done|]. by rewrite insert_by_capacity_perm, IH. Qed.

Definition by_capacity (c d : PoolConfig) : Prop := buffer_capacity c <= buffer_capacity d.

Lemma insert_by_capacity_sorted c l :
  Sorted by_capacity l -> Sorted by_capacity (insert_by_capacity c l).
Proof.
  induction l as [|d l IH]; intros Hs; simpl; [by repeat constructor|].
  destruct (Z.leb_spec (buffer_capacity c) (buffer_capacity d)).
  - constructor; [done|]. by constructor.
  - apply Sorted_inv in Hs as [Hs Hd]. constructor; [auto|].
    destruct l as [|e l]; simpl in *; [constructor; unfold by_capacity; lia|].
    apply HdRel_inv in Hd. case_match; constructor; unfold by_capacity in *; lia.
Qed.

Lemma sort_by_capacity_sorted l : Sorted by_capacity (sort_by_capacity l).
Proof. induction l; simpl; [constructor|]. by apply insert_by_capacity_sorted. Qed.

(** *** The promise of [get_buffer] to its clients *)
Definition has_pool (bp : BufPool) : Prop := pools bp <> [].

Lemma on_pool_total {A} n (f : Pool -> A * Pool) l : l <> [] ->
  exists a l', on_pool n f l = Some (a, l') /\ l' <> [] /\ l'.*1 = l.*1 /\
    exists p, p ∈ l.*2 /\ a = (f p).1.
Proof.
  induction l as [|[c p] l IH]; [done|]. intros _. simpl.
  destruct (suits n c || _) eqn:E.
  - destruct (f p) as [a p'] eqn:Ef. do 2 eexists. split_and!; [done..|].
    exists p. rewrite Ef. split; [left|done].
  - destruct l as [|x l]; [by rewrite orb_true_r in E|].
    destruct IH as (a & l' & -> & Hne & Hfst & q & Hq & ->); [done|].
    do 2 eexists. split_and!; [done|done|simpl; by f_equal|].
    exists q. split; [by right|done].
Qed.

(** With a pool to take it from, [get_buffer] returns an empty buffer: what
    the previous user wrote is gone. *)
Lemma get_buffer_run n bp : has_pool bp ->
  exists bp' b, get_buffer n bp = Some (bp', Ok b) /\ has_pool bp' /\ vdata b = [].
Proof.
  intros Hp. destruct (on_pool_total n Pool_checkout (pools bp) Hp) as (b & l & Hrun & Hl & _ & p & _ & ->).
  exists (MkBufPool l), (Pool_checkout p).1. unfold get_buffer. rewrite Hrun. split_and!; [done|done|].
  unfold Pool_checkout. by destruct (vec_pop (buffers p)) as [[? ?]|].
Qed.

Lemma return_buffer_run b bp : has_pool bp ->
  exists bp', return_buffer b bp = Some (bp', Ok tt) /\ has_pool bp'.
Proof.
  intros Hp. destruct (on_pool_total (vcapacity b) (fun p => (tt, Pool_checkin b p)) (pools bp) Hp)
    as (u & l & Hrun & Hl & _). exists (MkBufPool l). unfold return_buffer. by rewrite Hrun.
Qed.

Lemma BufPool_new_has_pool configs : configs <> [] -> has_pool (BufPool_new configs).
Proof.
  intros Hne H. unfold has_pool, BufPool_new in H. simpl in H. apply fmap_nil_inv in H.
  pose proof (sort_by_capacity_perm configs) as Hp. rewrite H in Hp.
  by apply Permutation_nil in Hp.
Qed.

(** *** Capacities *)

(** Every pooled buffer has at least its pool's capacity. *)
Definition roomy_pool (cp : PoolConfig * Pool) : Prop :=
  pool_config cp.2 = cp.1 /\
  Forall (fun b => buffer_capacity cp.1 <= vcapacity b) (buffers cp.2).
Definition roomy (bp : BufPool) : Prop := Forall roomy_pool (pools bp).

Lemma checkout_roomy c p : roomy_pool (c, p) ->
  buffer_capacity c <= vcapacity (Pool_checkout p).1 /\ roomy_pool (c, (Pool_checkout p).2).
Proof.
  intros [Hc Hall]. unfold Pool_checkout, roomy_pool in *. simpl in *.
  destruct (vec_pop (buffers p)) as [[b rest]|] eqn:E; simpl.
  - apply vec_pop_Some in E. rewrite E, Forall_app, Forall_singleton in Hall. tauto.
  - rewrite Hc. split; [lia|done].
Qed.

Lemma checkin_roomy c p b : roomy_pool (c, p) -> buffer_capacity c <= vcapacity b ->
  roomy_pool (c, Pool_checkin b p).
Proof.
  intros [Hc Hall] Hb. unfold Pool_checkin, roomy_pool in *. case_match; simpl in *; [done|].
  split; [done|]. by apply Forall_app_2; [|apply Forall_singleton].
Qed.

Lemma on_pool_roomy {A} n (f : Pool -> A * Pool) (P : A -> Prop) l a l' :
  Forall roomy_pool l ->
  (forall c p, (c, p) ∈ l -> roomy_pool (c, p) -> suits n c = true \/ Forall (fun cp => suits n cp.1 = false) l ->
     P (f p).1 /\ roomy_pool (c, (f p).2)) ->
  on_pool n f l = Some (a, l') -> P a /\ Forall roomy_pool l'.
Proof.
  revert l'. induction l as [|[c p] l IH]; intros l' Hall Hf; [done|]. simpl.
  apply Forall_cons in Hall as [Hcp Hall].
  destruct (suits n c) eqn:Es; simpl.
  - destruct (f p) as [a' p'] eqn:Ef. intros [= <- <-].
    destruct (Hf c p ltac:(left) Hcp) as [? ?]; [by left|]. rewrite Ef in *. split; [done|by constructor].
  - destruct l as [|x l].
    + destruct (f p) as [a' p'] eqn:Ef. intros [= <- <-].
      destruct (Hf c p ltac:(left) Hcp) as [? ?]; [right; by repeat constructor|].
      rewrite Ef in *. split; [done|by constructor].
    + intros Hrun. destruct (on_pool n f (x :: l)) as [[a1 l1]|] eqn:Eo; [|done].
      injection Hrun as <- <-. destruct (IH l1) as [? ?]; [done| |done|by split; [|constructor]].
      intros c' p' Hin Hr Hs. apply Hf; [by right|done|].
      destruct Hs as [?|Hs]; [by left|right; by constructor].
Qed.

(** A request some pool can serve gets a buffer that needs no reallocation,
    as long as the pools hold what they should. *)
Lemma get_buffer_capacity n bp bp' b : roomy bp ->
  Forall (fun cp => buffer_capacity cp.1 <> 0) (pools bp) ->
  Exists (fun cp => n <= buffer_capacity cp.1) (pools bp) ->
  get_buffer n bp = Some (bp', Ok b) -> n <= vcapacity b /\ roomy bp'.
Proof.
  intros Hr Hnz Hex. unfold get_buffer.
  destruct (on_pool n Pool_checkout (pools bp)) as [[b' l]|] eqn:E; [|done].
  intros [= <- <-]. eapply (on_pool_roomy n _ (fun b => n <= vcapacity b)); [exact Hr| |exact E].
  intros c p Hin Hcp Hs. destruct (checkout_roomy c p Hcp) as [Hcap Hcp'].
  split; [|done]. destruct Hs as [Hs|Hs].
  - unfold suits in Hs. rewrite Forall_forall in Hnz. specialize (Hnz _ Hin). simpl in Hnz.
    apply orb_true_iff in Hs as [?%Z.leb_le|?%Z.eqb_eq]; lia.
  - exfalso. apply Exists_exists in Hex as (cp & Hcp0 & Hle).
    rewrite Forall_forall in Hs. specialize (Hs _ Hcp0).
    unfold suits in Hs. apply orb_false_iff in Hs as [?%Z.leb_gt _]. lia.
Qed.

(** Returning a buffer keeps that, when the buffer is not smaller than the
    pool it goes to. *)
Lemma return_buffer_roomy b bp bp' : roomy bp ->
  Forall (fun cp => suits (vcapacity b) cp.1 = true -> buffer_capacity cp.1 <= vcapacity b) (pools bp) ->
  return_buffer b bp = Some (bp', Ok tt) -> roomy bp'.
Proof.
  intros Hr Hsz. unfold return_buffer.
  destruct (on_pool _ _ (pools bp)) as [[u l]|] eqn:E; [|done]. intros [= <-].
  eapply (on_pool_roomy _ _ (fun _ => True)); [exact Hr| |exact E].
  intros c p Hin Hcp Hs. split; [done|]. simpl. apply checkin_roomy; [done|].
  rewrite Forall_forall in Hsz. specialize (Hsz _ Hin). destruct Hs as [Hs|Hs]; [auto|].
  rewrite Forall_forall in Hs. specialize (Hs _ Hin). unfold suits in Hs. simpl in Hs.
  apply orb_false_iff in Hs as [?%Z.leb_gt _]. lia.
Qed.

Lemma BufPool_new_roomy configs : roomy (BufPool_new configs).
Proof.
  unfold roomy, BufPool_new. simpl. apply Forall_fmap, Forall_forall. intros c _.
  split; [done|]. simpl. apply Forall_replicate. simpl. lia.
Qed.

(** [get_buffer] does not keep its promise of a buffer with room for
    [min_size] bytes: [return_buffer] puts a buffer into the first pool whose
    buffers are at least as large, so one whose capacity is between two pools'
    sizes (a clone, or a vector that grew) makes the larger pool hand out a
    smaller buffer than it was asked for. *)
Theorem small_buffer_comes_back c p rest b n : vcapacity b < n -> n <= buffer_capacity c ->
  Z.of_nat (length (buffers p)) < max_size (pool_config p) ->
  exists bp1 bp2 b', return_buffer b (MkBufPool ((c, p) :: rest)) = Some (bp1, Ok tt) /\
    get_buffer n bp1 = Some (bp2, Ok b') /\ vcapacity b' < n.
Proof.
  intros Hb Hn Hroom. unfold return_buffer, get_buffer. cbn [pools on_pool]. unfold suits.
  rewrite (proj2 (Z.leb_le (vcapacity b) _)) by lia. cbn [orb]. eexists _, _, _. split; [done|].
  cbn [pools on_pool]. unfold suits. rewrite (proj2 (Z.leb_le n _)) by lia. cbn [orb].
  unfold Pool_checkin. rewrite (proj2 (Z.leb_gt _ _)) by lia. unfold Pool_checkout. cbn [buffers].
  rewrite vec_pop_snoc. split; [done|]. exact Hb.
Qed.

(** A vector of ten bytes returns to a pool of larger ones. *)
Lemma small_buffer_comes_back_witness : exists bp1 bp2 b',
  return_buffer (MkVec [1; 2] 10) (BufPool_new [{| starting_size := 2; max_size := 10; buffer_capacity := 64 |}]) = Some (bp1, Ok tt) /\
  get_buffer 60 bp1 = Some (bp2, Ok b') /\ vcapacity b' < 60.
Proof. apply small_buffer_comes_back; vm_compute; reflexivity || discriminate. Defined.
