(* ===== verification/AckHeader.v ===== *)
(** * The ack field of a packet header ([ack_header.rs])

    The newest received packet id, then one bit per earlier id, seven bits a
    byte; the top bit of a byte says that another byte follows. *)

From S2P Require Import Prelude Floats Types Cursor SequenceBuffer.

Record AckHeader := MkAckHeader {
  ack_id : PacketId;
  num_acks : Z;
  bit_buffer : list Z;
  num_bytes_needed : Z;
  byte_offset : Z;
  bit_offset : Z;
}.

(** ** The header as an iterator over [(sequence, is_acked)] *)
Definition AckHeader_next (self : AckHeader) : option (option ((Z * bool) * AckHeader)) :=
  if (byte_offset self =? num_bytes_needed self) || (byte_offset self =? MAX_ACK_BYTES) then Some None
  else
    b ← bit_buffer self !! Z.to_nat (byte_offset self);
    let mask := wrap8 (Z.shiftl 1 (bit_offset self)) in
    let is_acked := Z.land b mask =? mask in
    let seq_offset := 7 * byte_offset self + bit_offset self in
    let sequence := wrap16 (ack_id self - seq_offset) in
    let '(byte_offset', bit_offset') :=
      if bit_offset self =? 6 then
        if negb (Z.land b 128 =? 128) then (MAX_ACK_BYTES, bit_offset self)
        else (byte_offset self + 1, 0)
      else (byte_offset self, bit_offset self + 1) in
    Some (Some ((sequence, is_acked),
      {| ack_id := ack_id self; num_acks := num_acks self; bit_buffer := bit_buffer self;
         num_bytes_needed := num_bytes_needed self;
         byte_offset := byte_offset'; bit_offset := bit_offset' |})).

(** Draining the iterator.  A field has at most [MAX_UNACKED_PACKETS] bits. *)
Fixpoint AckHeader_drain (fuel : nat) (self : AckHeader) : option (list (Z * bool)) :=
  match AckHeader_next self with
  | None => None
  | Some None => Some []
  | Some (Some (x, self')) =>
      match fuel with
      | O => None
      | S fuel' => xs ← AckHeader_drain fuel' self'; Some (x :: xs)
      end
  end.
Definition AckHeader_collect (self : AckHeader) : option (list (Z * bool)) :=
  AckHeader_drain (Z.to_nat MAX_UNACKED_PACKETS) self.

(** ** Size, serialisation, parsing *)
Definition AckHeader_size (self : AckHeader) : Z := 2 + num_bytes_needed self.

Section serialisation.
Context `{BO : ByteOrder}.

Definition AckHeader_write `{Write W} (self : AckHeader) : M W Z :=
  write_u16 (ack_id self);;
  write_all (take (Z.to_nat (num_bytes_needed self)) (bit_buffer self));;
  mret (num_bytes_needed self + 2).

(** The loop of [parse]: read a byte, store it, go on while it says so. *)
Fixpoint parse_bytes (fuel : nat) (writer : SliceWriter) (n : Z) : M Cursor (SliceWriter * Z) :=
  match fuel with
  | O => mret (writer, n)
  | S fuel' =>
      b ← read_u8;
      '(writer', _) ← st_local writer (write_u8 b);
      if negb (Z.land b 128 =? 128) then mret (writer', n + 1)
      else parse_bytes fuel' writer' (n + 1)
  end.

Definition AckHeader_parse : M Cursor AckHeader :=
  ack_id ← read_u16;
  '(writer, n) ← parse_bytes (Z.to_nat MAX_ACK_BYTES)
    (SliceWriter_new (replicate (Z.to_nat MAX_ACK_BYTES) 0)) 0;
  mret {| ack_id := ack_id; num_acks := n * 7; num_bytes_needed := n;
          bit_buffer := sw_slice writer; byte_offset := 0; bit_offset := 0 |}.
End serialisation.

(** ** Building the field from an iterator of acks *)

(** Seven bits from the iterator, from the least significant one; the state
    is (mask, current byte, iterator). *)
Fixpoint pack_bits (n : nat) (mask current_byte : Z) (it : list (Z * bool)) : Z * Z * list (Z * bool) :=
  match n with
  | O => (mask, current_byte, it)
  | S n' =>
      let current_byte' :=
        match it with
        | (_id, true) :: _ => Z.lor current_byte mask
        | _ => current_byte
        end in
      pack_bits n' (wrap8 (Z.shiftl mask 1)) current_byte' (tail it)
  end.

Definition pack_byte (it : list (Z * bool)) : Z * list (Z * bool) :=
  let '(mask, current_byte, it') := pack_bits 7 1 0 it in
  (match it' with [] => current_byte | _ => Z.lor current_byte mask end, it').

Fixpoint write_bits (n : nat) (it : list (Z * bool)) : M SliceWriter unit :=
  match n with
  | O => mret tt
  | S n' => let '(b, it') := pack_byte it in write_u8 b;; write_bits n' it'
  end.

(** [from_ack_iter]; an empty iterator is the [expect] panic. *)
Definition AckHeader_from_ack_iter (num_acks : Z) (ack_iter : list (Z * bool))
  : option (result AckHeader PicklebackError) :=
  match ack_iter with
  | [] => None
  | (ack_id, _) :: _ =>
      let num_bytes_needed := Z.max (f_as_uint 255 (ceil7 num_acks)) 1 in
      match write_bits (Z.to_nat num_bytes_needed) ack_iter
              (SliceWriter_new (replicate (Z.to_nat MAX_ACK_BYTES) 0)) with
      | Some (writer, Ok _) =>
          Some (Ok {| ack_id := ack_id; num_acks := num_acks;
                      num_bytes_needed := num_bytes_needed; bit_buffer := sw_slice writer;
                      byte_offset := 0; bit_offset := 0 |})
      | Some (_, Err e) => Some (Err e)
      | None => None
      end
  end.

(** ** [AckIter]: the acks to send, from the received-packet buffer *)
Record AckIter := MkAckIter {
  seq_buffer : SequenceBuffer ReceivedMeta;
  ai_i : Z;
  ai_max : Z;
}.

Definition AckIter_with_minimum_length `{BuildProfile} (seq_buffer : SequenceBuffer ReceivedMeta) (length : Z)
  : option AckIter :=
  max ← arith16 (f_as_uint 65535 (ceil7 length) * 7);
  Some {| seq_buffer := seq_buffer; ai_i := 0; ai_max := max |}.

Definition AckIter_next (self : AckIter) : option (option ((Z * bool) * AckIter)) :=
  if ai_max self <=? ai_i self then Some None
  else
    let seq := wrap16 (sequence (seq_buffer self) - ai_i self) in
    found ← SeqBuf.exists_ (seq_buffer self) seq;
    Some (Some ((seq, found),
      {| seq_buffer := seq_buffer self; ai_i := ai_i self + 1; ai_max := ai_max self |})).

Fixpoint AckIter_drain (fuel : nat) (self : AckIter) : option (list (Z * bool)) :=
  match AckIter_next self with
  | None => None
  | Some None => Some []
  | Some (Some (x, self')) =>
      match fuel with
      | O => None
      | S fuel' => xs ← AckIter_drain fuel' self'; Some (x :: xs)
      end
  end.
Definition AckIter_collect (self : AckIter) : option (list (Z * bool)) :=
  AckIter_drain (Z.to_nat (ai_max self)) self.

(** ** Facts: bits *)

Lemma land_pow2_testbit b k : 0 <= k -> (Z.land b (2 ^ k) =? 2 ^ k) = Z.testbit b k.
Proof.
  intros Hk. assert (Hand : Z.land b (2 ^ k) = if Z.testbit b k then 2 ^ k else 0).
  { apply Z.bits_inj'. intros i Hi. rewrite Z.land_spec, Z.pow2_bits_eqb by done.
    destruct (Z.eqb_spec k i) as [->|Hne].
    - destruct (Z.testbit b i); rewrite ?Z.pow2_bits_eqb, ?Z.eqb_refl, ?Z.bits_0 by done; done.
    - rewrite andb_false_r. destruct (Z.testbit b k); [|by rewrite Z.bits_0].
      rewrite Z.pow2_bits_eqb by done. symmetry. by apply Z.eqb_neq. }
  rewrite Hand. pose proof (Z.pow_pos_nonneg 2 k).
  destruct (Z.testbit b k); [apply Z.eqb_refl|]. apply Z.eqb_neq. lia.
Qed.

Lemma wrap8_shiftl_1 k : 0 <= k < 8 -> wrap8 (Z.shiftl 1 k) = 2 ^ k.
Proof.
  intros Hk. rewrite Z.shiftl_1_l. apply wrap8_small.
  split; [by apply Z.pow_nonneg|]. apply (Z.pow_lt_mono_r 2 k 8); lia.
Qed.

(** The continuation test of the code. *)
Lemma cont_testbit b : (Z.land b 128 =? 128) = Z.testbit b 7.
Proof. apply (land_pow2_testbit b 7). lia. Qed.

(** ** What a field of bytes says *)
Definition byte_acks (id off b : Z) : list (Z * bool) :=
  (fun j => (wrap16 (id - (off + j)), Z.testbit b j)) <$> [0; 1; 2; 3; 4; 5; 6].

Fixpoint decode (id off : Z) (bs : list Z) : list (Z * bool) :=
  match bs with
  | [] => []
  | b :: bs' => byte_acks id off b ++ decode id (off + 7) bs'
  end.

(** All bytes but the last announce another one. *)
Fixpoint chained (bs : list Z) : bool :=
  match bs with
  | [] => false
  | b :: bs' => match bs' with [] => negb (Z.testbit b 7) | _ => Z.testbit b 7 && chained bs' end
  end.

(** What the parser takes for a field when [n] bytes are left for it: a field
    that fills them needs no end. *)
Fixpoint chained_to (n : nat) (bs : list Z) : bool :=
  match n, bs with
  | S n', b :: bs' => match bs' with [] => negb (Z.testbit b 7) || (n' =? 0)%nat | _ => Z.testbit b 7 && chained_to n' bs' end
  | _, _ => false
  end.

Lemma chained_fits n bs : chained bs = true -> (length bs <= n)%nat -> chained_to n bs = true.
Proof.
  revert n. induction bs as [|b bs IH]; intros n Hc Hl; [done|]. destruct n as [|n]; [simpl in Hl; lia|].
  cbn [chained chained_to length] in *. destruct bs as [|b' bs]; [by rewrite Hc|].
  apply andb_true_iff in Hc as [-> Hc]. apply IH; [done|lia].
Qed.

Lemma chained_to_length n bs : chained_to n bs = true -> (1 <= length bs <= n)%nat.
Proof.
  revert n. induction bs as [|b bs IH]; intros [|n] Hc; try done. cbn [chained_to length] in *.
  destruct bs as [|b' bs]; [simpl; lia|]. apply andb_true_iff in Hc as [_ Hc]. specialize (IH n Hc). cbn [length] in *. lia.
Qed.

(** A field that can be sent: at most 50 bytes, chained. *)
Record ack_field (bs : list Z) : Prop := {
  af_chained : chained bs = true;
  af_bytes : is_bytes bs;
  af_length : (length bs <= 50)%nat;
}.

(** The header that holds the field [bs], at the start of its iteration. *)
Definition field_header (id n : Z) (bs : list Z) : AckHeader := {|
  ack_id := id; num_acks := n;
  bit_buffer := bs ++ replicate (50 - length bs) 0;
  num_bytes_needed := Z.of_nat (length bs);
  byte_offset := 0; bit_offset := 0 |}.

Lemma chained_nonempty bs : chained bs = true -> (0 < length bs)%nat.
Proof. destruct bs; [done|]. simpl. lia. Qed.

Definition at_pos (h : AckHeader) (k j : Z) : AckHeader :=
  {| ack_id := ack_id h; num_acks := num_acks h; bit_buffer := bit_buffer h;
     num_bytes_needed := num_bytes_needed h; byte_offset := k; bit_offset := j |}.

Lemma next_at_pos h k j b : 0 <= k -> k < num_bytes_needed h <= 50 -> 0 <= j <= 6 ->
  bit_buffer h !! Z.to_nat k = Some b ->
  AckHeader_next (at_pos h k j) =
    Some (Some ((wrap16 (ack_id h - (7 * k + j)), Z.testbit b j),
      if j =? 6 then (if Z.testbit b 7 then at_pos h (k + 1) 0 else at_pos h 50 6)
      else at_pos h k (j + 1))).
Proof.
  intros Hk Hn Hj Hb. unfold AckHeader_next, MAX_ACK_BYTES. cbn.
  rewrite !(proj2 (Z.eqb_neq _ _)) by lia. cbn. rewrite Hb. cbn.
  rewrite wrap8_shiftl_1, land_pow2_testbit, cont_testbit by lia.
  destruct (Z.eqb_spec j 6) as [->|]; [|done]. by destruct (Z.testbit b 7).
Qed.

Lemma next_end h k j : k = num_bytes_needed h \/ k = 50 -> AckHeader_next (at_pos h k j) = Some None.
Proof.
  intros Hk. unfold AckHeader_next, MAX_ACK_BYTES. cbn.
  destruct Hk as [->| ->]; rewrite Z.eqb_refl; [done|by rewrite orb_true_r].
Qed.

Lemma drain_end h k j fuel : k = num_bytes_needed h \/ k = 50 -> AckHeader_drain fuel (at_pos h k j) = Some [].
Proof. intros Hk. destruct fuel; simpl; by rewrite next_end. Qed.

Lemma drain_step h k j b fuel : 0 <= k -> k < num_bytes_needed h <= 50 -> 0 <= j <= 6 ->
  bit_buffer h !! Z.to_nat k = Some b ->
  AckHeader_drain (S fuel) (at_pos h k j) =
    (xs ← AckHeader_drain fuel
       (if j =? 6 then (if Z.testbit b 7 then at_pos h (k + 1) 0 else at_pos h 50 6)
        else at_pos h k (j + 1));
     Some ((wrap16 (ack_id h - (7 * k + j)), Z.testbit b j) :: xs)).
Proof. intros. simpl. by rewrite (next_at_pos h k j b). Qed.

(** Draining from a byte's first bit: its seven acks, then the rest. *)
Lemma drain_byte h k b fuel : 0 <= k -> k < num_bytes_needed h <= 50 ->
  bit_buffer h !! Z.to_nat k = Some b ->
  AckHeader_drain (7 + fuel) (at_pos h k 0) =
    (xs ← (if Z.testbit b 7 then AckHeader_drain fuel (at_pos h (k + 1) 0) else Some []);
     Some (byte_acks (ack_id h) (7 * k) b ++ xs)).
Proof.
  intros Hk Hn Hb. cbn [Nat.add].
  rewrite (drain_step h k 0 b), (drain_step h k 1 b), (drain_step h k 2 b), (drain_step h k 3 b),
    (drain_step h k 4 b), (drain_step h k 5 b), (drain_step h k 6 b) by (done || lia).
  cbn [Z.eqb Pos.eqb].
  destruct (Z.testbit b 7).
  - by destruct (AckHeader_drain fuel _).
  - rewrite drain_end by auto. done.
Qed.

(** Draining a field from one of its bytes. *)
Lemma drain_field id n bs tl pre fuel : (length (pre ++ tl) <= 50)%nat -> bs = pre ++ tl ->
  chained tl = true -> (7 * length tl <= fuel)%nat ->
  AckHeader_drain fuel (at_pos (field_header id n bs) (Z.of_nat (length pre)) 0) =
    Some (decode id (7 * Z.of_nat (length pre)) tl).
Proof.
  revert pre fuel. induction tl as [|b tl IH]; intros pre fuel Hlen -> Hch Hfuel; [done|].
  rewrite length_app in Hlen. simpl length in Hlen, Hfuel.
  replace fuel with (7 + (fuel - 7))%nat by lia. rewrite (drain_byte _ _ b); simpl.
  - destruct tl as [|b' tl].
    + destruct (Z.testbit b 7); [|done].
      rewrite drain_end; [done|].
      left. simpl. rewrite length_app. simpl. lia.
    + simpl in Hch. apply andb_true_iff in Hch as [Hb Hch]. rewrite Hb.
      specialize (IH (pre ++ [b]) (fuel - 7)%nat).
      rewrite (length_app pre [b]), Nat2Z.inj_add in IH. change (length [b]) with 1%nat in IH.
      rewrite <- app_assoc in IH. simpl app in IH.
      replace (7 * Z.of_nat (length pre) + 7) with (7 * (Z.of_nat (length pre) + 1)) by lia.
      change (Z.of_nat 1) with 1 in IH.
      cbn [length] in *. rewrite IH; [done|rewrite length_app; cbn [length]; lia|done|exact Hch|lia].
  - lia.
  - rewrite length_app. simpl. lia.
  - rewrite Nat2Z.id, <- app_assoc. by apply list_lookup_middle.
Qed.

Lemma collect_field id n bs : ack_field bs ->
  AckHeader_collect (field_header id n bs) = Some (decode id 0 bs).
Proof.
  intros []. apply (drain_field id n bs bs [] (Z.to_nat MAX_UNACKED_PACKETS));
    try done. unfold MAX_UNACKED_PACKETS, MAX_ACK_BYTES. lia.
Qed.

(** ** Facts: building the field *)

Fixpoint pack_bytes (n : nat) (it : list (Z * bool)) : list Z :=
  match n with
  | O => []
  | S n' => (pack_byte it).1 :: pack_bytes n' (pack_byte it).2
  end.

(** Seven acks make a byte with these seven bits, and the continuation bit
    when more acks follow. *)
Lemma pack_byte_spec l rest : length l = 7%nat ->
  let b := (pack_byte (l ++ rest)).1 in
  (pack_byte (l ++ rest)).2 = rest /\ u8 b /\
  Z.testbit b <$> [0; 1; 2; 3; 4; 5; 6] = l.*2 /\
  Z.testbit b 7 = match rest with [] => false | _ => true end.
Proof.
  intros Hl.
  do 7 (destruct l as [|[? []] l]; [done| |]); (destruct l; [|done]);
    destruct rest as [|[] ?]; cbn -[Z.testbit Z.lt Z.le fmap];
    (split; [reflexivity|]); (split; [vm_compute; split; congruence|]);
    (split; vm_compute; reflexivity).
Qed.

Lemma write_u8_slice b w x rest : sw_rest w = x :: rest ->
  write_u8 b w = Some (MkSliceWriter (sw_filled w ++ [b]) rest, Ok tt).
Proof.
  intros Hr. destruct w as [f r]. simpl in Hr. subst r.
  apply (write_all_full [b]); [done|]. rewrite SliceWriter_write_run. simpl.
  done.
Qed.

Lemma write_bits_run n it w : (n <= length (sw_rest w))%nat ->
  write_bits n it w =
    Some (MkSliceWriter (sw_filled w ++ pack_bytes n it) (drop n (sw_rest w)), Ok tt).
Proof.
  revert it w. induction n as [|n IH]; intros it w Hn; simpl.
  { destruct w. simpl. by rewrite app_nil_r, drop_0. }
  destruct (pack_byte it) as [b it'] eqn:Ep. simpl.
  destruct (sw_rest w) as [|x rest] eqn:Er; [simpl in Hn; lia|]. simpl in Hn.
  erewrite run_bind_ok by (by eapply write_u8_slice). rewrite IH by (simpl; lia).
  simpl. by rewrite <- app_assoc.
Qed.

Lemma pack_bytes_length n it : length (pack_bytes n it) = n.
Proof. revert it. induction n; intros it; simpl; [done|]. by rewrite IHn. Qed.

(** The acks of consecutive ids, newest first. *)
Definition consecutive (id off : Z) (acks : list (Z * bool)) : Prop :=
  forall i x, acks !! i = Some x -> x.1 = wrap16 (id - (off + Z.of_nat i)).

Lemma consecutive_app id off l1 l2 : consecutive id off (l1 ++ l2) ->
  consecutive id off l1 /\ consecutive id (off + Z.of_nat (length l1)) l2.
Proof.
  intros H. split; intros i x Hx.
  - apply H. by apply lookup_app_l_Some.
  - rewrite (H (length l1 + i)%nat x) by (by rewrite lookup_app_r, Nat.add_comm, Nat.add_sub by lia).
    f_equal. lia.
Qed.

Lemma byte_acks_eq id off b l : length l = 7%nat -> consecutive id off l ->
  Z.testbit b <$> [0; 1; 2; 3; 4; 5; 6] = l.*2 -> byte_acks id off b = l.
Proof.
  intros Hl Hc Hb. do 7 (destruct l as [|[? ?] l]; [done|]). destruct l; [|done].
  unfold byte_acks. simpl in Hb |- *. injection Hb as -> -> -> -> -> -> ->.
  pose proof (Hc 0%nat _ eq_refl); pose proof (Hc 1%nat _ eq_refl); pose proof (Hc 2%nat _ eq_refl);
    pose proof (Hc 3%nat _ eq_refl); pose proof (Hc 4%nat _ eq_refl); pose proof (Hc 5%nat _ eq_refl);
    pose proof (Hc 6%nat _ eq_refl); simpl in *; subst; done.
Qed.

Lemma pack_bytes_decode n id off acks :
  length acks = (7 * n)%nat -> consecutive id off acks ->
  decode id off (pack_bytes n acks) = acks /\
  is_bytes (pack_bytes n acks) /\ (n <> 0%nat -> chained (pack_bytes n acks) = true).
Proof.
  revert off acks. induction n as [|n IH]; intros off acks Hl Hc.
  { apply nil_length_inv in Hl. by subst. }
  rewrite <- (take_drop 7 acks) in Hc |- *.
  assert (Ht : length (take 7 acks) = 7%nat) by (rewrite length_take; lia).
  assert (Hd : length (drop 7 acks) = (7 * n)%nat) by (rewrite length_drop; lia).
  revert Ht Hd Hc. generalize (take 7 acks), (drop 7 acks). intros l rest Ht Hd Hc.
  apply consecutive_app in Hc as [Hc1 Hc2]. rewrite Ht in Hc2. change (Z.of_nat 7) with 7 in Hc2.
  destruct (pack_byte_spec l rest Ht) as (H2 & Hu & Hbits & Hcont). cbn zeta in *.
  destruct (IH (off + 7) rest Hd Hc2) as (IHd & IHb & IHc). cbn [pack_bytes decode].
  rewrite H2, IHd, (byte_acks_eq _ _ _ l) by done. split; [done|]. split; [by constructor|].
  intros _. cbn [chained]. rewrite Hcont.
  destruct n as [|n]; [by destruct rest|]. destruct rest; [simpl in Hd; lia|]. cbn [pack_bytes] in IHc |- *.
  rewrite andb_true_l. by apply IHc.
Qed.

(** The header of [7 * n] acks of consecutive ids. *)
Lemma from_ack_iter_run num_acks id acked acks n : 1 <= num_acks <= 350 ->
  n = Z.to_nat ((num_acks + 6) / 7) ->
  AckHeader_from_ack_iter num_acks ((id, acked) :: acks) =
    Some (Ok (field_header id num_acks (pack_bytes n ((id, acked) :: acks)))).
Proof.
  intros Hn ->. unfold AckHeader_from_ack_iter. rewrite ceil7_exact_u8 by lia.
  assert (1 <= (num_acks + 6) / 7 <= 50) as Hd.
  { split; [apply Z.div_le_lower_bound; lia|].
    apply Z.lt_succ_r, Z.div_lt_upper_bound; lia. }
  rewrite Z.max_l, write_bits_run by (simpl; lia). simpl sw_filled. simpl sw_rest.
  unfold field_header, sw_slice. simpl sw_filled; simpl sw_rest.
  rewrite pack_bytes_length, Z2Nat.id by lia. do 3 f_equal.
  f_equal. exact (drop_replicate _ 50 0).
Qed.

(** ** Facts: serialisation *)
Section serialisation_facts.
Context `{BO : ByteOrder, BL : !ByteOrderLaws BO}.

Lemma AckHeader_write_emits `{Appends W} id n bs :
  emits (AckHeader_write (field_header id n bs)) (be_put 2 id ++ bs)
    (AckHeader_size (field_header id n bs)).
Proof.
  unfold AckHeader_write, AckHeader_size. simpl. rewrite Nat2Z.id, take_app_length.
  eapply emits_bind; [auto with emits|].
  eapply emits_bind_last; [auto with emits|]. rewrite Z.add_comm. auto with emits.
Qed.

Lemma parse_bytes_reads fuel bs filled rest n :
  chained_to fuel bs = true -> (length bs <= length rest)%nat ->
  reads (parse_bytes fuel (MkSliceWriter filled rest) n) bs
    (MkSliceWriter (filled ++ bs) (drop (length bs) rest), n + Z.of_nat (length bs)).
Proof.
  revert fuel filled rest n. induction bs as [|b bs IH]; intros [|fuel] filled rest n Hc Hr; try done. destruct rest as [|x rest]; [simpl in Hr; lia|].
  cbn [length parse_bytes drop] in *. apply (reads_bind _ _ [b] bs b); [auto with reads|].
  assert (Hw : write_u8 b (MkSliceWriter filled (x :: rest)) =
               Some (MkSliceWriter (filled ++ [b]) rest, Ok tt)) by (by eapply write_u8_slice).
  assert (Hl : reads (A:=SliceWriter * unit) (st_local (MkSliceWriter filled (x :: rest)) (write_u8 b)) []
                 (MkSliceWriter (filled ++ [b]) rest, tt)).
  { intros c r Hp Hc'. exists c. unfold st_local. rewrite Hw. simpl in *. split_and!; [done..|lia]. }
  apply (reads_bind _ _ [] bs _ _ Hl). cbn beta iota.
  rewrite cont_testbit. cbn [chained_to] in Hc. destruct bs as [|b' bs'].
  - destruct (Z.testbit b 7); [|apply reads_ret]. destruct fuel; [apply reads_ret|done].
  - apply andb_true_iff in Hc as [-> Hc]. simpl negb. cbn iota.
    replace (n + Z.of_nat (S (length (b' :: bs')))) with (n + 1 + Z.of_nat (length (b' :: bs'))) by lia.
    replace (filled ++ b :: b' :: bs') with ((filled ++ [b]) ++ b' :: bs') by (by rewrite <- app_assoc).
    apply IH; [done|lia].
Qed.

(** [parse] reads back what [write] wrote; [num_acks] becomes what the
    bytes can hold. *)
Lemma AckHeader_parse_reads_to id bs : u16 id -> chained_to (Z.to_nat MAX_ACK_BYTES) bs = true ->
  reads AckHeader_parse (be_put 2 id ++ bs) (field_header id (Z.of_nat (length bs) * 7) bs).
Proof.
  intros Hid Hch. pose proof (chained_to_length _ _ Hch). eapply reads_bind; [by auto with reads|].
  eapply reads_bind_last.
  - apply (parse_bytes_reads _ bs [] _ 0); [done|]. rewrite length_replicate. lia.
  - cbn beta iota. unfold sw_slice, field_header. cbn [sw_filled sw_rest app].
    rewrite Z.add_0_l.
    change (drop (length bs) _) with (drop (length bs) (replicate 50 0)).
    rewrite drop_replicate. apply reads_ret.
Qed.

Lemma AckHeader_parse_reads id bs : u16 id -> ack_field bs ->
  reads AckHeader_parse (be_put 2 id ++ bs) (field_header id (Z.of_nat (length bs) * 7) bs).
Proof. intros Hid []. apply AckHeader_parse_reads_to; [done|by apply chained_fits]. Qed.

Lemma parse_bytes_no_panic fuel w n : no_panic (parse_bytes fuel w n).
Proof.
  revert w n. induction fuel as [|fuel IH]; intros w n; cbn [parse_bytes]; no_panic_tac.
Qed.

Lemma AckHeader_parse_no_panic : no_panic AckHeader_parse.
Proof. pose proof parse_bytes_no_panic. unfold AckHeader_parse. no_panic_tac. Qed.

(** *** What [parse] returns *)

(** The field the parser makes of the bytes [bs]. *)
Definition heard_ack (a : AckHeader) (bs : list Z) : Prop :=
  is_bytes bs /\ chained_to (Z.to_nat MAX_ACK_BYTES) bs = true /\ u16 (ack_id a) /\
  a = field_header (ack_id a) (Z.of_nat (length bs) * 7) bs.

Lemma write_u8_slice_inv b w w' : write_u8 b w = Some (w', Ok tt) ->
  exists x rest, sw_rest w = x :: rest /\ w' = MkSliceWriter (sw_filled w ++ [b]) rest.
Proof.
  intros Hrun. destruct w as [filled rest]. destruct rest as [|x rest].
  - unfold write_u8 in Hrun. by rewrite (write_all_zero [b] _ (MkSliceWriter filled [])) in Hrun;
      [|done|rewrite SliceWriter_write_run; cbn; by rewrite app_nil_r].
  - exists x, rest. split; [done|]. rewrite (write_u8_slice b _ x rest) in Hrun by done. by injection Hrun.
Qed.

Lemma write_u8_parses b w : parses (st_local w (write_u8 b))
  (fun s r s' => s' = s /\ exists x rest, sw_rest w = x :: rest /\ r.1 = MkSliceWriter (sw_filled w ++ [b]) rest).
Proof.
  intros c c' [w' []] Hc. unfold st_local. destruct (write_u8 b w) as [[w1 [[]|e]]|] eqn:Hw; try done.
  intros [= <- <-]. split; [done|]. split; [done|]. by apply write_u8_slice_inv.
Qed.

Lemma parse_bytes_parses fuel w n : parses (parse_bytes (S fuel) w n) (fun s r s' => exists bs, is_bytes bs /\ s = bs ++ s' /\
  chained_to (S fuel) bs = true /\ r = (MkSliceWriter (sw_filled w ++ bs) (drop (length bs) (sw_rest w)), n + Z.of_nat (length bs))).
Proof.
  revert w n. induction fuel as [|fuel IH]; intros w n c c' r Hc; unfold parse_bytes at 1; fold parse_bytes.
  all: intros [(c1 & b & H1 & Hrun)|(e & _ & [=])]%run_bind_inv; destruct (read_u8_parses _ _ _ Hc H1) as [Hc1 [Hb ->]].
  all: apply run_bind_inv in Hrun as [(c2 & [w1 []] & H2 & Hrun)|(e & _ & [=])].
  all: destruct (write_u8_parses _ _ _ _ _ Hc1 H2) as [Hc2 [<- (x & rest & Hr & Hw)]]; cbn [fst] in Hw; subst w1; rewrite cont_testbit in Hrun.
  all: destruct (Z.testbit b 7) eqn:Ht; cbn [negb] in Hrun.
  1, 2, 4: injection Hrun as <- <-; split; [done|]; exists [b]; cbn [chained_to length drop app]; rewrite Hr, Ht;
    (split; [by apply Forall_singleton|done]).
  destruct (IH _ _ _ _ _ Hc2 Hrun) as [Hc' (bs & Hbs & Hs & Hch & ->)]. split; [done|]. exists (b :: bs).
  rewrite Hr, Hs. cbn [sw_filled sw_rest]. split; [by constructor|]. split; [done|]. split.
  { destruct bs as [|b' bs]; [done|]. cbn [chained_to]. rewrite Ht. exact Hch. }
  rewrite <- app_assoc. cbn [length drop]. f_equal. lia.
Qed.

Lemma AckHeader_parse_parses : parses AckHeader_parse (fun s a s' => exists bs, heard_ack a bs /\ s = be_put 2 (ack_id a) ++ bs ++ s').
Proof.
  intros c c' a Hc Hrun. unfold AckHeader_parse in Hrun. parses_step Hrun Hc (read_uint_parses 2) as id [Hid Hs].
  parses_step Hrun Hc (parse_bytes_parses 49) as wn (bs & Hbs & Hs1 & Hch & ->). injection Hrun as <- <-. split; [done|].
  pose proof (chained_to_length _ _ Hch) as Hl. exists bs. split; [|by rewrite Hs, Hs1]. split; [done|]. split; [done|]. split; [exact Hid|].
  unfold field_header, sw_slice. cbn [sw_filled sw_rest SliceWriter_new ack_id app].
  change (drop (length bs) _) with (drop (length bs) (replicate 50 0)). rewrite drop_replicate. f_equal; lia.
Qed.
End serialisation_facts.
#[export] Hint Resolve AckHeader_parse_no_panic : no_panic.

(** ** Facts: the acks of a receive buffer *)

Definition buffer_acks (sb : SequenceBuffer ReceivedMeta) (off n : Z) : list (Z * bool) :=
  (fun i => let k := wrap16 (sequence sb - i) in (k, bool_decide (is_Some (SeqBufFacts.find sb k))))
    <$> seqZ off n.

Lemma AckIter_drain_run sb n i m : SeqBufFacts.wf sb -> m = i + Z.of_nat n ->
  AckIter_drain n (MkAckIter sb i m) = Some (buffer_acks sb i (Z.of_nat n)).
Proof.
  intros Hwf. revert i. induction n as [|n IH]; intros i Hm; simpl; unfold AckIter_next; simpl.
  - by rewrite (proj2 (Z.leb_le _ _)) by lia.
  - rewrite (proj2 (Z.leb_gt _ _)) by lia. rewrite SeqBufFacts.exists_find by done. simpl.
    rewrite IH by lia. unfold buffer_acks. rewrite (seqZ_cons i) by lia. simpl.
    rewrite <- Z.add_1_r. repeat f_equal; lia.
Qed.

Lemma ceil7_bounds c : 1 <= c <= 350 -> 1 <= (c + 6) / 7 <= 50 /\ c <= 7 * ((c + 6) / 7).
Proof. intros Hc. pose proof (Z.div_mod (c + 6) 7). pose proof (Z.mod_pos_bound (c + 6) 7). lia. Qed.

Lemma AckIter_collect_run `{BuildProfile} sb c it : SeqBufFacts.wf sb -> 1 <= c <= 350 ->
  AckIter_with_minimum_length sb c = Some it ->
  AckIter_collect it = Some (buffer_acks sb 0 (7 * ((c + 6) / 7))).
Proof.
  intros Hwf Hc. pose proof (ceil7_bounds c Hc).
  unfold AckIter_with_minimum_length. rewrite ceil7_exact, arith16_in_range by lia. simpl.
  intros [= <-]. unfold AckIter_collect. simpl.
  rewrite (AckIter_drain_run sb) by (done || lia). do 2 f_equal. lia.
Qed.

Lemma AckIter_with_minimum_length_total `{BuildProfile} sb c : 0 <= c <= 350 ->
  AckIter_with_minimum_length sb c = Some (MkAckIter sb 0 (7 * ((c + 6) / 7))).
Proof.
  intros Hc. assert (0 <= (c + 6) / 7 <= 50).
  { split; [apply Z.div_pos; lia|]. apply Z.lt_succ_r, Z.div_lt_upper_bound; lia. }
  unfold AckIter_with_minimum_length. rewrite ceil7_exact, arith16_in_range by lia. simpl.
  do 2 f_equal. lia.
Qed.

Lemma buffer_acks_consecutive sb n : consecutive (sequence sb) 0 (buffer_acks sb 0 n).
Proof.
  intros i x. unfold buffer_acks. rewrite list_lookup_fmap.
  intros (j & [-> _]%lookup_seqZ & ->)%fmap_Some. simpl. f_equal; lia.
Qed.

Lemma buffer_acks_length sb n : length (buffer_acks sb 0 n) = Z.to_nat n.
Proof. unfold buffer_acks. by rewrite length_fmap, length_seqZ. Qed.

(** The bytes of the ack field for the [c] last packets. *)
Definition ack_bytes (sb : SequenceBuffer ReceivedMeta) (c : Z) : list Z :=
  pack_bytes (Z.to_nat ((c + 6) / 7)) (buffer_acks sb 0 (7 * ((c + 6) / 7))).

Lemma ack_bytes_field sb c : 1 <= c <= 350 -> ack_field (ack_bytes sb c).
Proof.
  intros Hc. pose proof (ceil7_bounds c Hc).
  destruct (pack_bytes_decode (Z.to_nat ((c + 6) / 7)) (sequence sb) 0
              (buffer_acks sb 0 (7 * ((c + 6) / 7)))) as (_ & Hb & Hch);
    [rewrite buffer_acks_length; lia|apply buffer_acks_consecutive|].
  split; [apply Hch; lia|exact Hb|]. unfold ack_bytes. rewrite pack_bytes_length. lia.
Qed.

Lemma ack_bytes_decode sb c : 1 <= c <= 350 ->
  decode (sequence sb) 0 (ack_bytes sb c) = buffer_acks sb 0 (7 * ((c + 6) / 7)).
Proof.
  intros Hc. pose proof (ceil7_bounds c Hc). apply pack_bytes_decode;
    [rewrite buffer_acks_length; lia|apply buffer_acks_consecutive].
Qed.

Lemma from_buffer_acks sb c : SeqBufFacts.wf sb -> 1 <= c <= 350 ->
  AckHeader_from_ack_iter c (buffer_acks sb 0 (7 * ((c + 6) / 7))) =
    Some (Ok (field_header (sequence sb) c (ack_bytes sb c))).
Proof.
  intros Hwf Hc. pose proof (ceil7_bounds c Hc). unfold ack_bytes.
  destruct (buffer_acks sb 0 (7 * ((c + 6) / 7))) as [|[id b] acks] eqn:E.
  { apply (f_equal length) in E. rewrite buffer_acks_length in E. simpl in E. lia. }
  rewrite (from_ack_iter_run _ _ _ _ _ Hc eq_refl).
  assert (id = sequence sb) as ->; [|done].
  pose proof (buffer_acks_consecutive sb (7 * ((c + 6) / 7)) 0%nat (id, b)) as Hid.
  rewrite E in Hid. specialize (Hid eq_refl). simpl in Hid. subst id.
  rewrite Z.sub_0_r. apply wrap16_small, Hwf.
Qed.

(** C26. What a peer learns from an ack field: built from a receive buffer for
    the [c] last packets, written and parsed back (in front of any other
    bytes), it lists exactly the newest packet number and those before it,
    rounded up to a multiple of seven, each acknowledged just when the buffer
    holds it. *)
Theorem acks_reach_the_peer `{BP : BuildProfile, BO : ByteOrder, BL : !ByteOrderLaws BO}
    sb c (v : VecU8) rest :
  SeqBufFacts.wf sb -> 1 <= c <= 350 ->
  exists it acks h w' cur h',
    AckIter_with_minimum_length sb c = Some it /\
    AckIter_collect it = Some acks /\
    AckHeader_from_ack_iter c acks = Some (Ok h) /\
    AckHeader_write h (MkVecCursor v (vec_len v)) = Some (w', Ok (AckHeader_size h)) /\
    AckHeader_parse (Cursor_new (drop (length (vdata v)) (vdata (vc_vec w')) ++ rest)) = Some (cur, Ok h') /\
    remaining_slice cur = rest /\
    AckHeader_collect h' =
      Some ((fun i => let k := wrap16 (sequence sb - i) in
                      (k, bool_decide (is_Some (SeqBufFacts.find sb k))))
              <$> seqZ 0 (7 * ((c + 6) / 7))).
Proof.
  intros Hwf Hc. do 3 eexists.
  edestruct (AckHeader_write_emits (W:=VecCursor) (sequence sb) c (ack_bytes sb c)
               (MkVecCursor v (vec_len v))) as (w' & r & Hrun & _ & -> & Hout & _); [done|].
  destruct (reads_new AckHeader_parse _ _ rest
              (AckHeader_parse_reads (sequence sb) (ack_bytes sb c) (SeqBufFacts.wf_sequence sb Hwf)
                 (ack_bytes_field sb c Hc))) as (cur & Hparse & Hrest).
  simpl in Hout. exists w', cur. eexists.
  split; [apply AckIter_with_minimum_length_total; lia|].
  split; [by eapply AckIter_collect_run, AckIter_with_minimum_length_total; [..|lia]|].
  split; [by apply from_buffer_acks|]. split; [done|].
  rewrite Hout, drop_app_length. split; [exact Hparse|]. split; [done|].
  rewrite collect_field by (by apply ack_bytes_field). by rewrite ack_bytes_decode.
Qed.

(** A receive buffer that got packets 1, 2 and 4. *)
Definition example_received : SequenceBuffer ReceivedMeta :=
  let put k sb := SeqBufFacts.fill_slot k default_value (SeqBufFacts.advance k sb) in
  put 4 (put 2 (put 1 (SeqBuf.with_capacity 8))).

Lemma example_received_wf : SeqBufFacts.wf example_received.
Proof.
  unfold example_received. repeat (apply SeqBufFacts.fill_slot_wf; [apply SeqBufFacts.advance_wf|]);
    try lia. apply SeqBufFacts.with_capacity_wf. lia.
Qed.

Lemma acks_reach_the_peer_witness :
  exists it acks h w' cur h',
    @AckIter_with_minimum_length debug_build example_received 4 = Some it /\
    AckIter_collect it = Some acks /\
    AckHeader_from_ack_iter 4 acks = Some (Ok h) /\
    @AckHeader_write big_endian _ _ h (MkVecCursor (MkVec [] 0) 0) = Some (w', Ok (AckHeader_size h)) /\
    @AckHeader_parse big_endian (Cursor_new (drop 0 (vdata (vc_vec w')) ++ [9])) = Some (cur, Ok h') /\
    remaining_slice cur = [9] /\
    AckHeader_collect h' = Some [(4, true); (3, false); (2, true); (1, true); (0, false);
                                 (65535, false); (65534, false)].
Proof.
  exact (acks_reach_the_peer (BP:=debug_build) (BO:=big_endian) (BL:=big_endian_laws)
           example_received 4 (MkVec [] 0) [9] example_received_wf ltac:(lia)).
Defined.
