(* ===== verification/Message.v ===== *)
(** * Messages on the wire ([protocol/message.rs])

    A message is one unit of a packet's payload: a prefix byte (two flags and
    the channel), the message id, the fragment header or the payload length,
    the payload.  The buffer of an outbound message holds headers and
    payload, that of a parsed message the payload only. *)

From S2P Require Import Prelude Floats Types Cursor BufferPool.

Record Fragment := MkFragment {
  f_index : Z;
  num_fragments : Z;
  parent_id : MessageId;
}.

Inductive MessageSizeMode := Small | Large.

#[export] Instance MessageSizeMode_eq_dec : EqDecision MessageSizeMode.
Proof. solve_decision. Defined.

Inductive Fragmented := No | Yes (f : Fragment).

Record Message := MkMessage {
  m_id : MessageId;
  size_mode : MessageSizeMode;
  m_channel : Z;
  m_buffer : PooledBuffer;
  m_fragment : option Fragment;
}.

(** [impl From<usize> for MessageSizeMode]. *)
Definition MessageSizeMode_from (val : Z) : MessageSizeMode := if 255 <? val then Large else Small.

Section operations.
Context `{BP : BuildProfile, BO : ByteOrder}.

(** ** [Fragment] *)
Definition Fragment_is_last (self : Fragment) : option bool :=
  last ← arith16 (num_fragments self - 1);
  Some (f_index self =? last).

Definition Fragment_header_size (self : Fragment) (mode : MessageSizeMode) : option Z :=
  l ← Fragment_is_last self;
  Some ((match mode with Small => 2 | Large => 4 end) + (if l : bool then 2 else 0)).

Definition Fragment_write_header `{Write W} (self : Fragment) (payload_len : Z) (mode : MessageSizeMode)
  : M W unit :=
  (match mode with
   | Small => write_u8 (wrap8 (f_index self));; write_u8 (wrap8 (num_fragments self))
   | Large => write_u16 (f_index self);; write_u16 (num_fragments self)
   end);;
  l ← st_lift (Fragment_is_last self);
  if l : bool then st_assert (payload_len <=? 1024);; write_u16 payload_len
  else if negb (payload_len =? 1024) then st_throw InvalidMessage
  else mret tt.

Definition Fragment_parse_header (mode : MessageSizeMode) (id : MessageId) : M Cursor (Fragment * Z) :=
  '(fragment_id, num_fragments) ←
    (match mode with
     | Small => a ← read_u8; b ← read_u8; mret (a, b)
     | Large => a ← read_u16; b ← read_u16; mret (a, b)
     end);
  last ← st_lift (arith16 (num_fragments - 1));
  payload_size ← (if fragment_id =? last then read_u16 else mret 1024);
  mret ({| f_index := fragment_id; num_fragments := num_fragments;
           parent_id := wrap16 (id - fragment_id) |}, payload_size).

(** ** [Message] *)
Definition Message_header_size (fragmented : Fragmented) (mode : MessageSizeMode) : option Z :=
  n ← (match fragmented with
       | Yes frag => Fragment_header_size frag mode
       | No => Some (match mode with Large => 2 | Small => 1 end)
       end);
  Some (1 + n + 2).

Definition Message_write_headers `{Write W} (id : MessageId) (fragment : option Fragment)
    (mode : MessageSizeMode) (channel payload_len : Z) : M W unit :=
  let prefix_byte := match fragment with Some _ => 1 | None => 0 end in
  let prefix_byte := if decide (mode = Large) then Z.lor prefix_byte 2 else prefix_byte in
  let channel_mask := wrap8 (Z.shiftl channel 3) in
  let prefix_byte := Z.lor prefix_byte channel_mask in
  write_u8 prefix_byte;;
  write_u16 id;;
  match fragment with
  | Some fragment => Fragment_write_header fragment (wrap16 payload_len) mode
  | None =>
      match mode with
      | Small => write_u8 (wrap8 payload_len)
      | Large => write_u16 (wrap16 payload_len)
      end
  end.

Definition Message_new_outbound (id : MessageId) (channel : Z) (payload : list Z)
    (fragmented : Fragmented) : M BufPool Message :=
  let len := Z.of_nat (length payload) in
  st_assert (channel <? 64);;
  st_assert (len <=? 1024);;
  let mode := MessageSizeMode_from len in
  header_size ← st_lift (Message_header_size fragmented mode);
  let fragment := match fragmented with No => None | Yes f => Some f end in
  buf ← get_buffer (header_size + len);
  '(writer, _) ← st_local (VecCursor_new buf)
    (st_unwrap (Message_write_headers id fragment mode channel len));
  '(writer, _) ← st_local writer (st_unwrap (write_all payload));
  mret {| m_id := id; size_mode := mode; m_channel := channel;
          m_buffer := vc_vec writer; m_fragment := fragment |}.

(** [take_buffer]: the buffer, and the message left without it. *)
Definition Message_take_buffer (self : Message) : PooledBuffer * Message :=
  (m_buffer self,
   {| m_id := m_id self; size_mode := size_mode self; m_channel := m_channel self;
      m_buffer := PooledBuffer_default; m_fragment := m_fragment self |}).

Definition Message_as_slice (self : Message) : list Z := vdata (m_buffer self).

Definition Message_size (self : Message) : option Z :=
  '(is_fragment, is_last_fragment) ←
    (match m_fragment self with
     | Some frag => l ← Fragment_is_last frag; Some (true, l)
     | None => Some (false, false)
     end);
  Some (vec_len (m_buffer self) + 1 +
    (match is_fragment : bool, size_mode self with
     | false, Small => 1
     | false, Large => 2
     | true, Small => if is_last_fragment : bool then 5 else 3
     | true, Large => if is_last_fragment : bool then 7 else 5
     end) + 2).

(** What [parse] reads before the payload: id, mode, channel, fragment and
    payload size. *)
Definition Message_parse_headers : M Cursor (MessageId * MessageSizeMode * Z * option Fragment * Z) :=
  prefix_byte ← read_u8;
  let fragmented := negb (Z.land prefix_byte 1 =? 0) in
  let mode := if negb (Z.land prefix_byte (Z.shiftl 1 1) =? 0) then Large else Small in
  id ← read_u16;
  let channel := Z.shiftr prefix_byte 3 in
  '(fragment, payload_size) ←
    (if negb fragmented then
       payload_size ← (match mode with Small => read_u8 | Large => read_u16 end);
       mret (None, payload_size)
     else
       '(fragment, payload_size) ← Fragment_parse_header mode id;
       mret (Some fragment, payload_size));
  mret (id, mode, channel, fragment, payload_size).

(** [reader.take(n).read_to_end(buf)], with [n] bytes there. *)
Definition read_to_end (n : Z) (buf : PooledBuffer) : M Cursor PooledBuffer :=
  bs ← read_exact (Z.to_nat n);
  mret {| vdata := vdata buf ++ bs;
          vcapacity := vec_grow (vcapacity buf) (vec_len buf + Z.of_nat (length bs)) |}.

Definition Message_parse : M (BufPool * Cursor) Message :=
  '(id, mode, channel, fragment, payload_size) ← st_snd Message_parse_headers;
  buf ← st_fst (get_buffer payload_size);
  '(_, reader) ← st_get;
  if remaining reader <? payload_size then st_throw InvalidMessage
  else
    buf ← st_snd (read_to_end payload_size buf);
    mret {| m_id := id; size_mode := mode; m_channel := channel;
            m_buffer := buf; m_fragment := fragment |}.
End operations.

(** ** The wire format *)
Section format.
Context `{BO : ByteOrder}.

Definition prefix_of (fragmented : bool) (mode : MessageSizeMode) (channel : Z) : Z :=
  Z.lor (Z.lor (if fragmented then 1 else 0) (match mode with Large => 2 | Small => 0 end))
    (wrap8 (Z.shiftl channel 3)).

Definition fragment_bytes (f : Fragment) (mode : MessageSizeMode) (payload_len : Z) : list Z :=
  (match mode with
   | Small => [wrap8 (f_index f)] ++ [wrap8 (num_fragments f)]
   | Large => be_put 2 (f_index f) ++ be_put 2 (num_fragments f)
   end) ++
  (if f_index f =? num_fragments f - 1 then be_put 2 payload_len else []).

Definition header_bytes (id : MessageId) (fragment : option Fragment) (mode : MessageSizeMode)
    (channel payload_len : Z) : list Z :=
  [prefix_of (bool_decide (is_Some fragment)) mode channel] ++ be_put 2 id ++
  (match fragment with
   | Some f => fragment_bytes f mode payload_len
   | None => match mode with Small => [payload_len] | Large => be_put 2 payload_len end
   end).
End format.

(** A fragment's header can be written for a payload of this length: it is a
    fragment of its message, and all but the last are full. *)
Record wf_fragment (f : Fragment) (payload_len : Z) : Prop := {
  wff_index : 0 <= f_index f < num_fragments f;
  wff_num : num_fragments f < 65536;
  wff_full : f_index f <> num_fragments f - 1 -> payload_len = 1024;
}.

(** Its numbers survive the width the size mode gives them. *)
Definition narrow_fragment (f : Fragment) (mode : MessageSizeMode) : Prop :=
  match mode with Small => num_fragments f < 256 | Large => True end.

Definition wf_fragment_opt (f : option Fragment) (payload_len : Z) : Prop :=
  match f with Some f => wf_fragment f payload_len | None => True end.
Definition narrow_fragment_opt (f : option Fragment) (mode : MessageSizeMode) : Prop :=
  match f with Some f => narrow_fragment f mode | None => True end.

Lemma MessageSizeMode_from_small len : MessageSizeMode_from len = Small <-> len <= 255.
Proof. unfold MessageSizeMode_from. destruct (Z.ltb_spec 255 len); split; (done || lia). Qed.

Section format_facts.
Context `{BP : BuildProfile, BO : ByteOrder, BL : !ByteOrderLaws BO}.

Lemma is_last_run f : 0 < num_fragments f < 65536 ->
  Fragment_is_last f = Some (f_index f =? num_fragments f - 1).
Proof. intros H. unfold Fragment_is_last. rewrite arith16_in_range by lia. done. Qed.

Lemma Fragment_write_header_emits `{Appends W} f len mode :
  wf_fragment f len -> 0 <= len <= 1024 ->
  emits (Fragment_write_header f len mode) (fragment_bytes f mode len) tt.
Proof.
  intros [Hi Hn Hfull] Hlen. unfold Fragment_write_header, fragment_bytes.
  apply (emits_bind _ _ _ _ tt).
  { destruct mode; (eapply emits_bind; auto with emits). }
  rewrite is_last_run by lia. cbn [st_lift].
  apply (emits_bind _ _ [] _ (f_index f =? num_fragments f - 1)); [apply emits_ret|].
  destruct (Z.eqb_spec (f_index f) (num_fragments f - 1)) as [He|Hne].
  - apply (emits_bind _ _ [] _ tt); [|auto with emits].
    rewrite (proj2 (Z.leb_le _ _)) by lia. apply emits_ret.
  - rewrite Hfull by done. apply emits_ret.
Qed.

Lemma Message_write_headers_emits `{Appends W} id frag mode channel len :
  wf_fragment_opt frag len -> 0 <= len <= 1024 -> mode = MessageSizeMode_from len ->
  emits (Message_write_headers id frag mode channel len) (header_bytes id frag mode channel len) tt.
Proof.
  intros Hf Hlen Hmode. unfold Message_write_headers, header_bytes, prefix_of.
  eapply emits_bind.
  { replace (Z.lor (Z.lor _ _) _) with
      (Z.lor (if decide (mode = Large) then Z.lor (match frag with Some _ => 1 | None => 0 end) 2
              else match frag with Some _ => 1 | None => 0 end) (wrap8 (Z.shiftl channel 3)));
      [apply write_u8_emits|].
    f_equal. destruct frag; destruct mode; done. }
  eapply emits_bind; [auto with emits|].
  destruct frag as [f|].
  - rewrite wrap16_small by lia. by apply Fragment_write_header_emits.
  - destruct mode; [|rewrite wrap16_small by lia; auto with emits].
    symmetry in Hmode. apply MessageSizeMode_from_small in Hmode.
    rewrite wrap8_small by lia. auto with emits.
Qed.

(** The prefix byte has room for 32 channels. *)
Lemma prefix_fields fragmented mode channel : 0 <= channel < 64 ->
  negb (Z.land (prefix_of fragmented mode channel) 1 =? 0) = fragmented /\
  (if negb (Z.land (prefix_of fragmented mode channel) (Z.shiftl 1 1) =? 0) then Large else Small) = mode /\
  Z.shiftr (prefix_of fragmented mode channel) 3 = channel mod 32.
Proof.
  intros Hc.
  assert (Hall : forall_from (fun c =>
    bool_decide (negb (Z.land (prefix_of fragmented mode c) 1 =? 0) = fragmented) &&
    bool_decide ((if negb (Z.land (prefix_of fragmented mode c) (Z.shiftl 1 1) =? 0) then Large else Small) = mode) &&
    (Z.shiftr (prefix_of fragmented mode c) 3 =? c mod 32)) 64 0 = true).
  { destruct fragmented, mode; vm_compute; reflexivity. }
  apply (forall_from_spec _ _ _ channel) in Hall; [|lia].
  rewrite !andb_true_iff, !bool_decide_eq_true, Z.eqb_eq in Hall. tauto.
Qed.

Lemma Fragment_parse_header_reads f len mode id :
  wf_fragment f len -> narrow_fragment f mode -> 0 <= len <= 1024 ->
  reads (Fragment_parse_header mode id) (fragment_bytes f mode len)
    (MkFragment (f_index f) (num_fragments f) (wrap16 (id - f_index f)), len).
Proof.
  intros [Hi Hn Hfull] Hw Hlen. unfold Fragment_parse_header, fragment_bytes.
  apply (reads_bind _ _ _ _ (f_index f, num_fragments f)).
  { destruct mode; simpl in Hw; rewrite ?wrap8_small by lia.
    - apply (reads_bind _ _ [_] [_] (f_index f)); [auto with reads|].
      eapply reads_bind_last; auto with reads.
    - eapply reads_bind; [apply read_u16_reads; lia|].
      eapply reads_bind_last; [apply read_u16_reads; lia|auto with reads]. }
  cbn beta iota. rewrite arith16_in_range by lia.
  apply (reads_bind _ _ [] _ (num_fragments f - 1)); [apply reads_ret|].
  eapply reads_bind_last; [|apply reads_ret].
  destruct (Z.eqb_spec (f_index f) (num_fragments f - 1)) as [He|Hne].
  - apply read_u16_reads. lia.
  - rewrite (Hfull Hne). apply reads_ret.
Qed.

(** A fragment as its receiver sees it: the parent id is computed from the
    message id. *)
Definition received_fragment (id : MessageId) (f : Fragment) : Fragment :=
  MkFragment (f_index f) (num_fragments f) (wrap16 (id - f_index f)).

Lemma Message_parse_headers_reads id frag mode channel len :
  u16 id -> wf_fragment_opt frag len -> narrow_fragment_opt frag mode -> 0 <= channel < 64 ->
  0 <= len <= 1024 -> mode = MessageSizeMode_from len ->
  reads Message_parse_headers (header_bytes id frag mode channel len)
    (id, mode, channel mod 32, received_fragment id <$> frag, len).
Proof.
  intros Hid Hf Hw Hc Hlen Hmode. unfold Message_parse_headers, header_bytes.
  destruct (prefix_fields (bool_decide (is_Some frag)) mode channel Hc) as (H1 & H2 & H3).
  eapply reads_bind; [apply read_u8_reads|]. cbn zeta. rewrite H1, H2, H3. clear H1 H2 H3.
  eapply reads_bind; [by apply read_u16_reads|].
  apply (reads_bind_last _ _ _ (received_fragment id <$> frag, len)); [|apply reads_ret].
  destruct frag as [f|]; cbn.
  - apply (reads_bind_last _ _ _ (received_fragment id f, len));
      [by apply (Fragment_parse_header_reads f len)|apply reads_ret].
  - apply (reads_bind_last _ _ _ len); [|apply reads_ret].
    destruct mode; [apply read_u8_reads|apply read_u16_reads; lia].
Qed.

(** ** Runs *)
Definition fragment_of (fragmented : Fragmented) : option Fragment :=
  match fragmented with No => None | Yes f => Some f end.

Lemma Message_header_size_run fragmented mode :
  match fragmented with Yes f => 0 < num_fragments f < 65536 | No => True end ->
  exists n, Message_header_size fragmented mode = Some n.
Proof.
  intros Hf. unfold Message_header_size. destruct fragmented as [|f]; [by eexists|].
  unfold Fragment_header_size. rewrite is_last_run by done. by eexists.
Qed.

Lemma new_outbound_run id channel payload fragmented bp :
  let len := Z.of_nat (length payload) in
  has_pool bp -> 0 <= channel < 64 -> len <= 1024 -> wf_fragment_opt (fragment_of fragmented) len ->
  exists bp' buf, Message_new_outbound id channel payload fragmented bp =
      Some (bp', Ok {| m_id := id; size_mode := MessageSizeMode_from len; m_channel := channel;
                       m_buffer := buf; m_fragment := fragment_of fragmented |}) /\
    has_pool bp' /\
    vdata buf = header_bytes id (fragment_of fragmented) (MessageSizeMode_from len) channel len ++ payload.
Proof.
  intros len Hp Hc Hlen Hf. unfold Message_new_outbound. fold len.
  rewrite (proj2 (Z.ltb_lt _ _)), (proj2 (Z.leb_le _ _)) by lia.
  destruct (Message_header_size_run fragmented (MessageSizeMode_from len)) as [n Hn].
  { destruct fragmented; [done|]. destruct Hf. lia. }
  destruct (get_buffer_run (n + len) bp Hp) as (bp' & b & Hget & Hp' & Hb).
  destruct (emits_local (Message_write_headers id (fragment_of fragmented) (MessageSizeMode_from len) channel len)
              _ _ b bp' (Message_write_headers_emits _ _ _ channel len Hf ltac:(lia) eq_refl)) as (v1 & Hr1 & Hv1).
  destruct (emits_local (write_all payload) _ _ v1 bp' (emits_write_all payload)) as (v2 & Hr2 & Hv2).
  exists bp', v2. split_and!; [|done|by rewrite Hv2, Hv1, Hb].
  assert (Hl : vec_len b = 0) by (unfold vec_len; by rewrite Hb). rewrite Hl in Hr1.
  do 2 run_done. rewrite Hn. run_done.
  run_step Hget. run_step Hr1. run_step Hr2. done.
Qed.

Lemma Message_parse_run id frag channel payload bp c rest :
  let len := Z.of_nat (length payload) in
  has_pool bp -> u16 id -> 0 <= channel < 64 -> len <= 1024 ->
  wf_fragment_opt frag len -> narrow_fragment_opt frag (MessageSizeMode_from len) ->
  0 <= position c ->
  remaining_slice c = (header_bytes id frag (MessageSizeMode_from len) channel len ++ payload) ++ rest ->
  exists bp' c' buf, Message_parse (bp, c) =
      Some ((bp', c'), Ok {| m_id := id; size_mode := MessageSizeMode_from len; m_channel := channel mod 32;
                       m_buffer := buf; m_fragment := received_fragment id <$> frag |}) /\
    has_pool bp' /\ remaining_slice c' = rest /\ 0 <= position c' /\ vdata buf = payload.
Proof.
  intros len Hp Hid Hc Hlen Hf Hw Hpos Hrem. rewrite <- app_assoc in Hrem.
  destruct (reads_snd Message_parse_headers _ _ bp c _
              (Message_parse_headers_reads id frag _ channel len Hid Hf Hw Hc ltac:(lia) eq_refl)
              Hpos Hrem) as (c1 & Hr1 & Hrem1 & Hp1).
  destruct (get_buffer_run len bp Hp) as (bp' & b & Hget & Hp' & Hb).
  assert (Hread : reads (read_to_end len b) payload
            {| vdata := payload; vcapacity := vec_grow (vcapacity b) (vec_len b + len) |}).
  { unfold read_to_end. eapply reads_bind_last; [apply read_exact_reads; unfold len; lia|].
    rewrite Hb. apply reads_ret. }
  destruct (reads_snd _ _ _ bp' c1 rest Hread Hp1 Hrem1) as (c2 & Hr2 & Hrem2 & Hp2).
  do 3 eexists. split; [|split_and!; [exact Hp'|exact Hrem2|exact Hp2|]].
  - unfold Message_parse. run_step Hr1.
    erewrite run_bind_ok by (unfold st_fst, st_zoom; simpl; rewrite Hget; done).
    rewrite run_get. cbn beta iota. rewrite remaining_length, Hrem1, length_app by done.
    rewrite (proj2 (Z.ltb_ge _ _)) by (unfold len; lia).
    run_step Hr2. done.
  - done.
Qed.
End format_facts.

(** ** What the wire format keeps, and what it loses *)

(** C27. Round trip: a message made by [new_outbound] and parsed by a peer, in
    front of any other bytes, comes back with its id, size mode, payload and
    fragment, and with its channel modulo 32, the width of the prefix byte's
    field ([new_outbound] admits channels up to 63).  The payload has at most
    1024 bytes, and a fragment of at most 255 bytes, whose header stores the
    count in one byte, belongs to a message of fewer than 256 fragments
    ([narrow_fragment_opt]). *)
Theorem message_roundtrip `{BP : BuildProfile, BO : ByteOrder, BL : !ByteOrderLaws BO}
    id channel payload fragmented bp_sender bp_receiver rest :
  let len := Z.of_nat (length payload) in
  has_pool bp_sender -> has_pool bp_receiver -> u16 id -> 0 <= channel < 64 -> len <= 1024 ->
  wf_fragment_opt (fragment_of fragmented) len ->
  narrow_fragment_opt (fragment_of fragmented) (MessageSizeMode_from len) ->
  exists bp_sender' m bp_receiver' c' m',
    Message_new_outbound id channel payload fragmented bp_sender = Some (bp_sender', Ok m) /\
    Message_parse (bp_receiver, Cursor_new (Message_as_slice m ++ rest)) =
      Some ((bp_receiver', c'), Ok m') /\
    remaining_slice c' = rest /\ Message_as_slice m' = payload /\
    m_id m' = id /\ size_mode m' = size_mode m /\ m_channel m' = channel mod 32 /\
    m_fragment m' = received_fragment id <$> fragment_of fragmented.
Proof.
  intros len Hs Hr Hid Hc Hlen Hf Hn.
  destruct (new_outbound_run id channel payload fragmented bp_sender Hs Hc Hlen Hf)
    as (bs' & buf & Hnew & _ & Hbuf).
  destruct (Message_parse_run id (fragment_of fragmented) channel payload bp_receiver
              (Cursor_new (vdata buf ++ rest)) rest) as (br' & c' & b' & Hp & _ & Hrest & _ & Hb');
    try done.
  { rewrite remaining_slice_new, Hbuf. done. }
  do 5 eexists. split; [exact Hnew|]. split; [exact Hp|]. by split_and!.
Qed.

Definition example_pool : BufPool :=
  BufPool_new [{| starting_size := 0; max_size := 10; buffer_capacity := 1500 |}].

Lemma example_pool_has_pool : has_pool example_pool.
Proof. done. Qed.

(** The last of two fragments, on channel 33. *)
Lemma message_roundtrip_witness :
  exists bp m bp' c' m',
    @Message_new_outbound debug_build big_endian 8 33 [1; 2; 3] (Yes (MkFragment 1 2 7)) example_pool =
      Some (bp, Ok m) /\
    @Message_parse debug_build big_endian (example_pool, Cursor_new (Message_as_slice m ++ [9])) =
      Some ((bp', c'), Ok m') /\
    remaining_slice c' = [9] /\ Message_as_slice m' = [1; 2; 3] /\
    m_id m' = 8 /\ size_mode m' = size_mode m /\ m_channel m' = 33 mod 32 /\
    m_fragment m' = Some (MkFragment 1 2 7).
Proof.
  apply (message_roundtrip (BP:=debug_build) (BO:=big_endian) (BL:=big_endian_laws)
           8 33 [1; 2; 3] (Yes (MkFragment 1 2 7)) example_pool example_pool [9]);
    try apply example_pool_has_pool; simpl; try lia; constructor; simpl; lia.
Defined.

(** The estimate the packing of packets uses is never below the bytes a
    message takes there. *)
Lemma outbound_size `{BP : BuildProfile} m :
  match m_fragment m with Some f => 0 < num_fragments f < 65536 | None => True end ->
  exists n, Message_size m = Some n /\ Z.of_nat (length (Message_as_slice m)) + 4 <= n.
Proof.
  intros Hf. unfold Message_size, Message_as_slice, vec_len. destruct (m_fragment m) as [f|]; simpl.
  - rewrite is_last_run by done. simpl. eexists. split; [done|]. destruct (size_mode m), (_ =? _); lia.
  - eexists. split; [done|]. destruct (size_mode m); lia.
Qed.

(** A message of 256 fragments whose tail is at most 255 bytes cannot be
    received: the tail's header stores the count in one byte, the receiver
    reads a count of 0, and the overflow check on [num_fragments - 1] panics. *)
Theorem fragment_of_256_panics `{BO : ByteOrder, BL : !ByteOrderLaws BO}
    id channel payload parent bp_sender bp_receiver rest :
  has_pool bp_sender -> u16 id -> 0 <= channel < 64 -> (length payload <= 255)%nat ->
  exists bp_sender' m,
    @Message_new_outbound debug_build BO id channel payload (Yes (MkFragment 255 256 parent)) bp_sender =
      Some (bp_sender', Ok m) /\
    @Message_parse debug_build BO (bp_receiver, Cursor_new (Message_as_slice m ++ rest)) = None.
Proof.
  intros Hs Hid Hc Hlen. set (f := MkFragment 255 256 parent).
  assert (Hf : wf_fragment f (Z.of_nat (length payload))) by (constructor; simpl; lia).
  destruct (new_outbound_run (BP:=debug_build) id channel payload (Yes f) bp_sender Hs Hc ltac:(lia) Hf)
    as (bs' & buf & Hnew & _ & Hbuf). exists bs'. eexists. split; [exact Hnew|].
  unfold Message_as_slice. cbn [m_buffer]. rewrite Hbuf.
  rewrite (proj2 (MessageSizeMode_from_small _)) by lia.
  unfold Message_parse. apply run_bind_panic. unfold st_snd, st_zoom. cbn [snd].
  assert (Hpanic : forall c rest', 0 <= position c ->
      remaining_slice c = header_bytes id (Some f) Small channel (Z.of_nat (length payload)) ++ rest' ->
      @Message_parse_headers debug_build BO c = None).
  { intros c rest' Hp Hrem. unfold Message_parse_headers, header_bytes, fragment_bytes in *.
    rewrite <- !app_assoc in Hrem. change (bool_decide (is_Some (Some f))) with true in Hrem.
    destruct (prefix_fields true Small channel Hc) as (H1 & H2 & _).
    destruct (read_u8_reads _ c _ Hp Hrem) as (c1 & Hr1 & Hrem1 & _ & Hp1). run_step Hr1.
    rewrite H1, H2.
    destruct (read_u16_reads id Hid c1 _ ltac:(lia) Hrem1) as (c2 & Hr2 & Hrem2 & _ & Hp2). run_step Hr2.
    apply run_bind_panic. cbn [negb]. apply run_bind_panic. unfold Fragment_parse_header.
    destruct (read_u8_reads _ c2 _ ltac:(lia) Hrem2) as (c3 & Hr3 & Hrem3 & _ & Hp3).
    destruct (read_u8_reads _ c3 _ ltac:(lia) Hrem3) as (c4 & Hr4 & _).
    rewrite run_assoc. run_step Hr3. rewrite run_assoc. run_step Hr4. done. }
  by erewrite Hpanic; [|done|rewrite remaining_slice_new, <- app_assoc].
Qed.

Lemma fragment_of_256_panics_witness :
  exists bp m,
    @Message_new_outbound debug_build big_endian 300 1 [7] (Yes (MkFragment 255 256 45)) example_pool =
      Some (bp, Ok m) /\
    @Message_parse debug_build big_endian (example_pool, Cursor_new (Message_as_slice m ++ [])) = None.
Proof.
  apply (fragment_of_256_panics (BO:=big_endian) (BL:=big_endian_laws) 300 1 [7] 45 example_pool example_pool []);
    [apply example_pool_has_pool|lia|lia|simpl; lia].
Defined.
