(* ===== verification/Packets.v ===== *)
(** * Packets ([protocol/packets.rs])

    The packet header, the seven packet types, their serialisation into a
    pooled buffer and their parsing. *)

From S2P Require Import Prelude Floats Types Cursor BufferPool SequenceBuffer AckHeader.

Inductive PacketType :=
| TConnectionRequest | TConnectionChallenge | TConnectionChallengeResponse
| TConnectionDenied | TMessages | TDisconnect | TKeepAlive.

#[export] Instance PacketType_eq_dec : EqDecision PacketType.
Proof. solve_decision. Defined.

(** [packet_type as u8]. *)
Definition PacketType_as_u8 (t : PacketType) : Z :=
  match t with
  | TConnectionRequest => 1 | TConnectionChallenge => 2 | TConnectionChallengeResponse => 3
  | TConnectionDenied => 4 | TMessages => 5 | TDisconnect => 6 | TKeepAlive => 7
  end.

Definition PacketType_try_from (value : Z) : result PacketType PicklebackError :=
  if value =? 1 then Ok TConnectionRequest
  else if value =? 2 then Ok TConnectionChallenge
  else if value =? 3 then Ok TConnectionChallengeResponse
  else if value =? 4 then Ok TConnectionDenied
  else if value =? 5 then Ok TMessages
  else if value =? 6 then Ok TDisconnect
  else if value =? 7 then Ok TKeepAlive
  else Err InvalidPacket.

Record ProtocolPacketHeader := MkHeader {
  packet_type : PacketType;
  h_id : PacketId;
  ack_header : option AckHeader;
}.

Record ConnectionRequestPacket := { crq_header : ProtocolPacketHeader; crq_client_salt : Z; protocol_version : Z }.
Record ConnectionChallengePacket := { cch_header : ProtocolPacketHeader; cch_client_salt : Z; cch_server_salt : Z }.
Record ConnectionChallengeResponsePacket := { ccr_header : ProtocolPacketHeader; ccr_xor_salt : Z }.
Record ConnectionDeniedPacket := { cd_header : ProtocolPacketHeader; reason : DisconnectReason }.
Record MessagesPacket := { mp_header : ProtocolPacketHeader; mp_xor_salt : Z }.
Record DisconnectPacket := { dp_header : ProtocolPacketHeader; dp_xor_salt : Z }.
Record KeepAlivePacket := { ka_header : ProtocolPacketHeader; ka_xor_salt : Z; ka_client_index : Z }.

Inductive ProtocolPacket :=
| ConnectionRequest (p : ConnectionRequestPacket)
| ConnectionChallenge (p : ConnectionChallengePacket)
| ConnectionChallengeResponse (p : ConnectionChallengeResponsePacket)
| ConnectionDenied (p : ConnectionDeniedPacket)
| Messages (p : MessagesPacket)
| Disconnect (p : DisconnectPacket)
| KeepAlive (p : KeepAlivePacket).

(** [From<&ProtocolPacket> for PacketType]. *)
Definition PacketType_from (p : ProtocolPacket) : PacketType :=
  match p with
  | ConnectionRequest _ => TConnectionRequest
  | ConnectionChallenge _ => TConnectionChallenge
  | ConnectionChallengeResponse _ => TConnectionChallengeResponse
  | ConnectionDenied _ => TConnectionDenied
  | Messages _ => TMessages
  | Disconnect _ => TDisconnect
  | KeepAlive _ => TKeepAlive
  end.

(** ** Headers *)
Definition ProtocolPacketHeader_new_no_acks (id : PacketId) (t : PacketType)
  : option (result ProtocolPacketHeader PicklebackError) :=
  Some (Ok {| packet_type := t; h_id := id; ack_header := None |}).

Definition ProtocolPacketHeader_new (id : PacketId) (ack_iter : list (Z * bool)) (num_acks : Z) (t : PacketType)
  : option (result ProtocolPacketHeader PicklebackError) :=
  if num_acks =? 0 then ProtocolPacketHeader_new_no_acks id t
  else
    r ← AckHeader_from_ack_iter num_acks ack_iter;
    Some (match r with
          | Ok a => Ok {| packet_type := t; h_id := id; ack_header := Some a |}
          | Err e => Err e
          end).

Definition ProtocolPacketHeader_size (self : ProtocolPacketHeader) : Z :=
  1 + 2 + match ack_header self with Some h => AckHeader_size h | None => 0 end.

(** [acks()]: what iterating over a copy of the ack header yields. *)
Definition ProtocolPacketHeader_acks (self : ProtocolPacketHeader) : option AckHeader := ack_header self.

Section operations.
Context `{BO : ByteOrder}.

Definition ProtocolPacketHeader_write `{Write W} (self : ProtocolPacketHeader) : M W unit :=
  let prefix_byte := PacketType_as_u8 (packet_type self) in
  let prefix_byte := match ack_header self with Some _ => Z.lor prefix_byte 128 | None => prefix_byte end in
  write_u8 prefix_byte;;
  write_u16 (h_id self);;
  match ack_header self with
  | Some a => AckHeader_write a;; mret tt
  | None => mret tt
  end.

Definition ProtocolPacketHeader_parse : M Cursor ProtocolPacketHeader :=
  prefix_byte ← read_u8;
  let ack_header_present := negb (Z.land prefix_byte 128 =? 0) in
  match PacketType_try_from (Z.land prefix_byte 127) with
  | Err _ => st_throw InvalidPacket
  | Ok t =>
      id ← read_u16;
      a ← (if ack_header_present then a ← AckHeader_parse; mret (Some a) else mret None);
      mret {| packet_type := t; h_id := id; ack_header := a |}
  end.

(** ** Packets *)
Definition write_zero_bytes `{Write W} (num_bytes : nat) : M W unit := write_all (replicate num_bytes 0).

Definition write_packet_body `{Write W} (packet : ProtocolPacket) : M W unit :=
  match packet with
  | KeepAlive p =>
      ProtocolPacketHeader_write (ka_header p);;
      write_u64 (ka_xor_salt p);; write_u32 (ka_client_index p)
  | ConnectionRequest p =>
      ProtocolPacketHeader_write (crq_header p);;
      write_u64 (crq_client_salt p);; write_u64 (protocol_version p);; write_zero_bytes 500
  | ConnectionChallenge p =>
      ProtocolPacketHeader_write (cch_header p);;
      write_u64 (cch_client_salt p);; write_u64 (cch_server_salt p);; write_zero_bytes 500
  | ConnectionChallengeResponse p =>
      ProtocolPacketHeader_write (ccr_header p);;
      write_u64 (ccr_xor_salt p);; write_zero_bytes 500
  | ConnectionDenied p =>
      ProtocolPacketHeader_write (cd_header p);;
      write_u8 (DisconnectReason_as_u8 (reason p))
  | Disconnect p =>
      ProtocolPacketHeader_write (dp_header p);; write_u64 (dp_xor_salt p)
  | Messages _ => st_panic
  end.

Definition write_packet (config : PicklebackConfig) (packet : ProtocolPacket) : M BufPool PooledBuffer :=
  let max_packet_size := max_packet_size config in
  buffer ← get_buffer max_packet_size;
  '(writer, _) ← st_local (WriteLimiter_new (VecCursor_new buffer) max_packet_size)
    (write_packet_body packet);
  mret (vc_vec (wl_writer writer)).

(** The check of the padded packet types: 500 bytes are left. *)
Definition check_padding : M Cursor unit :=
  reader ← st_get;
  if negb (remaining reader =? 500) then st_throw InvalidPacket else mret tt.

Definition read_packet : M Cursor ProtocolPacket :=
  header ← ProtocolPacketHeader_parse;
  match packet_type header with
  | TKeepAlive =>
      xor_salt ← read_u64; client_index ← read_u32;
      mret (KeepAlive {| ka_header := header; ka_xor_salt := xor_salt; ka_client_index := client_index |})
  | TConnectionRequest =>
      client_salt ← read_u64; version ← read_u64;
      check_padding;;
      mret (ConnectionRequest {| crq_header := header; crq_client_salt := client_salt;
                                 protocol_version := version |})
  | TConnectionChallenge =>
      client_salt ← read_u64; server_salt ← read_u64;
      check_padding;;
      mret (ConnectionChallenge {| cch_header := header; cch_client_salt := client_salt;
                                   cch_server_salt := server_salt |})
  | TConnectionChallengeResponse =>
      xor_salt ← read_u64;
      check_padding;;
      mret (ConnectionChallengeResponse {| ccr_header := header; ccr_xor_salt := xor_salt |})
  | TConnectionDenied =>
      b ← read_u8;
      r ← st_result (DisconnectReason_try_from b);
      mret (ConnectionDenied {| cd_header := header; reason := r |})
  | TMessages =>
      xor_salt ← read_u64;
      mret (Messages {| mp_header := header; mp_xor_salt := xor_salt |})
  | TDisconnect =>
      xor_salt ← read_u64;
      mret (Disconnect {| dp_header := header; dp_xor_salt := xor_salt |})
  end.
End operations.

(** ** The wire format *)

Definition packet_header (p : ProtocolPacket) : ProtocolPacketHeader :=
  match p with
  | ConnectionRequest p => crq_header p
  | ConnectionChallenge p => cch_header p
  | ConnectionChallengeResponse p => ccr_header p
  | ConnectionDenied p => cd_header p
  | Messages p => mp_header p
  | Disconnect p => dp_header p
  | KeepAlive p => ka_header p
  end.

(** An ack field as [parse] returns it: its [num_acks] is what its bytes hold. *)
Definition normal_ack (a : AckHeader) : AckHeader :=
  {| ack_id := ack_id a; num_acks := num_bytes_needed a * 7; bit_buffer := bit_buffer a;
     num_bytes_needed := num_bytes_needed a; byte_offset := byte_offset a; bit_offset := bit_offset a |}.

Definition normal_header (h : ProtocolPacketHeader) : ProtocolPacketHeader :=
  {| packet_type := packet_type h; h_id := h_id h; ack_header := normal_ack <$> ack_header h |}.

Definition wf_ack (a : AckHeader) : Prop :=
  u16 (ack_id a) /\ exists bs, ack_field bs /\ a = field_header (ack_id a) (num_acks a) bs.

Record wf_header (h : ProtocolPacketHeader) : Prop := {
  wfh_id : u16 (h_id h);
  wfh_ack : match ack_header h with Some a => wf_ack a | None => True end;
}.

(** The fields fit their widths, and the header's type is the packet's. *)
Definition wf_packet (p : ProtocolPacket) : Prop :=
  wf_header (packet_header p) /\ packet_type (packet_header p) = PacketType_from p /\
  match p with
  | ConnectionRequest p => u64 (crq_client_salt p) /\ u64 (protocol_version p)
  | ConnectionChallenge p => u64 (cch_client_salt p) /\ u64 (cch_server_salt p)
  | ConnectionChallengeResponse p => u64 (ccr_xor_salt p)
  | ConnectionDenied p => True
  | Messages p => u64 (mp_xor_salt p)
  | Disconnect p => u64 (dp_xor_salt p)
  | KeepAlive p => u64 (ka_xor_salt p) /\ u32 (ka_client_index p)
  end.

Definition normal_packet (p : ProtocolPacket) : ProtocolPacket :=
  match p with
  | ConnectionRequest p => ConnectionRequest {| crq_header := normal_header (crq_header p);
      crq_client_salt := crq_client_salt p; protocol_version := protocol_version p |}
  | ConnectionChallenge p => ConnectionChallenge {| cch_header := normal_header (cch_header p);
      cch_client_salt := cch_client_salt p; cch_server_salt := cch_server_salt p |}
  | ConnectionChallengeResponse p => ConnectionChallengeResponse
      {| ccr_header := normal_header (ccr_header p); ccr_xor_salt := ccr_xor_salt p |}
  | ConnectionDenied p => ConnectionDenied {| cd_header := normal_header (cd_header p); reason := reason p |}
  | Messages p => Messages {| mp_header := normal_header (mp_header p); mp_xor_salt := mp_xor_salt p |}
  | Disconnect p => Disconnect {| dp_header := normal_header (dp_header p); dp_xor_salt := dp_xor_salt p |}
  | KeepAlive p => KeepAlive {| ka_header := normal_header (ka_header p); ka_xor_salt := ka_xor_salt p;
                                ka_client_index := ka_client_index p |}
  end.

Section format.
Context `{BO : ByteOrder}.

Definition ack_header_bytes (a : AckHeader) : list Z :=
  be_put 2 (ack_id a) ++ take (Z.to_nat (num_bytes_needed a)) (bit_buffer a).

Definition packet_header_bytes (h : ProtocolPacketHeader) : list Z :=
  [Z.lor (PacketType_as_u8 (packet_type h)) (match ack_header h with Some _ => 128 | None => 0 end)] ++
  be_put 2 (h_id h) ++
  (match ack_header h with Some a => ack_header_bytes a | None => [] end).

Definition fields_bytes (p : ProtocolPacket) : list Z :=
  match p with
  | ConnectionRequest p => be_put 8 (crq_client_salt p) ++ be_put 8 (protocol_version p)
  | ConnectionChallenge p => be_put 8 (cch_client_salt p) ++ be_put 8 (cch_server_salt p)
  | ConnectionChallengeResponse p => be_put 8 (ccr_xor_salt p)
  | ConnectionDenied p => [DisconnectReason_as_u8 (reason p)]
  | Messages p => be_put 8 (mp_xor_salt p)
  | Disconnect p => be_put 8 (dp_xor_salt p)
  | KeepAlive p => be_put 8 (ka_xor_salt p) ++ be_put 4 (ka_client_index p)
  end.

(** The padding of the handshake packets. *)
Definition padding (p : ProtocolPacket) : list Z :=
  match p with
  | ConnectionRequest _ | ConnectionChallenge _ | ConnectionChallengeResponse _ => replicate 500 0
  | _ => []
  end.

Definition packet_bytes (p : ProtocolPacket) : list Z :=
  packet_header_bytes (packet_header p) ++ fields_bytes p ++ padding p.
End format.

Section format_facts.
Context `{BO : ByteOrder, BL : !ByteOrderLaws BO}.

Lemma AckHeader_write_emits_wf `{Appends W} a : wf_ack a ->
  emits (AckHeader_write a) (ack_header_bytes a) (AckHeader_size a).
Proof.
  intros [_ (bs & Hbs & ->)]. unfold ack_header_bytes. simpl. rewrite Nat2Z.id, take_app_length.
  apply AckHeader_write_emits.
Qed.

Lemma ProtocolPacketHeader_write_emits `{Appends W} h : wf_header h ->
  emits (ProtocolPacketHeader_write h) (packet_header_bytes h) tt.
Proof.
  intros [Hid Ha]. unfold ProtocolPacketHeader_write, packet_header_bytes.
  apply (emits_bind _ _ _ _ tt).
  { destruct (ack_header h); [apply write_u8_emits|]. rewrite Z.lor_0_r. apply write_u8_emits. }
  eapply emits_bind; [auto with emits|].
  destruct (ack_header h) as [a|]; [|auto with emits].
  eapply emits_bind_last; [by apply AckHeader_write_emits_wf|auto with emits].
Qed.

Lemma write_packet_body_emits `{Appends W} p : wf_packet p -> PacketType_from p <> TMessages ->
  emits (write_packet_body p) (packet_bytes p) tt.
Proof.
  intros (Hh & _ & _) Hm. unfold packet_bytes.
  destruct p; try done; (eapply emits_bind; [by apply ProtocolPacketHeader_write_emits|]);
    cbn [fields_bytes padding]; rewrite <- ?app_assoc, ?app_nil_r; auto with emits;
    repeat (eapply emits_bind; [auto with emits|]); unfold write_zero_bytes; auto with emits.
Qed.

(** The ack bytes are parsed up to [num_acks]. *)
Lemma AckHeader_parse_reads_wf a : wf_ack a ->
  reads AckHeader_parse (ack_header_bytes a) (normal_ack a).
Proof.
  intros [Hid (bs & Hbs & Ha)]. unfold ack_header_bytes, normal_ack. rewrite Ha. simpl.
  rewrite Nat2Z.id, take_app_length. by apply AckHeader_parse_reads.
Qed.

Lemma header_prefix t (acks : bool) :
  negb (Z.land (Z.lor (PacketType_as_u8 t) (if acks then 128 else 0)) 128 =? 0) = acks /\
  PacketType_try_from (Z.land (Z.lor (PacketType_as_u8 t) (if acks then 128 else 0)) 127) = Ok t.
Proof. by destruct t, acks. Qed.

(** A header, by what its ack bytes are parsed to. *)
Definition header_with (f : AckHeader -> AckHeader) (h : ProtocolPacketHeader) : ProtocolPacketHeader :=
  {| packet_type := packet_type h; h_id := h_id h; ack_header := f <$> ack_header h |}.

Lemma header_parse_reads f h : u16 (h_id h) -> (forall a, ack_header h = Some a -> reads AckHeader_parse (ack_header_bytes a) (f a)) ->
  reads ProtocolPacketHeader_parse (packet_header_bytes h) (header_with f h).
Proof.
  intros Hid Ha. unfold ProtocolPacketHeader_parse, packet_header_bytes.
  eapply reads_bind; [apply read_u8_reads|]. cbn zeta.
  destruct (header_prefix (packet_type h) (bool_decide (is_Some (ack_header h)))) as [H1 H2].
  unfold header_with. destruct (ack_header h) as [a|]; simpl in H1, H2 |- *; rewrite H1, H2.
  - eapply reads_bind; [by apply read_u16_reads|].
    eapply reads_bind_last; [|apply reads_ret].
    eapply reads_bind_last; [by apply Ha|apply reads_ret].
  - eapply reads_bind; [by apply read_u16_reads|].
    apply (reads_bind_last _ _ _ None); apply reads_ret.
Qed.

Lemma ProtocolPacketHeader_parse_reads h : wf_header h ->
  reads ProtocolPacketHeader_parse (packet_header_bytes h) (normal_header h).
Proof.
  intros [Hid Ha]. apply (header_parse_reads normal_ack); [done|]. intros a Heq. rewrite Heq in Ha. by apply AckHeader_parse_reads_wf.
Qed.

(** The header's size is its length on the wire. *)
Lemma packet_header_bytes_length h : wf_header h ->
  Z.of_nat (length (packet_header_bytes h)) = ProtocolPacketHeader_size h.
Proof.
  intros [_ Ha]. unfold packet_header_bytes, ProtocolPacketHeader_size, ack_header_bytes.
  rewrite !length_app, be_put_length.
  destruct (ack_header h) as [a|]; simpl; [|lia].
  destruct Ha as [_ (bs & _ & ->)]. unfold AckHeader_size. simpl.
  rewrite length_app, be_put_length, Nat2Z.id, take_app_length. lia.
Qed.
End format_facts.

(** The bytes behind a packet: nothing may follow a padded one. *)
Definition tail_ok (p : ProtocolPacket) (rest : list Z) : Prop :=
  match p with
  | ConnectionRequest _ | ConnectionChallenge _ | ConnectionChallengeResponse _ => rest = []
  | _ => True
  end.

(** The packet with another header. *)
Definition with_header (h : ProtocolPacketHeader) (p : ProtocolPacket) : ProtocolPacket :=
  match p with
  | ConnectionRequest p => ConnectionRequest {| crq_header := h; crq_client_salt := crq_client_salt p; protocol_version := protocol_version p |}
  | ConnectionChallenge p => ConnectionChallenge {| cch_header := h; cch_client_salt := cch_client_salt p; cch_server_salt := cch_server_salt p |}
  | ConnectionChallengeResponse p => ConnectionChallengeResponse {| ccr_header := h; ccr_xor_salt := ccr_xor_salt p |}
  | ConnectionDenied p => ConnectionDenied {| cd_header := h; reason := reason p |}
  | Messages p => Messages {| mp_header := h; mp_xor_salt := mp_xor_salt p |}
  | Disconnect p => Disconnect {| dp_header := h; dp_xor_salt := dp_xor_salt p |}
  | KeepAlive p => KeepAlive {| ka_header := h; ka_xor_salt := ka_xor_salt p; ka_client_index := ka_client_index p |}
  end.

Lemma with_own_header p : with_header (packet_header p) p = p.
Proof. by destruct p as [[]|[]|[]|[]|[]|[]|[]]. Qed.

(** The fields behind the header fit their widths. *)
Definition fields_ok (p : ProtocolPacket) : Prop :=
  match p with
  | ConnectionRequest p => u64 (crq_client_salt p) /\ u64 (protocol_version p)
  | ConnectionChallenge p => u64 (cch_client_salt p) /\ u64 (cch_server_salt p)
  | ConnectionChallengeResponse p => u64 (ccr_xor_salt p)
  | ConnectionDenied _ => True
  | Messages p => u64 (mp_xor_salt p)
  | Disconnect p => u64 (dp_xor_salt p)
  | KeepAlive p => u64 (ka_xor_salt p) /\ u32 (ka_client_index p)
  end.

(** As many bytes are left as the packet has padding, if it has any. *)
Definition padding_room (p : ProtocolPacket) (rest : list Z) : Prop := padding p = [] \/ length rest = length (padding p).

Section runs.
Context `{BO : ByteOrder, BL : !ByteOrderLaws BO}.

Lemma check_padding_run c : 0 <= position c -> length (remaining_slice c) = 500%nat ->
  check_padding c = Some (c, Ok tt).
Proof.
  intros Hp Hc. unfold check_padding. rewrite run_get, remaining_length, Hc by done. done.
Qed.

Lemma read_packet_reads h p c rest : reads ProtocolPacketHeader_parse (packet_header_bytes (packet_header p)) h ->
  packet_type h = PacketType_from p -> fields_ok p -> padding_room p rest ->
  0 <= position c -> remaining_slice c = packet_header_bytes (packet_header p) ++ fields_bytes p ++ rest ->
  exists c', read_packet c = Some (c', Ok (with_header h p)) /\ remaining_slice c' = rest /\ 0 <= position c'.
Proof.
  intros Hh Ht Hf Hroom Hp Hc.
  unfold read_packet. eapply reads_step; [exact Hh|done|exact Hc|].
  clear c Hp Hc Hh. intros c Hp Hc. rewrite Ht.
  destruct p as [[h0 s1 s2]|[h0 s1 s2]|[h0 s1]|[h0 r]|[h0 s1]|[h0 s1]|[h0 s1 i]];
    cbn [PacketType_from fields_bytes fields_ok] in *; cbn [crq_client_salt protocol_version cch_client_salt cch_server_salt ccr_xor_salt reason mp_xor_salt dp_xor_salt ka_xor_salt ka_client_index] in *;
    rewrite <- ?app_assoc in Hc.
  4: { eapply reads_step; [apply read_u8_reads|done|exact Hc|]. intros c1 Hp1 Hc1.
       unfold mbind, ST_bind, st_result. rewrite DisconnectReason_roundtrip. eauto. }
  all: eapply reads_step; [| |exact Hc|]; [apply read_u64_reads; lia|done|]; intros c1 Hp1 Hc1.
  1, 2, 6: (eapply reads_step; [| |exact Hc1|];
    [first [apply read_u64_reads; lia | apply read_u32_reads; lia]|done|];
    clear c1 Hp1 Hc1; intros c1 Hp1 Hc1).
  1, 2, 4: (destruct Hroom as [|Hroom]; [done|]; erewrite run_bind_ok by (apply check_padding_run; [done|by rewrite Hc1, Hroom]); by eauto).
  all: by eauto.
Qed.

Lemma read_packet_run p c rest : wf_packet p -> tail_ok p rest ->
  0 <= position c -> remaining_slice c = packet_bytes p ++ rest ->
  exists c', read_packet c = Some (c', Ok (normal_packet p)) /\
    remaining_slice c' = padding p ++ rest /\ 0 <= position c'.
Proof.
  intros (Hh & Ht & Hf) Htail Hp Hc. unfold packet_bytes in Hc. rewrite <- !app_assoc in Hc.
  destruct (read_packet_reads (normal_header (packet_header p)) p c (padding p ++ rest)) as (c' & Hrun & Hr); try done.
  - by apply ProtocolPacketHeader_parse_reads.
  - destruct p; cbn in Htail |- *; subst; unfold padding_room; by auto.
  - exists c'. split; [|done]. by destruct p.
Qed.

(** Serialisation into a pooled buffer: the packet's bytes when they fit the
    configured size, an error when they do not. *)
Lemma write_packet_run config p bp : has_pool bp -> wf_packet p -> PacketType_from p <> TMessages ->
  0 <= max_packet_size config ->
  exists bp', has_pool bp' /\
    if decide (Z.of_nat (length (packet_bytes p)) <= max_packet_size config)
    then exists buf, write_packet config p bp = Some (bp', Ok buf) /\ vdata buf = packet_bytes p
    else write_packet config p bp = Some (bp', Err (Io WriteZero)).
Proof.
  intros Hbp Hp Hm Hmax. unfold write_packet.
  destruct (get_buffer_run (max_packet_size config) bp Hbp) as (bp' & b & Hget & Hbp' & Hb).
  exists bp'. split; [done|]. run_step Hget.
  set (w := WriteLimiter_new (VecCursor_new b) (max_packet_size config)).
  destruct (write_packet_body_emits (W:=BufferLimitedWriter) p Hp Hm w) as (w' & r & Hrun & _ & Hr).
  { unfold w. simpl. unfold vec_len. rewrite Hb. simpl. lia. }
  replace (ap_room w) with (Some (max_packet_size config)) in Hr
    by (unfold w, WriteLimiter_new; cbn; unfold WriteLimiter_remaining; cbn; f_equal; lia).
  cbn [fits] in Hr. unfold mbind, ST_bind, st_local. rewrite Hrun.
  destruct (decide (Z.of_nat _ <= _)).
  - destruct Hr as (-> & Hout & _). eexists. split; [done|]. simpl in Hout. by rewrite Hout, Hb.
  - by rewrite Hr.
Qed.

Lemma ProtocolPacketHeader_parse_no_panic : no_panic ProtocolPacketHeader_parse.
Proof. unfold ProtocolPacketHeader_parse. no_panic_tac. Qed.

Lemma read_packet_no_panic : no_panic read_packet.
Proof.
  pose proof ProtocolPacketHeader_parse_no_panic.
  unfold read_packet, check_padding. no_panic_tac.
Qed.
End runs.

(** *** What [read_packet] accepts *)

(** A header as the parser makes it: the ack field holds the bytes that were
    there, up to the first that announces no other one. *)
Definition parsed_header (h : ProtocolPacketHeader) : Prop :=
  u16 (h_id h) /\ forall a, ack_header h = Some a -> exists bs, heard_ack a bs.

Definition parsed_packet (p : ProtocolPacket) : Prop :=
  parsed_header (packet_header p) /\ packet_type (packet_header p) = PacketType_from p /\ fields_ok p.

Lemma type_byte_fields b : u8 b -> b = Z.lor (Z.land b 127) (if Z.land b 128 =? 0 then 0 else 128).
Proof.
  intros Hb. apply Z.bits_inj'. intros i Hi. rewrite Z.lor_spec, Z.land_spec.
  pose proof (land_pow2_testbit b 7 ltac:(lia)) as H7. change (2 ^ 7) with 128 in H7.
  destruct (decide (i < 7)) as [Hlt|Hge].
  - change 127 with (Z.ones 7). rewrite Z.ones_spec_low, andb_true_r by lia. change 128 with (2 ^ 7).
    destruct (_ =? 0); rewrite ?Z.bits_0, ?Z.pow2_bits_false, orb_false_r by lia; done.
  - change 127 with (Z.ones 7). rewrite Z.ones_spec_high, andb_false_r by lia. cbn [orb].
    destruct (decide (i = 7)) as [->|Hne].
    + destruct (Z.eqb_spec (Z.land b 128) 0) as [Heq|Heq]; rewrite <- H7.
      * by rewrite Heq.
      * assert (Z.testbit b 7 = true) as Ht; [|by rewrite H7, Ht]. apply not_false_is_true. intros Hf. apply Heq.
        apply Z.bits_inj'. intros k Hk. rewrite Z.land_spec, Z.bits_0. change 128 with (2 ^ 7).
        rewrite Z.pow2_bits_eqb by lia. destruct (Z.eqb_spec 7 k) as [<-|]; [by rewrite Hf|by rewrite andb_false_r].
    + assert (Z.testbit b i = false) as ->; [|destruct (_ =? 0); rewrite ?Z.bits_0; [done|]; change 128 with (2 ^ 7); by rewrite Z.pow2_bits_false by lia].
      apply Z.bits_above_log2; [lia|]. destruct (decide (b = 0)) as [->|]; [simpl; lia|].
      apply Z.log2_lt_pow2; [lia|]. apply (Z.lt_le_trans _ (2 ^ 8)); [change (2 ^ 8) with 256; lia|]. apply Z.pow_le_mono_r; lia.
Qed.

Lemma PacketType_try_from_inv b t : PacketType_try_from b = Ok t -> b = PacketType_as_u8 t.
Proof. unfold PacketType_try_from. repeat case_match; intros [= <-]; simpl; lia. Qed.

Lemma DisconnectReason_try_from_inv b r : DisconnectReason_try_from b = Ok r -> b = DisconnectReason_as_u8 r.
Proof. unfold DisconnectReason_try_from. repeat case_match; intros [= <-]; simpl; lia. Qed.

Section accepted.
Context `{BO : ByteOrder, BL : !ByteOrderLaws BO}.

Lemma heard_ack_bytes a bs : heard_ack a bs -> ack_header_bytes a = be_put 2 (ack_id a) ++ bs.
Proof. intros (_ & _ & _ & ->). unfold ack_header_bytes, field_header. cbn. by rewrite Nat2Z.id, take_app_length. Qed.

Lemma heard_ack_reads a bs : heard_ack a bs -> reads AckHeader_parse (ack_header_bytes a) a.
Proof.
  intros Ha. rewrite (heard_ack_bytes a bs Ha). destruct Ha as (_ & Hch & Hid & Ha). rewrite Ha at 2.
  by apply AckHeader_parse_reads_to.
Qed.

Lemma ProtocolPacketHeader_parses : parses ProtocolPacketHeader_parse (fun s h s' => parsed_header h /\ s = packet_header_bytes h ++ s').
Proof.
  intros c c' h Hc Hrun. unfold ProtocolPacketHeader_parse in Hrun.
  parses_step Hrun Hc read_u8_parses as b [Hb Hs]. cbn zeta in Hrun. pose proof (type_byte_fields b Hb) as Hpre.
  destruct (PacketType_try_from (Z.land b 127)) as [t|e] eqn:Ht; [|done]. apply PacketType_try_from_inv in Ht. rewrite Ht in Hpre.
  parses_step Hrun Hc (read_uint_parses 2) as id [Hid Hs1]. rewrite Hs1 in Hs.
  destruct (Z.land b 128 =? 0); cbn [negb] in Hrun.
  - injection Hrun as <- <-. split; [done|]. split; [by split|]. unfold packet_header_bytes. cbn. by rewrite Hs, Hpre, app_nil_r.
  - apply run_bind_inv in Hrun as [(c2 & o & Hrun & [= <- <-])|(? & _ & [=])].
    parses_step Hrun Hc AckHeader_parse_parses as a (bs & Ha & Hs2). injection Hrun as <- <-. split; [done|].
    split; [split; [done|]; intros a' [= <-]; by exists bs|]. unfold packet_header_bytes. cbn [ack_header packet_type h_id].
    rewrite Hs, Hs2, Hpre, (heard_ack_bytes a bs Ha). by rewrite <- !app_assoc.
Qed.

Lemma check_padding_parses : parses check_padding (fun s _ s' => s = s' /\ length s' = 500%nat).
Proof.
  intros c c' [] Hc. unfold check_padding. rewrite run_get. destruct (Z.eqb_spec (remaining c) 500) as [Hr|]; [|done].
  intros [= <-]. split; [done|]. split; [done|]. rewrite remaining_length in Hr by apply Hc. lia.
Qed.

Lemma read_packet_parses : parses read_packet (fun s p s' => parsed_packet p /\
  s = packet_header_bytes (packet_header p) ++ fields_bytes p ++ s' /\ padding_room p s').
Proof.
  intros c c' p Hc Hrun. unfold read_packet in Hrun. parses_step Hrun Hc ProtocolPacketHeader_parses as h [Hh ->].
  unfold parsed_packet, padding_room. destruct (packet_type h) eqn:Ht.
  4: { parses_step Hrun Hc read_u8_parses as b [Hb ->]. apply run_bind_inv in Hrun as [(c2 & r & Hr & [= <- <-])|(? & _ & [=])].
       unfold st_result in Hr. destruct (DisconnectReason_try_from b) as [r'|] eqn:Hd; [|done]. injection Hr as -> ->.
       apply DisconnectReason_try_from_inv in Hd as ->. split; [done|]. cbn. by auto. }
  all: parses_step Hrun Hc (read_uint_parses 8) as s [Hs ->].
  1, 2: parses_step Hrun Hc (read_uint_parses 8) as s' [Hs' ->].
  1, 2, 3: parses_step Hrun Hc check_padding_parses as u [-> Hroom].
  6: parses_step Hrun Hc (read_uint_parses 4) as i [Hi ->].
  all: injection Hrun as <- <-; (split; [done|]); cbn -[packet_header_bytes replicate]; rewrite <- ?app_assoc; by auto 8.
Qed.
End accepted.

(** C31. The parser accepts the packet format and nothing else.  On any bytes
    [read_packet] returns the packet [p] with [rest] left to read exactly when
    the bytes are [p]'s header, the ack field as it was received included, then
    [p]'s fields, each at its width and in the order of the wire, then [rest];
    and when [rest] is 500 bytes for the padded packets of the handshake.  So
    all other bytes are refused, and nothing of what is accepted is lost. *)
Theorem read_packet_accepts_format `{BO : ByteOrder, BL : !ByteOrderLaws BO} bytes p rest : is_bytes bytes ->
  (exists c, read_packet (Cursor_new bytes) = Some (c, Ok p) /\ remaining_slice c = rest) <->
  parsed_packet p /\ bytes = packet_header_bytes (packet_header p) ++ fields_bytes p ++ rest /\ padding_room p rest.
Proof.
  intros Hb. split.
  - intros (c & Hrun & <-). apply read_packet_parses in Hrun as [_ H]; [|done]. by rewrite remaining_slice_new in H.
  - intros (([Hid Ha] & Ht & Hf) & Hbytes & Hroom).
    destruct (read_packet_reads (packet_header p) p (Cursor_new bytes) rest) as (c & Hrun & Hrest & _); try done.
    + replace (packet_header p) with (header_with id (packet_header p)) at 2 by (destruct (packet_header p) as [? ? []]; done).
      apply header_parse_reads; [done|]. intros a Heq. destruct (Ha a Heq) as [bs Hbs]. by eapply heard_ack_reads.
    + by rewrite remaining_slice_new.
    + exists c. by rewrite with_own_header in Hrun.
Qed.

(** C28. Round trip of packets: every packet but [Messages], which is written
    by the message layer, is serialised into a pooled buffer when it fits
    the configured size, and parsed back from it to the same packet, its
    ack count normalised to what the ack bytes hold; when it does not fit,
    the write is refused. *)
Theorem packet_roundtrip `{BO : ByteOrder, BL : !ByteOrderLaws BO} config p bp :
  has_pool bp -> wf_packet p -> PacketType_from p <> TMessages -> 0 <= max_packet_size config ->
  exists bp' r, write_packet config p bp = Some (bp', r) /\
    match r with
    | Ok buf => vec_len buf <= max_packet_size config /\
        exists c, read_packet (Cursor_new (vdata buf)) = Some (c, Ok (normal_packet p)) /\
          remaining_slice c = padding p
    | Err e => e = Io WriteZero /\ max_packet_size config < Z.of_nat (length (packet_bytes p))
    end.
Proof.
  intros Hbp Hp Hm Hmax. destruct (write_packet_run config p bp Hbp Hp Hm Hmax) as (bp' & _ & Hw).
  destruct (decide _) as [Hle|Hgt].
  - destruct Hw as (buf & Hrun & Hd). exists bp', (Ok buf). split; [done|].
    unfold vec_len. rewrite Hd. split; [done|].
    destruct (read_packet_run p (Cursor_new (packet_bytes p)) []) as (c & Hread & Hrem & _);
      [done|by destruct p|done|by rewrite remaining_slice_new, app_nil_r|].
    exists c. by rewrite Hrem, app_nil_r.
  - exists bp', (Err (Io WriteZero)). split; [done|]. split; [done|lia].
Qed.

(** A keep-alive with an ack field. *)
Definition example_packet : ProtocolPacket :=
  KeepAlive {| ka_header := {| packet_type := TKeepAlive; h_id := 12;
                               ack_header := Some (field_header 77 4 [5]) |};
               ka_xor_salt := 123456789; ka_client_index := 3 |}.

Lemma example_packet_wf : wf_packet example_packet.
Proof.
  split; [|done]. split; simpl; [lia|]. split; simpl; [lia|]. exists [5]. split; [|done].
  split; simpl; [done|apply Forall_singleton; lia|lia].
Qed.

Definition small_pool : BufPool :=
  BufPool_new [{| starting_size := 0; max_size := 10; buffer_capacity := 1500 |}].

Lemma small_pool_has_pool : has_pool small_pool.
Proof. done. Qed.

Lemma packet_roundtrip_witness :
  exists bp' r, @write_packet big_endian PicklebackConfig_default example_packet small_pool = Some (bp', r) /\
    match r with
    | Ok buf => vec_len buf <= 1150 /\
        exists c, @read_packet big_endian (Cursor_new (vdata buf)) = Some (c, Ok (normal_packet example_packet)) /\
          remaining_slice c = []
    | Err e => e = Io WriteZero /\ 1150 < Z.of_nat (length (@packet_bytes big_endian example_packet))
    end.
Proof.
  exact (packet_roundtrip (BO:=big_endian) (BL:=big_endian_laws) PicklebackConfig_default example_packet
           small_pool small_pool_has_pool example_packet_wf ltac:(done) ltac:(done)).
Defined.

(** C29. Robustness of the packet parser: on any input, from any position, it
    returns a packet or an error; no byte string makes it panic. *)
Theorem read_packet_total `{BO : ByteOrder} (c : Cursor) :
  exists c' r, read_packet c = Some (c', r).
Proof. apply read_packet_no_panic. Qed.

(** A keep-alive that acks packet 3, with a field of one byte. *)
Lemma read_packet_accepts_format_witness : exists p,
  @parsed_packet p /\ PacketType_from p = TKeepAlive /\
  [135; 0; 2; 0; 3; 1; 0; 0; 0; 0; 0; 0; 0; 12; 0; 0; 0; 0] =
    @packet_header_bytes big_endian (packet_header p) ++ @fields_bytes big_endian p ++ [].
Proof.
  destruct (read_packet_accepts_format (BO := big_endian) (BL := big_endian_laws)
    [135; 0; 2; 0; 3; 1; 0; 0; 0; 0; 0; 0; 0; 12; 0; 0; 0; 0]
    (KeepAlive {| ka_header := {| packet_type := TKeepAlive; h_id := 2; ack_header := Some (field_header 3 7 [1]) |};
                  ka_xor_salt := 12; ka_client_index := 0 |}) []) as [H _].
  - repeat constructor; lia.
  - eexists. destruct H as (Hp & Hb & _); [|split; [exact Hp|split; [reflexivity|exact Hb]]].
    eexists. split; [vm_compute; reflexivity|reflexivity].
Defined.
