(* ===== verification/Reassembler.v ===== *)
(** * Received messages and reassembly ([message_reassembler.rs], [received_message.rs])

    Fragments of a large message are collected per parent id until all have
    arrived; the result is read through a reader that chains the fragments'
    payloads. *)

From S2P Require Import Prelude Floats Types Cursor BufferPool Message.

(** ** [ReceivedMessage] *)
Inductive ReceivedMessage :=
| Single (message : Message)
| FragmentedMessages (fragments : list Message).

Definition ReceivedMessage_id (self : ReceivedMessage) : option MessageId :=
  match self with
  | Single message => Some (m_id message)
  | FragmentedMessages v =>
      m ← v !! 0%nat;
      f ← m_fragment m;
      Some (parent_id f)
  end.

Definition ReceivedMessage_channel (self : ReceivedMessage) : option Z :=
  match self with
  | Single message => Some (m_channel message)
  | FragmentedMessages v => m ← v !! 0%nat; Some (m_channel m)
  end.

Definition ReceivedMessage_payload_len `{BuildProfile} (self : ReceivedMessage) : option Z :=
  match self with
  | Single message => Message_size message
  | FragmentedMessages v =>
      m ← v !! (length v - 1)%nat;
      n ← Message_size m;
      Some (1024 * (Z.of_nat (length v) - 1) + n)
  end.

(** [payload]: all the bytes its reader yields. *)
Definition ReceivedMessage_payload (self : ReceivedMessage) : list Z :=
  match self with
  | Single message => Message_as_slice message
  | FragmentedMessages v => foldl (fun acc m => acc ++ Message_as_slice m) [] v
  end.

(** [payload_to_owned] also computes [payload_len], for the capacity. *)
Definition ReceivedMessage_payload_to_owned `{BuildProfile} (self : ReceivedMessage) : option (list Z) :=
  _ ← ReceivedMessage_payload_len self; Some (ReceivedMessage_payload self).

(** ** [IncompleteMessage] *)
Record IncompleteMessage := MkIncomplete {
  im_num_fragments : Z;
  num_received_fragments : Z;
  fragments : list (option Message);
}.

Definition IncompleteMessage_new (num : Z) : option IncompleteMessage :=
  if negb (num <=? MAX_FRAGMENTS) then None
  else if negb (1 <? num) then None
  else Some {| im_num_fragments := num; num_received_fragments := 0;
               fragments := replicate (Z.to_nat num) None |}.

Definition IncompleteMessage_add_fragment (frag_index : Z) (message : Message) : M IncompleteMessage bool :=
  st_assert (frag_index <=? MAX_FRAGMENTS);;
  self ← st_get;
  st_assert (frag_index <? im_num_fragments self);;
  seen ← st_lift (fragments self !! Z.to_nat frag_index);
  match seen with
  | Some _ => mret false
  | None =>
      fs ← st_lift (vec_set (Z.to_nat frag_index) (Some message) (fragments self));
      let n := num_received_fragments self + 1 in
      st_put {| im_num_fragments := im_num_fragments self; num_received_fragments := n; fragments := fs |};;
      mret (n =? im_num_fragments self)
  end.

(** ** [MessageReassembler] *)
Record MessageReassembler := MkReassembler { in_progress : gmap Z IncompleteMessage }.

Definition MessageReassembler_default : MessageReassembler := MkReassembler ∅.

Definition set_in_progress (k : MessageId) (im : IncompleteMessage) : M MessageReassembler unit :=
  st_modify (fun r => MkReassembler (<[k := im]> (in_progress r))).

Definition MessageReassembler_add_fragment (message : Message) : M MessageReassembler (option ReceivedMessage) :=
  match m_fragment message with
  | None => st_panic
  | Some fragment =>
      if MAX_FRAGMENTS <? num_fragments fragment then mret None
      else
        let parent_id := parent_id fragment in
        self ← st_get;
        ready ←
          (match in_progress self !! parent_id with
           | Some incomp_msg =>
               '(incomp_msg, ready) ← st_local incomp_msg
                 (IncompleteMessage_add_fragment (f_index fragment) message);
               set_in_progress parent_id incomp_msg;;
               mret ready
           | None =>
               incomp_msg ← st_lift (IncompleteMessage_new (num_fragments fragment));
               '(incomp_msg, _) ← st_local incomp_msg
                 (IncompleteMessage_add_fragment (f_index fragment) message);
               set_in_progress parent_id incomp_msg;;
               mret false
           end);
        if ready : bool then
          self ← st_get;
          incomp_msg ← st_lift (in_progress self !! parent_id);
          st_put (MkReassembler (delete parent_id (in_progress self)));;
          v ← st_lift (mapM id (fragments incomp_msg));
          mret (Some (FragmentedMessages v))
        else mret None
  end.

(** ** [ReceivedMessagesContainer] *)
Record ReceivedMessagesContainer := MkContainer {
  next_index : Z;
  messages : list ReceivedMessage;
}.

Definition Container_new (messages : list ReceivedMessage) : ReceivedMessagesContainer :=
  MkContainer 0 messages.
Definition Container_len (self : ReceivedMessagesContainer) : Z := Z.of_nat (length (messages self)).
Definition Container_is_empty (self : ReceivedMessagesContainer) : bool := Container_len self =? 0.
Definition Container_next : M ReceivedMessagesContainer (option ReceivedMessage) :=
  self ← st_get;
  if next_index self =? Z.of_nat (length (messages self)) then mret None
  else
    let i := next_index self in
    st_put (MkContainer (next_index self + 1) (messages self));;
    m ← st_lift (messages self !! Z.to_nat i);
    mret (Some m).

(** [drop]: the buffers go back to the pool. *)
Definition Container_drop (self : ReceivedMessagesContainer) : M BufPool unit :=
  st_for (messages self) (fun recv_msg =>
    match recv_msg with
    | Single msg => return_buffer (Message_take_buffer msg).1
    | FragmentedMessages msgs =>
        st_for msgs (fun msg => return_buffer (Message_take_buffer msg).1)
    end).

(** ** Reassembly, whatever the order *)

#[export] Instance VecU8_eq_dec : EqDecision VecU8.
Proof. solve_decision. Defined.
#[export] Instance Fragment_eq_dec : EqDecision Fragment.
Proof. solve_decision. Defined.
#[export] Instance Message_eq_dec : EqDecision Message.
Proof. solve_decision. Defined.

(** [fs] are the fragments of the message [p], in order. *)
Record fragments_of (p : MessageId) (fs : list Message) : Prop := {
  fo_length : (2 <= length fs <= 1024)%nat;
  fo_fragment : forall i m, fs !! i = Some m ->
    m_fragment m = Some (MkFragment (Z.of_nat i) (Z.of_nat (length fs)) p);
}.

(** How many of the fragments [fs] are in [h]. *)
Definition count_in (h fs : list Message) : nat := length (filter (fun m => m ∈ h) fs).

(** What is kept of a message of which the fragments in [h] have arrived. *)
Definition kept (h fs : list Message) : IncompleteMessage := {|
  im_num_fragments := Z.of_nat (length fs);
  num_received_fragments := Z.of_nat (count_in h fs);
  fragments := (fun m => if decide (m ∈ h) then Some m else None) <$> fs;
|}.

Lemma count_in_le h fs : (count_in h fs <= length fs)%nat.
Proof. apply length_filter. Qed.

Lemma count_in_nil fs : count_in [] fs = 0%nat.
Proof.
  unfold count_in. induction fs as [|m fs IH]; [done|].
  rewrite filter_cons_False by (apply not_elem_of_nil). done.
Qed.

Lemma count_in_cons h m fs : NoDup fs -> m ∈ fs -> m ∉ h -> count_in (m :: h) fs = S (count_in h fs).
Proof.
  unfold count_in. induction fs as [|x fs IH]; intros Hnd Hin Hh; [by apply elem_of_nil in Hin|].
  apply NoDup_cons in Hnd as [Hx Hnd]. destruct (decide (x = m)) as [->|Hne].
  - rewrite filter_cons_True by (by left). rewrite filter_cons_False by done. simpl. do 2 f_equal.
    clear IH Hin. induction fs as [|y fs IH]; [done|].
    apply not_elem_of_cons in Hx as [Hy Hx]. apply NoDup_cons in Hnd as [_ Hnd].
    destruct (decide (y ∈ h)).
    + rewrite !filter_cons_True by (done || by right). f_equal. auto.
    + rewrite !filter_cons_False; [auto|done|]. intros [?|?]%elem_of_cons; congruence.
  - apply elem_of_cons in Hin as [?|Hin]; [congruence|]. destruct (decide (x ∈ h)).
    + rewrite !filter_cons_True by (done || by right). simpl. f_equal. auto.
    + rewrite !filter_cons_False; [auto|done|]. intros [?|?]%elem_of_cons; congruence.
Qed.

(** Another message's arrival changes nothing. *)
Lemma count_in_other h m fs : m ∉ fs -> count_in (m :: h) fs = count_in h fs.
Proof.
  unfold count_in. induction fs as [|x fs IH]; intros Hm; [done|].
  apply not_elem_of_cons in Hm as [Hx Hm]. destruct (decide (x ∈ h)).
  - rewrite !filter_cons_True by (done || by right). simpl. f_equal. auto.
  - rewrite !filter_cons_False; [auto|done|]. intros [?|?]%elem_of_cons; congruence.
Qed.

Lemma count_in_full h fs : count_in h fs = length fs <-> Forall (fun m => m ∈ h) fs.
Proof.
  unfold count_in. induction fs as [|x fs IH]; simpl; [by split|].
  rewrite Forall_cons, <- IH. pose proof (length_filter (fun m => m ∈ h) fs).
  destruct (decide (x ∈ h)).
  - rewrite filter_cons_True by done. simpl. split; [intros; split; [done|lia]|intros []; lia].
  - rewrite filter_cons_False by done. split; [intros; lia|by intros []].
Qed.

Lemma kept_other h m fs : m ∉ fs -> kept (m :: h) fs = kept h fs.
Proof.
  intros Hm. unfold kept. rewrite count_in_other by done. f_equal.
  apply list_fmap_ext. intros i x Hx. apply list_elem_of_lookup_2 in Hx.
  destruct (decide (x ∈ h)); [by rewrite decide_True by (by right)|].
  rewrite decide_False; [done|]. intros [?|?]%elem_of_cons; congruence.
Qed.

Lemma fragments_of_inj p fs i j m : fragments_of p fs -> fs !! i = Some m -> fs !! j = Some m -> i = j.
Proof.
  intros [_ Hf] Hi Hj. apply Hf in Hi. apply Hf in Hj. rewrite Hi in Hj. injection Hj as Hij. lia.
Qed.

Lemma fragments_of_NoDup p fs : fragments_of p fs -> NoDup fs.
Proof. intros Hfs. apply NoDup_alt. intros i j m. by apply (fragments_of_inj p). Qed.

Lemma kept_mapM h fs : Forall (fun m => m ∈ h) fs -> mapM id (fragments (kept h fs)) = Some fs.
Proof.
  simpl. induction fs as [|m fs IH]; intros Hall; [done|]. apply Forall_cons in Hall as [Hm Hall].
  cbn [fmap list_fmap mapM]. rewrite decide_True by done. simpl in *. by rewrite IH.
Qed.

(** A new fragment is stored; the last one says so. *)
Lemma add_fragment_kept p fs h i m : fragments_of p fs -> fs !! i = Some m -> m ∉ h ->
  IncompleteMessage_add_fragment (Z.of_nat i) m (kept h fs) =
    Some (kept (m :: h) fs, Ok (count_in (m :: h) fs =? length fs)%nat).
Proof.
  intros Hfs Hi Hh. pose proof (lookup_lt_Some _ _ _ Hi) as Hlt. destruct (fo_length _ _ Hfs) as [_ Hmax].
  unfold IncompleteMessage_add_fragment, MAX_FRAGMENTS. rewrite (proj2 (Z.leb_le _ _)) by lia.
  run_done. rewrite run_get. cbn [im_num_fragments kept]. rewrite (proj2 (Z.ltb_lt _ _)) by lia. run_done.
  rewrite Nat2Z.id. cbn [fragments kept]. rewrite list_lookup_fmap, Hi. cbn [fmap option_fmap option_map].
  rewrite decide_False by done. run_done. rewrite vec_set_in_range by (by rewrite length_fmap). run_done.
  cbn [num_received_fragments kept].
  assert (Hc : count_in (m :: h) fs = S (count_in h fs)).
  { apply count_in_cons; [by eapply fragments_of_NoDup|by eapply list_elem_of_lookup_2|done]. }
  unfold mbind, ST_bind, st_put, mret, ST_ret. unfold kept. rewrite Hc.
  assert (Hfr : <[i:=Some m]> ((fun m => if decide (m ∈ h) then Some m else None) <$> fs) =
                (fun x => if decide (x ∈ m :: h) then Some x else None) <$> fs).
  { apply list_eq. intros j. rewrite list_lookup_fmap. destruct (decide (i = j)) as [<-|Hij].
    - rewrite list_lookup_insert_eq by (by rewrite length_fmap). rewrite Hi. simpl.
      by rewrite decide_True by (by left).
    - rewrite list_lookup_insert_ne, list_lookup_fmap by done. destruct (fs !! j) as [x|] eqn:Hj; [|done].
      simpl. f_equal. destruct (decide (x ∈ h)); [by rewrite decide_True by (by right)|].
      rewrite decide_False; [done|]. intros [->|?]%elem_of_cons; [|done].
      apply Hij. by eapply fragments_of_inj. }
  rewrite Hfr. do 3 f_equal; [lia|].
  apply eq_true_iff_eq. rewrite Z.eqb_eq, Nat.eqb_eq. lia.
Qed.

(** What the reassembler holds for a message of which [h] has arrived. *)
Definition kept_entry (h fs : list Message) : option IncompleteMessage :=
  if decide (0 < count_in h fs < length fs)%nat then Some (kept h fs) else None.

Lemma new_kept p h fs : fragments_of p fs -> count_in h fs = 0%nat ->
  IncompleteMessage_new (Z.of_nat (length fs)) = Some (kept h fs).
Proof.
  intros Hfs Hc. destruct (fo_length _ _ Hfs). unfold IncompleteMessage_new, kept, MAX_FRAGMENTS.
  rewrite (proj2 (Z.leb_le _ _)), (proj2 (Z.ltb_lt _ _)), Hc by lia. simpl. do 2 f_equal.
  rewrite Nat2Z.id. unfold count_in in Hc. apply nil_length_inv in Hc. clear -Hc.
  induction fs as [|m fs IH]; [done|]. cbn [length replicate fmap list_fmap].
  destruct (decide (m ∈ h)) as [Hm|Hm]; [by rewrite filter_cons_True in Hc|].
  rewrite filter_cons_False in Hc by done. f_equal. auto.
Qed.

Lemma add_fragment_step p fs h i m r : fragments_of p fs -> fs !! i = Some m -> m ∉ h ->
  in_progress r !! p = kept_entry h fs ->
  MessageReassembler_add_fragment m r =
    Some (MkReassembler (partial_alter (fun _ => kept_entry (m :: h) fs) p (in_progress r)),
          Ok (if decide (Forall (fun x => x ∈ m :: h) fs) then Some (FragmentedMessages fs) else None)).
Proof.
  intros Hfs Hi Hh Hr. destruct (fo_length _ _ Hfs) as [Hmin Hmax].
  pose proof (add_fragment_kept p fs h i m Hfs Hi Hh) as Hadd.
  assert (Hc : count_in (m :: h) fs = S (count_in h fs)).
  { apply count_in_cons; [by eapply fragments_of_NoDup|by eapply list_elem_of_lookup_2|done]. }
  unfold MessageReassembler_add_fragment. rewrite (fo_fragment _ _ Hfs i m Hi).
  cbn [num_fragments f_index parent_id]. unfold MAX_FRAGMENTS. rewrite (proj2 (Z.ltb_ge _ _)) by lia.
  rewrite run_get, Hr. unfold kept_entry at 1. pose proof (count_in_le (m :: h) fs) as Hle.
  unfold mbind, ST_bind, st_local, st_lift, st_asks, set_in_progress, st_modify, mret, ST_ret, st_get, st_put.
  destruct (decide (0 < count_in h fs < length fs)%nat) as [Hin|Hout].
  - rewrite Hadd. destruct (Nat.eqb_spec (count_in (m :: h) fs) (length fs)) as [He|Hne]; simpl.
    + rewrite lookup_insert_eq. pose proof (proj1 (count_in_full _ _) He) as Hall.
      pose proof (kept_mapM (m :: h) fs Hall) as Hk. simpl in Hk |- *. rewrite Hk.
      rewrite decide_True by done. unfold kept_entry. rewrite decide_False by lia.
      by rewrite delete_insert_eq.
    + rewrite decide_False by (by rewrite <- count_in_full). unfold kept_entry. rewrite decide_True by lia. done.
  - rewrite (new_kept p h fs Hfs) by lia. rewrite Hadd. simpl.
    rewrite decide_False by (rewrite <- count_in_full; lia). unfold kept_entry. rewrite decide_True by lia. done.
Qed.

(** Feeding a list of messages: what each of them completes. *)
Fixpoint feed (l : list Message) (r : MessageReassembler)
  : option (MessageReassembler * list (option ReceivedMessage)) :=
  match l with
  | [] => Some (r, [])
  | m :: l' =>
      match MessageReassembler_add_fragment m r with
      | Some (r', Ok o) => '(r'', os) ← feed l' r'; Some (r'', o :: os)
      | _ => None
      end
  end.

Section any_order.
(** The messages in transit: their fragments, by parent id. *)
Context (fam : gmap Z (list Message)).
Context (Hfam : forall p fs, fam !! p = Some fs -> fragments_of p fs).

Definition in_transit (m : Message) : Prop :=
  exists p fs i, fam !! p = Some fs /\ fs !! i = Some m.

(** The arrivals [h] are what the reassembler has seen. *)
Definition holds (h : list Message) (r : MessageReassembler) : Prop :=
  forall p fs, fam !! p = Some fs -> in_progress r !! p = kept_entry h fs.

Lemma holds_step h r m p fs i : holds h r -> fam !! p = Some fs -> fs !! i = Some m -> m ∉ h ->
  exists r', MessageReassembler_add_fragment m r =
      Some (r', Ok (if decide (Forall (fun x => x ∈ m :: h) fs) then Some (FragmentedMessages fs) else None)) /\
    holds (m :: h) r'.
Proof.
  intros Hr Hp Hi Hh. eexists. split; [by eapply add_fragment_step; eauto|].
  intros q gs Hq. simpl. destruct (decide (p = q)) as [<-|Hne].
  - rewrite lookup_partial_alter_eq. by rewrite Hp in Hq; injection Hq as ->.
  - rewrite lookup_partial_alter_ne by done. rewrite (Hr q gs Hq). unfold kept_entry.
    assert (Hm : m ∉ gs).
    { intros (j & Hj)%list_elem_of_lookup. pose proof (fo_fragment _ _ (Hfam _ _ Hq) _ _ Hj).
      pose proof (fo_fragment _ _ (Hfam _ _ Hp) _ _ Hi). congruence. }
    by rewrite count_in_other, kept_other.
Qed.

(** The message a fragment completes, after the arrivals [h]. *)
Definition completes (h : list Message) (m : Message) (o : option ReceivedMessage) : Prop :=
  exists p fs, fam !! p = Some fs /\ m ∈ fs /\
    o = if decide (Forall (fun x => x ∈ m :: h) fs) then Some (FragmentedMessages fs) else None.

Lemma feed_any_order l h r : holds h r -> NoDup l -> (forall m, m ∈ l -> m ∉ h) ->
  Forall in_transit l ->
  exists r' os, feed l r = Some (r', os) /\ length os = length l /\
    forall k m o, l !! k = Some m -> os !! k = Some o -> completes (reverse (take k l) ++ h) m o.
Proof.
  revert h r. induction l as [|m l IH]; intros h r Hr Hnd Hdis Hall.
  { exists r, []. split_and!; [done..|]. by intros k m o ?%lookup_nil_Some || done. }
  apply Forall_cons in Hall as [(p & fs & i & Hp & Hi) Hall]. apply NoDup_cons in Hnd as [Hm Hnd].
  destruct (holds_step h r m p fs i Hr Hp Hi) as (r1 & Hrun & Hr1); [apply Hdis; by left|].
  destruct (IH (m :: h) r1 Hr1 Hnd) as (r' & os & Hfeed & Hlen & Hos); [|done|].
  { intros x Hx [->|Hin]%elem_of_cons; [done|]. by apply (Hdis x); [right|]. }
  simpl. rewrite Hrun, Hfeed. simpl. do 2 eexists. split; [done|]. split; [simpl; by f_equal|].
  intros [|k] x o Hx Ho; simpl in *.
  - injection Hx as <-. injection Ho as <-. exists p, fs. split; [done|].
    split; [by eapply list_elem_of_lookup_2|done].
  - rewrite reverse_cons, <- app_assoc. by apply Hos.
Qed.
End any_order.

(** One message alone: any order of its fragments completes it at the end. *)
Lemma feed_permutation p fs l r : fragments_of p fs -> l ≡ₚ fs -> in_progress r !! p = None ->
  exists r', feed l r = Some (r', replicate (length fs - 1) None ++ [Some (FragmentedMessages fs)]).
Proof.
  intros Hfs Hperm Hr. pose proof (fragments_of_NoDup p fs Hfs) as Hnd.
  assert (Hndl : NoDup l) by (by rewrite Hperm).
  destruct (feed_any_order {[p := fs]}) with (l := l) (h := @nil Message) (r := r)
    as (r' & os & Hfeed & Hlen & Hos); [| |done|intros m _; apply not_elem_of_nil| |].
  { intros q gs [<- <-]%lookup_singleton_Some. exact Hfs. }
  { intros q gs [<- <-]%lookup_singleton_Some. rewrite Hr. unfold kept_entry. rewrite count_in_nil.
    by rewrite decide_False by lia. }
  { apply Forall_forall. intros m Hm. rewrite Hperm in Hm. apply list_elem_of_lookup in Hm as [i Hi].
    exists p, fs, i. split; [apply lookup_singleton_eq|done]. }
  exists r'. rewrite Hfeed. do 2 f_equal. apply Permutation_length in Hperm as Hl.
  destruct (fo_length _ _ Hfs) as [Hmin _]. apply list_eq. intros k.
  destruct (l !! k) as [m|] eqn:Hm.
  - pose proof (lookup_lt_Some _ _ _ Hm) as Hlt. destruct (lookup_lt_is_Some_2 os k) as [o Ho]; [lia|].
    rewrite Ho. destruct (Hos k m o Hm Ho) as (q & gs & [<- <-]%lookup_singleton_Some & _ & ->).
    assert (Hsub : forall x, x ∈ m :: reverse (take k l) ++ [] <-> x ∈ take (S k) l).
    { intros x. rewrite (take_S_r l k m Hm), app_nil_r, elem_of_cons, elem_of_app, list_elem_of_singleton,
        elem_of_reverse. tauto. }
    destruct (decide (k = length fs - 1)%nat) as [->|Hk].
    + rewrite lookup_app_r, length_replicate, Nat.sub_diag by (rewrite length_replicate; lia).
      rewrite decide_True; [done|]. apply Forall_forall. intros x Hx. apply Hsub.
      rewrite take_ge by lia. by rewrite Hperm.
    + rewrite lookup_app_l by (rewrite length_replicate; lia). rewrite lookup_replicate_2 by lia.
      rewrite decide_False; [done|]. intros Hall.
      assert (Hincl : fs ⊆+ take (S k) l).
      { apply NoDup_submseteq; [done|]. intros x Hx. apply Hsub. by apply (proj1 (Forall_forall _ _) Hall). }
      apply submseteq_length in Hincl. rewrite length_take in Hincl. lia.
  - apply lookup_ge_None in Hm. rewrite !lookup_ge_None_2; [done|rewrite length_app, length_replicate; simpl; lia|lia].
Qed.

Lemma payload_concat fs :
  ReceivedMessage_payload (FragmentedMessages fs) = concat (Message_as_slice <$> fs).
Proof.
  simpl. assert (Hgen : forall acc, foldl (fun acc m => acc ++ Message_as_slice m) acc fs =
                                    acc ++ concat (Message_as_slice <$> fs)).
  { induction fs as [|m fs IH]; intros acc; simpl; [by rewrite app_nil_r|]. by rewrite IH, app_assoc. }
  apply Hgen.
Qed.

(** ** Reassembly, whatever arrives how often *)

(** The ideal reassembler knows the messages' payloads in pieces, by parent id,
    and gathers the indices of what has arrived of each since it was last
    complete. *)
Definition ideal_add (fam : gmap Z (list (list Z))) (p : MessageId) (i : nat) (got : gmap Z (gset nat))
  : gmap Z (gset nat) * option (option MessageId * list Z) :=
  let cs := default [] (fam !! p) in
  let S := {[i]} ∪ default ∅ (got !! p) in
  if decide (size S = length cs) then (delete p got, Some (Some p, concat cs)) else (<[p := S]> got, None).

Fixpoint ideal_reassembly (fam : gmap Z (list (list Z))) (l : list (MessageId * nat)) (got : gmap Z (gset nat))
  : list (option (option MessageId * list Z)) :=
  match l with
  | [] => []
  | (p, i) :: l => let '(got', o) := ideal_add fam p i got in o :: ideal_reassembly fam l got'
  end.

(** [m] is a copy of piece [i] of [p]. *)
Definition chunk_at (p : MessageId) (cs : list (list Z)) (i : nat) (m : Message) : Prop :=
  m_fragment m = Some (MkFragment (Z.of_nat i) (Z.of_nat (length cs)) p) /\ cs !! i = Some (Message_as_slice m).

Record gathers (p : MessageId) (cs : list (list Z)) (S : gset nat) (im : IncompleteMessage) : Prop := {
  ga_num : im_num_fragments im = Z.of_nat (length cs);
  ga_count : num_received_fragments im = Z.of_nat (size S);
  ga_length : length (fragments im) = length cs;
  ga_seen : forall i m, fragments im !! i = Some (Some m) -> i ∈ S /\ chunk_at p cs i m;
  ga_unseen : forall i, fragments im !! i = Some None -> i ∉ S;
}.

Lemma new_gathers p cs : (2 <= length cs <= 1024)%nat ->
  exists im, IncompleteMessage_new (Z.of_nat (length cs)) = Some im /\ gathers p cs ∅ im.
Proof.
  intros Hcs. unfold IncompleteMessage_new, MAX_FRAGMENTS. rewrite (proj2 (Z.leb_le _ _)), (proj2 (Z.ltb_lt _ _)) by lia.
  cbn [negb]. rewrite Nat2Z.id. eexists. split; [done|]. split; cbn [im_num_fragments num_received_fragments fragments]; try done.
  - by rewrite length_replicate.
  - by intros i m [? ?]%lookup_replicate.
Qed.

Lemma add_gathers p cs S im i m : gathers p cs S im -> chunk_at p cs i m -> (length cs <= 1024)%nat -> (size S < length cs)%nat ->
  exists im', IncompleteMessage_add_fragment (Z.of_nat i) m im = Some (im', Ok (bool_decide (size ({[i]} ∪ S) = length cs))) /\
    gathers p cs ({[i]} ∪ S) im'.
Proof.
  intros [Hnum Hcount Hlen Hseen Hun] Hm Hmax Hsize. destruct Hm as [Hf Hc]. pose proof (lookup_lt_Some _ _ _ Hc) as Hlt.
  unfold IncompleteMessage_add_fragment, MAX_FRAGMENTS. rewrite (proj2 (Z.leb_le _ _)) by lia.
  run_done. rewrite run_get, Hnum, (proj2 (Z.ltb_lt _ _)) by lia. run_done. rewrite Nat2Z.id.
  destruct (lookup_lt_is_Some_2 (fragments im) i) as [[m0|] Hi]; [lia| |]; rewrite Hi; run_done.
  - destruct (Hseen i m0 Hi) as [HS _]. assert (Heq : {[i]} ∪ S = S) by set_solver.
    exists im. rewrite Heq, bool_decide_false by lia. split; [done|by split].
  - pose proof (Hun i Hi) as HS. assert (Hsz : size ({[i]} ∪ S) = Datatypes.S (size S)).
    { rewrite size_union by set_solver. by rewrite size_singleton. }
    rewrite vec_set_in_range by lia. run_done. unfold mbind, ST_bind, st_put, mret, ST_ret. eexists. split.
    + do 3 f_equal. rewrite Hcount. apply eq_true_iff_eq. rewrite Z.eqb_eq, bool_decide_eq_true. lia.
    + split; cbn [im_num_fragments num_received_fragments fragments]; [done|lia|by rewrite length_insert| |].
      * intros j mj [(<- & [= <-] & _)|[Hne Hj]]%list_lookup_insert_Some; [split; [set_solver|done]|].
        destruct (Hseen j mj Hj). split; [set_solver|done].
      * intros j [(_ & [=] & _)|[Hne Hj]]%list_lookup_insert_Some. pose proof (Hun j Hj). set_solver.
Qed.

(** Once everything has arrived. *)
Lemma gathers_all p cs im : gathers p cs (set_seq 0 (length cs)) im -> (0 < length cs)%nat ->
  exists v, mapM id (fragments im) = Some v /\ ReceivedMessage_id (FragmentedMessages v) = Some p /\
    ReceivedMessage_payload (FragmentedMessages v) = concat cs.
Proof.
  intros [_ _ Hlen Hseen Hun] Hpos.
  assert (Hall : Forall is_Some (id <$> fragments im)).
  { rewrite list_fmap_id. apply Forall_lookup. intros i [m|] Hi; [done|]. apply Hun in Hi as Hni.
    apply lookup_lt_Some in Hi. exfalso. apply Hni, elem_of_set_seq. lia. }
  assert (Hv : exists v, mapM id (fragments im) = Some v).
  { destruct (mapM id (fragments im)) as [v|] eqn:Hv; [by exists v|]. apply mapM_None in Hv.
    apply Exists_exists in Hv as (x & Hx & Hnone). rewrite list_fmap_id, Forall_forall in Hall. destruct (Hall x Hx) as [y ->]. done. }
  destruct Hv as [v Hv]. exists v. split; [done|]. apply mapM_Some_1 in Hv as Hpt. pose proof (Forall2_length _ _ _ Hpt) as Hl.
  assert (Hat : forall i m, v !! i = Some m -> chunk_at p cs i m).
  { intros i m Hi. destruct (Forall2_lookup_r _ _ _ _ _ Hpt Hi) as (x & Hx & Heq). cbn in Heq. subst x. by apply Hseen. }
  split.
  - destruct (lookup_lt_is_Some_2 v 0) as [m Hm]; [lia|]. cbn [ReceivedMessage_id]. rewrite Hm. cbn. by rewrite (proj1 (Hat 0%nat m Hm)).
  - rewrite payload_concat. f_equal. apply list_eq. intros i. rewrite list_lookup_fmap. destruct (v !! i) as [m|] eqn:Hi; cbn.
    + symmetry. apply (Hat i m Hi).
    + symmetry. apply lookup_ge_None in Hi. apply lookup_ge_None. lia.
Qed.

Section ideal.
Context (fam : gmap Z (list (list Z))) (Hfam : forall p cs, fam !! p = Some cs -> (2 <= length cs <= 1024)%nat).

(** [m] is a copy of the piece that [x] names. *)
Definition copy_of (m : Message) (x : MessageId * nat) : Prop := exists cs, fam !! x.1 = Some cs /\ chunk_at x.1 cs x.2 m.

Definition gathered (got : gmap Z (gset nat)) (r : MessageReassembler) : Prop := forall p cs, fam !! p = Some cs ->
  let S := default ∅ (got !! p) in
  S ⊆ set_seq 0 (length cs) /\ (size S < length cs)%nat /\
  match in_progress r !! p with Some im => gathers p cs S im | None => S = ∅ end.

Lemma gathered_other got got' r r' p : gathered got r -> (forall q, q <> p -> got' !! q = got !! q) ->
  (forall q, q <> p -> in_progress r' !! q = in_progress r !! q) ->
  (forall cs, fam !! p = Some cs -> let S := default ∅ (got' !! p) in
    S ⊆ set_seq 0 (length cs) /\ (size S < length cs)%nat /\
    match in_progress r' !! p with Some im => gathers p cs S im | None => S = ∅ end) ->
  gathered got' r'.
Proof.
  intros Hg Hgot Hr Hp q cs Hq. destruct (decide (q = p)) as [->|Hne]; [by apply Hp|]. rewrite Hgot, Hr by done. by apply Hg.
Qed.

(** What a received message is to its user. *)
Definition seen (o : option ReceivedMessage) : option (option MessageId * list Z) :=
  rm ← o; Some (ReceivedMessage_id rm, ReceivedMessage_payload rm).

Lemma add_fragment_ideal got r m p i : gathered got r -> copy_of m (p, i) ->
  exists r' o, MessageReassembler_add_fragment m r = Some (r', Ok o) /\ gathered (ideal_add fam p i got).1 r' /\
    seen o = (ideal_add fam p i got).2.
Proof.
  intros Hg (cs & Hcs & Hm). cbn [fst snd] in *. destruct (Hg p cs Hcs) as (Hsub & Hsize & Hin). pose proof (Hfam p cs Hcs) as Hlen.
  pose proof (lookup_lt_Some _ _ _ (proj2 Hm)) as Hi.
  assert (Him : exists im, match in_progress r !! p with Some im => Some im | None => IncompleteMessage_new (Z.of_nat (length cs)) end = Some im /\
    gathers p cs (default ∅ (got !! p)) im).
  { destruct (in_progress r !! p) as [im|]; [by exists im|]. rewrite Hin. by apply new_gathers. }
  destruct Him as (im & Him & Hgim).
  destruct (add_gathers p cs _ im i m Hgim Hm) as (im' & Hrun & Hgim'); [lia|done|].
  set (S := {[i]} ∪ default ∅ (got !! p)) in *.
  assert (HS : S ⊆ set_seq 0 (length cs)).
  { unfold S. intros k [->%elem_of_singleton|Hk]%elem_of_union; [apply elem_of_set_seq; lia|by apply Hsub]. }
  assert (Hnew : in_progress r !! p = None -> bool_decide (size S = length cs) = false).
  { intros Hn. rewrite Hn in Hin. unfold S. rewrite Hin, union_empty_r_L, size_singleton. apply bool_decide_false. lia. }
  assert (Hstep : MessageReassembler_add_fragment m r =
    if bool_decide (size S = length cs)
    then match mapM id (fragments im') with
         | Some v => Some (MkReassembler (delete p (in_progress r)), Ok (Some (FragmentedMessages v))) | None => None end
    else Some (MkReassembler (<[p := im']> (in_progress r)), Ok None)).
  { unfold MessageReassembler_add_fragment. rewrite (proj1 Hm). cbn [num_fragments f_index parent_id]. unfold MAX_FRAGMENTS.
    rewrite (proj2 (Z.ltb_ge _ _)) by lia. rewrite run_get.
    unfold mbind, ST_bind, st_local, st_lift, st_asks, set_in_progress, st_modify, mret, ST_ret, st_get, st_put.
    destruct (in_progress r !! p) as [im0|] eqn:Hp.
    - injection Him as ->. rewrite Hrun. destruct (bool_decide _); cbn [in_progress]; [|done].
      rewrite lookup_insert_eq, delete_insert_eq. by destruct (mapM id _).
    - rewrite Him, Hrun, Hnew by done. done. }
  assert (Hideal : ideal_add fam p i got = if decide (size S = length cs) then (delete p got, Some (Some p, concat cs)) else (<[p := S]> got, None)).
  { unfold ideal_add. by rewrite Hcs. }
  rewrite Hstep, Hideal. destruct (decide (size S = length cs)) as [Hall|Hnot].
  - rewrite bool_decide_true by done. assert (Heq : S = set_seq 0 (length cs)).
    { apply set_subseteq_size_eq; [done|]. rewrite size_set_seq. lia. }
    rewrite Heq in Hgim'. destruct (gathers_all p cs im' Hgim') as (v & -> & Hid & Hpay); [lia|].
    eexists _, _. split; [done|]. split; [|by cbn [seen mbind option_bind snd]; rewrite Hid, Hpay].
    eapply (gathered_other got _ r _ p Hg); cbn [fst in_progress]; try by intros q Hq; rewrite lookup_delete_ne.
    intros cs' Hcs'. rewrite !lookup_delete_eq. cbn. rewrite size_empty. simplify_eq. split; [set_solver|]. split; [lia|done].
  - rewrite bool_decide_false by done. eexists _, _. split; [done|]. split; [|done].
    eapply (gathered_other got _ r _ p Hg); cbn [fst in_progress]; try by intros q Hq; rewrite lookup_insert_ne.
    intros cs' Hcs'. rewrite !lookup_insert_eq. cbn. simplify_eq. split; [done|]. split; [|done].
    apply subseteq_size in HS as Hle. rewrite size_set_seq in Hle. lia.
Qed.

Lemma feed_ideal l xs got r : gathered got r -> Forall2 copy_of l xs ->
  exists r' os, feed l r = Some (r', os) /\ seen <$> os = ideal_reassembly fam xs got.
Proof.
  intros Hg Hl. revert got r Hg. induction Hl as [|m [p i] l xs Hm _ IH]; intros got r Hg; [by exists r, []|].
  destruct (add_fragment_ideal got r m p i Hg Hm) as (r1 & o & Hrun & Hg1 & Ho). cbn [feed ideal_reassembly]. rewrite Hrun.
  destruct (ideal_add fam p i got) as [got1 o1]. cbn [fst snd] in *. destruct (IH got1 r1 Hg1) as (r' & os & -> & Hos).
  exists r', (o :: os). split; [done|]. cbn [fmap list_fmap] in *. by rewrite Ho, Hos.
Qed.
End ideal.

(** C23. Reassembly works in any order, with any repetitions and interleaving.
    Fed copies of the fragments of any number of messages, in any order and
    each as often as it likes, the reassembler never panics and does what the
    ideal one does: at an arrival it returns a message exactly when that
    arrival is the last missing fragment of its message since the message was
    last complete, and then under the parent's id and with the fragments'
    payloads in order of their indices. *)
Theorem reassembly_refines_ideal (fam : gmap Z (list (list Z))) l xs r :
  (forall p cs, fam !! p = Some cs -> (2 <= length cs <= 1024)%nat) ->
  (forall p cs, fam !! p = Some cs -> in_progress r !! p = None) ->
  Forall2 (copy_of fam) l xs ->
  exists r' os, feed l r = Some (r', os) /\ seen <$> os = ideal_reassembly fam xs ∅.
Proof.
  intros Hfam Hr Hl. apply (feed_ideal fam Hfam); [|done]. intros p cs Hcs. rewrite (Hr p cs Hcs), lookup_empty. cbn.
  rewrite size_empty. pose proof (Hfam p cs Hcs). split; [set_solver|]. split; [lia|done].
Qed.

(** Two interleaved messages of two fragments, with repetitions, one of them
    in a larger buffer; the first message arrives twice. *)
Definition example_fragment (p i b : Z) (capacity : Z) : Message :=
  MkMessage (wrap16 (p + i)) Small 1 (MkVec [b] capacity) (Some (MkFragment i 2 p)).

Definition example_family : gmap Z (list (list Z)) := {[ 5 := [[50]; [51]]; 9 := [[90]; [91]] ]}.

Definition example_arrivals : list Message :=
  [example_fragment 9 1 91 1; example_fragment 5 0 50 1; example_fragment 9 1 91 8; example_fragment 9 0 90 1;
   example_fragment 9 0 90 1; example_fragment 5 1 51 1; example_fragment 9 1 91 1].

Definition example_pieces : list (MessageId * nat) := [(9, 1%nat); (5, 0%nat); (9, 1%nat); (9, 0%nat); (9, 0%nat); (5, 1%nat); (9, 1%nat)].

Lemma example_family_length p cs : example_family !! p = Some cs -> (2 <= length cs <= 1024)%nat.
Proof. unfold example_family. intros [[<- <-]|[_ [<- <-]%lookup_singleton_Some]]%lookup_insert_Some; simpl; lia. Qed.

Lemma reassembly_refines_ideal_witness : exists r' os, feed example_arrivals MessageReassembler_default = Some (r', os) /\
  seen <$> os =
    [None; None; None; Some (Some 9, [90; 91]); None; Some (Some 5, [50; 51]); Some (Some 9, [90; 91])].
Proof.
  apply (reassembly_refines_ideal example_family example_arrivals example_pieces MessageReassembler_default example_family_length).
  - intros p cs _. apply lookup_empty.
  - unfold example_arrivals, example_pieces. repeat (apply Forall2_cons; split);
      try (eexists; split; [reflexivity|]; split; reflexivity). apply Forall2_nil_2.
Defined.

(** A fragment that claims to be alone, or lies outside its own count,
    panics the receiver: nothing on the way from the wire refuses a fragment
    with [num_fragments <= 1] or [index >= num_fragments]. *)
Theorem bad_fragment_panics m f r :
  m_fragment m = Some f -> 0 <= f_index f -> in_progress r !! parent_id f = None ->
  num_fragments f <= 1 \/ (num_fragments f <= 1024 /\ num_fragments f <= f_index f) ->
  MessageReassembler_add_fragment m r = None.
Proof.
  intros Hm Hi Hr Hbad. unfold MessageReassembler_add_fragment, MAX_FRAGMENTS. rewrite Hm.
  rewrite (proj2 (Z.ltb_ge _ _)) by lia. rewrite run_get. apply run_bind_panic. rewrite Hr.
  unfold IncompleteMessage_new, MAX_FRAGMENTS. rewrite (proj2 (Z.leb_le _ _)) by lia. cbn [negb].
  destruct (Z.ltb_spec 1 (num_fragments f)); [|done]. cbn [negb]. run_done. apply run_bind_panic.
  unfold st_local, IncompleteMessage_add_fragment. destruct (f_index f <=? MAX_FRAGMENTS); [|done].
  unfold mbind, ST_bind. cbn [im_num_fragments st_get st_assert mret ST_ret].
  rewrite (proj2 (Z.ltb_ge _ _)) by lia. done.
Qed.

Lemma bad_fragment_panics_witness :
  MessageReassembler_add_fragment
    (MkMessage 7 Small 1 (MkVec [] 0) (Some (MkFragment 0 1 7))) MessageReassembler_default = None.
Proof.
  apply (bad_fragment_panics _ (MkFragment 0 1 7)); [done|simpl; lia|apply lookup_empty|left; simpl; lia].
Defined.
