(* ===== verification/Channel.v ===== *)
(** * Channels ([channel.rs])

    A channel queues outbound messages and filters inbound ones.  The
    unreliable channel forgets a message when it goes into a packet; the
    reliable one keeps it, and offers it again every [resend_time] seconds,
    until an ack dismisses it.  The trait [ChannelT] is a class with an
    instance per implementation and one for the enum that dispatches. *)

From S2P Require Import Prelude Floats Types SequenceBuffer BufferPool Cursor Message.

(** ** [MessageHandle] ([dispatcher.rs]): a message that went into a packet *)
Record MessageHandle := MkHandle {
  mh_id : MessageId;
  frag_index : option Z;
  mh_channel : Z;
}.

Definition MessageHandle_parent_id (self : MessageHandle) : option MessageId :=
  (fun frag_index => wrap16 (mh_id self - frag_index)) <$> frag_index self.

(** ** The trait *)
Class ChannelT `{BuildProfile, ByteOrder} (C : Type) := {
  ch_id : C -> Z;
  ch_update : f64 -> C -> C;
  any_ready_to_send : C -> bool;
  enqueue_message : MessageId -> list Z -> Fragmented -> M (BufPool * C) unit;
  message_ack_received : MessageHandle -> M C (list PooledBuffer);
  get_message_to_write_to_a_packet : Z -> M C (option Message);
  accepts_message : Message -> M C bool;
}.

(** The filter both implementations put in [accepts_message], on their
    [seen_buf]. *)
Definition seen_accepts (id : MessageId) : M (SequenceBuffer bool) bool :=
  self ← st_get;
  if negb (SeqBuf.check_sequence self id) then mret false
  else
    e ← st_asks (fun self => SeqBuf.exists_ self id);
    if e : bool then mret false
    else
      r ← st_try (SeqBuf.insert id true);
      mret (match r with Ok _ => true | Err _ => false end).

(** ** [UnreliableChannel] *)
Record UnreliableChannel := MkUnreliable {
  u_time : f64;
  u_id : Z;
  u_q : list Message;
  u_seen_buf : SequenceBuffer bool;
}.

Definition UnreliableChannel_new (id : Z) (time : f64) : UnreliableChannel :=
  {| u_id := id; u_time := time; u_q := []; u_seen_buf := SeqBuf.with_capacity 10000 |}.

Definition set_u_q (q : list Message) (c : UnreliableChannel) : UnreliableChannel :=
  {| u_time := u_time c; u_id := u_id c; u_q := q; u_seen_buf := u_seen_buf c |}.
Definition set_u_seen_buf (sb : SequenceBuffer bool) (c : UnreliableChannel) : UnreliableChannel :=
  {| u_time := u_time c; u_id := u_id c; u_q := u_q c; u_seen_buf := sb |}.

(** The first message of the queue that fits, and the queue without it. *)
Fixpoint take_fitting `{BuildProfile} (max_size : Z) (q : list Message) : option (option (Message * list Message)) :=
  match q with
  | [] => Some None
  | m :: q' =>
      size ← Message_size m;
      if max_size <? size then
        r ← take_fitting max_size q';
        Some (match r with Some (x, q'') => Some (x, m :: q'') | None => None end)
      else Some (Some (m, q'))
  end.

(** ** [ResendableMessage] *)
Record ResendableMessage := MkResendable {
  rs_message : Message;
  last_sent : option f64;
}.

Definition ResendableMessage_new (message : Message) : ResendableMessage := MkResendable message None.

Definition ResendableMessage_is_ready (self : ResendableMessage) (now cutoff : f64) : bool :=
  match last_sent self with
  | None => true
  | Some t => f_ge (f64_sub now t) cutoff
  end.

Definition ResendableMessage_dismissed_by_ack (self : ResendableMessage) (acked_handle : MessageHandle)
  : option bool :=
  if negb (m_id (rs_message self) =? mh_id acked_handle) then Some false
  else
    match m_fragment (rs_message self) with
    | Some fragment => Some (bool_decide (Some (parent_id fragment) = MessageHandle_parent_id acked_handle))
    | None => match frag_index acked_handle with None => Some true | Some _ => None end
    end.

(** ** [ReliableChannel] *)
Record ReliableChannel := MkReliable {
  r_time : f64;
  r_id : Z;
  r_q : list ResendableMessage;
  resend_time : f64;
  r_seen_buf : SequenceBuffer bool;
}.

Definition ReliableChannel_new (id : Z) (time : f64) : ReliableChannel :=
  {| r_id := id; r_time := time; r_q := []; resend_time := f64_lit 1 10;
     r_seen_buf := SeqBuf.with_capacity 10000 |}.

Definition set_r_q (q : list ResendableMessage) (c : ReliableChannel) : ReliableChannel :=
  {| r_time := r_time c; r_id := r_id c; r_q := q; resend_time := resend_time c; r_seen_buf := r_seen_buf c |}.
Definition set_r_seen_buf (sb : SequenceBuffer bool) (c : ReliableChannel) : ReliableChannel :=
  {| r_time := r_time c; r_id := r_id c; r_q := r_q c; resend_time := resend_time c; r_seen_buf := sb |}.

(** [retain_mut]: the queue without the dismissed messages, and their buffers. *)
Fixpoint retain_unacked (handle : MessageHandle) (q : list ResendableMessage)
  : option (list ResendableMessage * list PooledBuffer) :=
  match q with
  | [] => Some ([], [])
  | re_msg :: q' =>
      dismissed ← ResendableMessage_dismissed_by_ack re_msg handle;
      '(kept, buffers) ← retain_unacked handle q';
      if dismissed : bool then Some (kept, (Message_take_buffer (rs_message re_msg)).1 :: buffers)
      else Some (re_msg :: kept, buffers)
  end.

(** The first message that fits and is due, and the queue with its
    [last_sent] set to [now]. *)
Fixpoint take_due `{BuildProfile} (max_size : Z) (now cutoff : f64) (q : list ResendableMessage)
  : option (option (Message * list ResendableMessage)) :=
  match q with
  | [] => Some None
  | re_msg :: q' =>
      size ← Message_size (rs_message re_msg);
      if negb (max_size <? size) && ResendableMessage_is_ready re_msg now cutoff then
        let message := rs_message re_msg in
        Some (Some ({| m_id := m_id message; size_mode := size_mode message;
                       m_channel := m_channel message; m_fragment := m_fragment message;
                       m_buffer := PooledBuffer_clone (m_buffer message) |},
                    MkResendable message (Some now) :: q'))
      else
        r ← take_due max_size now cutoff q';
        Some (match r with Some (x, q'') => Some (x, re_msg :: q'') | None => None end)
  end.

Section implementations.
Context `{BP : BuildProfile, BO : ByteOrder}.

#[export] Instance UnreliableChannelT : ChannelT UnreliableChannel := {|
  ch_id := u_id;
  ch_update dt c := {| u_time := f64_add (u_time c) dt; u_id := u_id c; u_q := u_q c; u_seen_buf := u_seen_buf c |};
  accepts_message msg := st_zoom u_seen_buf set_u_seen_buf (seen_accepts (m_id msg));
  enqueue_message id payload fragmented :=
    '(_, c) ← st_get;
    msg ← st_fst (Message_new_outbound id (u_id c) payload fragmented);
    st_snd (st_modify (fun c => set_u_q (u_q c ++ [msg]) c));
  any_ready_to_send c := match u_q c with [] => false | _ => true end;
  message_ack_received _ := mret [];
  get_message_to_write_to_a_packet max_size :=
    c ← st_get;
    r ← st_lift (take_fitting max_size (u_q c));
    match r with
    | Some (m, q') => st_put (set_u_q q' c);; mret (Some m)
    | None => mret None
    end;
|}.

#[export] Instance ReliableChannelT : ChannelT ReliableChannel := {|
  ch_id := r_id;
  ch_update dt c := {| r_time := f64_add (r_time c) dt; r_id := r_id c; r_q := r_q c;
                       resend_time := resend_time c; r_seen_buf := r_seen_buf c |};
  accepts_message msg := st_zoom r_seen_buf set_r_seen_buf (seen_accepts (m_id msg));
  enqueue_message id payload fragmented :=
    '(_, c) ← st_get;
    msg ← st_fst (Message_new_outbound id (r_id c) payload fragmented);
    st_snd (st_modify (fun c => set_r_q (r_q c ++ [ResendableMessage_new msg]) c));
  any_ready_to_send c :=
    existsb (fun m => ResendableMessage_is_ready m (r_time c) (resend_time c)) (r_q c);
  message_ack_received handle :=
    c ← st_get;
    '(q', buffers) ← st_lift (retain_unacked handle (r_q c));
    st_put (set_r_q q' c);;
    mret buffers;
  get_message_to_write_to_a_packet max_size :=
    c ← st_get;
    r ← st_lift (take_due max_size (r_time c) (resend_time c) (r_q c));
    match r with
    | Some (m, q') => st_put (set_r_q q' c);; mret (Some m)
    | None => mret None
    end;
|}.
End implementations.

(** ** The enum *)
Inductive Channel :=
| Unreliable (c : UnreliableChannel)
| Reliable (c : ReliableChannel).

(** A call on the variant's content. *)
Definition on_channel {S A} (s : S) (c : Channel) (mu : M (S * UnreliableChannel) A) (mr : M (S * ReliableChannel) A)
  : option ((S * Channel) * result A PicklebackError) :=
  match c with
  | Unreliable u => '((s', u'), r) ← mu (s, u); Some ((s', Unreliable u'), r)
  | Reliable u => '((s', u'), r) ← mr (s, u); Some ((s', Reliable u'), r)
  end.

Definition dispatch {A} (mu : M UnreliableChannel A) (mr : M ReliableChannel A) : M Channel A := fun c =>
  '((_, c'), r) ← on_channel tt c (st_snd mu) (st_snd mr); Some (c', r).

Section enum.
Context `{BP : BuildProfile, BO : ByteOrder}.

#[export] Instance Channel_ChannelT : ChannelT Channel := {|
  ch_id c := match c with Unreliable u => ch_id u | Reliable r => ch_id r end;
  ch_update dt c := match c with Unreliable u => Unreliable (ch_update dt u) | Reliable r => Reliable (ch_update dt r) end;
  any_ready_to_send c := match c with Unreliable u => any_ready_to_send u | Reliable r => any_ready_to_send r end;
  enqueue_message id payload fragmented := fun '(pool, c) =>
    on_channel pool c (enqueue_message id payload fragmented) (enqueue_message id payload fragmented);
  message_ack_received handle := dispatch (message_ack_received handle) (message_ack_received handle);
  get_message_to_write_to_a_packet max_size :=
    dispatch (get_message_to_write_to_a_packet max_size) (get_message_to_write_to_a_packet max_size);
  accepts_message msg := dispatch (accepts_message msg) (accepts_message msg);
|}.
End enum.

(** ** [ChannelList]

    The crate [smallmap] is not part of the program: the order in which it
    visits its entries is a parameter, given by the set of keys. *)
Class SmallMap := { key_order : gset Z -> list Z }.
Class SmallMapLaws (SM : SmallMap) : Prop := { key_order_perm s : key_order s ≡ₚ elements s }.

(** An order to evaluate with. *)
Definition elements_order : SmallMap := {| key_order := elements |}.
Lemma elements_order_laws : SmallMapLaws elements_order.
Proof. by split. Qed.

Record ChannelList := MkChannelList { channels : gmap Z Channel }.

Definition ChannelList_default : ChannelList := MkChannelList ∅.

Definition ChannelList_get (self : ChannelList) (id : Z) : option Channel := channels self !! id.

(** The write through the reference [get_mut] and the iterators yield. *)
Definition ChannelList_set (id : Z) (c : Channel) (self : ChannelList) : ChannelList :=
  MkChannelList (<[id := c]> (channels self)).

Section list.
Context `{BP : BuildProfile, BO : ByteOrder, SM : SmallMap}.

Definition ChannelList_insert (channel : Channel) : M ChannelList unit :=
  st_assert (ch_id channel <? MAX_CHANNELS);;
  st_modify (ChannelList_set (ch_id channel) channel).

(** The keys in the order of iteration. *)
Definition ChannelList_keys (self : ChannelList) : list Z := key_order (dom (channels self)).

Definition ChannelList_any_with_messages_to_send (self : ChannelList) : bool :=
  existsb (fun id => match channels self !! id with Some ch => any_ready_to_send ch | None => false end)
    (ChannelList_keys self).

(** [all_non_empty_mut().next()]: the key of the first channel with
    something to send. *)
Definition ChannelList_first_non_empty (self : ChannelList) : option Z :=
  List.find (fun id => match channels self !! id with Some ch => any_ready_to_send ch | None => false end)
    (ChannelList_keys self).

(** [for channel in all_mut() { channel.update(dt) }]. *)
Definition ChannelList_update (dt : f64) (self : ChannelList) : ChannelList :=
  MkChannelList (ch_update dt <$> channels self).
End list.

(** ** What a channel promises to its clients *)

(** Enough for its sizes and headers to be computed without overflow. *)
Definition sane_message (m : Message) : Prop :=
  match m_fragment m with Some f => 0 < num_fragments f < 65536 | None => True end.

(** The same message, in another buffer. *)
Definition same_message (m m' : Message) : Prop :=
  m_id m = m_id m' /\ m_channel m = m_channel m' /\ m_fragment m = m_fragment m' /\
  size_mode m = size_mode m' /\ Message_as_slice m = Message_as_slice m'.

(** The handle is fragmented when the message it names is. *)
Definition handle_fits (handle : MessageHandle) (m : Message) : Prop :=
  m_id m = mh_id handle -> m_fragment m = None -> frag_index handle = None.

(** What is sent when [enqueue_message] is called. *)
Definition enqueueable (id : MessageId) (payload : list Z) (fragmented : Fragmented) : Prop :=
  u16 id /\ Z.of_nat (length payload) <= 1024 /\
  wf_fragment_opt (fragment_of fragmented) (Z.of_nat (length payload)).

(** A message id is accepted when it is in the window and not seen yet. *)
Definition acceptable (sb : SequenceBuffer bool) (id : MessageId) : bool :=
  SeqBuf.check_sequence sb id && negb (bool_decide (is_Some (SeqBufFacts.find sb id))).

Definition remember (sb : SequenceBuffer bool) (id : MessageId) : SequenceBuffer bool :=
  SeqBufFacts.fill_slot id true (SeqBufFacts.advance id sb).

Class ChannelLaws `{BP : BuildProfile, BO : ByteOrder} (C : Type) (CT : ChannelT C) := {
  ch_wf : C -> Prop;
  ch_messages : C -> list Message;
  ch_ready : C -> nat;
  ch_seen : C -> SequenceBuffer bool;

  ch_seen_wf c : ch_wf c -> SeqBufFacts.wf (ch_seen c);
  ch_ready_spec c : any_ready_to_send c = true <-> (0 < ch_ready c)%nat;
  ch_ready_le c : (ch_ready c <= length (ch_messages c))%nat;
  ch_update_law dt c : ch_wf c -> ch_wf (ch_update dt c) /\ ch_messages (ch_update dt c) = ch_messages c /\
    ch_id (ch_update dt c) = ch_id c /\ ch_seen (ch_update dt c) = ch_seen c;
  ch_enqueue_law id payload fragmented bp c : has_pool bp -> ch_wf c -> 0 <= ch_id c < 64 ->
    enqueueable id payload fragmented ->
    exists bp' c' m, enqueue_message id payload fragmented (bp, c) = Some ((bp', c'), Ok tt) /\
      has_pool bp' /\ ch_wf c' /\ ch_id c' = ch_id c /\ ch_seen c' = ch_seen c /\
      ch_messages c' = ch_messages c ++ [m] /\ m_id m = id /\ m_channel m = ch_id c /\
      size_mode m = MessageSizeMode_from (Z.of_nat (length payload)) /\
      m_fragment m = fragment_of fragmented /\
      Message_as_slice m =
        header_bytes id (fragment_of fragmented) (MessageSizeMode_from (Z.of_nat (length payload)))
          (ch_id c) (Z.of_nat (length payload)) ++ payload;
  ch_get_law max_size c : ch_wf c ->
    exists c' r, get_message_to_write_to_a_packet max_size c = Some (c', Ok r) /\
      ch_wf c' /\ ch_id c' = ch_id c /\ ch_seen c' = ch_seen c /\
      (forall m, m ∈ ch_messages c' -> m ∈ ch_messages c) /\
      match r with
      | Some m => exists m0 n, m0 ∈ ch_messages c /\ same_message m m0 /\
          Message_size m0 = Some n /\ n <= max_size /\ ch_ready c = S (ch_ready c')
      | None => c' = c
      end;
  ch_ack_law handle c : Forall (handle_fits handle) (ch_messages c) -> ch_wf c ->
    exists c' bufs, message_ack_received handle c = Some (c', Ok bufs) /\
      ch_wf c' /\ ch_id c' = ch_id c /\ ch_seen c' = ch_seen c /\
      (forall m, m ∈ ch_messages c' -> m ∈ ch_messages c);
  ch_accept_law msg c : ch_wf c -> u16 (m_id msg) ->
    exists c', accepts_message msg c = Some (c', Ok (acceptable (ch_seen c) (m_id msg))) /\
      ch_wf c' /\ ch_id c' = ch_id c /\ ch_messages c' = ch_messages c /\ ch_ready c' = ch_ready c /\
      ch_seen c' = if acceptable (ch_seen c) (m_id msg) then remember (ch_seen c) (m_id msg) else ch_seen c;

  (** What could be sent now, and whether messages stay until acked. *)
  ch_due : C -> list Message;
  ch_keeps : C -> bool;
  ch_ready_due c : ch_ready c = length (ch_due c);
  ch_due_all c : ch_ready c = length (ch_messages c) -> ch_due c = ch_messages c;
  ch_update_keeps dt c : ch_keeps (ch_update dt c) = ch_keeps c;
  ch_enqueue_keeps id payload fragmented bp c bp' c' r : enqueue_message id payload fragmented (bp, c) = Some ((bp', c'), r) ->
    ch_keeps c' = ch_keeps c;
  ch_accept_keeps msg c c' r : accepts_message msg c = Some (c', r) -> ch_keeps c' = ch_keeps c;
  ch_get_keeps max_size c c' r : get_message_to_write_to_a_packet max_size c = Some (c', Ok r) ->
    ch_keeps c' = ch_keeps c /\ (ch_keeps c = true -> ch_messages c' = ch_messages c) /\
    match r with Some m => forall x, x ∈ ch_due c -> x ∈ ch_due c' \/ m_id x = m_id m | None => True end;
  ch_ack_keeps handle c c' bufs : message_ack_received handle c = Some (c', Ok bufs) ->
    ch_keeps c' = ch_keeps c /\ forall m, m ∈ ch_messages c -> m ∈ ch_messages c' \/ m_id m = mh_id handle;
}.

(** *** The filter *)

Lemma check_sequence_not_old {T} `{!Default T} (sb : SequenceBuffer T) k : SeqBufFacts.wf sb -> u16 k ->
  SeqBuf.check_sequence sb k = true -> SeqBufFacts.too_old sb k = false.
Proof.
  intros Hwf Hk Hc. unfold SeqBuf.check_sequence, SeqBufFacts.too_old, sequence_less_than in *.
  rewrite sequence_greater_than_total, Hc; [done|apply wrap16_range|done|].
  intros Heq. rewrite Heq, sequence_greater_than_irrefl in Hc. done.
Qed.

(** The run of the filter: a number is accepted when it is in the window and
    not there yet, and is there from then on. *)
Lemma seen_accepts_run sb id : SeqBufFacts.wf sb -> u16 id ->
  seen_accepts id sb =
    Some (if acceptable sb id then remember sb id else sb, Ok (acceptable sb id)).
Proof.
  intros Hwf Hid. unfold seen_accepts, acceptable. rewrite run_get.
  destruct (SeqBuf.check_sequence sb id) eqn:Hc; [|done]. cbn [negb andb].
  unfold mbind at 1, ST_bind at 1, st_asks. rewrite SeqBufFacts.exists_find by done.
  case_bool_decide; [done|]. cbn [negb]. unfold mbind, ST_bind, st_try.
  rewrite SeqBufFacts.insert_run, check_sequence_not_old by done. done.
Qed.

Lemma seen_accepts_wf sb id : SeqBufFacts.wf sb -> u16 id ->
  SeqBufFacts.wf (remember sb id).
Proof. intros. apply SeqBufFacts.fill_slot_wf; [by apply SeqBufFacts.advance_wf|done]. Qed.

(** *** The queues *)
Section queues.
Context `{BP : BuildProfile}.

Lemma sane_size m : sane_message m -> exists n, Message_size m = Some n.
Proof. intros Hm. destruct (outbound_size m) as (n & ? & _); [exact Hm|by exists n]. Qed.

Lemma take_fitting_run max_size q : Forall sane_message q ->
  exists r, take_fitting max_size q = Some r /\
    match r with
    | Some (m, q') => exists n l1 l2, q = l1 ++ m :: l2 /\ q' = l1 ++ l2 /\ Message_size m = Some n /\ n <= max_size
    | None => Forall (fun m => exists n, Message_size m = Some n /\ max_size < n) q
    end.
Proof.
  induction q as [|m q IH]; intros Hq; simpl; [by exists None|].
  apply Forall_cons in Hq as [Hm Hq]. destruct (sane_size m Hm) as [n Hn]. rewrite Hn. simpl.
  destruct (Z.ltb_spec max_size n) as [Hlt|Hle].
  - destruct (IH Hq) as (r & Hr & Hspec). rewrite Hr. simpl. eexists. split; [done|].
    destruct r as [[x q'']|].
    + destruct Hspec as (n' & l1 & l2 & -> & -> & ? & ?). by exists n', (m :: l1), l2.
    + constructor; eauto.
  - eexists. split; [done|]. by exists n, [], q.
Qed.

(** How many messages are due. *)
Definition due_count (now cutoff : f64) (q : list ResendableMessage) : nat :=
  length (List.filter (fun m => ResendableMessage_is_ready m now cutoff) q).

Lemma due_count_exists now cutoff q :
  existsb (fun m => ResendableMessage_is_ready m now cutoff) q = true <-> (0 < due_count now cutoff q)%nat.
Proof.
  unfold due_count. induction q as [|m q IH]; simpl; [split; [done|lia]|].
  destruct (ResendableMessage_is_ready m now cutoff); simpl; [split; [lia|done]|done].
Qed.

Lemma due_count_le now cutoff q : (due_count now cutoff q <= length q)%nat.
Proof. apply filter_length_le. Qed.

(** A message just sent is not due: the resend time is positive. *)
Lemma just_sent_not_due message now m e :
  ResendableMessage_is_ready (MkResendable message (Some now)) now (S754_finite false m e) = false.
Proof. apply f64_sub_diag_not_ge. Qed.

Lemma take_due_run max_size now cm ce q : Forall (fun m => sane_message (rs_message m)) q ->
  let cutoff := S754_finite false cm ce in
  exists r, take_due max_size now cutoff q = Some r /\
    match r with
    | Some (m, q') => exists m0 n, m0 ∈ rs_message <$> q /\ same_message m m0 /\ Message_size m0 = Some n /\
        n <= max_size /\ rs_message <$> q' = rs_message <$> q /\
        due_count now cutoff q = S (due_count now cutoff q')
    | None => Forall (fun m => ResendableMessage_is_ready m now cutoff = true ->
                        exists n, Message_size (rs_message m) = Some n /\ max_size < n) q
    end.
Proof.
  intros Hq cutoff. induction q as [|m q IH]; simpl; [by exists None|].
  apply Forall_cons in Hq as [Hm Hq]. destruct (sane_size _ Hm) as [n Hn]. rewrite Hn. simpl.
  destruct (Z.ltb_spec max_size n) as [Hlt|Hle]; [|destruct (ResendableMessage_is_ready m now cutoff) eqn:Hready]; simpl.
  2: { eexists. split; [done|]. exists (rs_message m), n. split_and!; try done; [by left|].
       unfold due_count, cutoff. simpl. fold cutoff. rewrite Hready.
       unfold cutoff. rewrite just_sent_not_due. done. }
  all: destruct (IH Hq) as (r & Hr & Hspec); rewrite Hr; simpl; eexists; (split; [done|]);
    destruct r as [[x q'']|]; [|by constructor; [intros Hf; first [by eauto | congruence]|]].
  all: destruct Hspec as (m0 & n' & Hin & Hs & Hsz & Hle' & Hq' & Hd); exists m0, n';
    split_and!; try done; [by right|simpl; by f_equal|];
    unfold due_count in *; simpl; destruct (ResendableMessage_is_ready m now cutoff); simpl; by rewrite Hd.
Qed.

(** Taking a message leaves the others. *)
Lemma take_fitting_due max_size q m q' : take_fitting max_size q = Some (Some (m, q')) ->
  forall x, x ∈ q -> x ∈ q' \/ m_id x = m_id m.
Proof.
  revert m q'. induction q as [|y q IH]; intros m q'; [done|]. cbn [take_fitting].
  destruct (Message_size y) as [n|]; [|done]. cbn [mbind option_bind]. destruct (max_size <? n).
  - destruct (take_fitting max_size q) as [[[y' q'']|]|]; [|done..]. cbn. intros [= <- <-] x.
    rewrite !elem_of_cons. intros [->|Hx]; [by left; left|]. destruct (IH _ _ eq_refl x Hx); tauto.
  - intros [= <- <-] x. rewrite elem_of_cons. intros [->|Hx]; [by right|by left].
Qed.

Lemma retain_unacked_run handle q : Forall (fun m => handle_fits handle (rs_message m)) q ->
  exists kept bufs, retain_unacked handle q = Some (kept, bufs) /\
    kept = List.filter (fun m => bool_decide (ResendableMessage_dismissed_by_ack m handle = Some false)) q.
Proof.
  induction q as [|m q IH]; intros Hq; simpl; [by do 2 eexists|].
  apply Forall_cons in Hq as [Hm Hq]. destruct (IH Hq) as (kept & bufs & Hr & Hk).
  assert (exists b, ResendableMessage_dismissed_by_ack m handle = Some b) as [b Hb].
  { unfold ResendableMessage_dismissed_by_ack.
    destruct (Z.eqb_spec (m_id (rs_message m)) (mh_id handle)) as [He|]; simpl; [|by eexists].
    destruct (m_fragment (rs_message m)) eqn:Hf; [by eexists|]. rewrite (Hm He Hf). by eexists. }
  rewrite Hb, Hr. simpl. destruct b; simpl; do 2 eexists; (split; [done|]); [done|by rewrite Hk].
Qed.

(** Only what the handle names is dropped. *)
Lemma retain_unacked_keeps handle q kept bufs : retain_unacked handle q = Some (kept, bufs) ->
  forall m, m ∈ rs_message <$> q -> m ∈ rs_message <$> kept \/ m_id m = mh_id handle.
Proof.
  revert kept bufs. induction q as [|x q IH]; intros kept bufs; cbn [retain_unacked]; [intros [= <- <-]; by left|].
  destruct (ResendableMessage_dismissed_by_ack x handle) as [b|] eqn:Hb; [|done]. cbn.
  destruct (retain_unacked handle q) as [[k bs]|]; [|done]. specialize (IH k bs eq_refl). cbn.
  destruct b; intros [= <- <-] m; rewrite ?fmap_cons, !elem_of_cons; intros [->|Hm]; try (destruct (IH m Hm); tauto); [|tauto].
  right. unfold ResendableMessage_dismissed_by_ack in Hb.
  by destruct (Z.eqb_spec (m_id (rs_message x)) (mh_id handle)) as [He|]; [|done].
Qed.

Lemma filter_full {A} (f : A -> bool) l : length (List.filter f l) = length l -> List.filter f l = l.
Proof.
  induction l as [|x l IH]; [done|]. cbn. pose proof (List.filter_length_le f l). destruct (f x); cbn; intros Hl; [|lia].
  f_equal. apply IH. lia.
Qed.

Definition due_messages (now cutoff : f64) (q : list ResendableMessage) : list Message :=
  rs_message <$> List.filter (fun m => ResendableMessage_is_ready m now cutoff) q.

Lemma take_due_messages max_size now cutoff q m q' :
  take_due max_size now cutoff q = Some (Some (m, q')) -> rs_message <$> q' = rs_message <$> q.
Proof.
  revert q'. induction q as [|x q IH]; intros q'; simpl; [done|].
  destruct (Message_size (rs_message x)) as [n|]; [|done]. simpl.
  destruct (negb _ && _); [by intros [= <- <-]|].
  destruct (take_due max_size now cutoff q) as [[[y q'']|]|]; [|done..]. simpl. intros [= <- <-].
  simpl. f_equal. by apply IH.
Qed.

(** What was due is due or the message taken. *)
Lemma take_due_due max_size now cutoff q m q' : take_due max_size now cutoff q = Some (Some (m, q')) ->
  forall x, x ∈ due_messages now cutoff q -> x ∈ due_messages now cutoff q' \/ m_id x = m_id m.
Proof.
  unfold due_messages. revert m q'. induction q as [|y q IH]; intros m q'; [done|]. cbn [take_due].
  destruct (Message_size (rs_message y)) as [n|]; [|done]. cbn [mbind option_bind].
  destruct (negb (max_size <? n) && ResendableMessage_is_ready y now cutoff) eqn:Hy.
  - intros [= <- <-] x. cbn [List.filter]. apply andb_true_iff in Hy as [_ Hy]. rewrite Hy, fmap_cons, elem_of_cons.
    intros [->|Hx]; [by right|left]. destruct (ResendableMessage_is_ready (MkResendable _ _) now cutoff); [by right|done].
  - destruct (take_due max_size now cutoff q) as [[[y' q'']|]|]; [|done..]. cbn. intros [= <- <-] x.
    cbn [List.filter]. destruct (ResendableMessage_is_ready y now cutoff); [|by apply IH].
    rewrite !fmap_cons, !elem_of_cons. intros [->|Hx]; [by left; left|]. destruct (IH _ _ eq_refl x Hx); tauto.
Qed.
End queues.

(** *** The implementations keep the promises *)
Section laws.
Context `{BP : BuildProfile, BO : ByteOrder}.

Lemma enqueueable_sane id payload fragmented m : enqueueable id payload fragmented ->
  m_fragment m = fragment_of fragmented -> sane_message m.
Proof.
  intros (_ & _ & Hf) Hm. unfold sane_message. rewrite Hm.
  destruct fragmented as [|f]; simpl in *; [done|]. destruct Hf. lia.
Qed.

Lemma seen_accepts_zoom {C} (get : C -> SequenceBuffer bool) (set : SequenceBuffer bool -> C -> C) c id :
  SeqBufFacts.wf (get c) -> u16 id ->
  st_zoom get set (seen_accepts id) c =
    Some (set (if acceptable (get c) id then remember (get c) id else get c) c, Ok (acceptable (get c) id)) /\
  SeqBufFacts.wf (if acceptable (get c) id then remember (get c) id else get c).
Proof.
  intros Hwf Hid. unfold st_zoom. rewrite seen_accepts_run by done. split; [done|].
  destruct (acceptable _ _); [by apply seen_accepts_wf|done].
Qed.

#[export] Program Instance UnreliableChannel_laws : ChannelLaws UnreliableChannel UnreliableChannelT := {|
  ch_wf c := Forall sane_message (u_q c) /\ SeqBufFacts.wf (u_seen_buf c);
  ch_messages := u_q;
  ch_ready c := length (u_q c);
  ch_seen := u_seen_buf;
  ch_due := u_q;
  ch_keeps _ := false;
|}.
Next Obligation. by intros c []. Qed.
Next Obligation. intros c. simpl. destruct (u_q c); simpl; split; (done || lia). Qed.
Next Obligation. done. Qed.
Next Obligation. done. Qed.
Next Obligation.
  intros id payload fragmented bp c Hbp [Hq Hsb] Hid Hen. pose proof Hen as (Hu & Hlen & Hf).
  destruct (new_outbound_run id (u_id c) payload fragmented bp Hbp Hid Hlen Hf) as (bp' & buf & Hrun & Hbp' & Hbuf).
  simpl. do 3 eexists. split.
  { rewrite run_get. erewrite run_bind_ok by (unfold st_fst, st_zoom; simpl; rewrite Hrun; done). done. }
  split_and!; try done.
  simpl. apply Forall_app. split; [done|]. apply Forall_singleton. by eapply enqueueable_sane.
Qed.
Next Obligation.
  intros max_size c [Hq Hsb]. simpl. destruct (take_fitting_run max_size (u_q c) Hq) as (r & Hr & Hspec).
  rewrite run_get, Hr. run_done. destruct r as [[m q']|].
  - destruct Hspec as (n & l1 & l2 & Hl & -> & Hn & Hle). eexists _, (Some m). split; [done|]. simpl.
    rewrite Hl in Hq |- *. apply Forall_app in Hq as [Hq1 [Hq2 Hq3]%Forall_cons].
    split; [split; [by apply Forall_app|done]|]. split; [done|]. split; [done|].
    split; [intros x; rewrite !elem_of_app, elem_of_cons; tauto|].
    exists m, n. rewrite !length_app. simpl. split; [rewrite elem_of_app, elem_of_cons; tauto|].
    split_and!; (done || lia).
  - exists c, None. done.
Qed.
Next Obligation. intros handle c _ [Hq Hsb]. simpl. by exists c, []. Qed.
Next Obligation.
  intros msg c [Hq Hsb] Hid. simpl.
  destruct (seen_accepts_zoom u_seen_buf set_u_seen_buf c (m_id msg) Hsb Hid) as (Hrun & Hwf).
  rewrite Hrun. eexists. by split_and!.
Qed.
Next Obligation. done. Qed.
Next Obligation. done. Qed.
Next Obligation. done. Qed.
Next Obligation. done. Qed.
Next Obligation. done. Qed.
Next Obligation.
  intros max_size c c' r. simpl. rewrite run_get. unfold mbind, ST_bind, st_lift, st_asks.
  destruct (take_fitting max_size (u_q c)) as [[[m q']|]|] eqn:Ht; [|intros [= <- <-]; done|done].
  intros [= <- <-]. do 2 (split; [done|]). exact (take_fitting_due max_size (u_q c) m q' Ht).
Qed.
Next Obligation. intros handle c c' bufs. simpl. intros [= <- <-]. split; [done|]. by left. Qed.

#[export] Program Instance ReliableChannel_laws : ChannelLaws ReliableChannel ReliableChannelT := {|
  ch_wf c := Forall (fun m => sane_message (rs_message m)) (r_q c) /\ SeqBufFacts.wf (r_seen_buf c) /\
    exists m e, resend_time c = S754_finite false m e;
  ch_messages c := rs_message <$> r_q c;
  ch_ready c := due_count (r_time c) (resend_time c) (r_q c);
  ch_seen := r_seen_buf;
  ch_due c := due_messages (r_time c) (resend_time c) (r_q c);
  ch_keeps _ := true;
|}.
Next Obligation. by intros c (_ & ? & _). Qed.
Next Obligation. intros c. apply due_count_exists. Qed.
Next Obligation. intros c. cbn beta. rewrite length_fmap. apply due_count_le. Qed.
Next Obligation. done. Qed.
Next Obligation.
  intros id payload fragmented bp c Hbp (Hq & Hsb & Hcut) Hid Hen. pose proof Hen as (Hu & Hlen & Hf).
  destruct (new_outbound_run id (r_id c) payload fragmented bp Hbp Hid Hlen Hf) as (bp' & buf & Hrun & Hbp' & Hbuf).
  eexists _, _, (MkMessage id _ (r_id c) buf (fragment_of fragmented)). split.
  { simpl. rewrite run_get. erewrite run_bind_ok by (unfold st_fst, st_zoom; simpl; rewrite Hrun; done). done. }
  split_and!; try done; [|by simpl; rewrite fmap_app].
  simpl. apply Forall_app. split; [done|]. apply Forall_singleton. by eapply enqueueable_sane.
Qed.
Next Obligation.
  intros max_size c (Hq & Hsb & cm & ce & Hcut). simpl.
  destruct (take_due_run max_size (r_time c) cm ce (r_q c) Hq) as (r & Hr & Hspec).
  rewrite run_get, Hcut, Hr. run_done. destruct r as [[m q']|].
  - destruct Hspec as (m0 & n & Hin & Hs & Hn & Hle & Hq' & Hd). eexists _, (Some m). split; [done|]. simpl.
    rewrite Hcut, Hq'. split_and!; try done.
    + apply Forall_fmap in Hq. rewrite <- Hq' in Hq. apply (Forall_fmap rs_message) in Hq. exact Hq.
    + by eauto.
    + exists m0, n. done.
  - exists c, None. split_and!; eauto.
Qed.
Next Obligation.
  intros handle c Hh (Hq & Hsb & Hcut). simpl. apply (Forall_fmap rs_message) in Hh.
  destruct (retain_unacked_run handle (r_q c) Hh) as (kept & bufs & Hr & Hk).
  rewrite run_get, Hr. run_done. eexists _, bufs. split; [done|]. simpl.
  assert (Hsub : forall m, m ∈ kept -> m ∈ r_q c).
  { intros m. rewrite Hk, !list_elem_of_In, List.filter_In. tauto. }
  split_and!; try done.
  - apply Forall_forall. intros m Hm%Hsub. revert m Hm. by apply Forall_forall.
  - intros m. rewrite !list_elem_of_fmap. intros (x & -> & Hx). eauto.
Qed.
Next Obligation.
  intros msg c (Hq & Hsb & Hcut) Hid. simpl.
  destruct (seen_accepts_zoom r_seen_buf set_r_seen_buf c (m_id msg) Hsb Hid) as (Hrun & Hwf).
  rewrite Hrun. eexists. by split_and!.
Qed.
Next Obligation. intros c. unfold due_count, due_messages. by rewrite length_fmap. Qed.
Next Obligation. intros c. cbn beta. rewrite length_fmap. intros Hl. unfold due_messages. by rewrite filter_full. Qed.
Next Obligation. done. Qed.
Next Obligation. done. Qed.
Next Obligation. done. Qed.
Next Obligation.
  intros max_size c c' r. simpl. rewrite run_get. unfold mbind, ST_bind, st_lift, st_asks.
  destruct (take_due max_size (r_time c) (resend_time c) (r_q c)) as [[[m q']|]|] eqn:Ht; [|intros [= <- <-]; done|done].
  intros [= <- <-]. split; [done|]. split; [intros _; by eapply take_due_messages|]. by eapply take_due_due.
Qed.
Next Obligation.
  intros handle c c' bufs. simpl. rewrite run_get. unfold mbind, ST_bind, st_lift, st_asks.
  destruct (retain_unacked handle (r_q c)) as [[q' bs]|] eqn:Hr; [|done]. intros [= <- <-]. split; [done|].
  by eapply retain_unacked_keeps.
Qed.
End laws.

(** The enum passes the promises on. *)
Section enum_laws.
Context `{BP : BuildProfile, BO : ByteOrder}.

Lemma dispatch_unreliable {A} (mu : M UnreliableChannel A) (mr : M ReliableChannel A) u u' r :
  mu u = Some (u', r) -> dispatch mu mr (Unreliable u) = Some (Unreliable u', r).
Proof. intros H. unfold dispatch, on_channel, st_snd, st_zoom. simpl. by rewrite H. Qed.

Lemma dispatch_reliable {A} (mu : M UnreliableChannel A) (mr : M ReliableChannel A) u u' r :
  mr u = Some (u', r) -> dispatch mu mr (Reliable u) = Some (Reliable u', r).
Proof. intros H. unfold dispatch, on_channel, st_snd, st_zoom. simpl. by rewrite H. Qed.

Lemma dispatch_inv {A} (mu : M UnreliableChannel A) (mr : M ReliableChannel A) c c' r : dispatch mu mr c = Some (c', r) ->
  (exists u u', c = Unreliable u /\ c' = Unreliable u' /\ mu u = Some (u', r)) \/
  (exists u u', c = Reliable u /\ c' = Reliable u' /\ mr u = Some (u', r)).
Proof.
  unfold dispatch, on_channel, st_snd, st_zoom. destruct c as [u|u]; simpl.
  - destruct (mu u) as [[u' x]|] eqn:Hm; [|done]. intros [= <- <-]. left. by exists u, u'.
  - destruct (mr u) as [[u' x]|] eqn:Hm; [|done]. intros [= <- <-]. right. by exists u, u'.
Qed.

Lemma enum_enqueue_inv id payload fragmented bp (c : Channel) bp' c' r :
  enqueue_message id payload fragmented (bp, c) = Some ((bp', c'), r) ->
  (exists u u', c = Unreliable u /\ c' = Unreliable u') \/ (exists u u', c = Reliable u /\ c' = Reliable u').
Proof.
  change (enqueue_message id payload fragmented (bp, c)) with
    (on_channel bp c (enqueue_message id payload fragmented) (enqueue_message id payload fragmented)).
  unfold on_channel. destruct c as [u|u].
  - destruct (enqueue_message id payload fragmented (bp, u)) as [[[b u'] x]|]; [|done]. intros [= <- <- <-]. left. eauto.
  - destruct (enqueue_message id payload fragmented (bp, u)) as [[[b u'] x]|]; [|done]. intros [= <- <- <-]. right. eauto.
Qed.

Definition by_variant {A} (fu : UnreliableChannel -> A) (fr : ReliableChannel -> A) (c : Channel) : A :=
  match c with Unreliable u => fu u | Reliable r => fr r end.

#[export] Program Instance Channel_laws : ChannelLaws Channel Channel_ChannelT := {|
  ch_wf := by_variant ch_wf ch_wf;
  ch_messages := by_variant ch_messages ch_messages;
  ch_ready := by_variant ch_ready ch_ready;
  ch_seen := by_variant ch_seen ch_seen;
  ch_due := by_variant ch_due ch_due;
  ch_keeps := by_variant ch_keeps ch_keeps;
|}.
Next Obligation. intros [c|c]; apply (ch_seen_wf c). Qed.
Next Obligation. intros [c|c]; apply (ch_ready_spec c). Qed.
Next Obligation. intros [c|c]; apply (ch_ready_le c). Qed.
Next Obligation. intros dt [c|c] Hc; apply (ch_update_law dt c Hc). Qed.
Next Obligation.
  intros id payload fragmented bp [c|c] Hbp Hc Hid Hen;
    destruct (ch_enqueue_law id payload fragmented bp c Hbp Hc Hid Hen) as (bp' & c' & m & Hrun & H).
  - exists bp', (Unreliable c'), m. split; [|exact H].
    change (on_channel bp (Unreliable c) (enqueue_message id payload fragmented)
              (enqueue_message id payload fragmented) = Some ((bp', Unreliable c'), Ok tt)).
    unfold on_channel. by rewrite Hrun.
  - exists bp', (Reliable c'), m. split; [|exact H].
    change (on_channel bp (Reliable c) (enqueue_message id payload fragmented)
              (enqueue_message id payload fragmented) = Some ((bp', Reliable c'), Ok tt)).
    unfold on_channel. by rewrite Hrun.
Qed.
Next Obligation.
  intros max_size [c|c] Hc; destruct (ch_get_law max_size c Hc) as (c' & r & Hrun & H1 & H2 & H3 & H4 & H5).
  - exists (Unreliable c'), r. split; [by apply dispatch_unreliable|]. split_and!; try done.
    destruct r; [done|by rewrite H5].
  - exists (Reliable c'), r. split; [by apply dispatch_reliable|]. split_and!; try done.
    destruct r; [done|by rewrite H5].
Qed.
Next Obligation.
  intros handle [c|c] Hh Hc; destruct (ch_ack_law handle c Hh Hc) as (c' & bufs & Hrun & H).
  - exists (Unreliable c'), bufs. split; [by apply dispatch_unreliable|exact H].
  - exists (Reliable c'), bufs. split; [by apply dispatch_reliable|exact H].
Qed.
Next Obligation.
  intros msg [c|c] Hc Hid; destruct (ch_accept_law msg c Hc Hid) as (c' & Hrun & H).
  - exists (Unreliable c'). split; [by apply dispatch_unreliable|exact H].
  - exists (Reliable c'). split; [by apply dispatch_reliable|exact H].
Qed.
Next Obligation. intros [c|c]; apply (ch_ready_due c). Qed.
Next Obligation. intros [c|c]; apply (ch_due_all c). Qed.
Next Obligation. intros dt [c|c]; apply (ch_update_keeps dt c). Qed.
Next Obligation.
  intros id payload fragmented bp c bp' c' r Hrun. by destruct (enum_enqueue_inv _ _ _ _ _ _ _ _ Hrun) as [(u & u' & -> & ->)|(u & u' & -> & ->)].
Qed.
Next Obligation.
  intros msg c c' r Hrun. by destruct (dispatch_inv _ _ _ _ _ Hrun) as [(u & u' & -> & -> & _)|(u & u' & -> & -> & _)].
Qed.
Next Obligation.
  intros max_size c c' r Hrun. destruct (dispatch_inv _ _ _ _ _ Hrun) as [(u & u' & -> & -> & H)|(u & u' & -> & -> & H)];
    exact (ch_get_keeps max_size u u' r H).
Qed.
Next Obligation.
  intros handle c c' bufs Hrun. destruct (dispatch_inv _ _ _ _ _ Hrun) as [(u & u' & -> & -> & H)|(u & u' & -> & -> & H)];
    exact (ch_ack_keeps handle u u' bufs H).
Qed.
End enum_laws.

(** ** The reliable channel keeps what is not acked *)

Inductive channel_op :=
| OpEnqueue (id : MessageId) (payload : list Z) (fragmented : Fragmented)
| OpUpdate (dt : f64)
| OpGet (max_size : Z)
| OpAck (handle : MessageHandle)
| OpAccept (msg : Message).

Section reliable.
Context `{BP : BuildProfile, BO : ByteOrder}.

Definition run_op (op : channel_op) : M (BufPool * ReliableChannel) unit :=
  match op with
  | OpEnqueue id payload fragmented => enqueue_message id payload fragmented
  | OpUpdate dt => st_snd (st_modify (ch_update dt))
  | OpGet max_size => st_snd (get_message_to_write_to_a_packet max_size);; mret tt
  | OpAck handle => st_snd (message_ack_received handle);; mret tt
  | OpAccept msg => st_snd (accepts_message msg);; mret tt
  end.
End reliable.

(** The op is an ack that names the message: by its id and, for a fragment,
    by its parent's. *)
Definition dismisses (op : channel_op) (m : Message) : bool :=
  match op with
  | OpAck handle =>
      (m_id m =? mh_id handle) &&
      match m_fragment m with
      | Some f => bool_decide (Some (parent_id f) = MessageHandle_parent_id handle)
      | None => true
      end
  | _ => false
  end.

Definition op_ok (op : channel_op) (c : ReliableChannel) : Prop :=
  match op with
  | OpEnqueue id payload fragmented => enqueueable id payload fragmented
  | OpAck handle => Forall (handle_fits handle) (rs_message <$> r_q c)
  | OpAccept msg => u16 (m_id msg)
  | _ => True
  end.

Lemma dismissed_by_ack_spec m handle : handle_fits handle (rs_message m) ->
  ResendableMessage_dismissed_by_ack m handle = Some (dismisses (OpAck handle) (rs_message m)).
Proof.
  intros Hfit. unfold ResendableMessage_dismissed_by_ack. simpl.
  destruct (Z.eqb_spec (m_id (rs_message m)) (mh_id handle)) as [He|]; simpl; [|done].
  destruct (m_fragment (rs_message m)) eqn:Hf; [done|]. by rewrite (Hfit He Hf).
Qed.

Lemma retain_unacked_messages handle q kept bufs : Forall (fun m => handle_fits handle (rs_message m)) q ->
  retain_unacked handle q = Some (kept, bufs) ->
  rs_message <$> kept = List.filter (fun m => negb (dismisses (OpAck handle) m)) (rs_message <$> q).
Proof.
  revert kept bufs. induction q as [|m q IH]; intros kept bufs Hq; [by intros [= <- <-]|].
  apply Forall_cons in Hq as [Hm Hq]. cbn [retain_unacked]. rewrite dismissed_by_ack_spec by done.
  destruct (retain_unacked handle q) as [[k b]|]; [|done]. specialize (IH k b Hq eq_refl).
  simpl fmap. cbn [List.filter]. destruct (dismisses (OpAck handle) (rs_message m)); cbn -[dismisses];
    intros [= <- <-]; [done|]. simpl. f_equal. exact IH.
Qed.

(** C22. The reliable channel holds on to its messages: no operation panics,
    and afterwards the queue is what it was, in the same order, without the
    messages an ack dismissed (those with the ack's id, for fragments also
    with its parent id) and with an enqueued message at the end. *)
Theorem reliable_keeps_until_acked `{BP : BuildProfile, BO : ByteOrder} op bp c :
  has_pool bp -> ch_wf c -> 0 <= r_id c < 64 -> op_ok op c ->
  exists bp' c' new, run_op op (bp, c) = Some ((bp', c'), Ok tt) /\ has_pool bp' /\ ch_wf c' /\ r_id c' = r_id c /\
    rs_message <$> r_q c' = List.filter (fun m => negb (dismisses op m)) (rs_message <$> r_q c) ++ new /\
    match op with
    | OpEnqueue id _ fragmented => exists m, new = [m] /\ m_id m = id /\ m_fragment m = fragment_of fragmented
    | _ => new = []
    end.
Proof.
  intros Hbp Hwf Hid Hok.
  assert (Hnone : forall l : list Message, List.filter (fun _ => true) l ++ [] = l).
  { intros l. rewrite app_nil_r. induction l; simpl; congruence. }
  assert (Hlift : forall (A : Type) (m : M ReliableChannel A) c' a, m c = Some (c', Ok a) ->
    (st_snd m;; mret tt) (bp, c) = Some ((bp, c'), Ok tt)).
  { intros A m c' a H. unfold mbind, ST_bind, st_snd, st_zoom. simpl. by rewrite H. }
  destruct op as [id payload fragmented|dt|max_size|handle|msg]; cbn [run_op dismisses negb op_ok] in *.
  - destruct (ch_enqueue_law id payload fragmented bp c Hbp Hwf Hid Hok)
      as (bp' & c' & m & Hrun & Hbp' & Hwf' & Hi & _ & Hm & Hmid & _ & _ & Hmf & _).
    exists bp', c', [m]. split_and!; try done; [|by exists m].
    rewrite <- (app_nil_r (List.filter _ _)), Hnone. exact Hm.
  - destruct (ch_update_law dt c Hwf) as (Hwf' & Hm & Hi & _). exists bp, (ch_update dt c), [].
    split_and!; try done; by rewrite Hnone.
  - destruct (ch_get_law max_size c Hwf) as (c' & r & Hrun & Hwf' & Hi & _). exists bp, c', [].
    split_and!; try done; [by eapply Hlift|]. rewrite Hnone.
    revert Hrun. simpl. rewrite run_get. unfold mbind, ST_bind, st_lift, st_asks.
    destruct (take_due _ _ _ _) as [[[m q']|]|] eqn:Ht; [| |done]; intros [= <- <-]; [|done].
    by eapply take_due_messages.
  - assert (Hok' : Forall (handle_fits handle) (ch_messages c)) by exact Hok.
    destruct (ch_ack_law handle c Hok' Hwf) as (c' & bufs & Hrun & Hwf' & Hi & _). exists bp, c', [].
    split_and!; try done; [by eapply Hlift|]. rewrite app_nil_r.
    revert Hrun. simpl. rewrite run_get. unfold mbind, ST_bind, st_lift, st_asks.
    apply (Forall_fmap rs_message) in Hok.
    destruct (retain_unacked handle (r_q c)) as [[k b]|] eqn:Ht; [|done]. intros [= <- <-].
    by apply retain_unacked_messages in Ht.
  - destruct (ch_accept_law msg c Hwf Hok) as (c' & Hrun & Hwf' & Hi & Hm & _). exists bp, c', [].
    split_and!; try done; [by eapply Hlift|]. rewrite Hnone. exact Hm.
Qed.

Lemma default_resend_time : exists m e, f64_lit 1 10 = S754_finite false m e.
Proof. vm_compute. eauto. Qed.

Lemma ReliableChannel_new_wf `{BP : BuildProfile, BO : ByteOrder} id time :
  ch_wf (ReliableChannel_new id time).
Proof.
  split; [constructor|]. split; [apply SeqBufFacts.with_capacity_wf; lia|]. exact default_resend_time.
Qed.

Lemma UnreliableChannel_new_wf `{BP : BuildProfile, BO : ByteOrder} id time :
  ch_wf (UnreliableChannel_new id time).
Proof. split; [constructor|]. apply SeqBufFacts.with_capacity_wf. lia. Qed.

(** A channel with messages 3 and 4 queued; message 3 is acked. *)
Definition example_reliable : ReliableChannel :=
  set_r_q [MkResendable (MkMessage 3 Small 1 (MkVec [7] 1) None) None;
           MkResendable (MkMessage 4 Small 1 (MkVec [8] 1) None) (Some (f64_lit 1 1))]
    (ReliableChannel_new 1 (f64_lit 1 1)).

Lemma reliable_keeps_until_acked_witness :
  exists bp' c' new,
    @run_op debug_build big_endian (OpAck (MkHandle 3 None 1)) (example_pool, example_reliable) =
      Some ((bp', c'), Ok tt) /\
    has_pool bp' /\
    @ch_wf debug_build big_endian _ _ (@ReliableChannel_laws debug_build big_endian) c' /\
    r_id c' = 1 /\
    rs_message <$> r_q c' = [MkMessage 4 Small 1 (MkVec [8] 1) None] ++ new /\ new = [].
Proof.
  apply (reliable_keeps_until_acked (BP:=debug_build) (BO:=big_endian)
           (OpAck (MkHandle 3 None 1)) example_pool example_reliable example_pool_has_pool).
  - split; [by repeat constructor|]. split; [apply SeqBufFacts.with_capacity_wf; lia|exact default_resend_time].
  - simpl. lia.
  - repeat constructor; intros ?; done.
Defined.

(** What the channel interface guarantees about duplicates, for every
    implementation: a message id that was accepted is refused when it comes
    again, without any change to the channel's seen ids. *)
Theorem accepted_then_refused `{BP : BuildProfile, BO : ByteOrder} {C} (CT : ChannelT C) (CL : ChannelLaws C CT)
    (c c1 : C) msg msg' :
  ch_wf c -> u16 (m_id msg) -> m_id msg' = m_id msg -> accepts_message msg c = Some (c1, Ok true) ->
  exists c2, accepts_message msg' c1 = Some (c2, Ok false) /\ ch_seen c2 = ch_seen c1.
Proof.
  intros Hwf Hid Heq Hacc. destruct (ch_accept_law msg c Hwf Hid) as (c1' & Hrun & Hwf1 & _ & _ & _ & Hseen).
  rewrite Hrun in Hacc. injection Hacc as <- Hok. rewrite Hok in Hseen.
  destruct (ch_accept_law msg' c1' Hwf1) as (c2 & Hrun2 & _ & _ & _ & _ & Hseen2); [by rewrite Heq|].
  assert (Hno : acceptable (ch_seen c1') (m_id msg') = false).
  { unfold acceptable. rewrite Hseen, Heq. unfold remember.
    rewrite SeqBufFacts.find_insert by (done || by apply ch_seen_wf). rewrite decide_True by done.
    rewrite bool_decide_true by eauto. apply andb_false_r. }
  rewrite Hno in Hrun2, Hseen2. by exists c2.
Qed.

Definition example_message (id : Z) : Message := MkMessage id Small 0 (MkVec [1] 1) None.

Definition example_seen : UnreliableChannel :=
  set_u_seen_buf (remember (SeqBuf.with_capacity 10000) 7) (UnreliableChannel_new 0 (f64_lit 1 1)).

Lemma accepted_then_refused_witness :
  exists c2, @accepts_message debug_build big_endian _ (@UnreliableChannelT debug_build big_endian)
      (example_message 7) example_seen = Some (c2, Ok false) /\ u_seen_buf c2 = u_seen_buf example_seen.
Proof.
  apply (accepted_then_refused (BP:=debug_build) (BO:=big_endian) UnreliableChannelT
           UnreliableChannel_laws
           (UnreliableChannel_new 0 (f64_lit 1 1)) example_seen (example_message 7) (example_message 7));
    [apply UnreliableChannel_new_wf|simpl; lia|done|].
  cbn [accepts_message UnreliableChannelT m_id example_message].
  destruct (seen_accepts_zoom u_seen_buf set_u_seen_buf (UnreliableChannel_new 0 (f64_lit 1 1)) 7) as [Hrun _];
    [apply SeqBufFacts.with_capacity_wf; lia|lia|].
  rewrite Hrun. vm_compute. reflexivity.
Defined.

(** C36. The seen buffers have 10000 slots, which does not divide 65536: once
    the message ids wrap, message 0 takes the slot of message 60000, which is
    still inside the window, and a late copy of 60000 is accepted again. *)
Theorem duplicate_after_wrap sb :
  SeqBufFacts.wf sb -> SeqBuf.len sb = 10000 -> sequence sb = 65535 ->
  acceptable sb 60000 = false -> SeqBufFacts.find sb 60000 = Some true -> SeqBufFacts.find sb 0 = None ->
  exists sb1 sb2, seen_accepts 0 sb = Some (sb1, Ok true) /\ seen_accepts 60000 sb1 = Some (sb2, Ok true).
Proof.
  intros Hwf Hl Hs _ Hf H0.
  assert (Hu : u16 0) by lia. assert (Hu6 : u16 60000) by lia.
  assert (Hc0 : acceptable sb 0 = true).
  { unfold acceptable, SeqBuf.check_sequence. rewrite Hl, Hs, H0. done. }
  exists (remember sb 0), (remember (remember sb 0) 60000).
  rewrite !seen_accepts_run by (try apply seen_accepts_wf; done). rewrite Hc0. split; [done|].
  assert (Hc6 : acceptable (remember sb 0) 60000 = true); [|by rewrite Hc6].
  unfold acceptable, SeqBuf.check_sequence, remember.
  rewrite SeqBufFacts.insert_len, SeqBufFacts.insert_sequence, SeqBufFacts.find_insert by done.
  rewrite Hl, Hs. done.
Qed.

Definition example_before_wrap : SequenceBuffer bool :=
  SeqBuf.set_sequence 65535 (remember (SeqBuf.with_capacity 10000) 60000).

Lemma duplicate_after_wrap_witness :
  exists sb1 sb2, seen_accepts 0 example_before_wrap = Some (sb1, Ok true) /\
    seen_accepts 60000 sb1 = Some (sb2, Ok true).
Proof.
  assert (Hwf0 : SeqBufFacts.wf (SeqBuf.with_capacity (T:=bool) 10000)).
  { apply SeqBufFacts.with_capacity_wf. lia. }
  assert (Hl0 : SeqBuf.len (SeqBuf.with_capacity (T:=bool) 10000) = 10000) by (vm_compute; reflexivity).
  assert (Hf : forall k, u16 k -> SeqBufFacts.find example_before_wrap k =
                 if decide (k = 60000) then Some true else if decide (k mod 10000 = 0) then None
                 else SeqBufFacts.find (SeqBuf.with_capacity 10000) k).
  { intros k Hk. etransitivity;
      [change (SeqBufFacts.find example_before_wrap k)
         with (SeqBufFacts.find (remember (SeqBuf.with_capacity 10000) 60000) k); reflexivity|].
    unfold remember. rewrite SeqBufFacts.find_insert, Hl0 by (done || lia). done. }
  apply (duplicate_after_wrap example_before_wrap).
  - apply SeqBufFacts.set_sequence_wf; [|lia]. apply seen_accepts_wf; [done|lia].
  - change (SeqBuf.len (remember (SeqBuf.with_capacity (T:=bool) 10000) 60000) = 10000).
    unfold remember. by rewrite SeqBufFacts.insert_len.
  - done.
  - unfold acceptable. rewrite Hf by lia. apply andb_false_r.
  - by rewrite Hf by lia.
  - by rewrite Hf by lia.
Defined.
