(* ===== verification/Dispatcher.v ===== *)
(** * The message dispatcher ([dispatcher.rs])

    Assigns message ids, splits large payloads into fragments, remembers
    which messages went into which packet, turns packet acks into message
    acks, and collects received messages in an inbox per channel.  The
    operations that need a channel are written against the interface
    [ChannelT], and their theorems use its laws only. *)

From S2P Require Import Prelude Floats Types SequenceBuffer BufferPool Cursor Message Reassembler Channel.

(** ** [SentFragMap] *)
Inductive FragAckStatus :=
| Unknown
| Complete
| Partial (remaining : list MessageId).

#[export] Instance FragAckStatus_default : Default FragAckStatus := Unknown.

Record SentFragMap := MkSentFragMap { sfm_m : SequenceBuffer FragAckStatus }.

Definition SentFragMap_with_capacity (size : Z) : SentFragMap := MkSentFragMap (SeqBuf.with_capacity size).

(** The field [m]. *)
Definition sfm_zoom {A} : M (SequenceBuffer FragAckStatus) A -> M SentFragMap A :=
  st_zoom sfm_m (fun m _ => MkSentFragMap m).

Definition SentFragMap_insert_fragmented_message (id : MessageId) (fragment_ids : list MessageId)
  : M SentFragMap unit :=
  sfm_zoom (SeqBuf.insert id (Partial fragment_ids)).

Definition SentFragMap_ack_fragment_message (parent_id fragment_id : MessageId) : M SentFragMap bool :=
  entry ← sfm_zoom (st_asks (fun m => SeqBuf.get_mut m parent_id));
  match entry with
  | None => mret false
  | Some (entry, write_entry) =>
      ret ← (match entry with
             | Complete => mret false
             | Unknown => mret false
             | Partial remaining =>
                 let remaining := List.filter (fun id => negb (id =? fragment_id)) remaining in
                 sfm_zoom (st_update (fun _ => write_entry (Partial remaining)));;
                 mret (match remaining with [] => true | _ => false end)
             end);
      (if ret : bool then st_unwrap (sfm_zoom (SeqBuf.insert parent_id Complete)) else mret tt);;
      mret ret
  end.

(** ** [MessageDispatcher] *)
Record MessageDispatcher := MkDispatcher {
  next_message_id : Z;
  sent_frag_map : SentFragMap;
  messages_in_packets : SequenceBuffer (list MessageHandle);
  message_reassembler : MessageReassembler;
  message_inbox : gmap Z (list ReceivedMessage);
  ack_inbox : gmap Z (list MessageId);
}.

Definition MessageDispatcher_new (config : PicklebackConfig) : MessageDispatcher := {|
  next_message_id := 0;
  sent_frag_map := SentFragMap_with_capacity (sent_frag_map_size config);
  messages_in_packets := SeqBuf.with_capacity (received_packets_buffer_size config);
  message_reassembler := MessageReassembler_default;
  message_inbox := ∅;
  ack_inbox := ∅;
|}.

Section fields.
Context {A : Type}.
Definition on_sent_frag_map : M SentFragMap A -> M MessageDispatcher A :=
  st_zoom sent_frag_map (fun x d => MkDispatcher (next_message_id d) x (messages_in_packets d)
    (message_reassembler d) (message_inbox d) (ack_inbox d)).
Definition on_messages_in_packets : M (SequenceBuffer (list MessageHandle)) A -> M MessageDispatcher A :=
  st_zoom messages_in_packets (fun x d => MkDispatcher (next_message_id d) (sent_frag_map d) x
    (message_reassembler d) (message_inbox d) (ack_inbox d)).
Definition on_message_reassembler : M MessageReassembler A -> M MessageDispatcher A :=
  st_zoom message_reassembler (fun x d => MkDispatcher (next_message_id d) (sent_frag_map d)
    (messages_in_packets d) x (message_inbox d) (ack_inbox d)).
Definition on_message_inbox : M (gmap Z (list ReceivedMessage)) A -> M MessageDispatcher A :=
  st_zoom message_inbox (fun x d => MkDispatcher (next_message_id d) (sent_frag_map d)
    (messages_in_packets d) (message_reassembler d) x (ack_inbox d)).
Definition on_ack_inbox : M (gmap Z (list MessageId)) A -> M MessageDispatcher A :=
  st_zoom ack_inbox (fun x d => MkDispatcher (next_message_id d) (sent_frag_map d)
    (messages_in_packets d) (message_reassembler d) (message_inbox d) x).
End fields.

(** [entry(k).or_default().push(x)]. *)
Definition inbox_push {A} (k : Z) (x : A) : M (gmap Z (list A)) unit :=
  st_modify (fun m => <[k := default [] (m !! k) ++ [x]]> m).

(** [mem::take(entry(k).or_default())], and draining it. *)
Definition inbox_take {A} (k : Z) : M (gmap Z (list A)) (list A) :=
  m ← st_get;
  st_put (<[k := []]> m);;
  mret (default [] (m !! k)).

Definition MessageDispatcher_process_received_message (msg : Message) : M MessageDispatcher unit :=
  received_msg ←
    (match m_fragment msg with
     | None => mret (Some (Single msg))
     | Some _ => on_message_reassembler (MessageReassembler_add_fragment msg)
     end);
  match received_msg with
  | Some msg =>
      channel ← st_lift (ReceivedMessage_channel msg);
      on_message_inbox (inbox_push channel msg)
  | None => mret tt
  end.

Definition MessageDispatcher_take_received_messages (channel : Z) : M MessageDispatcher (list ReceivedMessage) :=
  on_message_inbox (inbox_take channel).

Definition MessageDispatcher_drain_message_acks (channel : Z) : M MessageDispatcher (list MessageId) :=
  on_ack_inbox (inbox_take channel).

Definition MessageDispatcher_set_packet_message_handles (packet_handle : PacketId)
    (message_handles : list MessageHandle) : M MessageDispatcher unit :=
  on_messages_in_packets (SeqBuf.insert packet_handle message_handles).

Definition MessageDispatcher_next_message_id : M MessageDispatcher MessageId :=
  d ← st_get;
  st_put (MkDispatcher (wrap16 (next_message_id d + 1)) (sent_frag_map d) (messages_in_packets d)
            (message_reassembler d) (message_inbox d) (ack_inbox d));;
  mret (next_message_id d).

(** The part of [acked_packet] after the channel was told: the message ack,
    for a fragment once all the fragments of its parent are acked. *)
Definition ack_message (msg_handle : MessageHandle) : M MessageDispatcher unit :=
  match MessageHandle_parent_id msg_handle with
  | Some parent_id =>
      all ← on_sent_frag_map (SentFragMap_ack_fragment_message parent_id (mh_id msg_handle));
      if all : bool then on_ack_inbox (inbox_push (mh_channel msg_handle) parent_id) else mret tt
  | None => on_ack_inbox (inbox_push (mh_channel msg_handle) (mh_id msg_handle))
  end.

Section channels.
Context `{BP : BuildProfile, BO : ByteOrder}.

(** [channel_list.get_mut(c).unwrap().message_ack_received(handle)]. *)
Definition channel_ack_received (msg_handle : MessageHandle) : M ChannelList (list PooledBuffer) :=
  l ← st_get;
  ch ← st_lift (ChannelList_get l (mh_channel msg_handle));
  '(ch, bufs) ← st_local ch (message_ack_received msg_handle);
  st_put (ChannelList_set (mh_channel msg_handle) ch l);;
  mret bufs.

(** The loop over the packet's handles, with the buffers returned so far. *)
Fixpoint ack_handles (msg_handles : list MessageHandle) (returned_buffers : list PooledBuffer)
  : M (MessageDispatcher * ChannelList) (list PooledBuffer) :=
  match msg_handles with
  | [] => mret returned_buffers
  | msg_handle :: rest =>
      bufs ← st_snd (channel_ack_received msg_handle);
      st_fst (ack_message msg_handle);;
      ack_handles rest (returned_buffers ++ bufs)
  end.

Definition MessageDispatcher_acked_packet (packet_handle : PacketId)
  : M (MessageDispatcher * ChannelList) (list PooledBuffer) :=
  msg_handles ← st_fst (on_messages_in_packets (SeqBuf.remove packet_handle));
  match msg_handles with
  | Some msg_handles => ack_handles msg_handles []
  | None => mret []
  end.

Context {C : Type} {CT : ChannelT C}.

(** [&payload[start..end]]. *)
Definition slice (start end_ : Z) (payload : list Z) : option (list Z) :=
  if (start <=? end_) && (end_ <=? Z.of_nat (length payload)) then
    Some (take (Z.to_nat (end_ - start)) (drop (Z.to_nat start) payload))
  else None.

(** The fragment loop, from the index [index]: the ids it has given out. *)
Fixpoint fragment_loop (n : nat) (index num_fragments : Z) (parent_id id : MessageId) (frag_ids : list MessageId)
    (payload : list Z) : M (MessageDispatcher * (BufPool * C)) (list MessageId) :=
  match n with
  | O => mret frag_ids
  | S n' =>
      last ← st_lift (arith16 (num_fragments - 1));
      payload_size ← st_lift
        (if index =? last then
           m ← arith16 (num_fragments - 1);
           k ← arith16 (m * 1024);
           arith16 (wrap16 (Z.of_nat (length payload)) - k)
         else Some 1024);
      id ← (if 0 <? index then st_fst MessageDispatcher_next_message_id else mret id);
      let fragment := {| f_index := index; num_fragments := num_fragments; parent_id := parent_id |} in
      let start := index * 1024 in
      let end_ := start + payload_size in
      frag_payload ← st_lift (slice start end_ payload);
      st_snd (enqueue_message id frag_payload (Yes fragment));;
      fragment_loop n' (index + 1) num_fragments parent_id id (frag_ids ++ [id]) payload
  end.

Definition MessageDispatcher_add_large_message_to_channel (payload : list Z)
  : M (MessageDispatcher * (BufPool * C)) MessageId :=
  let full_payload_size := Z.of_nat (length payload) in
  st_assert (1024 <? full_payload_size);;
  let remainder := if 0 <? full_payload_size mod 1024 then 1 else 0 in
  let num_fragments := wrap16 (full_payload_size / 1024 + remainder) in
  id ← st_fst MessageDispatcher_next_message_id;
  let parent_id := id in
  frag_ids ← fragment_loop (Z.to_nat num_fragments) 0 num_fragments parent_id id [] payload;
  st_fst (on_sent_frag_map (SentFragMap_insert_fragmented_message parent_id frag_ids));;
  mret parent_id.

Definition MessageDispatcher_add_message_to_channel (payload : list Z)
  : M (MessageDispatcher * (BufPool * C)) MessageId :=
  if Z.of_nat (length payload) <=? 1024 then
    id ← st_fst MessageDispatcher_next_message_id;
    st_snd (enqueue_message id payload No);;
    mret id
  else MessageDispatcher_add_large_message_to_channel payload.
End channels.

(** ** Acks of fragmented messages *)

Section frag_acks.
Context (p : MessageId).

(** The map remembers [p]: it is not too old to be inserted again. *)
Record remembers (s : SentFragMap) (st : FragAckStatus) : Prop := {
  re_wf : SeqBufFacts.wf (sfm_m s);
  re_u16 : u16 p;
  re_find : SeqBufFacts.find (sfm_m s) p = Some st;
  re_old : SeqBufFacts.too_old (sfm_m s) p = false;
  re_newest : sequence_greater_than p (sequence (sfm_m s)) = false;
}.

Lemma sfm_entry s st : remembers s st ->
  sfm_zoom (st_asks (fun m => SeqBuf.get_mut m p)) s =
    Some (s, Ok (Some (st, fun v => SeqBuf.set_entry (SeqBufFacts.slot (sfm_m s) p) v (sfm_m s)))).
Proof.
  intros []. unfold sfm_zoom, st_zoom, st_asks. rewrite SeqBufFacts.get_mut_find, re_find0 by done.
  by destruct s.
Qed.

Lemma ack_complete s id : remembers s Complete ->
  SentFragMap_ack_fragment_message p id s = Some (s, Ok false).
Proof.
  intros Hs. pose proof (sfm_entry s _ Hs) as He. unfold SentFragMap_ack_fragment_message.
  run_step He. do 2 run_done. done.
Qed.

(** The write of what remains. *)
Lemma sfm_write s rem rem' : remembers s (Partial rem) ->
  exists s', sfm_zoom (st_update (fun _ =>
      SeqBuf.set_entry (SeqBufFacts.slot (sfm_m s) p) (Partial rem') (sfm_m s))) s = Some (s', Ok tt) /\
    remembers s' (Partial rem').
Proof.
  intros [Hwf Hp Hf Hold Hnew].
  destruct (SeqBufFacts.set_entry_run p (Partial rem') _ (sfm_m s) Hwf Hf)
    as (m' & Hset & Hwf' & Hs' & Hl' & Hf').
  exists (MkSentFragMap m'). unfold sfm_zoom, st_zoom, st_update. rewrite Hset. split; [done|].
  split; cbn [sfm_m]; try done.
  - by rewrite Hf', decide_True.
  - unfold SeqBufFacts.too_old in *. by rewrite Hs', Hl'.
  - by rewrite Hs'.
Qed.

(** The insertion of [Complete]. *)
Lemma sfm_complete s st : remembers s st ->
  exists s', st_unwrap (sfm_zoom (SeqBuf.insert p Complete)) s = Some (s', Ok tt) /\ remembers s' Complete.
Proof.
  intros [Hwf Hp Hf Hold Hnew]. exists (MkSentFragMap (SeqBufFacts.fill_slot p Complete (sfm_m s))).
  assert (Hadv : SeqBufFacts.advance p (sfm_m s) = sfm_m s) by (unfold SeqBufFacts.advance; by rewrite Hnew).
  split.
  - unfold st_unwrap, sfm_zoom, st_zoom. by rewrite SeqBufFacts.insert_run, Hold, Hadv by done.
  - split; cbn [sfm_m]; try done.
    + by apply SeqBufFacts.fill_slot_wf.
    + rewrite SeqBufFacts.find_fill_slot by done. by rewrite decide_True.
    + unfold SeqBufFacts.too_old, SeqBuf.len in *. simpl. by rewrite length_insert.
Qed.

Lemma ack_partial s rem id : remembers s (Partial rem) ->
  let rem' := List.filter (fun x => negb (x =? id)) rem in
  exists s', SentFragMap_ack_fragment_message p id s =
      Some (s', Ok (match rem' with [] => true | _ => false end)) /\
    remembers s' (match rem' with [] => Complete | _ => Partial rem' end).
Proof.
  intros Hs rem'. destruct (sfm_write s rem rem' Hs) as (s1 & Hw & Hs1).
  unfold SentFragMap_ack_fragment_message. pose proof (sfm_entry s _ Hs) as He. run_step He.
  rewrite run_assoc. fold rem'. run_step Hw. run_done. destruct rem' as [|x r].
  - destruct (sfm_complete s1 _ Hs1) as (s2 & Hc & Hs2). exists s2. run_step Hc. done.
  - exists s1. done.
Qed.

(** Acks of fragments of [p], one after the other. *)
Fixpoint ack_all (l : list MessageId) : M SentFragMap (list bool) :=
  match l with
  | [] => mret []
  | id :: l' => b ← SentFragMap_ack_fragment_message p id; bs ← ack_all l'; mret (b :: bs)
  end.

Context (ids : list MessageId).

(** What the map holds after the acks [h]. *)
Definition status_after (h : list MessageId) : FragAckStatus :=
  if decide (Forall (fun id => id ∈ h) ids) then Complete
  else Partial (List.filter (fun id => bool_decide (id ∉ h)) ids).

Lemma filter_filter_not (h : list MessageId) id :
  List.filter (fun x => negb (x =? id)) (List.filter (fun x => bool_decide (x ∉ h)) ids) =
  List.filter (fun x => bool_decide (x ∉ id :: h)) ids.
Proof.
  clear p. induction ids as [|x l IH]; [done|]. cbn [List.filter].
  pose proof (not_elem_of_cons h x id) as Hiff.
  destruct (decide (x ∈ h)) as [Hx|Hx].
  - rewrite (bool_decide_false (x ∉ h)), (bool_decide_false (x ∉ id :: h)) by tauto. exact IH.
  - rewrite (bool_decide_true (x ∉ h)) by done. cbn [List.filter].
    destruct (Z.eqb_spec x id) as [->|Hne]; cbn [negb].
    + rewrite bool_decide_false by tauto. exact IH.
    + rewrite bool_decide_true by tauto. by rewrite IH.
Qed.

Lemma filter_not_nil (h : list MessageId) :
  List.filter (fun x => bool_decide (x ∉ h)) ids = [] <-> Forall (fun id => id ∈ h) ids.
Proof.
  induction ids as [|x l IH]; simpl; [by split|]. rewrite Forall_cons, <- IH.
  destruct (decide (x ∈ h)) as [Hx|Hx].
  - rewrite bool_decide_false by tauto. tauto.
  - rewrite bool_decide_true by done. split; [done|tauto].
Qed.

Lemma ack_all_run l h s : remembers s (status_after h) ->
  exists s', ack_all l s = Some (s', Ok
      ((fun k => bool_decide (Forall (fun id => id ∈ reverse (take (S k) l) ++ h) ids) &&
                 negb (bool_decide (Forall (fun id => id ∈ reverse (take k l) ++ h) ids))) <$> seq 0 (length l))) /\
    remembers s' (status_after (reverse l ++ h)).
Proof.
  revert h s. induction l as [|id l IH]; intros h s Hs; [by exists s|].
  assert (exists s1, SentFragMap_ack_fragment_message p id s =
      Some (s1, Ok (bool_decide (Forall (fun x => x ∈ id :: h) ids) &&
                    negb (bool_decide (Forall (fun x => x ∈ h) ids)))) /\
      remembers s1 (status_after (id :: h))) as (s1 & Hrun & Hs1).
  { unfold status_after in *. destruct (decide (Forall (fun x => x ∈ h) ids)) as [Hall|Hnot].
    - assert (Hall' : Forall (fun x => x ∈ id :: h) ids) by (eapply Forall_impl; [exact Hall|]; by right).
      rewrite (decide_True _ _ Hall'), (bool_decide_true _ Hall), andb_false_r.
      exists s. split; [by apply ack_complete|done].
    - destruct (ack_partial s _ id Hs) as (s1 & Hrun & Hs1). rewrite filter_filter_not in Hrun, Hs1.
      exists s1. rewrite Hrun, (bool_decide_false _ Hnot), andb_true_r.
      pose proof (filter_not_nil (id :: h)) as Hnil.
      destruct (List.filter (fun x => bool_decide (x ∉ id :: h)) ids) as [|x r].
      + rewrite bool_decide_true, decide_True by tauto. done.
      + assert (~ Forall (fun x => x ∈ id :: h) ids) by (rewrite <- Hnil; done).
        rewrite (bool_decide_false (Forall _ ids)), decide_False by done. done. }
  destruct (IH (id :: h) s1 Hs1) as (s' & Hrun' & Hs'). exists s'.
  cbn [ack_all length]. run_step Hrun. run_step Hrun'.
  rewrite reverse_cons, <- app_assoc. split; [|exact Hs'].
  cbn [seq fmap list_fmap]. rewrite <- (fmap_S_seq 0), <- list_fmap_compose.
  unfold mret, ST_ret. do 3 f_equal. apply (f_equal2 cons); [done|].
  apply list_fmap_ext. intros i k _. unfold compose. cbn [take].
  by rewrite !reverse_cons, <- !app_assoc.
Qed.
End frag_acks.

Lemma insert_remembers s p ids s' : SeqBufFacts.wf (sfm_m s) -> SeqBuf.len (sfm_m s) < 32768 -> u16 p ->
  SentFragMap_insert_fragmented_message p ids s = Some (s', Ok tt) -> remembers p s' (Partial ids).
Proof.
  intros Hwf Hlen Hp. unfold SentFragMap_insert_fragmented_message, sfm_zoom, st_zoom.
  rewrite SeqBufFacts.insert_run by done.
  destruct (SeqBufFacts.too_old (sfm_m s) p) eqn:Hold; [done|]. intros [= <-].
  assert (Hwf' : SeqBufFacts.wf (SeqBufFacts.fill_slot p (Partial ids) (SeqBufFacts.advance p (sfm_m s))))
    by (apply SeqBufFacts.fill_slot_wf; [by apply SeqBufFacts.advance_wf|done]).
  assert (Hseq := SeqBufFacts.insert_sequence p (Partial ids) (sfm_m s)).
  split; cbn [sfm_m]; try done.
  - rewrite SeqBufFacts.find_insert by done. by rewrite decide_True.
  - unfold SeqBufFacts.too_old in *. rewrite SeqBufFacts.insert_len, Hseq.
    pose proof (SeqBufFacts.wf_len _ Hwf). destruct (sequence_greater_than p (sequence (sfm_m s))); [|done].
    apply not_true_iff_false. unfold sequence_less_than.
    rewrite sequence_greater_than_spec by (done || apply wrap16_range).
    rewrite (wrap16_small (SeqBuf.len _)) by lia. u16_solve.
  - rewrite Hseq. destruct (sequence_greater_than p (sequence (sfm_m s))) eqn:E; [|done].
    apply sequence_greater_than_irrefl.
Qed.

Lemma status_after_nil ids : ids <> [] -> status_after ids [] = Partial ids.
Proof.
  intros Hne. unfold status_after. rewrite decide_False.
  - f_equal. clear Hne. induction ids as [|x l IH]; [done|]. simpl. f_equal. exact IH.
  - destruct ids; [done|]. rewrite Forall_cons. by intros [?%elem_of_nil _].
Qed.

(** C24. The ack of a fragmented message: once its fragment ids are in the
    map, any sequence of fragment acks, in any order and with repetitions and
    strangers, reports the message as acked exactly once, at the ack that
    completes its set of fragments. *)
Theorem parent_acked_exactly_once s p ids s0 l :
  SeqBufFacts.wf (sfm_m s) -> SeqBuf.len (sfm_m s) < 32768 -> u16 p -> ids <> [] ->
  SentFragMap_insert_fragmented_message p ids s = Some (s0, Ok tt) ->
  exists s', ack_all p l s0 = Some (s', Ok
    ((fun k => bool_decide (Forall (fun id => id ∈ take (S k) l) ids) &&
               negb (bool_decide (Forall (fun id => id ∈ take k l) ids))) <$> seq 0 (length l))).
Proof.
  intros Hwf Hlen Hp Hne Hins. pose proof (insert_remembers s p ids s0 Hwf Hlen Hp Hins) as Hs.
  rewrite <- (status_after_nil ids Hne) in Hs.
  destruct (ack_all_run p ids l [] s0 Hs) as (s' & Hrun & _). exists s'. rewrite Hrun. do 3 f_equal.
  assert (Hrev : forall k, Forall (fun id => id ∈ reverse (take k l) ++ []) ids <->
                           Forall (fun id => id ∈ take k l) ids).
  { intros k. apply Forall_iff. intros x. by rewrite app_nil_r, elem_of_reverse. }
  apply list_fmap_ext. intros i k _. cbn beta.
  f_equal; [|f_equal]; apply bool_decide_ext, Hrev.
Qed.

Lemma parent_acked_exactly_once_witness :
  exists s0 s', SentFragMap_insert_fragmented_message 5 [5; 6; 7] (SentFragMap_with_capacity 100) = Some (s0, Ok tt) /\
    ack_all 5 [7; 5; 7; 9; 6; 5] s0 = Some (s', Ok [false; false; false; false; true; false]).
Proof.
  destruct (SentFragMap_insert_fragmented_message 5 [5; 6; 7] (SentFragMap_with_capacity 100))
    as [[s0 [[]|e]]|] eqn:E; [|vm_compute in E; done|vm_compute in E; done].
  exists s0. destruct (parent_acked_exactly_once (SentFragMap_with_capacity 100) 5 [5; 6; 7] s0 [7; 5; 7; 9; 6; 5])
    as (s' & Hs'); [apply SeqBufFacts.with_capacity_wf; lia|vm_compute; done|lia|done|exact E|].
  exists s'. split; [done|]. exact Hs'.
Defined.

(** ** Sending large payloads *)

Definition set_next_id (v : Z) (d : MessageDispatcher) : MessageDispatcher :=
  MkDispatcher v (sent_frag_map d) (messages_in_packets d) (message_reassembler d) (message_inbox d) (ack_inbox d).

Definition set_sent_frag_map (s : SentFragMap) (d : MessageDispatcher) : MessageDispatcher :=
  MkDispatcher (next_message_id d) s (messages_in_packets d) (message_reassembler d) (message_inbox d) (ack_inbox d).

Lemma next_message_id_run d : MessageDispatcher_next_message_id d =
  Some (set_next_id (wrap16 (next_message_id d + 1)) d, Ok (next_message_id d)).
Proof. done. Qed.

(** How many fragments a payload needs, and the one with an index. *)
Definition fragment_count (len : Z) : Z := (len + 1023) / 1024.
Definition chunk (payload : list Z) (i : Z) : list Z := take 1024 (drop (Z.to_nat (1024 * i)) payload).

Lemma fragment_count_code len : 0 <= len ->
  len / 1024 + (if 0 <? len mod 1024 then 1 else 0) = fragment_count len.
Proof.
  intros Hl. unfold fragment_count. pose proof (Z.div_mod len 1024). pose proof (Z.mod_pos_bound len 1024).
  destruct (Z.ltb_spec 0 (len mod 1024)).
  - apply (Z.div_unique _ _ _ (len mod 1024 - 1)); lia.
  - apply (Z.div_unique _ _ _ 1023); lia.
Qed.

Lemma fragment_count_bounds len : 0 <= len -> 1024 * (fragment_count len - 1) < len <= 1024 * fragment_count len \/ len = 0.
Proof.
  intros Hl. unfold fragment_count. pose proof (Z.div_mod (len + 1023) 1024).
  pose proof (Z.mod_pos_bound (len + 1023) 1024). lia.
Qed.

Lemma chunk_length payload i : let len := Z.of_nat (length payload) in
  0 <= i < fragment_count len ->
  Z.of_nat (length (chunk payload i)) = if i =? fragment_count len - 1 then len - 1024 * i else 1024.
Proof.
  intros len Hi. pose proof (fragment_count_bounds len ltac:(lia)) as [Hb|Hb].
  - unfold chunk. rewrite length_take, length_drop. destruct (Z.eqb_spec i (fragment_count len - 1)); lia.
  - rewrite Hb in Hi. change (fragment_count 0) with 0 in Hi. lia.
Qed.

Lemma concat_chunks payload n : Z.of_nat (length payload) <= 1024 * Z.of_nat n ->
  concat (chunk payload <$> seqZ 0 (Z.of_nat n)) = payload.
Proof.
  intros Hn. assert (Hgen : forall k l, Z.of_nat (length l) <= 1024 * Z.of_nat k -> forall i, 0 <= i ->
    drop (Z.to_nat (1024 * i)) payload = l -> concat (chunk payload <$> seqZ i (Z.of_nat k)) = l).
  { clear Hn n. induction k as [|k IH]; intros l Hl i Hi Hd.
    - assert (l = []) as -> by (destruct l; [done|simpl in Hl; lia]). done.
    - rewrite seqZ_cons by lia. cbn [fmap list_fmap concat].
      replace (Z.pred (Z.of_nat (S k))) with (Z.of_nat k) by lia.
      rewrite (IH (drop 1024 l)); [|rewrite length_drop; lia|lia|].
      + unfold chunk. rewrite Hd. apply take_drop.
      + rewrite <- Hd, drop_drop. f_equal. lia. }
  by apply (Hgen n payload Hn 0).
Qed.

(** The fragment [i] of a payload, as it waits in a channel. *)
Record sent_fragment `{ByteOrder} (ch parent num : Z) (payload : list Z) (i : Z) (m : Message) : Prop := {
  sf_id : m_id m = wrap16 (parent + i);
  sf_channel : m_channel m = ch;
  sf_mode : size_mode m = MessageSizeMode_from (Z.of_nat (length (chunk payload i)));
  sf_fragment : m_fragment m = Some (MkFragment i num parent);
  sf_bytes : Message_as_slice m =
    header_bytes (m_id m) (m_fragment m) (size_mode m) ch (Z.of_nat (length (chunk payload i))) ++ chunk payload i;
}.

Section large.
Context `{BP : BuildProfile, BO : ByteOrder} {C} {CT : ChannelT C} {CL : ChannelLaws C CT}.
Context (payload : list Z).
Let len := Z.of_nat (length payload).
Let num := fragment_count len.
Context (Hmin : 1024 < len) (Hmax : len <= 1048576) (Hprofile : overflow_checks = true -> len < 65536).

Lemma num_bounds : 2 <= num <= 1024.
Proof. pose proof (fragment_count_bounds len ltac:(lia)). unfold num. lia. Qed.

(** The size of a fragment's payload, as the code computes it on [u16]. *)
Lemma payload_size_run i : 0 <= i < num ->
  (if i =? num - 1 then
     m ← arith16 (num - 1);
     k ← arith16 (m * 1024);
     arith16 (wrap16 len - k)
   else Some 1024) = Some (Z.of_nat (length (chunk payload i))).
Proof.
  intros Hi. rewrite chunk_length by done. fold len num. pose proof num_bounds.
  pose proof (fragment_count_bounds len ltac:(lia)) as Hb. fold num in Hb.
  destruct (Z.eqb_spec i (num - 1)) as [->|]; [|done].
  rewrite arith16_in_range by lia. simpl.
  destruct (Z.lt_ge_cases len 65536).
  - rewrite arith16_in_range by lia. simpl. rewrite wrap16_small by lia.
    rewrite arith16_in_range by lia. f_equal. lia.
  - assert (Hrel : overflow_checks = false).
    { destruct overflow_checks eqn:E; [|done]. specialize (Hprofile eq_refl). lia. }
    rewrite arith16_wrapping by done. simpl. rewrite arith16_wrapping by done. f_equal. u16_solve.
Qed.

Lemma slice_run i : 0 <= i < num ->
  slice (i * 1024) (i * 1024 + Z.of_nat (length (chunk payload i))) payload = Some (chunk payload i).
Proof.
  intros Hi. pose proof (chunk_length payload i Hi) as Hc. fold len num in Hc.
  pose proof (fragment_count_bounds len ltac:(lia)) as Hb. fold num in Hb.
  unfold slice. fold len. rewrite (proj2 (Z.leb_le _ _)) by lia.
  rewrite (proj2 (Z.leb_le _ len)) by (destruct (i =? num - 1) eqn:E;
    rewrite ?Z.eqb_eq, ?Z.eqb_neq in E; lia). simpl.
  f_equal. replace (Z.to_nat (i * 1024 + _ - i * 1024)) with (length (chunk payload i)) by lia.
  replace (i * 1024) with (1024 * i) by lia. unfold chunk. rewrite length_take.
  destruct (Nat.le_gt_cases 1024 (length (drop (Z.to_nat (1024 * i)) payload))).
  - by rewrite Nat.min_l.
  - rewrite Nat.min_r by lia. rewrite !take_ge by lia. done.
Qed.

Definition fragment_id (parent i : Z) : Z := wrap16 (parent + i).

Lemma chunk_enqueueable parent i : 0 <= i < num ->
  enqueueable (fragment_id parent i) (chunk payload i) (Yes (MkFragment i num parent)).
Proof.
  intros Hi. pose proof num_bounds. split; [apply wrap16_range|].
  pose proof (chunk_length payload i Hi) as Hc. fold len num in Hc.
  pose proof (fragment_count_bounds len ltac:(lia)) as Hb. fold num in Hb.
  destruct (Z.eqb_spec i (num - 1)) as [->|Hne]; (split; [lia|]); split; simpl; lia.
Qed.

Lemma fragment_loop_run n i parent id ids d bp c :
  i + Z.of_nat n = num -> 0 <= i -> u16 parent -> id = wrap16 (parent + Z.max 0 (i - 1)) ->
  next_message_id d = wrap16 (parent + Z.max 1 i) ->
  has_pool bp -> ch_wf c -> 0 <= ch_id c < 64 ->
  exists bp' c' ms, fragment_loop n i num parent id ids payload (d, (bp, c)) =
      Some ((set_next_id (wrap16 (parent + Z.max 1 num)) d, (bp', c')),
            Ok (ids ++ (fragment_id parent <$> seqZ i (Z.of_nat n)))) /\
    has_pool bp' /\ ch_wf c' /\ ch_id c' = ch_id c /\ (ch_seen c' = ch_seen c /\ ch_keeps c' = ch_keeps c) /\
    ch_messages c' = ch_messages c ++ ms /\
    Forall2 (sent_fragment (ch_id c) parent num payload) (seqZ i (Z.of_nat n)) ms.
Proof.
  intros Hin. pose proof num_bounds as Hnum. revert i id ids d bp c Hin.
  induction n as [|n IH]; intros i id ids d bp c Hin Hi Hp Hid Hnext Hbp Hc Hch.
  - exists bp, c, []. simpl. replace i with num in Hnext by lia.
    rewrite !app_nil_r, <- Hnext. destruct d. by split_and!.
  - cbn [fragment_loop]. rewrite (arith16_in_range (num - 1)) by lia. run_done.
    pose proof (payload_size_run i ltac:(lia)) as Hps. rewrite (arith16_in_range (num - 1)) in Hps by lia.
    cbn [mbind option_bind] in Hps. fold len. cbn [mbind option_bind].
    erewrite run_bind_ok by (unfold st_lift, st_asks; rewrite Hps; done). cbn beta iota.
    set (d1 := set_next_id (wrap16 (parent + Z.max 1 (i + 1))) d).
    assert (Hidrun : (if 0 <? i then st_fst MessageDispatcher_next_message_id else mret id) (d, (bp, c)) =
                     Some ((d1, (bp, c)), Ok (fragment_id parent i))).
    { unfold d1, fragment_id. destruct (Z.ltb_spec 0 i).
      - unfold st_fst, st_zoom. cbn [fst snd]. rewrite next_message_id_run, Hnext.
        assert (Hn1 : wrap16 (wrap16 (parent + Z.max 1 i) + 1) = wrap16 (parent + Z.max 1 (i + 1))).
        { unfold wrap16. rewrite Zplus_mod_idemp_l. f_equal. lia. }
        rewrite Hn1. replace (Z.max 1 i) with i by lia. done.
      - assert (i = 0) as -> by lia. rewrite Hid. change (Z.max 1 (0 + 1)) with 1.
        change (Z.max 1 0) with 1 in Hnext. change (Z.max 0 (0 - 1)) with 0. rewrite <- Hnext. by destruct d. }
    run_step Hidrun.
    erewrite run_bind_ok by (unfold st_lift, st_asks; rewrite slice_run by lia; done). cbn beta iota.
    destruct (ch_enqueue_law (fragment_id parent i) (chunk payload i) (Yes (MkFragment i num parent)) bp c
                Hbp Hc Hch (chunk_enqueueable parent i ltac:(lia)))
      as (bp1 & c1 & m & Hrun & Hbp1 & Hc1 & Hci & Hcs & Hm & Hmid & Hmc & Hms & Hmf & Hmb).
    erewrite run_bind_ok by (unfold st_snd, st_zoom; cbn [snd]; rewrite Hrun; done). cbn beta iota.
    destruct (IH (i + 1) (fragment_id parent i) (ids ++ [fragment_id parent i]) d1 bp1 c1)
      as (bp' & c' & ms & Hloop & Hbp' & Hc' & Hci' & [Hcs' Hck'] & Hms' & Hall);
      [lia|lia|done|unfold fragment_id; do 2 f_equal; lia|done|done|done|by rewrite Hci|].
    exists bp', c', (m :: ms). cbn [fst]. rewrite Hloop, <- app_assoc.
    rewrite (seqZ_cons i) by lia. replace (Z.pred (Z.of_nat (S n))) with (Z.of_nat n) by lia.
    rewrite <- Z.add_1_r. split; [done|].
    split_and!; [done|done|by rewrite Hci'|by rewrite Hcs'|by rewrite Hck'; eapply ch_enqueue_keeps|
      by rewrite Hms', Hm, <- app_assoc|].
    constructor; [|by rewrite <- Hci].
    split; [exact Hmid|exact Hmc|exact Hms|exact Hmf|]. by rewrite Hmid, Hms, Hmf.
Qed.
End large.

(** A message as a peer parses it from the wire. *)
Definition received_as `{BuildProfile, ByteOrder} (m m' : Message) : Prop :=
  exists bp bp' cur rest, has_pool bp /\
    Message_parse (bp, Cursor_new (Message_as_slice m ++ rest)) = Some ((bp', cur), Ok m').

Section large_received.
Context `{BP : BuildProfile, BO : ByteOrder, BL : !ByteOrderLaws BO}.

Lemma sent_fragment_received ch parent payload i m m' :
  let num := fragment_count (Z.of_nat (length payload)) in
  0 <= ch < 64 -> u16 parent -> 2 <= num <= 1024 -> 0 <= i < num ->
  (num < 256 \/ 255 < Z.of_nat (length (chunk payload (num - 1)))) ->
  sent_fragment ch parent num payload i m -> received_as m m' ->
  m_fragment m' = Some (MkFragment i num parent) /\ Message_as_slice m' = chunk payload i /\
  m_id m' = wrap16 (parent + i).
Proof.
  intros num Hch Hp Hnum Hi Hnar [Hid _ Hmode Hf Hb] (bp & bp' & cur & rest & Hbp & Hparse).
  pose proof (chunk_length payload i Hi) as Hc. fold num in Hc.
  pose proof (fragment_count_bounds (Z.of_nat (length payload)) ltac:(lia)) as Hbd. fold num in Hbd.
  rewrite Hb, Hmode, Hf, Hid in Hparse.
  destruct (Message_parse_run (wrap16 (parent + i)) (Some (MkFragment i num parent)) ch (chunk payload i) bp
    (Cursor_new ((header_bytes (wrap16 (parent + i)) (Some (MkFragment i num parent))
       (MessageSizeMode_from (Z.of_nat (length (chunk payload i)))) ch
       (Z.of_nat (length (chunk payload i))) ++ chunk payload i) ++ rest)) rest)
    as (bp1 & c1 & buf & Hrun & _ & _ & _ & Hbuf).
  - done.
  - apply wrap16_range.
  - done.
  - destruct (i =? num - 1) eqn:E; rewrite ?Z.eqb_eq, ?Z.eqb_neq in E; lia.
  - simpl. destruct (Z.eqb_spec i (num - 1)); split; simpl; lia.
  - simpl. unfold narrow_fragment. destruct (MessageSizeMode_from _) eqn:Em; [|done]. simpl.
    apply MessageSizeMode_from_small in Em. destruct (Z.eqb_spec i (num - 1)) as [->|]; lia.
  - done.
  - apply remaining_slice_new.
  - rewrite Hrun in Hparse. injection Hparse as _ _ <-. cbn [m_fragment m_id Message_as_slice m_buffer].
    split; [|split; [exact Hbuf|done]]. simpl. unfold received_fragment. cbn [f_index num_fragments].
    do 2 f_equal. rewrite <- (wrap16_small parent) at 2 by done.
    unfold wrap16. rewrite Zminus_mod_idemp_l. f_equal. lia.
Qed.

Lemma sent_fragments_received ch parent payload ms fs :
  let num := fragment_count (Z.of_nat (length payload)) in
  0 <= ch < 64 -> u16 parent -> 2 <= num <= 1024 ->
  (num < 256 \/ 255 < Z.of_nat (length (chunk payload (num - 1)))) ->
  Forall2 (sent_fragment ch parent num payload) (seqZ 0 num) ms -> Forall2 received_as ms fs ->
  fragments_of parent fs /\ concat (Message_as_slice <$> fs) = payload.
Proof.
  intros num Hch Hp Hnum Hnar Hms Hfs.
  assert (Hlen : Z.of_nat (length fs) = num).
  { rewrite <- (Forall2_length _ _ _ Hfs), <- (Forall2_length _ _ _ Hms), length_seqZ. lia. }
  assert (Hall : forall k m', fs !! k = Some m' ->
    m_fragment m' = Some (MkFragment (Z.of_nat k) num parent) /\ Message_as_slice m' = chunk payload (Z.of_nat k)).
  { intros k m' Hk. destruct (Forall2_lookup_r _ _ _ _ _ Hfs Hk) as (m & Hm & Hrec).
    destruct (Forall2_lookup_r _ _ _ _ _ Hms Hm) as (i & Hi & Hsent).
    apply lookup_seqZ in Hi as [-> Hlt].
    destruct (sent_fragment_received ch parent payload (0 + Z.of_nat k) m m') as (H1 & H2 & _); try done; lia. }
  split.
  - split; [lia|]. intros i m Hm. rewrite Hlen. by apply Hall.
  - transitivity (concat (chunk payload <$> seqZ 0 (Z.of_nat (length fs)))).
    + f_equal. apply list_eq. intros k. rewrite !list_lookup_fmap.
      destruct (fs !! k) as [m'|] eqn:Hk.
      * pose proof (lookup_lt_Some _ _ _ Hk). assert (seqZ 0 (Z.of_nat (length fs)) !! k = Some (0 + Z.of_nat k)) as ->
          by (apply lookup_seqZ; lia). simpl. f_equal. by apply Hall.
      * apply lookup_ge_None in Hk.
        destruct (seqZ 0 (Z.of_nat (length fs)) !! k) eqn:E; [|done]. apply lookup_seqZ in E. lia.
    + apply concat_chunks. rewrite Hlen.
      pose proof (fragment_count_bounds (Z.of_nat (length payload)) ltac:(lia)) as Hbd. fold num in Hbd. lia.
Qed.
End large_received.

Section add_message.
Context `{BP : BuildProfile, BO : ByteOrder} {C} {CT : ChannelT C} {CL : ChannelLaws C CT}.

Lemma add_large_run payload d bp c :
  let len := Z.of_nat (length payload) in let num := fragment_count len in
  1024 < len <= 1048576 -> (overflow_checks = true -> len < 65536) ->
  u16 (next_message_id d) -> SeqBufFacts.wf (sfm_m (sent_frag_map d)) ->
  has_pool bp -> ch_wf c -> 0 <= ch_id c < 64 ->
  let parent := next_message_id d in
  exists sfm bp' c' ms r,
    SentFragMap_insert_fragmented_message parent (fragment_id parent <$> seqZ 0 num) (sent_frag_map d) = Some (sfm, r) /\
    MessageDispatcher_add_large_message_to_channel payload (d, (bp, c)) =
      Some ((set_sent_frag_map sfm (set_next_id (wrap16 (parent + num)) d), (bp', c')),
            match r with Ok _ => Ok parent | Err e => Err e end) /\
    has_pool bp' /\ ch_wf c' /\ ch_id c' = ch_id c /\ (ch_seen c' = ch_seen c /\ ch_keeps c' = ch_keeps c) /\
    ch_messages c' = ch_messages c ++ ms /\
    Forall2 (sent_fragment (ch_id c) parent num payload) (seqZ 0 num) ms.
Proof.
  intros len num Hlen Hprof Hid Hsfm Hbp Hc Hch parent.
  pose proof (num_bounds payload ltac:(lia) ltac:(lia)) as Hnum. fold len num in Hnum.
  unfold MessageDispatcher_add_large_message_to_channel. fold len.
  rewrite (proj2 (Z.ltb_lt 1024 len)) by lia. run_done.
  rewrite fragment_count_code by lia. fold num. rewrite (wrap16_small num) by lia.
  set (d1 := set_next_id (wrap16 (parent + 1)) d).
  assert (Hn : st_fst MessageDispatcher_next_message_id (d, (bp, c)) = Some ((d1, (bp, c)), Ok parent)) by done.
  run_step Hn.
  destruct (fragment_loop_run payload ltac:(lia) ltac:(lia) Hprof (Z.to_nat num) 0 parent parent [] d1 bp c)
    as (bp' & c' & ms & Hloop & Hbp' & Hc' & Hci & Hcs & Hm & Hall);
    [fold len num; lia|lia|done|by rewrite Z.add_0_r, wrap16_small|done|done|done|done|].
  fold len num in Hloop, Hall. rewrite Z2Nat.id in Hloop, Hall by lia. run_step Hloop.
  rewrite Z.max_r in Hloop |- * by lia.
  destruct (SentFragMap_insert_fragmented_message parent (fragment_id parent <$> seqZ 0 num) (sent_frag_map d))
    as [[sfm r]|] eqn:Hins.
  2: { exfalso. revert Hins. unfold SentFragMap_insert_fragmented_message, sfm_zoom, st_zoom.
       rewrite SeqBufFacts.insert_run by done. by destruct (SeqBufFacts.too_old _ _). }
  exists sfm, bp', c', ms, r. split; [done|]. split; [|done].
  unfold mbind, ST_bind, st_fst, st_zoom, on_sent_frag_map, st_zoom. cbn [fst snd sent_frag_map set_next_id d1].
  simpl app. rewrite Hins. by destruct r.
Qed.
End add_message.

(** C20. Large messages arrive whole: a payload of more than 1024 bytes and up
    to 1 MB (below 64 kB when overflow checks are on) is queued as fragments
    with consecutive ids; whatever a peer parses them from and in whatever
    order they arrive, each once, its reassembler yields exactly one message, at
    the last arrival, with the id the sender was given and the payload sent.
    The fragment count must fit the byte the tail's header gives it (fewer
    than 256 fragments, or a tail of more than 255 bytes, whose header is
    wide), and the message id must not be too far from the last large
    message's for the sender's record of fragments ([too_old]). *)
Theorem large_message_delivered `{BP : BuildProfile, BO : ByteOrder, BL : !ByteOrderLaws BO}
    {C} (CT : ChannelT C) (CL : ChannelLaws C CT) payload d bp (c : C) :
  let len := Z.of_nat (length payload) in let num := fragment_count len in
  1024 < len <= 1048576 -> (overflow_checks = true -> len < 65536) ->
  (num < 256 \/ 255 < Z.of_nat (length (chunk payload (num - 1)))) ->
  u16 (next_message_id d) -> SeqBufFacts.wf (sfm_m (sent_frag_map d)) ->
  SeqBufFacts.too_old (sfm_m (sent_frag_map d)) (next_message_id d) = false ->
  has_pool bp -> ch_wf c -> 0 <= ch_id c < 64 ->
  exists d' bp' c' ms,
    MessageDispatcher_add_message_to_channel payload (d, (bp, c)) =
      Some ((d', (bp', c')), Ok (next_message_id d)) /\
    ch_wf c' /\ ch_messages c' = ch_messages c ++ ms /\
    next_message_id d' = wrap16 (next_message_id d + num) /\
    forall fs l r, Forall2 received_as ms fs -> l ≡ₚ fs -> in_progress r !! next_message_id d = None ->
      exists r' rm, feed l r = Some (r', replicate (Z.to_nat num - 1) None ++ [Some rm]) /\
        ReceivedMessage_id rm = Some (next_message_id d) /\ ReceivedMessage_payload rm = payload.
Proof.
  intros len num Hlen Hprof Hnar Hid Hsfm Hold Hbp Hc Hch.
  destruct (add_large_run payload d bp c Hlen Hprof Hid Hsfm Hbp Hc Hch)
    as (sfm & bp' & c' & ms & r0 & Hins & Hrun & _ & Hc' & _ & _ & Hm & Hall). fold len num in Hrun, Hall.
  revert Hins. unfold SentFragMap_insert_fragmented_message, sfm_zoom, st_zoom.
  rewrite SeqBufFacts.insert_run, Hold by done. intros [= <- <-].
  eexists _, bp', c', ms. split.
  { unfold MessageDispatcher_add_message_to_channel. rewrite (proj2 (Z.leb_gt _ _)) by lia. exact Hrun. }
  split; [done|]. split; [done|]. split; [done|]. intros fs l r Hfs Hperm Hr.
  pose proof (num_bounds payload ltac:(lia) ltac:(lia)) as Hnum. fold len num in Hnum.
  destruct (sent_fragments_received (ch_id c) (next_message_id d) payload ms fs) as [Hfrag Hcat]; try done.
  destruct (feed_permutation _ fs l r Hfrag Hperm Hr) as (r' & Hfeed).
  exists r', (FragmentedMessages fs). rewrite Hfeed.
  assert (length fs = Z.to_nat num) as ->.
  { rewrite <- (Forall2_length _ _ _ Hfs), <- (Forall2_length _ _ _ Hall), length_seqZ. done. }
  split; [done|]. split; [|by rewrite payload_concat]. simpl.
  destruct fs as [|f0 fs]; [destruct (fo_length _ _ Hfrag); simpl in *; lia|].
  simpl. by rewrite (fo_fragment _ _ Hfrag 0%nat f0 eq_refl).
Qed.

Definition example_dispatcher : MessageDispatcher := MessageDispatcher_new PicklebackConfig_default.

Lemma large_message_delivered_witness :
  exists d' bp' c' ms,
    @MessageDispatcher_add_message_to_channel debug_build big_endian _ (@UnreliableChannelT debug_build big_endian)
      (replicate 2500 7) (example_dispatcher, (example_pool, UnreliableChannel_new 0 (f64_lit 1 1))) =
      Some ((d', (bp', c')), Ok 0) /\
    ch_wf (CT:=@UnreliableChannelT debug_build big_endian) c' /\ u_q c' = [] ++ ms /\ next_message_id d' = 3 /\
    forall fs l r, Forall2 (@received_as debug_build big_endian) ms fs -> l ≡ₚ fs -> in_progress r !! 0 = None ->
      exists r' rm, feed l r = Some (r', [None; None] ++ [Some rm]) /\
        ReceivedMessage_id rm = Some 0 /\ ReceivedMessage_payload rm = replicate 2500 7.
Proof.
  apply (large_message_delivered (BP:=debug_build) (BO:=big_endian) (BL:=big_endian_laws) UnreliableChannelT
           UnreliableChannel_laws (replicate 2500 7) example_dispatcher example_pool (UnreliableChannel_new 0 (f64_lit 1 1))).
  - rewrite length_replicate. lia.
  - rewrite length_replicate. lia.
  - left. vm_compute. reflexivity.
  - simpl. lia.
  - apply SeqBufFacts.with_capacity_wf. simpl. lia.
  - vm_compute. reflexivity.
  - apply example_pool_has_pool.
  - apply UnreliableChannel_new_wf.
  - simpl. lia.
Defined.

Section large_panics.
Context `{BP : BuildProfile, BO : ByteOrder} {C} {CT : ChannelT C} {CL : ChannelLaws C CT}.
Context (payload : list Z).
Let len := Z.of_nat (length payload).
Let num := fragment_count len.
Context (Hdebug : overflow_checks = true) (Hlen : 65536 <= len <= 1048576).

Lemma last_size_overflows : (m ← arith16 (num - 1); k ← arith16 (m * 1024); arith16 (wrap16 len - k)) = None.
Proof.
  pose proof (fragment_count_bounds len ltac:(lia)) as Hb. fold num in Hb.
  rewrite arith16_in_range by lia. simpl.
  destruct (Z.eq_dec len 65536) as [He|].
  - assert (num = 64) as -> by lia. rewrite arith16_in_range by lia. simpl. rewrite He.
    change (wrap16 65536) with 0. by rewrite arith16_overflow by (done || lia).
  - by rewrite (arith16_overflow ((num - 1) * 1024)) by (done || lia).
Qed.

Lemma fragment_loop_panics n i parent id ids d bp c :
  i + Z.of_nat (S n) = num -> 0 <= i -> u16 id -> u16 (next_message_id d) -> has_pool bp -> ch_wf c -> 0 <= ch_id c < 64 ->
  fragment_loop (S n) i num parent id ids payload (d, (bp, c)) = None.
Proof.
  pose proof (fragment_count_bounds len ltac:(lia)) as Hb. fold num in Hb.
  revert i id ids d bp c. induction n as [|n IH]; intros i id ids d bp c Hin Hi Hid Hd Hbp Hc Hch.
  - cbn [fragment_loop]. rewrite (arith16_in_range (num - 1)) by lia. run_done. apply run_bind_panic. rewrite (proj2 (Z.eqb_eq i (num - 1))) by lia. fold len.
    pose proof last_size_overflows as Ho. rewrite arith16_in_range in Ho by lia. by rewrite Ho.
  - remember (S n) as k eqn:Hk. cbn [fragment_loop]. rewrite (arith16_in_range (num - 1)) by lia. run_done.
    rewrite (proj2 (Z.eqb_neq i (num - 1))) by lia. run_done.
    assert (exists id' d', u16 id' /\ u16 (next_message_id d') /\
      (if 0 <? i then st_fst MessageDispatcher_next_message_id else mret id) (d, (bp, c)) =
        Some ((d', (bp, c)), Ok id')) as (id' & d' & Hid' & Hd' & Hrun).
    { destruct (0 <? i); [|by exists id, d]. eexists _, _. split; [|split; [|done]]; [done|apply wrap16_range]. }
    run_step Hrun.
    assert (Hir : 0 <= i < fragment_count len) by (fold num; lia).
    pose proof (chunk_length payload i Hir) as Hcl. fold len num in Hcl.
    rewrite (proj2 (Z.eqb_neq i (num - 1))) in Hcl by lia.
    pose proof (slice_run payload ltac:(lia) i Hir) as Hsl. rewrite Hcl in Hsl. rewrite Hsl. run_done.
    destruct (ch_enqueue_law id' (chunk payload i) (Yes (MkFragment i num parent)) bp c Hbp Hc Hch)
      as (bp1 & c1 & m & Hen & Hbp1 & Hc1 & Hci & _).
    { split; [done|]. rewrite Hcl. split; [lia|]. split; simpl; lia. }
    erewrite run_bind_ok by (unfold st_snd, st_zoom; cbn [snd]; rewrite Hen; done). cbn beta iota.
    apply IH; try done; lia.
Qed.
End large_panics.

(** C37. In a build with overflow checks, a payload of 64 kB or more, although
    within the configured maximum, panics the sender: the size of its last
    fragment is computed on [u16]. *)
Theorem large_message_panics `{BP : BuildProfile, BO : ByteOrder} {C} (CT : ChannelT C) (CL : ChannelLaws C CT)
    payload d bp (c : C) :
  overflow_checks = true -> 65536 <= Z.of_nat (length payload) <= 1048576 ->
  u16 (next_message_id d) -> has_pool bp -> ch_wf c -> 0 <= ch_id c < 64 ->
  MessageDispatcher_add_message_to_channel payload (d, (bp, c)) = None.
Proof.
  intros Hdebug Hlen Hid Hbp Hc Hch. set (len := Z.of_nat (length payload)) in *.
  pose proof (fragment_count_bounds len ltac:(lia)) as Hb.
  unfold MessageDispatcher_add_message_to_channel, MessageDispatcher_add_large_message_to_channel. fold len.
  rewrite (proj2 (Z.leb_gt len 1024)), (proj2 (Z.ltb_lt 1024 len)) by lia. run_done.
  rewrite fragment_count_code by lia. rewrite (wrap16_small (fragment_count len)) by lia.
  erewrite run_bind_ok by (unfold st_fst, st_zoom; cbn [fst]; rewrite next_message_id_run; done). cbn beta iota.
  apply run_bind_panic. cbn [snd].
  replace (Z.to_nat (fragment_count len)) with (S (Z.to_nat (fragment_count len) - 1)) by lia.
  apply fragment_loop_panics; fold len; try done; [lia|apply wrap16_range].
Qed.

Lemma large_message_panics_witness :
  @MessageDispatcher_add_message_to_channel debug_build big_endian _ (@UnreliableChannelT debug_build big_endian)
    (replicate (Z.to_nat 70000) 7) (example_dispatcher, (example_pool, UnreliableChannel_new 0 (f64_lit 1 1))) = None.
Proof.
  apply (large_message_panics (BP:=debug_build) (BO:=big_endian) UnreliableChannelT UnreliableChannel_laws);
    [done|rewrite length_replicate; lia|simpl; lia|apply example_pool_has_pool|apply UnreliableChannel_new_wf|simpl; lia].
Defined.

(** C35. The record of fragmented messages has 25000 slots by default, so that
    less than 7768 ids ahead of the last one it holds count as new.  Once small
    messages have used up that many ids, the next large message is refused with
    [SequenceTooOld], but only after all its fragments were queued: they are
    sent and the peer delivers the message, while the sender was told that it
    failed and hears of no ack. *)
Theorem late_large_message_refused `{BP : BuildProfile, BO : ByteOrder} {C} (CT : ChannelT C) (CL : ChannelLaws C CT)
    payload d bp (c : C) :
  let len := Z.of_nat (length payload) in let num := fragment_count len in
  1024 < len <= 1048576 -> (overflow_checks = true -> len < 65536) ->
  sent_frag_map d = SentFragMap_with_capacity (sent_frag_map_size PicklebackConfig_default) ->
  7768 <= next_message_id d <= 40535 -> has_pool bp -> ch_wf c -> 0 <= ch_id c < 64 ->
  exists d' bp' c' ms, MessageDispatcher_add_message_to_channel payload (d, (bp, c)) =
      Some ((d', (bp', c')), Err SequenceTooOld) /\
    ch_wf c' /\ ch_messages c' = ch_messages c ++ ms /\
    Forall2 (sent_fragment (ch_id c) (next_message_id d) num payload) (seqZ 0 num) ms /\
    next_message_id d' = wrap16 (next_message_id d + num) /\ sent_frag_map d' = sent_frag_map d.
Proof.
  intros len num Hlen Hprof Hmap Hid Hbp Hc Hch.
  assert (Hwf : SeqBufFacts.wf (sfm_m (sent_frag_map d))).
  { rewrite Hmap. apply SeqBufFacts.with_capacity_wf. simpl. lia. }
  assert (Hold : SeqBufFacts.too_old (sfm_m (sent_frag_map d)) (next_message_id d) = true).
  { rewrite Hmap. unfold SeqBufFacts.too_old, SeqBuf.len. cbn [sfm_m SentFragMap_with_capacity entries SeqBuf.with_capacity sequence].
    rewrite length_replicate. change (wrap16 (0 - wrap16 (Z.of_nat (Z.to_nat (sent_frag_map_size PicklebackConfig_default))))) with 40536.
    unfold sequence_less_than, sequence_greater_than. lia. }
  destruct (add_large_run payload d bp c Hlen Hprof ltac:(lia) Hwf Hbp Hc Hch)
    as (sfm & bp' & c' & ms & r0 & Hins & Hrun & _ & Hc' & _ & _ & Hm & Hall). fold len num in Hrun, Hall.
  revert Hins. unfold SentFragMap_insert_fragmented_message, sfm_zoom, st_zoom.
  rewrite SeqBufFacts.insert_run, Hold by (done || lia). intros [= <- <-].
  eexists _, bp', c', ms. split.
  { unfold MessageDispatcher_add_message_to_channel. rewrite (proj2 (Z.leb_gt _ _)) by lia. exact Hrun. }
  split_and!; try done. cbn. by destruct (sent_frag_map d).
Qed.

Lemma late_large_message_refused_witness :
  exists d' bp' c' ms, @MessageDispatcher_add_message_to_channel debug_build big_endian _ (@UnreliableChannelT debug_build big_endian)
      (replicate 2500 7) (set_next_id 7768 example_dispatcher, (example_pool, UnreliableChannel_new 0 (f64_lit 1 1))) =
      Some ((d', (bp', c')), Err SequenceTooOld) /\
    ch_wf (CT:=@UnreliableChannelT debug_build big_endian) c' /\ u_q c' = [] ++ ms /\
    Forall2 (@sent_fragment big_endian 0 7768 3 (replicate 2500 7)) (seqZ 0 3) ms /\
    next_message_id d' = 7771 /\ sent_frag_map d' = sent_frag_map example_dispatcher.
Proof.
  apply (late_large_message_refused (BP:=debug_build) (BO:=big_endian) UnreliableChannelT
           UnreliableChannel_laws (replicate 2500 7) (set_next_id 7768 example_dispatcher) example_pool
           (UnreliableChannel_new 0 (f64_lit 1 1))).
  - rewrite length_replicate. lia.
  - rewrite length_replicate. lia.
  - reflexivity.
  - simpl. lia.
  - apply example_pool_has_pool.
  - apply UnreliableChannel_new_wf.
  - simpl. lia.
Defined.
