(* ===== verification/Endpoint.v ===== *)
(** * The endpoint ([endpoint.rs])

    One of the two ends of a link: assigns packet ids, packs the channels'
    messages into packets, records what it sent and received, and turns the
    acks of incoming packets into message acks, round-trip time and loss. *)

From S2P Require Import Prelude Floats Types SequenceBuffer Cursor BufferPool AckHeader Message Packets Reassembler Channel Dispatcher.

Record Pickleback := MkPickleback {
  time : f64;
  rtt : f32;
  packet_loss : f32;
  config : PicklebackConfig;
  sequence_id : Z;
  newest_ack : option Z;
  ack_low_watermark : option PacketId;
  ack_low_watermark_non_empty : option PacketId;
  dispatcher : MessageDispatcher;
  ep_channels : ChannelList;
  sent_buffer : SequenceBuffer SentMeta;
  received_buffer : SequenceBuffer ReceivedMeta;
  stats : PicklebackStats;
  outbox : list PooledBuffer;
  pool : BufPool;
  xor_salt : option Z;
}.

(** Writes to one field. *)
Definition set_time (v : f64) (p : Pickleback) : Pickleback :=
  MkPickleback v (rtt p) (packet_loss p) (config p) (sequence_id p) (newest_ack p)
    (ack_low_watermark p) (ack_low_watermark_non_empty p) (dispatcher p) (ep_channels p)
    (sent_buffer p) (received_buffer p) (stats p) (outbox p) (pool p) (xor_salt p).
Definition set_rtt (v : f32) (p : Pickleback) : Pickleback :=
  MkPickleback (time p) v (packet_loss p) (config p) (sequence_id p) (newest_ack p)
    (ack_low_watermark p) (ack_low_watermark_non_empty p) (dispatcher p) (ep_channels p)
    (sent_buffer p) (received_buffer p) (stats p) (outbox p) (pool p) (xor_salt p).
Definition set_packet_loss (v : f32) (p : Pickleback) : Pickleback :=
  MkPickleback (time p) (rtt p) v (config p) (sequence_id p) (newest_ack p) (ack_low_watermark p)
    (ack_low_watermark_non_empty p) (dispatcher p) (ep_channels p) (sent_buffer p) (received_buffer
    p) (stats p) (outbox p) (pool p) (xor_salt p).
Definition set_sequence_id (v : Z) (p : Pickleback) : Pickleback :=
  MkPickleback (time p) (rtt p) (packet_loss p) (config p) v (newest_ack p) (ack_low_watermark p)
    (ack_low_watermark_non_empty p) (dispatcher p) (ep_channels p) (sent_buffer p) (received_buffer
    p) (stats p) (outbox p) (pool p) (xor_salt p).
Definition set_newest_ack (v : option Z) (p : Pickleback) : Pickleback :=
  MkPickleback (time p) (rtt p) (packet_loss p) (config p) (sequence_id p) v (ack_low_watermark p)
    (ack_low_watermark_non_empty p) (dispatcher p) (ep_channels p) (sent_buffer p) (received_buffer
    p) (stats p) (outbox p) (pool p) (xor_salt p).
Definition set_ack_low_watermark (v : option PacketId) (p : Pickleback) : Pickleback :=
  MkPickleback (time p) (rtt p) (packet_loss p) (config p) (sequence_id p) (newest_ack p) v
    (ack_low_watermark_non_empty p) (dispatcher p) (ep_channels p) (sent_buffer p) (received_buffer
    p) (stats p) (outbox p) (pool p) (xor_salt p).
Definition set_ack_low_watermark_non_empty (v : option PacketId) (p : Pickleback) : Pickleback :=
  MkPickleback (time p) (rtt p) (packet_loss p) (config p) (sequence_id p) (newest_ack p)
    (ack_low_watermark p) v (dispatcher p) (ep_channels p) (sent_buffer p) (received_buffer p)
    (stats p) (outbox p) (pool p) (xor_salt p).
Definition set_dispatcher (v : MessageDispatcher) (p : Pickleback) : Pickleback :=
  MkPickleback (time p) (rtt p) (packet_loss p) (config p) (sequence_id p) (newest_ack p)
    (ack_low_watermark p) (ack_low_watermark_non_empty p) v (ep_channels p) (sent_buffer p)
    (received_buffer p) (stats p) (outbox p) (pool p) (xor_salt p).
Definition set_ep_channels (v : ChannelList) (p : Pickleback) : Pickleback :=
  MkPickleback (time p) (rtt p) (packet_loss p) (config p) (sequence_id p) (newest_ack p)
    (ack_low_watermark p) (ack_low_watermark_non_empty p) (dispatcher p) v (sent_buffer p)
    (received_buffer p) (stats p) (outbox p) (pool p) (xor_salt p).
Definition set_sent_buffer (v : SequenceBuffer SentMeta) (p : Pickleback) : Pickleback :=
  MkPickleback (time p) (rtt p) (packet_loss p) (config p) (sequence_id p) (newest_ack p)
    (ack_low_watermark p) (ack_low_watermark_non_empty p) (dispatcher p) (ep_channels p) v
    (received_buffer p) (stats p) (outbox p) (pool p) (xor_salt p).
Definition set_received_buffer (v : SequenceBuffer ReceivedMeta) (p : Pickleback) : Pickleback :=
  MkPickleback (time p) (rtt p) (packet_loss p) (config p) (sequence_id p) (newest_ack p)
    (ack_low_watermark p) (ack_low_watermark_non_empty p) (dispatcher p) (ep_channels p)
    (sent_buffer p) v (stats p) (outbox p) (pool p) (xor_salt p).
Definition set_stats (v : PicklebackStats) (p : Pickleback) : Pickleback :=
  MkPickleback (time p) (rtt p) (packet_loss p) (config p) (sequence_id p) (newest_ack p)
    (ack_low_watermark p) (ack_low_watermark_non_empty p) (dispatcher p) (ep_channels p)
    (sent_buffer p) (received_buffer p) v (outbox p) (pool p) (xor_salt p).
Definition set_outbox (v : list PooledBuffer) (p : Pickleback) : Pickleback :=
  MkPickleback (time p) (rtt p) (packet_loss p) (config p) (sequence_id p) (newest_ack p)
    (ack_low_watermark p) (ack_low_watermark_non_empty p) (dispatcher p) (ep_channels p)
    (sent_buffer p) (received_buffer p) (stats p) v (pool p) (xor_salt p).
Definition set_pool (v : BufPool) (p : Pickleback) : Pickleback :=
  MkPickleback (time p) (rtt p) (packet_loss p) (config p) (sequence_id p) (newest_ack p)
    (ack_low_watermark p) (ack_low_watermark_non_empty p) (dispatcher p) (ep_channels p)
    (sent_buffer p) (received_buffer p) (stats p) (outbox p) v (xor_salt p).
Definition set_xor_salt (v : option Z) (p : Pickleback) : Pickleback :=
  MkPickleback (time p) (rtt p) (packet_loss p) (config p) (sequence_id p) (newest_ack p)
    (ack_low_watermark p) (ack_low_watermark_non_empty p) (dispatcher p) (ep_channels p)
    (sent_buffer p) (received_buffer p) (stats p) (outbox p) (pool p) v.

Section fields.
Context {A : Type}.
Definition on_pool_field : M BufPool A -> M Pickleback A := st_zoom pool set_pool.
Definition on_dispatcher : M MessageDispatcher A -> M Pickleback A := st_zoom dispatcher set_dispatcher.
Definition on_sent_buffer : M (SequenceBuffer SentMeta) A -> M Pickleback A := st_zoom sent_buffer set_sent_buffer.
Definition on_received_buffer : M (SequenceBuffer ReceivedMeta) A -> M Pickleback A :=
  st_zoom received_buffer set_received_buffer.
Definition on_dispatcher_channels : M (MessageDispatcher * ChannelList) A -> M Pickleback A :=
  st_zoom (fun p => (dispatcher p, ep_channels p)) (fun '(d, l) p => set_ep_channels l (set_dispatcher d p)).
End fields.

Definition modify_stats (f : PicklebackStats -> PicklebackStats) : M Pickleback unit :=
  st_modify (fun p => set_stats (f (stats p)) p).

Section stats.
Implicit Types s : PicklebackStats.
Definition count_packets_sent s := {| packets_sent := packets_sent s + 1; packets_received := packets_received s;
  packets_acked := packets_acked s; packets_stale := packets_stale s; packets_duplicate := packets_duplicate s;
  message_sends := message_sends s; messages_sent := messages_sent s; messages_received := messages_received s |}.
Definition count_packets_received s := {| packets_sent := packets_sent s; packets_received := packets_received s + 1;
  packets_acked := packets_acked s; packets_stale := packets_stale s; packets_duplicate := packets_duplicate s;
  message_sends := message_sends s; messages_sent := messages_sent s; messages_received := messages_received s |}.
Definition count_packets_acked s := {| packets_sent := packets_sent s; packets_received := packets_received s;
  packets_acked := packets_acked s + 1; packets_stale := packets_stale s; packets_duplicate := packets_duplicate s;
  message_sends := message_sends s; messages_sent := messages_sent s; messages_received := messages_received s |}.
Definition count_packets_stale s := {| packets_sent := packets_sent s; packets_received := packets_received s;
  packets_acked := packets_acked s; packets_stale := packets_stale s + 1; packets_duplicate := packets_duplicate s;
  message_sends := message_sends s; messages_sent := messages_sent s; messages_received := messages_received s |}.
Definition count_packets_duplicate s := {| packets_sent := packets_sent s; packets_received := packets_received s;
  packets_acked := packets_acked s; packets_stale := packets_stale s; packets_duplicate := packets_duplicate s + 1;
  message_sends := message_sends s; messages_sent := messages_sent s; messages_received := messages_received s |}.
Definition count_message_sends s := {| packets_sent := packets_sent s; packets_received := packets_received s;
  packets_acked := packets_acked s; packets_stale := packets_stale s; packets_duplicate := packets_duplicate s;
  message_sends := message_sends s + 1; messages_sent := messages_sent s; messages_received := messages_received s |}.
Definition count_messages_sent (n : Z) s := {| packets_sent := packets_sent s; packets_received := packets_received s;
  packets_acked := packets_acked s; packets_stale := packets_stale s; packets_duplicate := packets_duplicate s;
  message_sends := message_sends s; messages_sent := messages_sent s + n; messages_received := messages_received s |}.
Definition count_messages_received s := {| packets_sent := packets_sent s; packets_received := packets_received s;
  packets_acked := packets_acked s; packets_stale := packets_stale s; packets_duplicate := packets_duplicate s;
  message_sends := message_sends s; messages_sent := messages_sent s; messages_received := messages_received s + 1 |}.
End stats.

(** ** Queries *)
Definition received_unacked_packets (self : Pickleback) : Z :=
  match ack_low_watermark self with
  | Some lowest_ack => wrap16 (sequence (received_buffer self) - lowest_ack)
  | None => sequence (received_buffer self)
  end.

Definition received_unacked_non_empty_packets (self : Pickleback) : Z :=
  match ack_low_watermark_non_empty self with
  | Some lowest_ack =>
      if negb (sequence_less_than (sequence (received_buffer self)) lowest_ack) then 0
      else wrap16 (sequence (received_buffer self) - lowest_ack)
  | None => 0
  end.

Definition sent_unacked_packets (self : Pickleback) : Z :=
  wrap16 (sequence (sent_buffer self) - default 0 (newest_ack self)).

Definition num_packets_to_send (self : Pickleback) : Z := Z.of_nat (length (outbox self)).
Definition has_packets_to_send (self : Pickleback) : bool := match outbox self with [] => false | _ => true end.
Definition sent_info (self : Pickleback) (sent_handle : PacketId) : option (option SentMeta) :=
  SeqBuf.get (sent_buffer self) sent_handle.

(** How many messages wait in the channels: the packing loops are run with
    this much fuel, which their theorems show to be enough. *)
Definition Channel_queue_len (c : Channel) : nat :=
  match c with Unreliable u => length (u_q u) | Reliable r => length (r_q r) end.
Definition ChannelList_queue_len (l : ChannelList) : nat :=
  map_fold (fun _ c n => (Channel_queue_len c + n)%nat) 0%nat (channels l).

Section operations.
Context `{BP : BuildProfile, BO : ByteOrder, SM : SmallMap}.

Definition Pickleback_new (cfg : PicklebackConfig) (time : f64) : option Pickleback :=
  match (ChannelList_insert (Unreliable (UnreliableChannel_new 0 time));;
         ChannelList_insert (Reliable (ReliableChannel_new 1 time))) ChannelList_default with
  | Some (channels, Ok _) =>
      Some {|
        time := time;
        rtt := S754_zero false;
        packet_loss := S754_zero false;
        config := cfg;
        sequence_id := 0;
        newest_ack := None;
        ack_low_watermark := None;
        ack_low_watermark_non_empty := None;
        sent_buffer := SeqBuf.with_capacity (sent_packets_buffer_size cfg);
        received_buffer := SeqBuf.with_capacity (received_packets_buffer_size cfg);
        dispatcher := MessageDispatcher_new cfg;
        stats := PicklebackStats_default;
        outbox := [];
        ep_channels := channels;
        pool := match buffer_pools_config cfg with Some c => BufPool_new c | None => BufPool_default end;
        xor_salt := None;
      |}
  | _ => None
  end.

Definition Pickleback_default : option Pickleback := Pickleback_new PicklebackConfig_default (f64_lit 1 1).

(** *** Sending messages *)
Definition send_message (channel : Z) (message_payload : list Z) : M Pickleback MessageId :=
  self ← st_get;
  if max_message_size (config self) <? Z.of_nat (length message_payload) then st_throw PayloadTooBig
  else if MAX_UNACKED_PACKETS <=? sent_unacked_packets self then st_throw (BackpressureErr TooManyPending)
  else
    modify_stats count_message_sends;;
    match ChannelList_get (ep_channels self) channel with
    | None => st_throw NoSuchChannel
    | Some ch =>
        st_zoom (fun p => (dispatcher p, (pool p, ch)))
          (fun '(d, (bp, ch')) p =>
             set_dispatcher d (set_pool bp (set_ep_channels (ChannelList_set channel ch' (ep_channels p)) p)))
          (MessageDispatcher_add_message_to_channel message_payload)
    end.

(** *** Packet headers *)
Definition next_packet_header (t : PacketType) : M Pickleback ProtocolPacketHeader :=
  st_modify (fun p => set_sequence_id (wrap16 (sequence_id p + 1)) p);;
  self ← st_get;
  let id := sequence_id self in
  let num_acks_required := received_unacked_packets self in
  if MAX_UNACKED_PACKETS <? num_acks_required then st_throw (BackpressureErr TooManyPending)
  else
    ack_iter ← st_lift (AckIter_with_minimum_length (received_buffer self) num_acks_required);
    acks ← st_lift (AckIter_collect ack_iter);
    r ← st_lift (ProtocolPacketHeader_new id acks num_acks_required t);
    st_result r.

Definition write_packet_header `{Write W} : M (Pickleback * W) Z :=
  header ← st_fst (next_packet_header TMessages);
  st_snd (ProtocolPacketHeader_write header);;
  '(self, _) ← st_get;
  salt ← st_lift (xor_salt self);
  st_snd (write_u64 salt);;
  mret (ProtocolPacketHeader_size header + 8).

Definition send_raw_packet (packet : PooledBuffer) : M Pickleback unit :=
  self ← st_get;
  let send_size := vec_len packet + packet_header_size (config self) in
  let acking_up_to := sequence (received_buffer self) in
  on_sent_buffer (SeqBuf.insert (sequence_id self) (SentMeta_new (time self) send_size acking_up_to));;
  st_modify (fun p => set_outbox (outbox p ++ [packet]) p);;
  modify_stats count_packets_sent.

Definition send_packet (packet : ProtocolPacket) : M Pickleback unit :=
  self ← st_get;
  buf ← on_pool_field (write_packet (config self) packet);
  send_raw_packet buf.

Definition send_empty_packet : M Pickleback unit :=
  self ← st_get;
  if MAX_UNACKED_PACKETS <=? sent_unacked_packets self then st_throw (BackpressureErr TooManyPending)
  else
    packet ← on_pool_field (get_buffer 1300);
    '(cursor, _) ← st_with (VecCursor_new packet) write_packet_header;
    send_raw_packet (vc_vec cursor).

(** *** Packing messages into packets *)

(** What [write_channel_messages_to_packet] borrows. *)
Record PackState := MkPack {
  pk_channel : Channel;
  pk_cursor : BufferLimitedWriter;
  pk_handles : list MessageHandle;
  pk_pool : BufPool;
}.

Definition on_pk_channel {A} : M Channel A -> M PackState A :=
  st_zoom pk_channel (fun x p => MkPack x (pk_cursor p) (pk_handles p) (pk_pool p)).
Definition on_pk_cursor {A} : M BufferLimitedWriter A -> M PackState A :=
  st_zoom pk_cursor (fun x p => MkPack (pk_channel p) x (pk_handles p) (pk_pool p)).
Definition on_pk_pool {A} : M BufPool A -> M PackState A :=
  st_zoom pk_pool (fun x p => MkPack (pk_channel p) (pk_cursor p) (pk_handles p) x).

(** The loop; it returns [num_written]. *)
Fixpoint write_channel_messages (fuel : nat) (num_written : Z) : M PackState Z :=
  match fuel with
  | O => st_panic
  | S fuel' =>
      p ← st_get;
      msg ← on_pk_channel (get_message_to_write_to_a_packet (WriteLimiter_remaining (pk_cursor p)));
      match msg with
      | None => mret num_written
      | Some msg =>
          on_pk_cursor (write_all (Message_as_slice msg));;
          st_modify (fun p => MkPack (pk_channel p) (pk_cursor p)
            (pk_handles p ++ [{| mh_id := m_id msg; frag_index := f_index <$> m_fragment msg;
                                 mh_channel := ch_id (pk_channel p) |}]) (pk_pool p));;
          on_pk_pool (return_buffer (Message_take_buffer msg).1);;
          p ← st_get;
          if WriteLimiter_remaining (pk_cursor p) <? 3 then mret (num_written + 1)
          else write_channel_messages fuel' (num_written + 1)
      end
  end.

Definition write_channel_messages_to_packet : M PackState Z := fun p =>
  write_channel_messages (S (Channel_queue_len (pk_channel p))) 0 p.

(** The local variables of [compose_packets]; the packet's buffer is inside
    its writer. *)
Record Locals := MkLocals {
  l_writer : option BufferLimitedWriter;
  l_handles : list MessageHandle;
  l_sent_something : bool;
}.

(** [Self::write_channel_messages_to_packet(channel, ..)] on a channel of
    the list; a packet is being written. *)
Definition pack_channel (id : Z) : M (Pickleback * Locals) Z := fun '(self, l) =>
  match ChannelList_get (ep_channels self) id, l_writer l with
  | Some ch, Some w =>
      match write_channel_messages_to_packet (MkPack ch w (l_handles l) (pool self)) with
      | Some (p, r) =>
          Some ((set_pool (pk_pool p) (set_ep_channels (ChannelList_set id (pk_channel p) (ep_channels self)) self),
                 MkLocals (Some (pk_cursor p)) (pk_handles p) (l_sent_something l)), r)
      | None => None
      end
  | _, _ => None
  end.

(** The inner [while let]: fill the packet from the channels. *)
Fixpoint fill_packet (fuel : nat) : M (Pickleback * Locals) unit :=
  match fuel with
  | O => st_panic
  | S fuel' =>
      '(self, _) ← st_get;
      match ChannelList_first_non_empty (ep_channels self) with
      | None => mret tt
      | Some id =>
          num_written ← pack_channel id;
          if num_written =? 0 then mret tt
          else
            st_fst (modify_stats (count_messages_sent num_written));;
            '(_, l) ← st_get;
            w ← st_lift (l_writer l);
            if WriteLimiter_remaining w <? 3 then mret tt
            else fill_packet fuel'
      end
  end.

(** A new packet with its header written, when none is being written. *)
Definition start_packet : M (Pickleback * Locals) unit :=
  '(self, l) ← st_get;
  match l_writer l with
  | Some _ => mret tt
  | None =>
      if MAX_UNACKED_PACKETS <=? sent_unacked_packets self then st_throw (BackpressureErr TooManyPending)
      else
        packet ← st_fst (on_pool_field (get_buffer (max_packet_size (config self))));
        '(w, _) ← st_fst (st_with (WriteLimiter_new (VecCursor_new packet) (max_packet_size (config self)))
                            write_packet_header);
        st_snd (st_modify (fun l => MkLocals (Some w) (l_handles l) (l_sent_something l)))
  end.

(** The packet goes out when anything was written to it. *)
Definition finish_packet : M (Pickleback * Locals) unit :=
  '(self, l) ← st_get;
  w ← st_lift (l_writer l);
  if negb (WriteLimiter_remaining w =? max_packet_size (config self)) then
    st_snd (st_put (MkLocals None (l_handles l) true));;
    st_fst (send_raw_packet (vc_vec (wl_writer w)));;
    '(self, l) ← st_get;
    st_snd (st_put (MkLocals (l_writer l) [] (l_sent_something l)));;
    st_fst (on_dispatcher (MessageDispatcher_set_packet_message_handles (sequence_id self) (l_handles l)))
  else mret tt.

(** The outer [while]. *)
Fixpoint compose_loop (fuel : nat) : M (Pickleback * Locals) unit :=
  '(self, _) ← st_get;
  if negb (ChannelList_any_with_messages_to_send (ep_channels self)) then mret tt
  else
    match fuel with
    | O => st_panic
    | S fuel' =>
        start_packet;;
        '(self, _) ← st_get;
        fill_packet (S (ChannelList_queue_len (ep_channels self)));;
        finish_packet;;
        compose_loop fuel'
    end.

(** At most [MAX_UNACKED_PACKETS] packets go out before backpressure stops
    the loop: the fuel is one more. *)
Definition compose_packets : M Pickleback unit :=
  self ← st_get;
  if MAX_UNACKED_PACKETS <=? sent_unacked_packets self then st_throw (BackpressureErr TooManyPending)
  else
    '(_, _) ← st_with (MkLocals None [] false) (compose_loop (S (Z.to_nat MAX_UNACKED_PACKETS)));
    mret tt.

(** [visit_packets_to_send]: the packets [send_fn] sees, in order. *)
Definition visit_packets_to_send : M Pickleback (list (list Z)) :=
  r ← st_try compose_packets;
  match r with
  | Ok _ | Err (BackpressureErr _) =>
      self ← st_get;
      let packets := outbox self in
      st_modify (set_outbox []);;
      st_for packets (fun packet => on_pool_field (return_buffer packet));;
      mret (vdata <$> packets)
  | Err _ => st_panic
  end.

(** *** Time *)
Definition update (dt : f64) : M Pickleback unit :=
  st_modify (fun p => set_time (f64_add (time p) dt) p);;
  st_modify (fun p => set_ep_channels (ChannelList_update dt (ep_channels p)) p).

(** *** Acks *)

(** A watermark moves up only. *)
Definition raise_watermark (acked_up_to : PacketId) (mark : option PacketId) : option PacketId :=
  match mark with
  | Some lowest_ack => if sequence_greater_than acked_up_to lowest_ack then Some acked_up_to else mark
  | None => Some acked_up_to
  end.

Definition smooth_rtt (self : Pickleback) (rtt' : f32) : f32 :=
  if (f_eq (rtt self) (S754_zero false) && f_gt rtt' (S754_zero false))
     || f_lt (f_abs (f32_sub (rtt self) rtt')) (f32_lit 1 100000)
  then rtt'
  else f32_add (rtt self) (f32_mul (f32_sub rtt' (rtt self)) (rtt_smoothing_factor (config self))).

(** One item of the ack iterator. *)
Definition process_ack (t : PacketType) (item : Z * bool) : M Pickleback unit :=
  let '(ack_sequence, is_acked) := item in
  if negb is_acked then mret tt
  else
    entry ← on_sent_buffer (st_asks (fun sb => SeqBuf.get_mut sb ack_sequence));
    match entry with
    | None => mret tt
    | Some (sent_data, write_sent_data) =>
        if sm_acked sent_data then mret tt
        else
          st_modify (fun p => set_newest_ack
            (match newest_ack p with
             | Some newest => if sequence_greater_than ack_sequence newest then Some ack_sequence else Some newest
             | None => Some ack_sequence
             end) p);;
          st_modify (fun p => set_ack_low_watermark
            (raise_watermark (sm_acked_up_to sent_data) (ack_low_watermark p)) p);;
          (if negb (bool_decide (t = TKeepAlive)) then
             st_modify (fun p => set_ack_low_watermark_non_empty
               (raise_watermark (sm_acked_up_to sent_data) (ack_low_watermark_non_empty p)) p)
           else mret tt);;
          modify_stats count_packets_acked;;
          on_sent_buffer (st_update (fun _ => write_sent_data
            {| sm_time := sm_time sent_data; sm_acked := true; sm_size := sm_size sent_data;
               sm_acked_up_to := sm_acked_up_to sent_data |}));;
          returned_buffers ← on_dispatcher_channels (MessageDispatcher_acked_packet ack_sequence);
          st_for returned_buffers (fun returned_buf => on_pool_field (return_buffer returned_buf));;
          st_modify (fun p => set_rtt
            (smooth_rtt p (f32_mul (f32_of_f64 (f64_sub (time p) (sm_time sent_data))) (f32_lit 1000 1))) p)
    end.

(** The samples of the loss estimate, from [seq] downwards:
    (num_acked, num_sampled). *)
Fixpoint sample_loss (fuel : nat) (sb : SequenceBuffer SentMeta) (sent_time_cutoff : f64) (seq : Z)
    (num_acked num_sampled : Z) : option (Z * Z) :=
  match fuel with
  | O => None
  | S fuel' =>
      meta ← SeqBuf.get sb seq;
      match meta with
      | None => Some (num_acked, num_sampled)
      | Some meta =>
          let seq := wrap16 (seq - 1) in
          if f_gt (sm_time meta) sent_time_cutoff then sample_loss fuel' sb sent_time_cutoff seq num_acked num_sampled
          else
            let num_sampled := num_sampled + 1 in
            let num_acked := if sm_acked meta then num_acked + 1 else num_acked in
            if num_sampled =? PACKET_LOSS_RECALCULATE_INTERVAL then Some (num_acked, num_sampled)
            else sample_loss fuel' sb sent_time_cutoff seq num_acked num_sampled
      end
  end.

Definition update_packet_loss_calculation : M Pickleback unit :=
  self ← st_get;
  let sent_time_cutoff := f64_sub (time self) (f64_mul (f64_of_f32 (rtt self)) (f64_lit 11 10)) in
  '(num_acked, num_sampled) ← st_lift
    (sample_loss (S (Z.to_nat (SeqBuf.len (sent_buffer self)))) (sent_buffer self) sent_time_cutoff
       (sequence (sent_buffer self)) 0 0);
  if num_sampled =? 0 then mret tt
  else
    let loss := f32_sub (f32_lit 1 1) (f32_div (f32_of_Z num_acked) (f32_of_Z num_sampled)) in
    st_put (set_packet_loss
      (f32_add (packet_loss self)
         (f32_mul (f32_sub loss (packet_loss self)) (packet_loss_smoothing_factor (config self)))) self).

Definition process_packet_acks_and_rtt (header : ProtocolPacketHeader) : M Pickleback unit :=
  match ProtocolPacketHeader_acks header with
  | None => mret tt
  | Some ack_iter =>
      acks ← st_lift (AckHeader_collect ack_iter);
      st_for acks (process_ack (packet_type header));;
      self ← st_get;
      if sequence_id self mod PACKET_LOSS_RECALCULATE_INTERVAL =? 0 then update_packet_loss_calculation
      else mret tt
  end.

(** *** Incoming packets *)

(** A parsed message goes to its channel's filter, and on to the dispatcher;
    a message for no channel is dropped. *)
Definition deliver_message (msg : Message) : M Pickleback unit :=
  self ← st_get;
  match ChannelList_get (ep_channels self) (m_channel msg) with
  | None => mret tt
  | Some ch =>
      accepted ← st_zoom (fun _ => ch)
        (fun ch' p => set_ep_channels (ChannelList_set (m_channel msg) ch' (ep_channels p)) p)
        (accepts_message msg);
      if accepted : bool then on_dispatcher (MessageDispatcher_process_received_message msg)
      else mret tt
  end.

(** [while payload_reader.remaining() > 0]: every message read takes at
    least one byte, so one round per byte is fuel enough. *)
Fixpoint read_messages (fuel : nat) : M (Pickleback * Cursor) unit :=
  '(_, payload_reader) ← st_get;
  if negb (0 <? remaining payload_reader) then mret tt
  else
    match fuel with
    | O => st_panic
    | S fuel' =>
        msg ← st_zoom (fun '(p, c) => (pool p, c)) (fun '(bp, c) '(p, _) => (set_pool bp p, c)) Message_parse;
        st_fst (modify_stats count_messages_received);;
        st_fst (deliver_message msg);;
        read_messages fuel'
    end.

Definition process_incoming_packet (header : ProtocolPacketHeader) : M (Pickleback * Cursor) unit :=
  st_fst (modify_stats count_packets_received);;
  '(self, payload_reader) ← st_get;
  if negb (SeqBuf.check_sequence (received_buffer self) (h_id header)) then
    st_fst (modify_stats count_packets_stale);; st_throw StalePacket
  else
    duplicate ← st_lift (SeqBuf.exists_ (received_buffer self) (h_id header));
    if duplicate : bool then
      st_fst (modify_stats count_packets_duplicate);; st_throw DuplicatePacket
    else
      let packet_len := ProtocolPacketHeader_size header + remaining payload_reader in
      st_fst (on_received_buffer (SeqBuf.insert (h_id header)
        (ReceivedMeta_new (time self) (packet_header_size (config self) + packet_len))));;
      st_fst (process_packet_acks_and_rtt header);;
      match packet_type header with
      | TMessages =>
          '(_, payload_reader) ← st_get;
          read_messages (Z.to_nat (remaining payload_reader))
      | _ => mret tt
      end.

(** *** What the user drains *)
Definition drain_received_messages (channel : Z) : M Pickleback ReceivedMessagesContainer :=
  messages ← on_dispatcher (MessageDispatcher_take_received_messages channel);
  mret (Container_new messages).

Definition drop_received_messages (c : ReceivedMessagesContainer) : M Pickleback unit :=
  on_pool_field (Container_drop c).

Definition drain_message_acks (channel : Z) : M Pickleback (list MessageId) :=
  on_dispatcher (MessageDispatcher_drain_message_acks channel).
End operations.
