(* ===== verification/Compose.v ===== *)
(** * Composing packets: proofs about the sending half of [endpoint.rs]

    That packing terminates within its fuel, that no packet exceeds the
    configured size, that the number of packets in flight is bounded, and
    what the packets' bytes are. *)

From S2P Require Import Prelude Floats Types SequenceBuffer Cursor BufferPool AckHeader Message Packets Reassembler Channel Dispatcher Endpoint.

(** A writer whose cursor is at the end of its vector, within its limit. *)
Abbreviation writer_ok := (ap_ok (W:=BufferLimitedWriter)) (only parsing).

Definition written (w : BufferLimitedWriter) : list Z := vdata (vc_vec (wl_writer w)).

(** Writing what fits. *)
Lemma emits_ok {A} (m : M BufferLimitedWriter A) bs a w : emits m bs a -> writer_ok w ->
  Z.of_nat (length bs) <= WriteLimiter_remaining w ->
  exists w', m w = Some (w', Ok a) /\ writer_ok w' /\ wl_limit w' = wl_limit w /\ written w' = written w ++ bs.
Proof.
  intros Hm Hw Hfit. destruct (Hm w Hw) as (w' & r & Hrun & Hw' & Hr).
  rewrite decide_True in Hr by (simpl; lia). destruct Hr as (-> & Hout & Hroom). simpl in Hout, Hroom.
  exists w'. split; [done|]. split; [done|]. split; [|exact Hout].
  destruct Hw as (_ & Hv & Hl). destruct Hw' as (_ & Hv' & Hl').
  unfold WriteLimiter_remaining, vec_len in *. injection Hroom as Hroom.
  rewrite Hout, length_app in Hv'. lia.
Qed.

Lemma writer_written w : writer_ok w -> Z.of_nat (length (written w)) = wl_limit w - WriteLimiter_remaining w.
Proof. intros (_ & Hv & Hl). unfold WriteLimiter_remaining, written, vec_len in *. lia. Qed.

(** ** One channel into one packet *)

Lemma Message_size_lower `{BuildProfile} m n : Message_size m = Some n ->
  Z.of_nat (length (Message_as_slice m)) + 4 <= n.
Proof.
  unfold Message_size, Message_as_slice, vec_len. destruct (m_fragment m) as [f|]; simpl.
  - destruct (Fragment_is_last f) as [b|]; [|done]. simpl. destruct (size_mode m), b; intros [= <-]; lia.
  - destruct (size_mode m); intros [= <-]; lia.
Qed.

Definition handle_of (ch : Z) (m : Message) : MessageHandle :=
  MkHandle (m_id m) (f_index <$> m_fragment m) ch.

(** [m] is a copy of a message of the channel. *)
Definition copy_from `{ChannelLaws C} (c : C) (m : Message) : Prop :=
  exists m0, m0 ∈ ch_messages c /\ same_message m m0.

(** A channel whose filter and promise are as before, and which keeps what it
    must keep. *)
Record channel_calm `{ChannelLaws C} (ch ch' : C) : Prop := {
  kc_seen : ch_seen ch' = ch_seen ch;
  kc_keeps : ch_keeps ch' = ch_keeps ch;
  kc_messages : ch_keeps ch = true -> forall m, m ∈ ch_messages ch -> m ∈ ch_messages ch';
}.

Lemma channel_calm_refl `{ChannelLaws C} (ch : C) : channel_calm ch ch.
Proof. by split. Qed.

Lemma channel_calm_trans `{ChannelLaws C} (a b c : C) : channel_calm a b -> channel_calm b c -> channel_calm a c.
Proof. intros [Hs Hk Hm] [Hs' Hk' Hm']. split; [congruence..|]. intros Ha m Hin. apply Hm'; [congruence|auto]. Qed.

Section pack.
Context `{BP : BuildProfile, BO : ByteOrder}.

(** A pack state that the loop can run on. *)
Record pack_ok (p : PackState) : Prop := {
  pa_channel : ch_wf (pk_channel p);
  pa_cursor : writer_ok (pk_cursor p);
  pa_pool : has_pool (pk_pool p);
}.

(** What packing the messages [ms] did. *)
Record packed (p : PackState) (ms : list Message) (p' : PackState) : Prop := {
  pd_ok : pack_ok p';
  pd_id : ch_id (pk_channel p') = ch_id (pk_channel p);
  pd_calm : channel_calm (pk_channel p) (pk_channel p');
  pd_sub : forall m, m ∈ ch_messages (pk_channel p') -> m ∈ ch_messages (pk_channel p);
  pd_ready : ch_ready (pk_channel p) = (length ms + ch_ready (pk_channel p'))%nat;
  pd_limit : wl_limit (pk_cursor p') = wl_limit (pk_cursor p);
  pd_written : written (pk_cursor p') = written (pk_cursor p) ++ concat (Message_as_slice <$> ms);
  pd_handles : pk_handles p' = pk_handles p ++ (handle_of (ch_id (pk_channel p)) <$> ms);
  pd_from : Forall (copy_from (pk_channel p)) ms;
  pd_due : forall x, x ∈ ch_due (pk_channel p) -> x ∈ ch_due (pk_channel p') \/ exists m, m ∈ ms /\ m_id x = m_id m;
}.

Lemma packed_nil p : pack_ok p -> packed p [] p.
Proof. intros Hp. split; simpl; rewrite ?app_nil_r; (done || by left). Qed.

Lemma packed_trans p ms p1 ms' p2 : packed p ms p1 -> packed p1 ms' p2 -> packed p (ms ++ ms') p2.
Proof.
  intros [] []. split; try done; try congruence; auto.
  - by eapply channel_calm_trans.
  - rewrite length_app. lia.
  - by rewrite fmap_app, concat_app, app_assoc, <- pd_written0.
  - by rewrite fmap_app, app_assoc, <- pd_handles0, <- pd_id0.
  - apply Forall_app. split; [done|]. eapply Forall_impl; [done|].
    intros m (m0 & Hm0 & Hs). exists m0. auto.
  - intros x Hx. destruct (pd_due0 x Hx) as [Hx1|(m & Hm & He)]; [|right; exists m; split; [apply elem_of_app; by left|done]].
    destruct (pd_due1 x Hx1) as [Hx2|(m & Hm & He)]; [by left|right]. exists m. split; [apply elem_of_app; by right|done].
Qed.

(** One round of the loop. *)
Lemma pack_round p : pack_ok p ->
  exists p1 msg, on_pk_channel (get_message_to_write_to_a_packet (WriteLimiter_remaining (pk_cursor p))) p =
      Some (p1, Ok msg) /\
    match msg with
    | None => p1 = p
    | Some m => exists p', (on_pk_cursor (write_all (Message_as_slice m));;
          st_modify (fun p => MkPack (pk_channel p) (pk_cursor p)
            (pk_handles p ++ [handle_of (ch_id (pk_channel p)) m]) (pk_pool p));;
          on_pk_pool (return_buffer (Message_take_buffer m).1)) p1 = Some (p', Ok tt) /\ packed p [m] p'
    end.
Proof.
  intros [Hc Hw Hp].
  destruct (ch_get_law (WriteLimiter_remaining (pk_cursor p)) (pk_channel p) Hc)
    as (c' & r & Hrun & Hc' & Hid & Hseen & Hsub & Hr).
  exists (MkPack c' (pk_cursor p) (pk_handles p) (pk_pool p)), r.
  destruct (ch_get_keeps _ _ _ _ Hrun) as (Hkp & Hkm & Hdue).
  split; [unfold on_pk_channel, st_zoom; by rewrite Hrun|].
  destruct r as [m|]; [|rewrite Hr; by destruct p].
  destruct Hr as (m0 & n & Hin & Hsame & Hn & Hle & Hready). pose proof Hsame as (_ & _ & _ & _ & Hslice).
  apply Message_size_lower in Hn.
  destruct (emits_ok _ _ _ (pk_cursor p) (emits_write_all (Message_as_slice m)) Hw) as (w' & Hwr & Hw' & Hlim & Hout);
    [rewrite Hslice; lia|].
  destruct (return_buffer_run (Message_take_buffer m).1 (pk_pool p) Hp) as (bp' & Hret & Hp').
  eexists. split.
  - erewrite run_bind_ok by (unfold on_pk_cursor, st_zoom; cbn [pk_cursor]; rewrite Hwr; done). cbn beta iota.
    run_done. unfold on_pk_pool, st_zoom. cbn [pk_pool]. rewrite Hret. done.
  - split; cbn [pk_channel pk_cursor pk_handles pk_pool fmap list_fmap concat]; rewrite ?app_nil_r; try done.
    + split; [done..|]. intros Hk x Hx. by rewrite Hkm.
    + by rewrite Hid.
    + apply Forall_singleton. by exists m0.
    + intros x Hx. destruct (Hdue x Hx) as [|He]; [by left|right]. exists m. by split; [apply list_elem_of_singleton|].
Qed.

Lemma write_channel_messages_run fuel k p : pack_ok p -> (ch_ready (pk_channel p) < fuel)%nat ->
  exists p' ms, write_channel_messages fuel k p = Some (p', Ok (k + Z.of_nat (length ms))) /\ packed p ms p'.
Proof.
  revert k p. induction fuel as [|fuel IH]; intros k p Hp Hfuel; [lia|].
  destruct (pack_round p Hp) as (p1 & msg & Hget & Hr). cbn [write_channel_messages]. rewrite run_get.
  run_step Hget. destruct msg as [m|]; [|subst p1].
  - destruct Hr as (p' & Hwr & Hpk).
    erewrite run_seq3 by exact Hwr. rewrite run_get.
    destruct (WriteLimiter_remaining (pk_cursor p') <? 3).
    + exists p', [m]. split; [done|done].
    + destruct (IH (k + 1) p') as (p2 & ms & Hrun & Hpk2); [by apply (pd_ok _ _ _ Hpk)| |].
      { pose proof (pd_ready _ _ _ Hpk). simpl in *. lia. }
      exists p2, (m :: ms). rewrite Hrun. split; [do 3 f_equal; simpl; lia|].
      by apply (packed_trans p [m] p' ms p2).
  - exists p, []. split; [|by apply packed_nil]. simpl. by rewrite Z.add_0_r.
Qed.

Lemma Channel_queue_len_messages (c : Channel) : Channel_queue_len c = length (ch_messages c).
Proof. destruct c; simpl; [done|]. symmetry. apply length_fmap. Qed.

Lemma write_channel_messages_to_packet_run p : pack_ok p ->
  exists p' ms, write_channel_messages_to_packet p = Some (p', Ok (Z.of_nat (length ms))) /\ packed p ms p'.
Proof.
  intros Hp. apply (write_channel_messages_run _ 0 p Hp). rewrite Channel_queue_len_messages.
  pose proof (ch_ready_le (pk_channel p)). lia.
Qed.
End pack.

(** ** The list of channels *)
Section channels.
Context `{BP : BuildProfile, BO : ByteOrder, SM : SmallMap, SL : !SmallMapLaws SM}.

(** Every channel is well-formed and stored under its id. *)
Definition channels_ok (l : ChannelList) : Prop :=
  forall id ch, channels l !! id = Some ch -> ch_wf ch /\ ch_id ch = id /\ 0 <= id < MAX_CHANNELS.

Definition channel_sum (f : Channel -> nat) (m : gmap Z Channel) : nat :=
  map_fold (fun _ c n => (f c + n)%nat) 0%nat m.

Lemma channel_sum_insert f m id ch ch' : m !! id = Some ch ->
  (channel_sum f (<[id := ch']> m) + f ch = channel_sum f m + f ch')%nat.
Proof.
  intros Hm. unfold channel_sum.
  rewrite (map_fold_delete_L (fun _ c n => (f c + n)%nat) 0%nat id ch m), <- insert_delete_eq by (done || lia).
  rewrite (map_fold_insert_L _ _ id ch') by (try apply lookup_delete_eq; intros; lia). lia.
Qed.

Lemma channel_sum_le f m id ch : m !! id = Some ch -> (f ch <= channel_sum f m)%nat.
Proof.
  intros Hm. unfold channel_sum.
  rewrite (map_fold_delete_L (fun _ c n => (f c + n)%nat) 0%nat id ch m) by (done || lia). lia.
Qed.

Lemma channel_sum_mono f g m : (forall c, f c <= g c)%nat -> (channel_sum f m <= channel_sum g m)%nat.
Proof.
  intros Hfg. unfold channel_sum. induction m as [|id c m Hid IH] using map_ind.
  - by rewrite !map_fold_empty.
  - rewrite !map_fold_insert_L by (done || lia). specialize (Hfg c). lia.
Qed.

Definition ready_total (l : ChannelList) : nat := channel_sum ch_ready (channels l).

Lemma ready_total_queue l : (ready_total l <= ChannelList_queue_len l)%nat.
Proof.
  apply channel_sum_mono. intros c. rewrite Channel_queue_len_messages. apply ch_ready_le.
Qed.

Definition sends (l : ChannelList) (id : Z) : bool :=
  match channels l !! id with Some ch => any_ready_to_send ch | None => false end.

Lemma sends_spec l id : sends l id = true <-> exists ch, channels l !! id = Some ch /\ (0 < ch_ready ch)%nat.
Proof.
  unfold sends. destruct (channels l !! id) as [ch|]; [rewrite ch_ready_spec|]; split;
    [eauto|by intros (? & [= <-] & ?)|done|by intros (? & ? & ?)].
Qed.

Lemma in_keys l id ch : channels l !! id = Some ch -> In id (ChannelList_keys l).
Proof.
  intros Hl. apply list_elem_of_In. unfold ChannelList_keys. rewrite key_order_perm.
  apply elem_of_elements, elem_of_dom. by exists ch.
Qed.

Lemma first_non_empty_some l id : ChannelList_first_non_empty l = Some id ->
  exists ch, channels l !! id = Some ch /\ (0 < ch_ready ch)%nat.
Proof. unfold ChannelList_first_non_empty. intros [_ H]%find_some. by apply sends_spec. Qed.

Lemma first_non_empty_none l : ChannelList_first_non_empty l = None ->
  ChannelList_any_with_messages_to_send l = false.
Proof.
  intros Hn. unfold ChannelList_any_with_messages_to_send. apply not_true_iff_false.
  intros (id & Hin & Hs)%existsb_exists. by rewrite (find_none _ _ Hn id Hin) in Hs.
Qed.

Lemma any_with_messages l : ChannelList_any_with_messages_to_send l = true <->
  exists id ch, channels l !! id = Some ch /\ (0 < ch_ready ch)%nat.
Proof.
  unfold ChannelList_any_with_messages_to_send. rewrite existsb_exists. split.
  - intros (id & _ & Hs). exists id. by apply sends_spec.
  - intros (id & ch & Hl & Hr). exists id. split; [by eapply in_keys|]. apply sends_spec. eauto.
Qed.

(** A message of some channel of the list. *)
Definition queued (l : ChannelList) (m : Message) : Prop :=
  exists id ch, channels l !! id = Some ch /\ copy_from ch m.

(** [h] is the handle of a message [m] that its channel held. *)
Definition describes (l : ChannelList) (h : MessageHandle) (m : Message) : Prop :=
  mh_id h = m_id m /\ frag_index h = f_index <$> m_fragment m /\
  exists ch, channels l !! mh_channel h = Some ch /\ copy_from ch m.

(** The channels are the same, with the same ids seen, and every message of
    [l'] was in the same channel of [l]. *)
Definition channels_sub (l l' : ChannelList) : Prop :=
  (forall id, is_Some (channels l !! id) -> is_Some (channels l' !! id)) /\
  forall id ch', channels l' !! id = Some ch' ->
    exists ch, channels l !! id = Some ch /\ channel_calm ch ch' /\
      forall m, m ∈ ch_messages ch' -> m ∈ ch_messages ch.

Lemma channels_sub_refl l : channels_sub l l.
Proof. split; [done|]. intros id ch Hch. eauto using channel_calm_refl. Qed.

Lemma channels_sub_trans l1 l2 l3 : channels_sub l1 l2 -> channels_sub l2 l3 -> channels_sub l1 l3.
Proof.
  intros [D12 H12] [D23 H23]. split; [auto|].
  intros id ch3 H3. destruct (H23 id ch3 H3) as (ch2 & H2 & Hs2 & Hm2).
  destruct (H12 id ch2 H2) as (ch1 & H1 & Hs1 & Hm1). exists ch1.
  split; [done|]. split; [by eapply channel_calm_trans|auto].
Qed.

(** Every due message of [l] is still due in [l'], or is one that [hs] names. *)
Definition due_handled (l l' : ChannelList) (hs : list MessageHandle) : Prop :=
  forall c ch m, channels l !! c = Some ch -> m ∈ ch_due ch ->
    (exists ch', channels l' !! c = Some ch' /\ m ∈ ch_due ch') \/
    exists h, h ∈ hs /\ mh_channel h = c /\ mh_id h = m_id m.

Lemma due_handled_refl l : due_handled l l [].
Proof. intros c ch m Hch Hm. left. eauto. Qed.

Lemma due_handled_trans l1 l2 l3 hs hs' : due_handled l1 l2 hs -> due_handled l2 l3 hs' -> due_handled l1 l3 (hs ++ hs').
Proof.
  intros H12 H23 c ch m Hch Hm. destruct (H12 c ch m Hch Hm) as [(ch2 & Hch2 & Hm2)|(h & Hh & H)].
  - destruct (H23 c ch2 m Hch2 Hm2) as [|(h & Hh & H)]; [by left|right]. exists h. split; [apply elem_of_app; by right|done].
  - right. exists h. split; [apply elem_of_app; by left|done].
Qed.

Lemma copy_from_sub (ch ch' : Channel) m : (forall m, m ∈ ch_messages ch' -> m ∈ ch_messages ch) -> copy_from ch' m -> copy_from ch m.
Proof. intros Hsub (m0 & Hm0 & Hs). exists m0. auto. Qed.

Lemma queued_sub l l' m : channels_sub l l' -> queued l' m -> queued l m.
Proof.
  intros [_ Hsub] (id & ch' & Hch' & Hm). destruct (Hsub id ch' Hch') as (ch & Hch & _ & Hms). exists id, ch.
  split; [done|]. by eapply copy_from_sub.
Qed.

Lemma describes_sub l l' h m : channels_sub l l' -> describes l' h m -> describes l h m.
Proof.
  intros [_ Hsub] (Hid & Hf & ch' & Hch' & Hm). destruct (Hsub _ ch' Hch') as (ch & Hch & _ & Hms). do 2 (split; [done|]).
  exists ch. split; [done|]. by eapply copy_from_sub.
Qed.
End channels.

(** ** The endpoint's invariant *)
Section invariant.
Context `{BP : BuildProfile, BO : ByteOrder, SM : SmallMap, SL : !SmallMapLaws SM}.

Record ep_ok (self : Pickleback) : Prop := {
  eo_sent : SeqBufFacts.wf (sent_buffer self);
  eo_sent_len : SeqBuf.len (sent_buffer self) <= 16384;
  eo_received : SeqBufFacts.wf (received_buffer self);
  eo_handles : SeqBufFacts.wf (messages_in_packets (dispatcher self));
  eo_handles_len : SeqBuf.len (messages_in_packets (dispatcher self)) <= 16384;
  eo_pool : has_pool (pool self);
  eo_sequence : u16 (sequence_id self);
  eo_newest : match newest_ack self with Some n => u16 n | None => True end;
  eo_channels : channels_ok (ep_channels self);
  eo_next_id : u16 (next_message_id (dispatcher self));
  eo_frags : SeqBufFacts.wf (sfm_m (sent_frag_map (dispatcher self)));
}.

Lemma ChannelList_set_ok l id ch : channels_ok l -> ch_wf ch -> ch_id ch = id -> 0 <= id < MAX_CHANNELS ->
  channels_ok (ChannelList_set id ch l).
Proof.
  intros Hl Hch Hid Hr j c. simpl. intros [[<- <-]|[_ Hj]]%lookup_insert_Some; [done|by apply Hl].
Qed.
End invariant.

(** ** Filling one packet *)
Section fill.
Context `{BP : BuildProfile, BO : ByteOrder, SM : SmallMap, SL : !SmallMapLaws SM}.

(** Only the channels, the pool and the statistics differ. *)
Definition frame (self self' : Pickleback) : Prop :=
  self' = set_stats (stats self') (set_pool (pool self') (set_ep_channels (ep_channels self') self)).

Lemma frame_trans a b c : frame a b -> frame b c -> frame a c.
Proof. unfold frame. intros Hab Hbc. rewrite Hbc. rewrite Hab. done. Qed.

Record fill_ok (s : Pickleback * Locals) (w : BufferLimitedWriter) : Prop := {
  fi_channels : channels_ok (ep_channels s.1);
  fi_pool : has_pool (pool s.1);
  fi_writer : l_writer s.2 = Some w;
  fi_writer_ok : writer_ok w;
}.

Record filled (s : Pickleback * Locals) (w : BufferLimitedWriter) (ms : list Message)
    (s' : Pickleback * Locals) (w' : BufferLimitedWriter) : Prop := {
  fd_ok : fill_ok s' w';
  fd_frame : frame s.1 s'.1;
  fd_limit : wl_limit w' = wl_limit w;
  fd_written : written w' = written w ++ concat (Message_as_slice <$> ms);
  fd_sent : l_sent_something s'.2 = l_sent_something s.2;
  fd_ready : ready_total (ep_channels s.1) = (length ms + ready_total (ep_channels s'.1))%nat;
  fd_from : Forall (queued (ep_channels s.1)) ms;
  fd_sub : channels_sub (ep_channels s.1) (ep_channels s'.1);
  fd_handles : exists hs, l_handles s'.2 = l_handles s.2 ++ hs /\ Forall2 (describes (ep_channels s.1)) hs ms /\
    due_handled (ep_channels s.1) (ep_channels s'.1) hs;
}.

Lemma filled_nil s w : fill_ok s w -> filled s w [] s w.
Proof.
  intros Hs. split; simpl; rewrite ?app_nil_r; try done; [unfold frame; by destruct s.1|apply channels_sub_refl|].
  exists []. rewrite app_nil_r. split_and!; [done..|apply due_handled_refl].
Qed.

Lemma filled_trans s w ms s1 w1 ms' s2 w2 :
  filled s w ms s1 w1 -> filled s1 w1 ms' s2 w2 -> filled s w (ms ++ ms') s2 w2.
Proof.
  intros [] []. split; try done; try congruence; auto.
  - by eapply frame_trans.
  - by rewrite fmap_app, concat_app, app_assoc, <- fd_written0.
  - rewrite length_app. lia.
  - apply Forall_app. split; [done|]. eapply Forall_impl; [done|]. intros m. by apply queued_sub.
  - by eapply channels_sub_trans.
  - destruct fd_handles0 as (hs & Hh & Hhs & Hdue). destruct fd_handles1 as (hs' & -> & Hhs' & Hdue'). exists (hs ++ hs').
    rewrite Hh, app_assoc. split; [done|]. split; [|by eapply due_handled_trans]. apply Forall2_app; [done|].
    eapply Forall2_impl; [done|]. intros h m. by apply describes_sub.
Qed.

Lemma pack_channel_run s w id ch : fill_ok s w -> channels (ep_channels s.1) !! id = Some ch ->
  exists s' w' ms, pack_channel id s = Some (s', Ok (Z.of_nat (length ms))) /\ filled s w ms s' w' /\
    (length ms + ch_ready ch >= ch_ready ch)%nat.
Proof.
  destruct s as [self l]. intros [Hch Hp Hw Hwok] Hid. cbn [fst snd] in *.
  destruct (Hch id ch Hid) as (Hcwf & Hcid & Hcr).
  destruct (write_channel_messages_to_packet_run (MkPack ch w (l_handles l) (pool self))) as (p' & ms & Hrun & Hpk).
  { by split. }
  pose proof Hpk as [[Hc' Hw' Hp'] Hi' Hcalm Hsub Hready Hlim Hwr Hhs Hfrom Hdue]. cbn [pk_channel pk_cursor pk_handles] in *.
  eexists _, (pk_cursor p'), ms. split.
  { unfold pack_channel, ChannelList_get. rewrite Hid, Hw, Hrun. done. }
  split; [|lia]. split; cbn [fst snd ep_channels pool set_pool set_ep_channels l_writer l_sent_something]; try done.
  - split; try done. cbn [fst ep_channels set_pool set_ep_channels].
    apply ChannelList_set_ok; try done. by rewrite Hi'.
  - unfold ready_total. cbn [channels ChannelList_set]. pose proof (channel_sum_insert ch_ready _ id ch (pk_channel p') Hid). lia.
  - eapply Forall_impl; [exact Hfrom|]. intros m Hm. by exists id, ch.
  - split.
    + intros j Hj. cbn. destruct (decide (j = id)) as [->|Hne]; [by rewrite lookup_insert_eq|by rewrite lookup_insert_ne].
    + intros j c Hj. simpl in Hj. apply lookup_insert_Some in Hj as [[<- <-]|[_ Hj]]; eauto using channel_calm_refl.
  - exists (handle_of (ch_id ch) <$> ms). split; [exact Hhs|]. split.
    2: { intros j c m Hj Hm. cbn. destruct (decide (j = id)) as [->|Hne].
         - rewrite lookup_insert_eq. assert (c = ch) as -> by congruence. destruct (Hdue m Hm) as [Hm'|(m' & Hm' & He)]; [left; eauto|right].
           exists (handle_of (ch_id ch) m'). split; [by apply list_elem_of_fmap_2|]. by split.
         - rewrite lookup_insert_ne by done. left. eauto. }
    apply Forall2_fmap_l, Forall_Forall2_diag.
    eapply Forall_impl; [exact Hfrom|]. intros m Hm. do 2 (split; [done|]). exists ch.
    change (mh_channel (handle_of (ch_id ch) m)) with (ch_id ch). by rewrite Hcid.
Qed.

(** Counting the messages changes the statistics only. *)
Lemma filled_count s w ms s' w' n : filled s w ms s' w' ->
  st_fst (modify_stats (count_messages_sent n)) s' =
    Some ((set_stats (count_messages_sent n (stats s'.1)) s'.1, s'.2), Ok tt) /\
  filled s w ms (set_stats (count_messages_sent n (stats s'.1)) s'.1, s'.2) w'.
Proof.
  intros [[]]. split; [by destruct s'|]. split; try done. unfold frame in *. cbn [fst].
  rewrite fd_frame0. done.
Qed.

Lemma fill_packet_run fuel s w : fill_ok s w -> (ready_total (ep_channels s.1) < fuel)%nat ->
  exists s' w' ms, fill_packet fuel s = Some (s', Ok tt) /\ filled s w ms s' w'.
Proof.
  revert s w. induction fuel as [|fuel IH]; intros s w Hs Hfuel; [lia|].
  cbn [fill_packet]. rewrite run_get. destruct s as [self l]. cbn beta iota.
  destruct (ChannelList_first_non_empty (ep_channels self)) as [id|] eqn:Hf.
  2: { exists (self, l), w, []. split; [done|by apply filled_nil]. }
  apply first_non_empty_some in Hf as (ch & Hid & Hready).
  destruct (pack_channel_run (self, l) w id ch Hs Hid) as (s1 & w1 & ms & Hrun & Hfl & _).
  run_step Hrun. destruct (Z.eqb_spec (Z.of_nat (length ms)) 0) as [Hz|Hnz].
  { exists s1, w1, ms. done. }
  destruct (filled_count _ _ _ _ _ (Z.of_nat (length ms)) Hfl) as [Hcount Hfl1]. run_step Hcount.
  rewrite run_get. cbn beta iota. rewrite (fi_writer _ _ (fd_ok _ _ _ _ _ Hfl)). run_done.
  destruct (WriteLimiter_remaining w1 <? 3); [by eexists _, w1, ms|].
  destruct (IH _ w1 (fd_ok _ _ _ _ _ Hfl1)) as (s2 & w2 & ms2 & Hrun2 & Hfl2).
  { pose proof (fd_ready _ _ _ _ _ Hfl1). cbn [fst] in *. lia. }
  exists s2, w2, (ms ++ ms2). split; [exact Hrun2|]. by eapply filled_trans.
Qed.
End fill.

(** ** Headers of outgoing packets *)
Section headers.
Context `{BP : BuildProfile, BO : ByteOrder, BL : !ByteOrderLaws BO, SM : SmallMap, SL : !SmallMapLaws SM}.

Definition next_id (self : Pickleback) : Z := wrap16 (sequence_id self + 1).

(** The header the next packet gets: it acks what was received since the
    watermark. *)
Definition next_header (t : PacketType) (self : Pickleback) : ProtocolPacketHeader := {|
  packet_type := t;
  h_id := next_id self;
  ack_header :=
    if received_unacked_packets self =? 0 then None
    else Some (field_header (sequence (received_buffer self)) (received_unacked_packets self)
                 (ack_bytes (received_buffer self) (received_unacked_packets self)));
|}.

Lemma received_unacked_nonneg self : SeqBufFacts.wf (received_buffer self) -> 0 <= received_unacked_packets self.
Proof.
  intros Hwf. unfold received_unacked_packets.
  destruct (ack_low_watermark self); [apply wrap16_range|]. apply Hwf.
Qed.

Lemma next_packet_header_run t self : SeqBufFacts.wf (received_buffer self) ->
  next_packet_header t self = Some (set_sequence_id (next_id self) self,
    if MAX_UNACKED_PACKETS <? received_unacked_packets self then Err (BackpressureErr TooManyPending)
    else Ok (next_header t self)).
Proof.
  intros Hwf. unfold next_packet_header. run_done. rewrite run_get.
  assert (Hu : received_unacked_packets (set_sequence_id (wrap16 (sequence_id self + 1)) self) =
               received_unacked_packets self) by done.
  rewrite Hu. pose proof (received_unacked_nonneg self Hwf) as Hn.
  unfold MAX_UNACKED_PACKETS, MAX_ACK_BYTES.
  destruct (Z.ltb_spec (7 * 50) (received_unacked_packets self)); [done|].
  cbn [received_buffer set_sequence_id].
  rewrite AckIter_with_minimum_length_total by lia. run_done.
  unfold next_header, ProtocolPacketHeader_new.
  destruct (Z.eqb_spec (received_unacked_packets self) 0) as [->|Hne].
  - change (AckIter_collect (MkAckIter (received_buffer self) 0 (7 * ((0 + 6) / 7)))) with (Some (@nil (Z * bool))).
    run_done. done.
  - rewrite (AckIter_collect_run (received_buffer self) (received_unacked_packets self))
      by (done || lia || (apply AckIter_with_minimum_length_total; lia)).
    run_done. rewrite from_buffer_acks by (done || lia). done.
Qed.

Lemma next_header_wf t self : SeqBufFacts.wf (received_buffer self) -> received_unacked_packets self <= 350 ->
  wf_header (next_header t self).
Proof.
  intros Hwf Hle. pose proof (received_unacked_nonneg self Hwf). split; [apply wrap16_range|]. simpl.
  destruct (Z.eqb_spec (received_unacked_packets self) 0); [done|].
  split; [apply Hwf|]. eexists. split; [|done]. apply ack_bytes_field. lia.
Qed.

Lemma next_header_size t self : SeqBufFacts.wf (received_buffer self) -> received_unacked_packets self <= 350 ->
  3 <= ProtocolPacketHeader_size (next_header t self) <= 55.
Proof.
  intros Hwf Hle. pose proof (received_unacked_nonneg self Hwf).
  unfold ProtocolPacketHeader_size, next_header. cbn [ack_header].
  destruct (Z.eqb_spec (received_unacked_packets self) 0); [lia|].
  pose proof (af_length _ (ack_bytes_field (received_buffer self) (received_unacked_packets self) ltac:(lia))).
  unfold AckHeader_size. simpl. lia.
Qed.

(** The bytes in front of a packet's messages. *)
Definition front_bytes (h : ProtocolPacketHeader) (salt : Z) : list Z := packet_header_bytes h ++ be_put 8 salt.

Lemma front_emits `{Appends W} h salt : wf_header h ->
  emits (W:=W) (ProtocolPacketHeader_write h;; write_u64 salt) (front_bytes h salt) tt.
Proof. intros Hh. eapply emits_bind; [by apply ProtocolPacketHeader_write_emits|auto with emits]. Qed.

Lemma write_packet_header_full `{Write W} self (w : W) :
  SeqBufFacts.wf (received_buffer self) -> MAX_UNACKED_PACKETS < received_unacked_packets self ->
  write_packet_header (self, w) =
    Some ((set_sequence_id (next_id self) self, w), Err (BackpressureErr TooManyPending)).
Proof.
  intros Hwf Hgt. unfold write_packet_header. pose proof (next_packet_header_run TMessages self Hwf) as Hnext.
  rewrite (proj2 (Z.ltb_lt _ _)) in Hnext by done.
  unfold mbind, ST_bind, st_fst, st_zoom. cbn [fst snd]. by rewrite Hnext.
Qed.

Lemma write_packet_header_run `{Appends W} self (w : W) salt :
  SeqBufFacts.wf (received_buffer self) -> xor_salt self = Some salt ->
  received_unacked_packets self <= MAX_UNACKED_PACKETS -> ap_ok w ->
  fits (ap_room w) (length (front_bytes (next_header TMessages self) salt)) ->
  exists (w' : W) (n : Z), write_packet_header (self, w) = Some ((set_sequence_id (next_id self) self, w'), Ok n) /\
    ap_ok w' /\ (ProtocolPacketHeader_write (next_header TMessages self);; write_u64 salt) w = Some (w', Ok tt).
Proof.
  intros Hwf Hsalt Hle Hw Hfit. unfold write_packet_header.
  pose proof (next_packet_header_run TMessages self Hwf) as Hnext.
  rewrite (proj2 (Z.ltb_ge _ _)) in Hnext by done.
  erewrite run_bind_ok by (unfold st_fst, st_zoom; cbn [fst snd]; rewrite Hnext; done). cbn beta iota.
  destruct (front_emits (next_header TMessages self) salt (next_header_wf _ _ Hwf Hle) w Hw) as (w' & r & Hrun & Hw' & Hr).
  rewrite decide_True in Hr by done. destruct Hr as [-> _].
  exists w', (ProtocolPacketHeader_size (next_header TMessages self) + 8). split; [|done].
  revert Hrun. unfold mbind, ST_bind, st_snd, st_zoom, st_get, st_lift, st_asks, mret, ST_ret. cbn [fst snd].
  destruct (ProtocolPacketHeader_write (next_header TMessages self) w) as [[w1 [[]|e]]|]; [|done..].
  cbn [xor_salt set_sequence_id]. rewrite Hsalt. cbn [snd]. by intros ->.
Qed.
End headers.

(** ** One packet of the packing loop *)
Section round.
Context `{BP : BuildProfile, BO : ByteOrder, BL : !ByteOrderLaws BO, SM : SmallMap, SL : !SmallMapLaws SM}.

(** What packing relies on: a salt is set, the packets have room for the
    longest header, and neither the record of sent packets nor that of their
    messages lags far behind the packet ids. *)
Record can_compose (self : Pickleback) (salt : Z) : Prop := {
  cc_ok : ep_ok self;
  cc_salt : xor_salt self = Some salt;
  cc_size : 63 <= max_packet_size (config self);
  cc_sent : wrap16 (sequence_id self - sequence (sent_buffer self)) <= 16000;
  cc_handles : wrap16 (sequence_id self - sequence (messages_in_packets (dispatcher self))) <= 16000;
}.

(** A packet: a header, the salt, and messages of the channels. *)
Definition packet_of (self : Pickleback) (salt : Z) (p : PooledBuffer) : Prop :=
  exists h ms, packet_type h = TMessages /\ wf_header h /\ Forall (queued (ep_channels self)) ms /\
    vdata p = front_bytes h salt ++ concat (Message_as_slice <$> ms) /\
    Z.of_nat (length (vdata p)) <= max_packet_size (config self).

(** What composing the packets [ps] did. *)
Record composed (self : Pickleback) (salt : Z) (ps : list PooledBuffer) (self' : Pickleback) : Prop := {
  co_ok : ep_ok self';
  co_config : config self' = config self;
  co_salt : xor_salt self' = xor_salt self;
  co_received : received_buffer self' = received_buffer self;
  co_watermark : ack_low_watermark self' = ack_low_watermark self;
  co_outbox : outbox self' = outbox self ++ ps;
  co_packets : Forall (packet_of self salt) ps;
  co_sub : forall m, queued (ep_channels self') m -> queued (ep_channels self) m;
  co_unacked : sent_unacked_packets self + Z.of_nat (length ps) <= sent_unacked_packets self';
}.

Lemma composed_trans self salt ps self1 ps' self2 :
  composed self salt ps self1 -> composed self1 salt ps' self2 -> composed self salt (ps ++ ps') self2.
Proof.
  intros [] []. split; try congruence; auto.
  - by rewrite app_assoc, <- co_outbox0.
  - apply Forall_app. split; [done|]. eapply Forall_impl; [done|].
    intros p (h & ms & Ht & Hh & Hms & Hp & Hle). exists h, ms. split_and!; try done; [|congruence].
    eapply Forall_impl; [done|]. auto.
  - rewrite length_app. lia.
Qed.

Lemma frame_fields a b : frame a b ->
  config b = config a /\ xor_salt b = xor_salt a /\ received_buffer b = received_buffer a /\
  ack_low_watermark b = ack_low_watermark a /\ outbox b = outbox a /\ newest_ack b = newest_ack a /\
  sequence_id b = sequence_id a /\ sent_buffer b = sent_buffer a /\ dispatcher b = dispatcher a.
Proof.
  intros H. split_and!;
    match goal with |- ?f b = ?f a => exact (f_equal f H) end.
Qed.

Lemma WriteLimiter_new_ok (v : VecU8) limit : vdata v = [] -> 0 <= limit ->
  writer_ok (WriteLimiter_new (VecCursor_new v) limit) /\
  WriteLimiter_remaining (WriteLimiter_new (VecCursor_new v) limit) = limit /\
  written (WriteLimiter_new (VecCursor_new v) limit) = [].
Proof.
  intros Hv Hl. unfold written, WriteLimiter_remaining, WriteLimiter_new, VecCursor_new. simpl.
  unfold vec_len. rewrite Hv. simpl. split_and!; lia || done.
Qed.

Lemma front_bytes_length self salt : SeqBufFacts.wf (received_buffer self) ->
  received_unacked_packets self <= 350 ->
  11 <= Z.of_nat (length (front_bytes (next_header TMessages self) salt)) <= 63.
Proof.
  intros Hwf Hle. unfold front_bytes. rewrite length_app, be_put_length.
  pose proof (next_header_size TMessages self Hwf Hle) as Hsz.
  rewrite <- packet_header_bytes_length in Hsz by (by apply next_header_wf). lia.
Qed.

(** The endpoint once a packet's header is written. *)
Definition started (self : Pickleback) (bp : BufPool) : Pickleback :=
  set_sequence_id (next_id self) (set_pool bp self).

Lemma start_packet_run self salt l : ep_ok self -> xor_salt self = Some salt ->
  63 <= max_packet_size (config self) -> l_writer l = None ->
  sent_unacked_packets self < MAX_UNACKED_PACKETS ->
  exists bp, has_pool bp /\
    if MAX_UNACKED_PACKETS <? received_unacked_packets self
    then start_packet (self, l) = Some ((started self bp, l), Err (BackpressureErr TooManyPending))
    else exists w, start_packet (self, l) = Some ((started self bp,
                     MkLocals (Some w) (l_handles l) (l_sent_something l)), Ok tt) /\
         writer_ok w /\ wl_limit w = max_packet_size (config self) /\
         written w = front_bytes (next_header TMessages self) salt.
Proof.
  intros Hok Hsalt Hsize Hl Hu.
  destruct (get_buffer_run (max_packet_size (config self)) (pool self) (eo_pool _ Hok)) as (bp & b & Hget & Hbp & Hb).
  exists bp. split; [done|]. unfold start_packet. rewrite run_get. cbn beta iota. rewrite Hl.
  rewrite (proj2 (Z.leb_gt _ _)) by lia.
  set (w0 := WriteLimiter_new (VecCursor_new b) (max_packet_size (config self))).
  destruct (WriteLimiter_new_ok b (max_packet_size (config self)) Hb ltac:(lia)) as (Hw0 & Hroom & Hempty).
  fold w0 in Hw0, Hroom, Hempty.
  assert (Hg : st_fst (T:=Locals) (on_pool_field (get_buffer (max_packet_size (config self)))) (self, l) =
               Some ((set_pool bp self, l), Ok b)).
  { unfold st_fst, st_zoom, on_pool_field. cbn [fst snd]. unfold st_zoom. by rewrite Hget. }
  run_step Hg. destruct (Z.ltb_spec MAX_UNACKED_PACKETS (received_unacked_packets self)) as [Hgt|Hle].
  - erewrite run_bind_err; [done|]. unfold st_fst, st_zoom, st_with. cbn [fst snd]. fold w0.
    rewrite write_packet_header_full; [done|apply Hok|done].
  - pose proof (front_bytes_length self salt (eo_received _ Hok) Hle) as Hlen.
    destruct (write_packet_header_run (set_pool bp self) w0 salt) as (w & n & Hh & Hw & Hfront); try done.
    { apply Hok. }
    { change (Z.of_nat (length (front_bytes (next_header TMessages self) salt)) <= WriteLimiter_remaining w0). lia. }
    destruct (emits_ok _ _ _ w0 (front_emits _ salt (next_header_wf TMessages self (eo_received _ Hok) Hle)) Hw0)
      as (w' & Hfront' & _ & Hlim & Hout); [lia|].
    change (next_header _ (set_pool bp self)) with (next_header TMessages self) in Hfront.
    rewrite Hfront in Hfront'. injection Hfront' as <-. exists w. split; [|by rewrite Hout, Hempty].
    erewrite run_bind_ok; [|unfold st_fst, st_zoom, st_with; cbn [fst snd]; fold w0; rewrite Hh; done]. done.
Qed.

(** Inserting the next id into a record that does not lag. *)
Lemma insert_next {T} `{!Default T} (sb : SequenceBuffer T) (q : Z) (v : T) :
  SeqBufFacts.wf sb -> SeqBuf.len sb <= 16384 -> u16 q -> wrap16 (q - sequence sb) <= 16000 ->
  exists sb', SeqBuf.insert (wrap16 (q + 1)) v sb = Some (sb', Ok tt) /\ SeqBufFacts.wf sb' /\
    SeqBuf.len sb' = SeqBuf.len sb /\ sequence sb' = wrap16 (q + 1) /\ SeqBufFacts.find sb' (wrap16 (q + 1)) = Some v /\
    (forall j w, u16 j -> SeqBufFacts.find sb' j = Some w -> (j = wrap16 (q + 1) /\ w = v) \/ SeqBufFacts.find sb j = Some w).
Proof.
  intros Hwf Hlen Hq Hgap. pose proof (SeqBufFacts.wf_sequence _ Hwf) as Hs. pose proof (SeqBufFacts.wf_len _ Hwf).
  assert (Hk : u16 (wrap16 (q + 1))) by apply wrap16_range.
  assert (Hgt : sequence_greater_than (wrap16 (q + 1)) (sequence sb) = true).
  { apply sequence_greater_than_spec; [done|done|]. u16_solve. }
  rewrite SeqBufFacts.insert_run by done.
  assert (Hold : SeqBufFacts.too_old sb (wrap16 (q + 1)) = false).
  { unfold SeqBufFacts.too_old, sequence_less_than. apply not_true_iff_false.
    rewrite sequence_greater_than_spec; [u16_solve|apply wrap16_range|done]. }
  rewrite Hold. eexists. split; [done|]. split.
  - by apply SeqBufFacts.fill_slot_wf; [apply SeqBufFacts.advance_wf|].
  - split; [apply SeqBufFacts.insert_len|]. split; [by rewrite SeqBufFacts.insert_sequence, Hgt|].
    split; [by rewrite SeqBufFacts.find_insert, decide_True|]. intros j w Hj. rewrite SeqBufFacts.find_insert by done.
    repeat case_decide; try done; [|by right]. intros [= <-]. by left.
Qed.

(** The record of a packet that is sent now. *)
Definition sent_meta (self : Pickleback) (p : PooledBuffer) : SentMeta :=
  SentMeta_new (time self) (vec_len p + packet_header_size (config self)) (sequence (received_buffer self)).

Definition set_handles (mip : SequenceBuffer (list MessageHandle)) (d : MessageDispatcher) : MessageDispatcher :=
  MkDispatcher (next_message_id d) (sent_frag_map d) mip (message_reassembler d) (message_inbox d) (ack_inbox d).

(** The endpoint once a packet is in the outbox. *)
Definition finished (self : Pickleback) sb mip (p : PooledBuffer) : Pickleback :=
  set_dispatcher (set_handles mip (dispatcher self))
    (set_stats (count_packets_sent (stats self))
      (set_outbox (outbox self ++ [p]) (set_sent_buffer sb self))).

Lemma finish_packet_run self l w q : l_writer l = Some w ->
  WriteLimiter_remaining w <> max_packet_size (config self) ->
  SeqBufFacts.wf (sent_buffer self) -> SeqBuf.len (sent_buffer self) <= 16384 ->
  SeqBufFacts.wf (messages_in_packets (dispatcher self)) ->
  SeqBuf.len (messages_in_packets (dispatcher self)) <= 16384 ->
  u16 q -> sequence_id self = wrap16 (q + 1) -> wrap16 (q - sequence (sent_buffer self)) <= 16000 ->
  wrap16 (q - sequence (messages_in_packets (dispatcher self))) <= 16000 ->
  exists sb mip, finish_packet (self, l) =
      Some ((finished self sb mip (vc_vec (wl_writer w)), MkLocals None [] true), Ok tt) /\
    SeqBufFacts.wf sb /\ SeqBuf.len sb = SeqBuf.len (sent_buffer self) /\ sequence sb = sequence_id self /\
    SeqBufFacts.wf mip /\ SeqBuf.len mip = SeqBuf.len (messages_in_packets (dispatcher self)) /\
    sequence mip = sequence_id self /\
    SeqBufFacts.find sb (sequence_id self) = Some (sent_meta self (vc_vec (wl_writer w))) /\
    SeqBufFacts.find mip (sequence_id self) = Some (l_handles l) /\
    (forall j hs, u16 j -> SeqBufFacts.find mip j = Some hs -> (j = sequence_id self /\ hs = l_handles l) \/
      SeqBufFacts.find (messages_in_packets (dispatcher self)) j = Some hs).
Proof.
  intros Hl Hroom Hs Hsl Hm Hml Hq Hid Hsq Hmq.
  destruct (insert_next (sent_buffer self) q (sent_meta self (vc_vec (wl_writer w))))
    as (sb & Hsb & Hsbwf & Hsblen & Hsbseq & Hsbf & _); try done.
  destruct (insert_next (messages_in_packets (dispatcher self)) q (l_handles l))
    as (mip & Hmip & Hmwf & Hmlen & Hmseq & Hmf & Hmold); try done.
  exists sb, mip. rewrite <- Hid in *. split; [|done].
  unfold finish_packet. rewrite run_get. cbn beta iota. rewrite Hl. run_done.
  rewrite (proj2 (Z.eqb_neq _ _)) by done. cbn [negb]. run_done.
  erewrite run_bind_ok.
  2: { unfold st_fst, st_zoom, send_raw_packet. cbn [fst snd]. rewrite run_get.
       erewrite run_bind_ok by (unfold on_sent_buffer, st_zoom, sent_meta in *; rewrite Hsb; done). cbn beta. run_done. done. }
  cbn [fst snd]. rewrite run_get. cbn beta iota. run_done.
  unfold st_fst, st_zoom, on_dispatcher, st_zoom, MessageDispatcher_set_packet_message_handles, on_messages_in_packets, st_zoom.
  cbn [fst snd sequence_id dispatcher set_stats set_outbox set_sent_buffer l_handles].
  rewrite Hmip. done.
Qed.

Lemma unacked_next q newest sent : u16 q -> u16 newest -> u16 sent ->
  wrap16 (sent - newest) < 350 -> wrap16 (q - sent) <= 16000 ->
  wrap16 (sent - newest) + 1 <= wrap16 (wrap16 (q + 1) - newest).
Proof. intros. u16_solve. Qed.

(** A header that does not fit leaves everything but the packet id. *)
Lemma started_composed self salt bp : can_compose self salt -> has_pool bp ->
  composed self salt [] (started self bp).
Proof.
  intros [[] _ _ _ _] Hbp. split; try done.
  - split; try done. apply wrap16_range.
  - simpl. by rewrite app_nil_r.
  - unfold sent_unacked_packets. simpl. lia.
Qed.

(** What the endpoint [self'] remembers of the packet [p] it sent with the
    messages [ms]: which they are, under the packet's id, and that it is in
    flight. *)
Record recorded (self : Pickleback) (salt : Z) (old : list MessageHandle) (p : PooledBuffer) (ms : list Message)
    (hs : list MessageHandle) (self' : Pickleback) : Prop := {
  rd_header : wf_header (next_header TMessages self);
  rd_packet : vdata p = front_bytes (next_header TMessages self) salt ++ concat (Message_as_slice <$> ms);
  rd_sequence : sequence_id self' = next_id self;
  rd_handles : SeqBufFacts.find (messages_in_packets (dispatcher self')) (next_id self) = Some (old ++ hs);
  rd_older : forall j hs', u16 j -> SeqBufFacts.find (messages_in_packets (dispatcher self')) j = Some hs' ->
    (j = next_id self /\ hs' = old ++ hs) \/ SeqBufFacts.find (messages_in_packets (dispatcher self)) j = Some hs';
  rd_dispatcher : exists mip, dispatcher self' = set_handles mip (dispatcher self);
  rd_describes : Forall2 (describes (ep_channels self)) hs ms;
  rd_sent : SeqBufFacts.find (sent_buffer self') (next_id self) = Some (sent_meta self p);
  rd_newest : sequence (sent_buffer self') = next_id self /\
    sequence (messages_in_packets (dispatcher self')) = next_id self;
  rd_channels : channels_sub (ep_channels self) (ep_channels self');
  rd_ready : ready_total (ep_channels self) = (length ms + ready_total (ep_channels self'))%nat;
  rd_unacked : received_unacked_packets self <= MAX_UNACKED_PACKETS;
  rd_due : due_handled (ep_channels self) (ep_channels self') hs;
}.

Lemma compose_round self salt l : can_compose self salt -> l_writer l = None ->
  sent_unacked_packets self < MAX_UNACKED_PACKETS -> received_unacked_packets self <= MAX_UNACKED_PACKETS ->
  exists s1 s2 s3 p ms hs, start_packet (self, l) = Some (s1, Ok tt) /\
    fill_packet (S (ChannelList_queue_len (ep_channels s1.1))) s1 = Some (s2, Ok tt) /\
    finish_packet s2 = Some (s3, Ok tt) /\ s3.2 = MkLocals None [] true /\
    composed self salt [p] s3.1 /\ can_compose s3.1 salt /\ recorded self salt (l_handles l) p ms hs s3.1.
Proof.
  intros Hcc Hl Hu Hr. pose proof Hcc as [Hok Hsalt Hsize Hsq Hmq].
  destruct (start_packet_run self salt l (cc_ok _ _ Hcc) (cc_salt _ _ Hcc) (cc_size _ _ Hcc) Hl Hu) as (bp & Hbp & Hstart).
  rewrite (proj2 (Z.ltb_ge _ _)) in Hstart by done. destruct Hstart as (w & Hstart & Hw & Hlim & Hwr).
  set (s1 := (started self bp, MkLocals (Some w) (l_handles l) (l_sent_something l))) in *.
  assert (Hf1 : fill_ok s1 w) by (split; [apply Hok|done..]).
  destruct (fill_packet_run (S (ChannelList_queue_len (ep_channels s1.1))) s1 w Hf1) as ([self2 l2] & w2 & ms & Hfill & Hfl).
  { pose proof (ready_total_queue (ep_channels s1.1)). lia. }
  pose proof Hfl as [[Hch2 Hp2 Hl2 Hw2] Hframe Hlim2 Hwr2 _ Hready Hfrom Hsub (hs & Hhs & Hdesc & Hdue)]. cbn [fst snd] in *.
  destruct (frame_fields _ _ Hframe) as (Fc & Fx & Fr & Fm & Fo & Fn & Fi & Fs & Fd).
  cbn [fst s1 started set_sequence_id set_pool config xor_salt received_buffer ack_low_watermark outbox newest_ack
    sequence_id sent_buffer dispatcher] in Fc, Fx, Fr, Fm, Fo, Fn, Fi, Fs, Fd.
  pose proof (front_bytes_length self salt (eo_received _ Hok) Hr) as Hfront.
  pose proof (writer_written w2 Hw2) as Hlen2.
  destruct (finish_packet_run self2 l2 w2 (sequence_id self)) as (sb & mip & Hfin & Hsbwf & Hsblen & Hsbseq & Hmwf & Hmlen & Hmseq & Hsbf & Hmf & Hmold).
  { done. } { rewrite Fc. rewrite Hwr2, Hwr, length_app in Hlen2. lia. }
  1-8: rewrite ?Fs, ?Fd, ?Fi; done || apply Hok.
  rewrite Fs in Hsblen. rewrite Fd in Hmlen.
  exists s1, (self2, l2), (finished self2 sb mip (vc_vec (wl_writer w2)), MkLocals None [] true), (vc_vec (wl_writer w2)), ms, hs.
  do 4 (split; [done|]). cbn [fst].
  assert (Hok3 : ep_ok (finished self2 sb mip (vc_vec (wl_writer w2)))).
  { destruct Hok. split; cbn; try done; rewrite ?Fr, ?Fn, ?Fi, ?Fd; first [done|lia|apply wrap16_range]. }
  split.
  - split; cbn; try done.
    + by rewrite Fo.
    + apply Forall_singleton. exists (next_header TMessages self), ms. split_and!; try done.
      * apply next_header_wf; [apply Hok|done].
      * change (written w2 = front_bytes (next_header TMessages self) salt ++ concat (Message_as_slice <$> ms)).
        by rewrite Hwr2, Hwr.
      * change (Z.of_nat (length (written w2)) <= max_packet_size (config self)).
        rewrite Hlen2. unfold WriteLimiter_remaining. lia.
    + intros m. by apply queued_sub.
    + unfold sent_unacked_packets in *. cbn. rewrite Hsbseq, Fn, Fi. destruct Hok.
      apply unacked_next; try done; [by destruct (newest_ack self)|by apply SeqBufFacts.wf_sequence].
  - split; [split; cbn; try done; try congruence; rewrite ?Hsbseq, ?Hmseq, Z.sub_diag; done|].
    rewrite Fi in Hsbf, Hmf, Hmold, Hsbseq, Hmseq. split; try done.
    + apply next_header_wf; [apply Hok|done].
    + change (written w2 = front_bytes (next_header TMessages self) salt ++ concat (Message_as_slice <$> ms)). by rewrite Hwr2, Hwr.
    + cbn. by rewrite Hmf, Hhs.
    + cbn. intros j hs' Hj Hf. destruct (Hmold j hs' Hj Hf) as [[? ->]|Ho]; [left; by rewrite Hhs|right]. by rewrite Fd in Ho.
    + exists mip. cbn. by rewrite Fd.
    + cbn. rewrite Hsbf. unfold sent_meta. rewrite Fc, Fr. rewrite Hframe. done.
Qed.
End round.

(** ** The packing loop *)

(** The packing loop, round by round: it ends, before or after the id of
    another packet was taken, or sends a packet and goes on. *)
Inductive rounds `{BP : BuildProfile, BO : ByteOrder} (salt : Z) : Pickleback -> list PooledBuffer -> Pickleback -> Prop :=
| rounds_done self : rounds salt self [] self
| rounds_refused self bp : has_pool bp -> rounds salt self [] (started self bp)
| rounds_packet self p ms hs self1 ps self2 :
    composed self salt [p] self1 -> recorded self salt [] p ms hs self1 ->
    rounds salt self1 ps self2 -> rounds salt self (p :: ps) self2.

Section compose.
Context `{BP : BuildProfile, BO : ByteOrder, BL : !ByteOrderLaws BO, SM : SmallMap, SL : !SmallMapLaws SM}.

(** Too many packets are unacked by the peer, or by us. *)
Definition window_full (self : Pickleback) : Prop :=
  MAX_UNACKED_PACKETS <= sent_unacked_packets self \/ MAX_UNACKED_PACKETS < received_unacked_packets self.

(** How the loop and [compose_packets] end. *)
Definition compose_outcome (self' : Pickleback) (r : result unit PicklebackError) : Prop :=
  (r = Err (BackpressureErr TooManyPending) /\ window_full self') \/
  (r = Ok tt /\ ChannelList_any_with_messages_to_send (ep_channels self') = false).

Lemma composed_nil self salt : can_compose self salt -> composed self salt [] self.
Proof. intros []. split; try done; [by rewrite app_nil_r|simpl; lia]. Qed.

Lemma start_packet_refused self salt l : can_compose self salt -> l_writer l = None ->
  window_full self ->
  exists self', start_packet (self, l) = Some ((self', l), Err (BackpressureErr TooManyPending)) /\
    composed self salt [] self' /\ window_full self' /\ rounds salt self [] self'.
Proof.
  intros Hcc Hl Hfull. destruct (Z.leb_spec MAX_UNACKED_PACKETS (sent_unacked_packets self)) as [Hu|Hu].
  - exists self. split; [|split; [by apply composed_nil|split; [done|constructor]]]. unfold start_packet. rewrite run_get. cbn beta iota.
    by rewrite Hl, (proj2 (Z.leb_le _ _)).
  - destruct (start_packet_run self salt l (cc_ok _ _ Hcc) (cc_salt _ _ Hcc) (cc_size _ _ Hcc) Hl Hu) as (bp & Hbp & Hstart).
    destruct Hfull as [|Hfull]; [lia|]. rewrite (proj2 (Z.ltb_lt _ _)) in Hstart by done.
    exists (started self bp). split; [done|]. split; [by apply started_composed|split; [by right|by constructor]].
Qed.

Lemma compose_loop_run salt fuel self l : can_compose self salt -> l_writer l = None -> l_handles l = [] -> (0 < fuel)%nat ->
  MAX_UNACKED_PACKETS < Z.of_nat fuel + sent_unacked_packets self ->
  exists self' l' r ps, compose_loop fuel (self, l) = Some ((self', l'), r) /\
    composed self salt ps self' /\ rounds salt self ps self' /\ compose_outcome self' r /\
    Z.of_nat (length ps) <= Z.max 0 (MAX_UNACKED_PACKETS - sent_unacked_packets self).
Proof.
  revert self l. induction fuel as [|fuel IH]; intros self l Hcc Hl Hh Hpos Hfuel; [lia|].
  cbn [compose_loop]. rewrite run_get. cbn beta iota.
  destruct (ChannelList_any_with_messages_to_send (ep_channels self)) eqn:Hany; cbn [negb].
  2: exists self, l, (Ok tt), []; split_and!; [done|by apply composed_nil|constructor|by right|simpl; lia].
  destruct (decide (sent_unacked_packets self < MAX_UNACKED_PACKETS /\
                    received_unacked_packets self <= MAX_UNACKED_PACKETS)) as [[Hu Hr]|Hfull].
  - destruct (compose_round self salt l Hcc Hl Hu Hr) as (s1 & s2 & [self3 l3] & p & ms & hs & Hst & Hfill & Hfin & Hl3 & Hco & Hcc3 & Hrec).
    rewrite Hh in Hrec. run_step Hst. rewrite run_get. destruct s1 as [self1 l1]. cbn beta iota. cbn [fst] in *.
    run_step Hfill. run_step Hfin. pose proof (co_unacked _ _ _ _ Hco) as Hun. cbn [length] in Hun.
    cbn [snd] in Hl3. subst l3. destruct (IH self3 (MkLocals None [] true) Hcc3 eq_refl eq_refl)
      as (self' & l' & r & ps & Hrun & Hco' & Hrd & Hout & Hle); [lia..|].
    exists self', l', r, (p :: ps). split; [done|]. split; [by apply (composed_trans self salt [p] self3 ps)|].
    split; [by eapply rounds_packet|]. split; [done|]. cbn [length]. lia.
  - destruct (start_packet_refused self salt l Hcc Hl) as (self' & Hst & Hco & Hfull' & Hrd).
    { unfold window_full. lia. }
    exists self', l, (Err (BackpressureErr TooManyPending)), []. split; [by erewrite run_bind_err by exact Hst|].
    split; [done|]. split; [done|]. split; [by left|simpl; lia].
Qed.

Lemma compose_packets_run self salt : can_compose self salt ->
  exists self' r ps, compose_packets self = Some (self', r) /\ composed self salt ps self' /\ rounds salt self ps self' /\
    compose_outcome self' r /\ Z.of_nat (length ps) <= Z.max 0 (MAX_UNACKED_PACKETS - sent_unacked_packets self).
Proof.
  intros Hcc. unfold compose_packets. rewrite run_get.
  destruct (Z.leb_spec MAX_UNACKED_PACKETS (sent_unacked_packets self)) as [Hu|Hu].
  { exists self, (Err (BackpressureErr TooManyPending)), [].
    split; [done|]. split; [by apply composed_nil|]. split; [constructor|].
    split; [by left; split; [|left]|simpl; lia]. }
  assert (Hnn : 0 <= sent_unacked_packets self) by apply wrap16_range.
  destruct (compose_loop_run salt (S (Z.to_nat MAX_UNACKED_PACKETS)) self (MkLocals None [] false) Hcc)
    as (self' & l' & r & ps & Hrun & Hco & Hrd & Hout & Hle); [done|done|lia|lia|].
  exists self'. unfold mbind, ST_bind, st_with. rewrite Hrun.
  destruct r as [[]|e]; [exists (Ok tt)|exists (Err e)]; exists ps; done.
Qed.

Lemma return_all_run (ps : list PooledBuffer) self : has_pool (pool self) ->
  exists bp, st_for ps (fun packet => on_pool_field (return_buffer packet)) self = Some (set_pool bp self, Ok tt) /\
    has_pool bp.
Proof.
  revert self. induction ps as [|p ps IH]; intros self Hp.
  - exists (pool self). split; [by destruct self|done].
  - destruct (return_buffer_run p (pool self) Hp) as (bp & Hret & Hbp). cbn [st_for].
    erewrite run_bind_ok by (unfold on_pool_field, st_zoom; rewrite Hret; done).
    destruct (IH (set_pool bp self) Hbp) as (bp' & Hrun & Hbp'). exists bp'. by rewrite Hrun.
Qed.

Lemma visit_packets_run self salt : can_compose self salt ->
  exists self' ps, visit_packets_to_send self = Some (self', Ok (vdata <$> outbox self ++ ps)) /\
    ep_ok self' /\ outbox self' = [] /\ Forall (packet_of self salt) ps /\
    Z.of_nat (length ps) <= Z.max 0 (MAX_UNACKED_PACKETS - sent_unacked_packets self) /\
    (forall m, queued (ep_channels self') m -> queued (ep_channels self) m) /\
    (ChannelList_any_with_messages_to_send (ep_channels self') = false \/ window_full self') /\
    exists selfc bp, rounds salt self ps selfc /\ composed self salt ps selfc /\ has_pool bp /\
      self' = set_pool bp (set_outbox [] selfc).
Proof.
  intros Hcc. destruct (compose_packets_run self salt Hcc) as (self1 & r & ps & Hrun & Hco & Hrd & Hout & Hle).
  pose proof Hco as [Hok _ _ _ _ Hob Hps Hsub _].
  destruct (return_all_run (outbox self1) (set_outbox [] self1)) as (bp & Hret & Hbp); [apply Hok|].
  exists (set_pool bp (set_outbox [] self1)), ps. split.
  - unfold visit_packets_to_send, mbind, ST_bind, st_try. rewrite Hrun.
    assert (Hr : r = Ok tt \/ r = Err (BackpressureErr TooManyPending)) by (destruct Hout as [[-> _]|[-> _]]; auto).
    rewrite Hob in Hret. rewrite <- Hob in Hret at 1.
    destruct Hr as [-> | ->]; unfold st_get, st_modify; cbn beta iota; rewrite ?Hob in *; rewrite Hret; done.
  - split; [destruct Hok; by split|]. do 4 (split; [done|]).
    split; [destruct Hout as [[_ Hf]|[_ Hf]]; [by right|by left]|]. by exists self1, bp.
Qed.

(** C14. Sending never panics, never stalls and keeps every packet within
    [max_packet_size]: [visit_packets_to_send] hands out what was in the
    outbox and at most as many new packets as the ack window leaves.  Every
    new packet is a header, the salt and copies of messages queued in the
    channels, and nothing else.  The outbox is left empty, the endpoint's
    invariant is kept, and no message is due to be sent any more (reliable ones
    stay queued until they are acked) unless there is backpressure: the peer
    is behind with its acks, or we are.  The endpoint has a session's salt,
    packets of at least 63 bytes, and its records of sent packets and of their
    messages are at most 16000 packet ids behind ([can_compose]; a record
    further behind makes it panic, [quiet_connection_panics]). *)
Theorem visit_packets_sends_bounded_packets self salt : can_compose self salt ->
  exists self' ps, visit_packets_to_send self = Some (self', Ok (vdata <$> outbox self ++ ps)) /\
    ep_ok self' /\ outbox self' = [] /\ Forall (packet_of self salt) ps /\
    Z.of_nat (length ps) <= Z.max 0 (MAX_UNACKED_PACKETS - sent_unacked_packets self) /\
    (forall m, queued (ep_channels self') m -> queued (ep_channels self) m) /\
    (ChannelList_any_with_messages_to_send (ep_channels self') = false \/ window_full self').
Proof.
  intros Hcc. destruct (visit_packets_run self salt Hcc) as (self' & ps & H1 & H2 & H3 & H4 & H5 & H6 & H7 & _).
  by exists self', ps.
Qed.
End compose.

(** ** The record of message handles left behind *)
Section stale.
Context `{BP : BuildProfile, BO : ByteOrder, BL : !ByteOrderLaws BO, SM : SmallMap, SL : !SmallMapLaws SM}.

Lemma finish_packet_too_old self l w q : l_writer l = Some w ->
  WriteLimiter_remaining w <> max_packet_size (config self) ->
  SeqBufFacts.wf (sent_buffer self) -> SeqBuf.len (sent_buffer self) <= 16384 ->
  SeqBufFacts.wf (messages_in_packets (dispatcher self)) ->
  u16 q -> sequence_id self = wrap16 (q + 1) -> wrap16 (q - sequence (sent_buffer self)) <= 16000 ->
  SeqBufFacts.too_old (messages_in_packets (dispatcher self)) (sequence_id self) = true ->
  exists s', finish_packet (self, l) = Some (s', Err SequenceTooOld).
Proof.
  intros Hl Hroom Hs Hsl Hm Hq Hid Hsq Hold.
  destruct (insert_next (sent_buffer self) q (SentMeta_new (time self)
    (vec_len (vc_vec (wl_writer w)) + packet_header_size (config self)) (sequence (received_buffer self))))
    as (sb & Hsb & _); try done.
  rewrite <- Hid in Hsb. eexists. unfold finish_packet. rewrite run_get. cbn beta iota. rewrite Hl. run_done.
  rewrite (proj2 (Z.eqb_neq _ _)) by done. cbn [negb]. run_done.
  erewrite run_bind_ok.
  2: { unfold st_fst, st_zoom, send_raw_packet. cbn [fst snd]. rewrite run_get.
       erewrite run_bind_ok by (unfold on_sent_buffer, st_zoom; rewrite Hsb; done). cbn beta. run_done. done. }
  cbn [fst snd]. rewrite run_get. cbn beta iota. run_done.
  unfold st_fst, st_zoom, on_dispatcher, st_zoom, MessageDispatcher_set_packet_message_handles, on_messages_in_packets, st_zoom.
  cbn [fst snd sequence_id dispatcher set_stats set_outbox set_sent_buffer l_handles].
  rewrite SeqBufFacts.insert_run by (try done; rewrite Hid; apply wrap16_range). rewrite Hold. done.
Qed.
End stale.

(** C33. A quiet connection cannot speak again: the record of the packets'
    messages only advances with packets of messages, while every keep-alive
    uses a packet id.  Once the next id is too old for that record (more than
    half the id space ahead), the next [visit_packets_to_send] with a message to
    send panics. *)
Theorem quiet_connection_panics `{BP : BuildProfile, BO : ByteOrder, BL : !ByteOrderLaws BO, SM : SmallMap} self salt :
  ep_ok self -> xor_salt self = Some salt -> 63 <= max_packet_size (config self) ->
  wrap16 (sequence_id self - sequence (sent_buffer self)) <= 16000 ->
  sent_unacked_packets self < MAX_UNACKED_PACKETS -> received_unacked_packets self <= MAX_UNACKED_PACKETS ->
  ChannelList_any_with_messages_to_send (ep_channels self) = true ->
  SeqBufFacts.too_old (messages_in_packets (dispatcher self)) (next_id self) = true ->
  visit_packets_to_send self = None.
Proof.
  intros Hok Hsalt Hsize Hsq Hu Hr Hany Hold.
  destruct (start_packet_run self salt (MkLocals None [] false) Hok Hsalt Hsize eq_refl Hu) as (bp & Hbp & Hstart).
  rewrite (proj2 (Z.ltb_ge _ _)) in Hstart by done. destruct Hstart as (w & Hstart & Hw & Hlim & Hwr).
  set (s1 := (started self bp, MkLocals (Some w) [] false)).
  assert (Hf1 : fill_ok s1 w) by (split; [apply Hok|done..]).
  destruct (fill_packet_run (S (ChannelList_queue_len (ep_channels s1.1))) s1 w Hf1) as ([self2 l2] & w2 & ms & Hfill & Hfl).
  { pose proof (ready_total_queue (ep_channels s1.1)). lia. }
  pose proof Hfl as [[_ _ Hl2 Hw2] Hframe Hlim2 Hwr2 _ _ _ _]. cbn [fst snd] in *.
  destruct (frame_fields _ _ Hframe) as (Fc & _ & _ & _ & _ & _ & Fi & Fs & Fd).
  cbn [fst s1 started set_sequence_id set_pool config sequence_id sent_buffer dispatcher] in Fc, Fi, Fs, Fd.
  pose proof (front_bytes_length self salt (eo_received _ Hok) Hr) as Hfront.
  pose proof (writer_written w2 Hw2) as Hlen2.
  destruct (finish_packet_too_old self2 l2 w2 (sequence_id self)) as (s' & Hfin).
  { done. } { rewrite Fc. rewrite Hwr2, Hwr, length_app in Hlen2. lia. }
  1-7: rewrite ?Fs, ?Fd, ?Fi; done || apply Hok.
  assert (Hnn : 0 <= sent_unacked_packets self) by apply wrap16_range.
  unfold visit_packets_to_send, mbind, ST_bind, st_try, compose_packets. rewrite run_get.
  rewrite (proj2 (Z.leb_gt _ _)) by lia. unfold mbind, ST_bind, st_with. cbn [compose_loop].
  rewrite run_get. cbn beta iota. rewrite Hany. cbn [negb]. run_step Hstart. rewrite run_get. cbn beta iota.
  run_step Hfill. erewrite run_bind_err by exact Hfin. by destruct s'.
Qed.

(** ** Endpoints that can compose: new ones, and after [send_message] *)
Section sending.
Context `{BP : BuildProfile, BO : ByteOrder, SM : SmallMap, SL : !SmallMapLaws SM}.

(** A configuration the endpoint works with. *)
Record good_config (cfg : PicklebackConfig) : Prop := {
  gc_pools : buffer_pools_config cfg <> Some [];
  gc_packet : 63 <= max_packet_size cfg;
  gc_sent : 0 < sent_packets_buffer_size cfg <= 16384;
  gc_received : 0 < received_packets_buffer_size cfg <= 16384;
  gc_frags : 0 < sent_frag_map_size cfg < 65536;
}.

(** A new endpoint: the default channels 0 and 1, nothing sent or received. *)
Definition fresh_endpoint (cfg : PicklebackConfig) (time : f64) : Pickleback := {|
  time := time; rtt := S754_zero false; packet_loss := S754_zero false; config := cfg;
  sequence_id := 0; newest_ack := None; ack_low_watermark := None; ack_low_watermark_non_empty := None;
  dispatcher := MessageDispatcher_new cfg;
  ep_channels := MkChannelList (<[1 := Reliable (ReliableChannel_new 1 time)]>
    (<[0 := Unreliable (UnreliableChannel_new 0 time)]> ∅));
  sent_buffer := SeqBuf.with_capacity (sent_packets_buffer_size cfg);
  received_buffer := SeqBuf.with_capacity (received_packets_buffer_size cfg);
  stats := PicklebackStats_default; outbox := [];
  pool := match buffer_pools_config cfg with Some c => BufPool_new c | None => BufPool_default end;
  xor_salt := None;
|}.

Lemma Pickleback_new_run cfg time : Pickleback_new cfg time = Some (fresh_endpoint cfg time).
Proof.
  unfold Pickleback_new.
  assert (Hins : (ChannelList_insert (Unreliable (UnreliableChannel_new 0 time));;
                  ChannelList_insert (Reliable (ReliableChannel_new 1 time))) ChannelList_default =
    Some (ep_channels (fresh_endpoint cfg time), Ok tt)) by done.
  by rewrite Hins.
Qed.

Lemma fresh_can_compose cfg time salt : good_config cfg ->
  can_compose (set_xor_salt (Some salt) (fresh_endpoint cfg time)) salt.
Proof.
  intros [Hpools Hsize Hsent Hrec Hfrags].
  split; [|reflexivity|exact Hsize|discriminate|discriminate].
  split; cbn [sent_buffer received_buffer dispatcher messages_in_packets MessageDispatcher_new pool sequence_id
    newest_ack ep_channels set_xor_salt next_message_id sent_frag_map sfm_m SentFragMap_with_capacity fresh_endpoint].
  - apply SeqBufFacts.with_capacity_wf. lia.
  - unfold SeqBuf.len. cbn [entries SeqBuf.with_capacity]. rewrite length_replicate. lia.
  - apply SeqBufFacts.with_capacity_wf. lia.
  - apply SeqBufFacts.with_capacity_wf. lia.
  - unfold SeqBuf.len. cbn [entries SeqBuf.with_capacity]. rewrite length_replicate. lia.
  - destruct (buffer_pools_config cfg) as [c|]; [|done]. apply BufPool_new_has_pool. congruence.
  - split; [lia|reflexivity].
  - exact I.
  - intros id ch. cbn [channels].
    intros [[<- <-]|[_ [[<- <-]|[_ H]]%lookup_insert_Some]]%lookup_insert_Some; [..|done].
    + split; [apply ReliableChannel_new_wf|split; [reflexivity|unfold MAX_CHANNELS; lia]].
    + split; [apply UnreliableChannel_new_wf|split; [reflexivity|unfold MAX_CHANNELS; lia]].
  - split; [lia|reflexivity].
  - by apply SeqBufFacts.with_capacity_wf.
Qed.

(** The endpoint once a message is with its channel. *)
Definition enqueued (channel : Z) (d : MessageDispatcher) (bp : BufPool) (ch : Channel) (self : Pickleback) : Pickleback :=
  set_dispatcher d (set_pool bp (set_ep_channels (ChannelList_set channel ch (ep_channels self))
    (set_stats (count_message_sends (stats self)) self))).

Lemma enqueued_can_compose channel d bp ch ch0 self salt :
  can_compose self salt -> channels (ep_channels self) !! channel = Some ch0 ->
  has_pool bp -> ch_wf ch -> ch_id ch = ch_id ch0 ->
  messages_in_packets d = messages_in_packets (dispatcher self) -> u16 (next_message_id d) ->
  SeqBufFacts.wf (sfm_m (sent_frag_map d)) -> can_compose (enqueued channel d bp ch self) salt.
Proof.
  intros [[] Hsalt Hsize Hs Hh] Hch0 Hbp Hch Hid Hd Hn Hf. destruct (eo_channels0 _ _ Hch0) as (_ & Hcid & Hr).
  split; cbn; try done; [|by rewrite Hd]. split; cbn; try done; [by rewrite Hd|by rewrite Hd|].
  apply ChannelList_set_ok; congruence || done.
Qed.

(** [send_message] on every branch: too large a payload, a full ack
    window and an unknown channel are refused, the state unchanged but for
    the count of sends in the last case; otherwise the channel gets one
    message with the next message id and the payload as given (a payload of
    up to 1024 bytes; larger ones are fragmented), the other channels and
    the outbox are untouched, and the endpoint stays able to compose. *)
Theorem send_message_outcomes self salt channel payload : can_compose self salt ->
  let len := Z.of_nat (length payload) in
  if max_message_size (config self) <? len then send_message channel payload self = Some (self, Err PayloadTooBig)
  else if MAX_UNACKED_PACKETS <=? sent_unacked_packets self
  then send_message channel payload self = Some (self, Err (BackpressureErr TooManyPending))
  else match channels (ep_channels self) !! channel with
  | None => send_message channel payload self =
      Some (set_stats (count_message_sends (stats self)) self, Err NoSuchChannel)
  | Some ch => len <= 1024 ->
      exists self' ch' m, send_message channel payload self = Some (self', Ok (next_message_id (dispatcher self))) /\
        can_compose self' salt /\ outbox self' = outbox self /\
        channels (ep_channels self') = <[channel := ch']> (channels (ep_channels self)) /\
        ch_messages ch' = ch_messages ch ++ [m] /\
        Message_as_slice m = header_bytes (next_message_id (dispatcher self)) None (MessageSizeMode_from len) channel len
          ++ payload /\
        next_message_id (dispatcher self') = wrap16 (next_message_id (dispatcher self) + 1)
  end.
Proof.
  intros Hcc len. unfold send_message. rewrite run_get. fold len.
  destruct (max_message_size (config self) <? len); [done|].
  destruct (MAX_UNACKED_PACKETS <=? sent_unacked_packets self); [done|].
  run_done. unfold ChannelList_get. destruct (channels (ep_channels self) !! channel) as [ch|] eqn:Hch; [|done].
  intros Hlen. pose proof Hcc as [[] _ _ _ _]. destruct (eo_channels0 _ _ Hch) as (Hwf & Hid & Hr).
  destruct (ch_enqueue_law (next_message_id (dispatcher self)) payload No (pool self) ch) as
    (bp & ch' & m & Henq & Hbp & Hwf' & Hid' & _ & Hm & _ & _ & _ & _ & Hslice); [done|done| | |].
  { rewrite Hid. unfold MAX_CHANNELS in Hr. lia. } { split; [done|split; [exact Hlen|exact I]]. }
  set (d := set_next_id (wrap16 (next_message_id (dispatcher self) + 1)) (dispatcher self)).
  exists (enqueued channel d bp ch' self), ch', m. split.
  - unfold st_zoom. cbn [dispatcher pool set_stats]. unfold MessageDispatcher_add_message_to_channel.
    fold len. rewrite (proj2 (Z.leb_le _ _)) by done.
    erewrite run_bind_ok by (unfold st_fst, st_zoom; cbn [fst snd]; rewrite next_message_id_run; done). cbn beta.
    erewrite run_bind_ok by (unfold st_snd, st_zoom; cbn [fst snd]; rewrite Henq; done). done.
  - split; [eapply enqueued_can_compose; try done; apply wrap16_range|]. do 3 (split; [done|]).
    split; [|done]. rewrite Hslice, Hid. done.
Qed.
End sending.

Lemma default_good_config : good_config PicklebackConfig_default.
Proof. split; simpl; try lia. done. Qed.

(** A new endpoint with the default configuration and a salt. *)
Definition example_endpoint : Pickleback :=
  set_xor_salt (Some 7) (fresh_endpoint PicklebackConfig_default (f64_lit 1 1)).

Lemma example_can_compose `{BP : BuildProfile, BO : ByteOrder} :
  can_compose example_endpoint 7.
Proof. apply fresh_can_compose, default_good_config. Qed.

Lemma send_message_outcomes_witness :
  exists self' ch' m, @send_message debug_build big_endian 1 [1; 2; 3] example_endpoint = Some (self', Ok 0) /\
    @can_compose debug_build big_endian self' 7 /\ outbox self' = [] /\
    channels (ep_channels self') = <[1 := ch']> (channels (ep_channels example_endpoint)) /\
    @ch_messages debug_build big_endian _ _ Channel_laws ch' = [] ++ [m] /\
    Message_as_slice m = @header_bytes big_endian 0 None (MessageSizeMode_from 3) 1 3 ++ [1; 2; 3] /\
    next_message_id (dispatcher self') = 1.
Proof.
  pose proof (send_message_outcomes (BP:=debug_build) (BO:=big_endian) example_endpoint 7 1 [1; 2; 3]
           example_can_compose) as H.
  cbv zeta in H.
  change (max_message_size (config example_endpoint) <? Z.of_nat (length [1; 2; 3])) with false in H.
  change (MAX_UNACKED_PACKETS <=? sent_unacked_packets example_endpoint) with false in H.
  change (channels (ep_channels example_endpoint) !! 1) with (Some (Reliable (ReliableChannel_new 1 (f64_lit 1 1)))) in H.
  cbn beta iota in H. apply H. simpl. lia.
Defined.

(** After a message was sent. *)
Lemma visit_packets_sends_bounded_packets_witness :
  exists self self' ps, @send_message debug_build big_endian 1 [1; 2; 3] example_endpoint = Some (self, Ok 0) /\
    @visit_packets_to_send debug_build big_endian elements_order self = Some (self', Ok (vdata <$> outbox self ++ ps)) /\
    @ep_ok debug_build big_endian self' /\ outbox self' = [] /\
    Forall (@packet_of debug_build big_endian self 7) ps /\
    Z.of_nat (length ps) <= Z.max 0 (MAX_UNACKED_PACKETS - sent_unacked_packets self) /\
    (forall m, @queued debug_build big_endian (ep_channels self') m -> @queued debug_build big_endian (ep_channels self) m) /\
    (@ChannelList_any_with_messages_to_send debug_build big_endian elements_order (ep_channels self') = false \/ window_full self').
Proof.
  destruct send_message_outcomes_witness as (self & _ & _ & Hsend & Hcc & _).
  exists self.
  destruct (visit_packets_sends_bounded_packets (BP:=debug_build) (BO:=big_endian) (BL:=big_endian_laws)
    (SM:=elements_order) self 7 Hcc) as (self' & ps & H).
  exists self', ps. split; [exact Hsend|exact H].
Defined.

(** 40000 keep-alives later, with a message to send. *)
Definition example_quiet : Pickleback :=
  set_sequence_id 40000 (set_newest_ack (Some 40000) (set_sent_buffer (SeqBuf.set_sequence 40000 (SeqBuf.with_capacity 512))
    (set_ep_channels (MkChannelList {[1 := Reliable example_reliable]}) example_endpoint))).

Lemma example_quiet_ok `{BP : BuildProfile, BO : ByteOrder} : ep_ok example_quiet.
Proof.
  destruct (cc_ok _ _ example_can_compose). split; unfold example_quiet;
    cbn [sent_buffer received_buffer dispatcher pool sequence_id newest_ack ep_channels set_sent_buffer set_ep_channels
         set_sequence_id set_newest_ack]; try done.
  - apply SeqBufFacts.set_sequence_wf; [apply SeqBufFacts.with_capacity_wf|]; lia.
  - intros id ch Hch. cbn [channels] in Hch. apply lookup_singleton_Some in Hch as [<- <-].
    split; [|split; [reflexivity|unfold MAX_CHANNELS; lia]].
    split; [by repeat constructor|]. split; [apply SeqBufFacts.with_capacity_wf; lia|exact default_resend_time].
Qed.

Lemma quiet_connection_panics_witness :
  @visit_packets_to_send debug_build big_endian elements_order example_quiet = None.
Proof.
  apply (quiet_connection_panics (BP:=debug_build) (BO:=big_endian) (BL:=big_endian_laws) (SM:=elements_order)
           example_quiet 7 example_quiet_ok).
  - reflexivity.
  - simpl. lia.
  - vm_compute. discriminate.
  - vm_compute. reflexivity.
  - vm_compute. discriminate.
  - vm_compute. reflexivity.
  - vm_compute. reflexivity.
Defined.
