(* ===== verification/Acks.v ===== *)
(** * Incoming acks: proofs about [process_ack] and the loss estimate

    What one acked packet does to the endpoint of [endpoint.rs] and the
    dispatcher of [dispatcher.rs], and that the sampling of the packet loss
    terminates. *)

From S2P Require Import Prelude Floats Types SequenceBuffer Cursor BufferPool AckHeader Message Packets Reassembler Channel Dispatcher Endpoint Compose.

(** ** The record of fragmented messages *)

(** Every message remembered can be inserted again without moving the window:
    no ack of a fragment can fail. *)
Record frag_safe (m : SequenceBuffer FragAckStatus) : Prop := {
  fs_wf : SeqBufFacts.wf m;
  fs_in : forall p st, u16 p -> SeqBufFacts.find m p = Some st ->
    SeqBufFacts.too_old m p = false /\ sequence_greater_than p (sequence m) = false;
}.

(** The window is where it was, and no key is new. *)
Record keys_shrink {T} (m m' : SequenceBuffer T) : Prop := {
  ks_sequence : sequence m' = sequence m;
  ks_len : SeqBuf.len m' = SeqBuf.len m;
  ks_keys : forall j, is_Some (SeqBufFacts.find m' j) -> is_Some (SeqBufFacts.find m j);
}.

Lemma keys_shrink_refl {T} (m : SequenceBuffer T) : keys_shrink m m.
Proof. by split. Qed.

Lemma keys_shrink_trans {T} (a b c : SequenceBuffer T) : keys_shrink a b -> keys_shrink b c -> keys_shrink a c.
Proof. intros [] []. split; [congruence..|auto]. Qed.

Lemma frag_safe_weaken m m' : frag_safe m -> SeqBufFacts.wf m' -> keys_shrink m m' -> frag_safe m'.
Proof.
  intros [Hwf Hin] Hwf' [Hs Hl Hf]. split; [done|]. intros p st Hp Hst.
  destruct (Hf p) as [st0 Hst0]; [eauto|]. unfold SeqBufFacts.too_old. rewrite Hs, Hl. by eapply Hin.
Qed.

(** The fragments of message [p] that are still to be acked, while some are;
    what an ack of the fragment [id] leaves of them, and whether it was the
    last. *)
Definition waiting (m : SequenceBuffer FragAckStatus) (p : MessageId) : option (list MessageId) :=
  match SeqBufFacts.find m p with Some (Partial rem) => Some rem | _ => None end.

Definition still_waiting (id : MessageId) (w : option (list MessageId)) : option (list MessageId) :=
  rem ← w; match List.filter (fun i => negb (i =? id)) rem with [] => None | rem' => Some rem' end.

Definition was_last (id : MessageId) (w : option (list MessageId)) : bool :=
  match w with Some rem => match List.filter (fun i => negb (i =? id)) rem with [] => true | _ => false end | None => false end.

(** What an ack of the fragment [id] makes of the status of its message [p]:
    the fragment is no longer waited for, and [b] says that none is. *)
Record frag_acked (p id : Z) (m m' : SequenceBuffer FragAckStatus) (b : bool) : Prop := {
  fa_status : forall j st, SeqBufFacts.find m' j = Some st -> SeqBufFacts.find m j = Some st \/
    j = p /\ exists rem, SeqBufFacts.find m p = Some (Partial rem) /\
      let rem' := List.filter (fun i => negb (i =? id)) rem in st = Partial rem' \/ st = Complete /\ rem' = [];
  fa_all : b = true -> exists rem, SeqBufFacts.find m p = Some (Partial rem) /\
    List.filter (fun i => negb (i =? id)) rem = [];
  fa_last : b = was_last id (waiting m p);
  fa_waiting : forall j, waiting m' j = if decide (j = p) then still_waiting id (waiting m p) else waiting m j;
}.

(** Acking a fragment never fails. *)
Lemma ack_fragment_run p id s : u16 p -> frag_safe (sfm_m s) ->
  exists s' b, SentFragMap_ack_fragment_message p id s = Some (s', Ok b) /\ frag_safe (sfm_m s') /\
    keys_shrink (sfm_m s) (sfm_m s') /\ frag_acked p id (sfm_m s) (sfm_m s') b.
Proof.
  intros Hp Hs. pose proof Hs as [Hwf Hin]. unfold SentFragMap_ack_fragment_message.
  erewrite run_bind_ok by (unfold sfm_zoom, st_zoom, st_asks; rewrite SeqBufFacts.get_mut_find by done; done).
  cbn beta. assert (Hs0 : MkSentFragMap (sfm_m s) = s) by (by destruct s). rewrite Hs0.
  assert (Hsame : waiting (sfm_m s) p = None -> frag_acked p id (sfm_m s) (sfm_m s) false).
  { intros Hw. split; [by left|done|by rewrite Hw|]. intros j. rewrite Hw. by case_decide as Hj; [subst|]. }
  unfold waiting in Hsame at 1.
  destruct (SeqBufFacts.find (sfm_m s) p) as [st|] eqn:Hf; cbn [fmap option_fmap option_map]; [|exists s, false; split_and!; by auto using keys_shrink_refl].
  destruct st as [| |rem]; [exists s, false; split_and!; by auto using keys_shrink_refl..|]. clear Hsame.
  set (rem' := List.filter _ rem).
  destruct (SeqBufFacts.set_entry_run p (Partial rem') _ (sfm_m s) Hwf Hf) as (m1 & Hset & Hwf1 & Hseq & Hlen & Hf1).
  assert (Hk1 : keys_shrink (sfm_m s) m1).
  { split; [done..|]. intros j. rewrite Hf1. case_decide; [subst; by rewrite Hf|done]. }
  assert (Hs1 : frag_safe m1) by by eapply frag_safe_weaken.
  rewrite run_assoc. erewrite run_bind_ok by (unfold sfm_zoom, st_zoom, st_update; rewrite Hset; done). cbn beta. run_done.
  assert (Hst1 : forall j st, SeqBufFacts.find m1 j = Some st -> SeqBufFacts.find (sfm_m s) j = Some st \/ j = p /\ st = Partial rem').
  { intros j st. rewrite Hf1. case_decide; [intros [= <-]; by right|by left]. }
  assert (Hw : waiting (sfm_m s) p = Some rem) by (by unfold waiting; rewrite Hf).
  destruct rem' as [|x r] eqn:Hrem.
  2: { exists (MkSentFragMap m1), false. do 3 (split; [done|]). unfold rem' in Hrem. split; [|done| |].
       - intros j st Hj. destruct (Hst1 j st Hj) as [?|[-> ->]]; [by left|right]. split; [done|]. exists rem. split; [done|].
         left. by rewrite <- Hrem.
       - rewrite Hw. cbn. by rewrite Hrem.
       - intros j. rewrite Hw. cbn. rewrite Hrem. unfold waiting. cbn [sfm_m]. rewrite Hf1. by case_decide. }
  destruct (Hin p _ Hp Hf) as [Hold Hnew].
  assert (Hadv : SeqBufFacts.advance p m1 = m1) by (unfold SeqBufFacts.advance; by rewrite Hseq, Hnew).
  assert (Hk2 : keys_shrink m1 (SeqBufFacts.fill_slot p Complete m1)).
  { split; [done|by unfold SeqBuf.len; simpl; rewrite length_insert|]. intros j.
    rewrite SeqBufFacts.find_fill_slot by done.
    case_decide as Hj; [subst; rewrite Hf1, decide_True by done; eauto|]. case_decide; [by intros [? ?]|done]. }
  exists (MkSentFragMap (SeqBufFacts.fill_slot p Complete m1)), true. split; [|split; [|split]].
  - erewrite run_bind_ok; [done|]. unfold st_unwrap, sfm_zoom, st_zoom. cbn [sfm_m].
    rewrite SeqBufFacts.insert_run by done. unfold SeqBufFacts.too_old in *. by rewrite Hseq, Hlen, Hold, Hadv.
  - eapply (frag_safe_weaken m1); [done|by apply SeqBufFacts.fill_slot_wf|done].
  - by eapply keys_shrink_trans.
  - unfold rem' in Hrem. split; [|by exists rem|rewrite Hw; cbn; by rewrite Hrem|].
    + intros j st. cbn [sfm_m]. rewrite SeqBufFacts.find_fill_slot by done.
      case_decide; [|case_decide; [done|]].
      * subst j. intros [= <-]. right. split; [done|]. exists rem. split; [done|]. right. split; [done|exact Hrem].
      * intros Hj. destruct (Hst1 j st Hj) as [?|[-> ->]]; [by left|done].
    + intros j. rewrite Hw. cbn. rewrite Hrem. unfold waiting. cbn [sfm_m]. rewrite SeqBufFacts.find_fill_slot, Hf1 by done.
      case_decide as Hj; [done|]. case_decide as Hslot; [|done].
      destruct (SeqBufFacts.find (sfm_m s) j) as [st|] eqn:Hfj; [|done]. exfalso. apply Hj.
      apply (SeqBufFacts.find_same_slot m1); [by rewrite Hf1, decide_False|by rewrite Hf1, decide_True|done].
Qed.

(** ** The messages of an acked packet *)

(** What acking a message means to the user, given the fragments that are
    still to be acked: a whole message is reported by its id, a fragment by its
    parent's if it is the last.  With the channels. *)
Definition ack_report (w : MessageId -> option (list MessageId)) (h : MessageHandle)
  : list (Z * MessageId) * (MessageId -> option (list MessageId)) :=
  match frag_index h with
  | None => ([(mh_channel h, mh_id h)], w)
  | Some i =>
      let p := wrap16 (mh_id h - i) in
      (if was_last (mh_id h) (w p) then [(mh_channel h, p)] else [],
       fun j => if decide (j = p) then still_waiting (mh_id h) (w p) else w j)
  end.

Fixpoint ack_reports (w : MessageId -> option (list MessageId)) (hs : list MessageHandle) : list (Z * MessageId) :=
  match hs with
  | [] => []
  | h :: hs => (ack_report w h).1 ++ ack_reports (ack_report w h).2 hs
  end.

(** The message ids that acking [hs] adds to the ack inbox of channel [c]. *)
Definition acked_ids (c : Z) (w : MessageId -> option (list MessageId)) (hs : list MessageHandle) : list MessageId :=
  snd <$> filter (fun x => x.1 = c) (ack_reports w hs).

Lemma ack_reports_ext w w' hs : (forall j, w j = w' j) -> ack_reports w hs = ack_reports w' hs.
Proof.
  revert w w'. induction hs as [|h hs IH]; intros w w' Hw; [done|]. cbn [ack_reports]. unfold ack_report.
  destruct (frag_index h) as [i|]; cbn [fst snd]; rewrite ?Hw; f_equal; apply IH; [|done].
  intros j. by case_decide.
Qed.

Lemma acked_ids_cons c w h hs : acked_ids c w (h :: hs) = acked_ids c w [h] ++ acked_ids c (ack_report w h).2 hs.
Proof. unfold acked_ids. cbn [ack_reports]. by rewrite app_nil_r, filter_app, fmap_app. Qed.

(** Without fragments these are the messages' own. *)
Lemma acked_ids_whole c w hs : Forall (fun h => frag_index h = None) hs ->
  acked_ids c w hs = mh_id <$> filter (fun h => mh_channel h = c) hs.
Proof.
  induction 1 as [|h hs Hh _ IH]; [done|]. rewrite acked_ids_cons.
  assert (Hr : ack_report w h = ([(mh_channel h, mh_id h)], w)) by (unfold ack_report; by rewrite Hh).
  rewrite Hr. cbn [snd]. rewrite IH. unfold acked_ids. cbn [ack_reports]. rewrite Hr. cbn. by case_decide.
Qed.

(** What acks leave of a dispatcher, apart from the handles of the acked
    packet. *)
Record acks_frame (d d' : MessageDispatcher) : Prop := {
  kf_next : next_message_id d' = next_message_id d;
  kf_inbox : message_inbox d' = message_inbox d;
  kf_reassembler : message_reassembler d' = message_reassembler d;
  kf_frags : keys_shrink (sfm_m (sent_frag_map d)) (sfm_m (sent_frag_map d'));
}.

Lemma acks_frame_trans a b c : acks_frame a b -> acks_frame b c -> acks_frame a c.
Proof. intros [] []. split; [congruence..|by eapply keys_shrink_trans]. Qed.

Definition inbox_of (m : gmap Z (list MessageId)) (c : Z) : list MessageId := default [] (m !! c).

Lemma push_inbox m c0 id c : inbox_of (<[c0 := default [] (m !! c0) ++ [id]]> m) c =
  inbox_of m c ++ (snd <$> filter (fun x => x.1 = c) [(c0, id)]).
Proof.
  unfold inbox_of. destruct (decide (c0 = c)) as [<-|Hne].
  - rewrite lookup_insert_eq. cbn. by rewrite decide_True.
  - rewrite lookup_insert_ne by done. cbn. by rewrite decide_False, app_nil_r.
Qed.

Lemma ack_message_run h d : u16 (mh_id h) -> frag_safe (sfm_m (sent_frag_map d)) ->
  exists d', ack_message h d = Some (d', Ok tt) /\ frag_safe (sfm_m (sent_frag_map d')) /\
    messages_in_packets d' = messages_in_packets d /\ acks_frame d d' /\
    (forall j, waiting (sfm_m (sent_frag_map d')) j = (ack_report (waiting (sfm_m (sent_frag_map d))) h).2 j) /\
    (forall c, inbox_of (ack_inbox d') c = inbox_of (ack_inbox d) c ++ acked_ids c (waiting (sfm_m (sent_frag_map d))) [h]).
Proof.
  intros Hid Hs. unfold ack_message, MessageHandle_parent_id, acked_ids. cbn [ack_reports]. rewrite app_nil_r. unfold ack_report.
  destruct (frag_index h) as [i|] eqn:Hi; cbn [fmap option_fmap option_map].
  - destruct (ack_fragment_run (wrap16 (mh_id h - i)) (mh_id h) (sent_frag_map d)) as (s' & b & Hrun & Hs' & Hk & Hfr);
      [apply wrap16_range|done|]. rewrite <- (fa_last _ _ _ _ _ Hfr). pose proof (fa_waiting _ _ _ _ _ Hfr) as Hw.
    erewrite run_bind_ok by (unfold on_sent_frag_map, st_zoom; rewrite Hrun; done). cbn beta.
    destruct b; (eexists; split; [done|]); do 2 (split; [done|]); (split; [by split|]); (split; [exact Hw|]); intros c;
      [by apply push_inbox|by rewrite app_nil_r].
  - eexists. split; [done|]. do 2 (split; [done|]). split; [by split|]. split; [done|]. intros c. by apply push_inbox.
Qed.

Section handles.
Context `{BP : BuildProfile, BO : ByteOrder}.

(** A handle of a message of one of the channels; an unfragmented message
    queued under its id is not taken for a fragment. *)
Definition handle_ok (l : ChannelList) (h : MessageHandle) : Prop :=
  u16 (mh_id h) /\
  exists ch, channels l !! mh_channel h = Some ch /\ Forall (handle_fits h) (ch_messages ch).

(** The channels after acks: none is gone, no message is new. *)
Record channels_shrink (l l' : ChannelList) : Prop := {
  sh_ok : channels_ok l -> channels_ok l';
  sh_channel : forall id ch, channels l !! id = Some ch ->
    exists ch', channels l' !! id = Some ch' /\ ch_seen ch' = ch_seen ch /\
      forall m, m ∈ ch_messages ch' -> m ∈ ch_messages ch;
  sh_back : forall id ch', channels l' !! id = Some ch' -> is_Some (channels l !! id);
}.

Lemma channels_shrink_refl l : channels_shrink l l.
Proof. split; [done| |by eauto]. intros id ch Hch. by exists ch. Qed.

Lemma channels_shrink_trans l1 l2 l3 : channels_shrink l1 l2 -> channels_shrink l2 l3 -> channels_shrink l1 l3.
Proof.
  intros [H1 Hc1 Hb1] [H2 Hc2 Hb2]. split; [auto| |].
  2: { intros id ch Hch. destruct (Hb2 id ch Hch) as [ch2 Hch2]. by eapply Hb1. }
  intros id ch Hch.
  destruct (Hc1 id ch Hch) as (ch2 & Hch2 & Hs2 & Hm2).
  destruct (Hc2 id ch2 Hch2) as (ch3 & Hch3 & Hs3 & Hm3). exists ch3. rewrite Hs3. auto.
Qed.

Lemma handle_ok_sub l l' h :
  (forall id ch, channels l !! id = Some ch -> exists ch', channels l' !! id = Some ch' /\
    forall m, m ∈ ch_messages ch' -> m ∈ ch_messages ch) -> handle_ok l h -> handle_ok l' h.
Proof.
  intros Hsub (Hid & ch & Hch & Hfit). split; [done|]. destruct (Hsub _ _ Hch) as (ch' & Hch' & Hm).
  exists ch'. split; [done|]. rewrite Forall_forall in *. auto.
Qed.

Lemma handle_ok_shrink l l' h : channels_shrink l l' -> handle_ok l h -> handle_ok l' h.
Proof.
  intros [_ Hsh _]. apply handle_ok_sub. intros id ch Hch. destruct (Hsh id ch Hch) as (ch' & ? & _ & ?). eauto.
Qed.

Lemma channel_ack_received_run h l : channels_ok l -> handle_ok l h ->
  exists l' bufs, channel_ack_received h l = Some (l', Ok bufs) /\ channels_shrink l l'.
Proof.
  intros Hl (_ & ch & Hch & Hfit). destruct (Hl _ _ Hch) as (Hwf & Hid & Hr).
  destruct (ch_ack_law h ch Hfit Hwf) as (ch' & bufs & Hrun & Hwf' & Hid' & Hseen & Hsub).
  exists (ChannelList_set (mh_channel h) ch' l), bufs. split.
  - unfold channel_ack_received. rewrite run_get. unfold ChannelList_get. rewrite Hch. run_done.
    erewrite run_bind_ok by (unfold st_local; rewrite Hrun; done). done.
  - split; [intros _; apply ChannelList_set_ok; congruence || done| |].
    2: { intros id c. simpl. intros [[<- _]|[_ Hc]]%lookup_insert_Some; eauto. }
    intros id c Hc. simpl. destruct (decide (id = mh_channel h)) as [->|Hne].
    + rewrite lookup_insert_eq. assert (c = ch) as -> by congruence. by exists ch'.
    + rewrite lookup_insert_ne by done. by exists c.
Qed.

(** What acking [hs] does, handle by handle, while the memory of the packets
    they were in is forgotten. *)
Inductive ack_trace : list MessageHandle -> MessageDispatcher * ChannelList -> MessageDispatcher * ChannelList -> Prop :=
| trace_nil s : ack_trace [] s s
| trace_ack h hs bufs d l d1 l1 s :
    channel_ack_received h l = Some (l1, Ok bufs) -> ack_message h d = Some (d1, Ok tt) ->
    ack_trace hs (d1, l1) s -> ack_trace (h :: hs) (d, l) s
| trace_forget mip hs d l s : ack_trace hs (set_handles mip d, l) s -> ack_trace hs (d, l) s.

Lemma ack_trace_app hs hs' s1 s2 s3 : ack_trace hs s1 s2 -> ack_trace hs' s2 s3 -> ack_trace (hs ++ hs') s1 s3.
Proof. induction 1; intros H3; [done|eapply trace_ack; eauto|eapply trace_forget; eauto]. Qed.

Lemma ack_handles_run hs bufs d l : channels_ok l -> Forall (handle_ok l) hs -> frag_safe (sfm_m (sent_frag_map d)) ->
  exists d' l' bufs', ack_handles hs bufs (d, l) = Some ((d', l'), Ok bufs') /\
    channels_shrink l l' /\ frag_safe (sfm_m (sent_frag_map d')) /\
    messages_in_packets d' = messages_in_packets d /\ acks_frame d d' /\ ack_trace hs (d, l) (d', l') /\
    (forall c, inbox_of (ack_inbox d') c = inbox_of (ack_inbox d) c ++ acked_ids c (waiting (sfm_m (sent_frag_map d))) hs).
Proof.
  revert bufs d l. induction hs as [|h hs IH]; intros bufs d l Hl Hhs Hs.
  { exists d, l, bufs. split; [done|]. split; [apply channels_shrink_refl|]. do 2 (split; [done|]).
    split; [by split|]. split; [constructor|]. intros c. by rewrite app_nil_r. }
  apply Forall_cons in Hhs as [Hh Hhs].
  destruct (channel_ack_received_run h l Hl Hh) as (l1 & b1 & Hch & Hsh).
  destruct (ack_message_run h d (proj1 Hh) Hs) as (d1 & Hack & Hs1 & Hm1 & Hfr1 & Hw1 & Hin1).
  destruct (IH (bufs ++ b1) d1 l1) as (d2 & l2 & b2 & Hrun & Hsh2 & Hs2 & Hm2 & Hfr2 & Htr2 & Hin2); [|  |done|].
  { by apply (sh_ok _ _ Hsh). } { eapply Forall_impl; [done|]. intros h'. by apply handle_ok_shrink. }
  exists d2, l2, b2. split.
  - cbn [ack_handles]. erewrite run_bind_ok by (unfold st_snd, st_zoom; cbn [fst snd]; rewrite Hch; done). cbn [fst snd].
    erewrite run_bind_ok by (unfold st_fst, st_zoom; cbn [fst snd]; rewrite Hack; done). cbn [fst snd]. exact Hrun.
  - split; [by eapply channels_shrink_trans|]. do 2 (split; [done || congruence|]).
    split; [by eapply acks_frame_trans|]. split; [by eapply trace_ack|].
    intros c. rewrite Hin2, Hin1, <- app_assoc, (acked_ids_cons c _ h hs). do 2 f_equal. unfold acked_ids. by rewrite (ack_reports_ext _ _ hs Hw1).
Qed.

(** What a dispatcher must look like for acks to be processed. *)
Record acks_ok (d : MessageDispatcher) (l : ChannelList) : Prop := {
  ak_handles : forall k hs, u16 k -> SeqBufFacts.find (messages_in_packets d) k = Some hs -> Forall (handle_ok l) hs;
  ak_frags : frag_safe (sfm_m (sent_frag_map d));
}.

Lemma acked_packet_run k d l : u16 k -> SeqBufFacts.wf (messages_in_packets d) -> channels_ok l -> acks_ok d l ->
  let hs := default [] (SeqBufFacts.find (messages_in_packets d) k) in
  exists d' l' bufs, MessageDispatcher_acked_packet k (d, l) = Some ((d', l'), Ok bufs) /\
    channels_shrink l l' /\ acks_ok d' l' /\
    messages_in_packets d' = SeqBufFacts.clear_slot (SeqBufFacts.slot (messages_in_packets d) k) (messages_in_packets d) /\
    acks_frame d d' /\ ack_trace hs (d, l) (d', l') /\
    (forall c, inbox_of (ack_inbox d') c = inbox_of (ack_inbox d) c ++ acked_ids c (waiting (sfm_m (sent_frag_map d))) hs).
Proof.
  intros Hk Hwf Hl [Hh Hs] hs. set (mip := SeqBufFacts.clear_slot _ _).
  assert (Hrem : st_fst (T:=ChannelList) (on_messages_in_packets (SeqBuf.remove k)) (d, l) =
                 Some ((set_handles mip d, l), Ok (SeqBufFacts.find (messages_in_packets d) k))).
  { unfold st_fst, on_messages_in_packets, st_zoom. cbn [fst snd]. by rewrite SeqBufFacts.remove_run. }
  assert (Hkeep : forall l' j hs', channels_shrink l l' -> u16 j -> SeqBufFacts.find mip j = Some hs' -> Forall (handle_ok l') hs').
  { intros l' j hs' Hsh Hj. unfold mip. rewrite SeqBufFacts.find_clear_slot by done. case_decide; [done|].
    intros Hf. eapply Forall_impl; [by eapply Hh|]. intros h. by apply handle_ok_shrink. }
  unfold MessageDispatcher_acked_packet. run_step Hrem. subst hs.
  destruct (SeqBufFacts.find (messages_in_packets d) k) as [hs|] eqn:Hf; cbn [default].
  - destruct (ack_handles_run hs [] (set_handles mip d) l Hl (Hh k hs Hk Hf) Hs)
      as (d' & l' & bufs & Hrun & Hsh & Hs' & Hm & Hfr & Htr & Hin).
    exists d', l', bufs. split; [done|]. split; [done|].
    split; [|split; [done|split; [by destruct Hfr|split; [by eapply trace_forget|done]]]].
    split; [|done]. intros j hs' Hj. rewrite Hm. by apply Hkeep.
  - exists (set_handles mip d), l, []. split; [done|]. split; [apply channels_shrink_refl|].
    split; [split; [|done]; intros j hs'; apply Hkeep, channels_shrink_refl|]. split; [done|]. split; [by split|].
    split; [eapply trace_forget; constructor|].
    intros c. by rewrite app_nil_r.
Qed.
End handles.

(** ** One ack *)
Section process.
Context `{BP : BuildProfile, BO : ByteOrder}.

Definition mark_acked (m : SentMeta) : SentMeta :=
  {| sm_time := sm_time m; sm_acked := true; sm_size := sm_size m; sm_acked_up_to := sm_acked_up_to m |}.

(** The endpoint's invariant with the dispatcher's. *)
Definition receive_ok (self : Pickleback) : Prop := ep_ok self /\ acks_ok (dispatcher self) (ep_channels self).

(** Nothing that was sent, and nothing the peer has confirmed, reports more
    received packets than [hi]. *)
Definition acked_below (hi : Z) (self : Pickleback) : Prop :=
  (forall w, ack_low_watermark self = Some w -> 0 <= w <= hi) /\
  (forall j m, u16 j -> SeqBufFacts.find (sent_buffer self) j = Some m -> 0 <= sm_acked_up_to m <= hi).

(** What acks never touch. *)
Record ack_frame (self self' : Pickleback) : Prop := {
  af_config : config self' = config self;
  af_sequence : sequence_id self' = sequence_id self;
  af_received : received_buffer self' = received_buffer self;
  af_outbox : outbox self' = outbox self;
  af_salt : xor_salt self' = xor_salt self;
  af_dispatcher : acks_frame (dispatcher self) (dispatcher self');
  af_handles : sequence (messages_in_packets (dispatcher self')) = sequence (messages_in_packets (dispatcher self)) /\
    forall k hs, u16 k -> SeqBufFacts.find (messages_in_packets (dispatcher self')) k = Some hs ->
      SeqBufFacts.find (messages_in_packets (dispatcher self)) k = Some hs;
  af_channels : channels_shrink (ep_channels self) (ep_channels self');
  af_len : SeqBuf.len (sent_buffer self') = SeqBuf.len (sent_buffer self);
  af_sent : sequence (sent_buffer self') = sequence (sent_buffer self);
  af_below : forall hi, acked_below hi self -> acked_below hi self';
}.

Lemma ack_frame_refl self : ack_frame self self.
Proof. split; try done. apply channels_shrink_refl. Qed.

Lemma ack_frame_trans a b c : ack_frame a b -> ack_frame b c -> ack_frame a c.
Proof.
  intros [] []. split; try congruence; [by eapply acks_frame_trans| |by eapply channels_shrink_trans|auto].
  split; [destruct af_handles0, af_handles1; congruence|]. intros k hs Hk Hf. apply af_handles0; [done|]. by apply af_handles1.
Qed.

Lemma return_buffers_run (bs : list PooledBuffer) self : has_pool (pool self) ->
  exists bp, st_for bs (fun b => on_pool_field (return_buffer b)) self = Some (set_pool bp self, Ok tt) /\ has_pool bp.
Proof. apply return_all_run. Qed.

(** The newest ack after an ack of [k]. *)
Definition newer_ack (k : Z) (newest : option Z) : option Z :=
  match newest with
  | Some newest => if sequence_greater_than k newest then Some k else Some newest
  | None => Some k
  end.

Lemma process_ack_unknown t k self : SeqBufFacts.wf (sent_buffer self) ->
  (forall meta, SeqBufFacts.find (sent_buffer self) k = Some meta -> sm_acked meta = true) ->
  process_ack t (k, true) self = Some (self, Ok tt).
Proof.
  intros Hwf Hacked. unfold process_ack. cbn [negb].
  assert (Hget : on_sent_buffer (st_asks (fun sb => SeqBuf.get_mut sb k)) self =
    Some (self, Ok ((fun v => (v, fun v' => SeqBuf.set_entry (SeqBufFacts.slot (sent_buffer self) k) v' (sent_buffer self)))
                    <$> SeqBufFacts.find (sent_buffer self) k))).
  { unfold on_sent_buffer, st_zoom, st_asks. rewrite SeqBufFacts.get_mut_find by done. by destruct self. }
  run_step Hget. destruct (SeqBufFacts.find (sent_buffer self) k) as [meta|]; [|done]. cbn [fmap option_fmap option_map].
  by rewrite (Hacked meta).
Qed.

Lemma raise_non_empty_run t w q :
  (if negb (bool_decide (t = TKeepAlive))
   then st_modify (fun p => set_ack_low_watermark_non_empty (raise_watermark w (ack_low_watermark_non_empty p)) p)
   else mret tt) q =
  Some (set_ack_low_watermark_non_empty (if negb (bool_decide (t = TKeepAlive)) then
    raise_watermark w (ack_low_watermark_non_empty q) else ack_low_watermark_non_empty q) q, Ok (E:=PicklebackError) tt).
Proof. destruct (negb _); [done|by destruct q]. Qed.

Lemma raise_watermark_one_of (P : Z -> Prop) w low : P w -> (forall w0, low = Some w0 -> P w0) ->
  forall w', raise_watermark w low = Some w' -> P w'.
Proof.
  intros Hw Hl w'. unfold raise_watermark. destruct low as [w0|]; [|by intros [= <-]].
  specialize (Hl w0 eq_refl). destruct (sequence_greater_than _ _); by intros [= <-].
Qed.

Lemma process_ack_run t k self meta : receive_ok self -> u16 k ->
  SeqBufFacts.find (sent_buffer self) k = Some meta -> sm_acked meta = false ->
  let hs := default [] (SeqBufFacts.find (messages_in_packets (dispatcher self)) k) in
  exists self', process_ack t (k, true) self = Some (self', Ok tt) /\ receive_ok self' /\ ack_frame self self' /\
    (forall j, SeqBufFacts.find (sent_buffer self') j =
      if decide (j = k) then Some (mark_acked meta) else SeqBufFacts.find (sent_buffer self) j) /\
    newest_ack self' = newer_ack k (newest_ack self) /\
    packets_acked (stats self') = packets_acked (stats self) + 1 /\
    ack_trace hs (dispatcher self, ep_channels self) (dispatcher self', ep_channels self') /\
    (forall c, inbox_of (ack_inbox (dispatcher self')) c = inbox_of (ack_inbox (dispatcher self)) c ++
      acked_ids c (waiting (sfm_m (sent_frag_map (dispatcher self)))) hs).
Proof.
  intros [Hok Hacks] Hk Hf Hna hs.
  destruct (SeqBufFacts.set_entry_run k (mark_acked meta) _ (sent_buffer self) (eo_sent _ Hok) Hf)
    as (sb & Hset & Hsbwf & Hsbseq & Hsblen & Hsbf).
  destruct (acked_packet_run k (dispatcher self) (ep_channels self) Hk (eo_handles _ Hok) (eo_channels _ Hok) Hacks)
    as (d & l & bufs & Hrun & Hsh & Hacks' & Hmip & Hdf & Htr & Hin). fold hs in Hin, Htr.
  set (low := raise_watermark (sm_acked_up_to meta) (ack_low_watermark self)).
  set (low' := if negb (bool_decide (t = TKeepAlive)) then raise_watermark (sm_acked_up_to meta) (ack_low_watermark_non_empty self)
               else ack_low_watermark_non_empty self).
  set (self1 := set_ep_channels l (set_dispatcher d (set_sent_buffer sb (set_stats (count_packets_acked (stats self))
    (set_ack_low_watermark_non_empty low' (set_ack_low_watermark low (set_newest_ack (newer_ack k (newest_ack self)) self))))))).
  destruct (return_buffers_run bufs self1 (eo_pool _ Hok)) as (bp & Hret & Hbp).
  set (self2 := set_pool bp self1) in *.
  set (rtt' := smooth_rtt self2 (f32_mul (f32_of_f64 (f64_sub (time self2) (sm_time meta))) (f32_lit 1000 1))).
  exists (set_rtt rtt' self2). split.
  - unfold process_ack. cbn [negb].
    erewrite run_bind_ok by (unfold on_sent_buffer, st_zoom, st_asks; rewrite SeqBufFacts.get_mut_find, Hf by apply Hok; done).
    cbn beta iota. cbn [fmap option_fmap option_map]. rewrite Hna. do 2 run_done.
    run_step (raise_non_empty_run t (sm_acked_up_to meta) (set_ack_low_watermark low (set_newest_ack (newer_ack k (newest_ack self)) (set_sent_buffer (sent_buffer self) self)))).
    run_done.
    erewrite run_bind_ok by (unfold on_sent_buffer, st_zoom, st_update; cbn [sent_buffer]; fold (mark_acked meta); rewrite Hset; done).
    erewrite run_bind_ok.
    2: { unfold on_dispatcher_channels, st_zoom. cbn [set_sent_buffer set_stats set_ack_low_watermark_non_empty
           set_ack_low_watermark set_newest_ack dispatcher ep_channels]. rewrite Hrun. done. }
    cbn beta iota. run_step Hret. done.
  - destruct Hok. split; [|split; [|done]].
    + split; [|done]. split; cbn; try done; rewrite ?Hsblen, ?Hmip, ?(kf_next _ _ Hdf); try done.
      * by apply SeqBufFacts.clear_slot_wf.
      * unfold SeqBuf.len in *. simpl. by rewrite length_insert.
      * unfold newer_ack. destruct (newest_ack self); [destruct (sequence_greater_than k _)|]; done.
      * by apply (sh_ok _ _ Hsh).
      * apply Hacks'.
    + split; try done.
      { cbn. rewrite Hmip. split; [done|]. intros k' hs' Hk'. rewrite SeqBufFacts.find_clear_slot by done.
        by case_decide. }
      intros hi [Hw Hm]. split.
      * by apply (raise_watermark_one_of (fun w => 0 <= w <= hi)); [eapply Hm|].
      * intros j m Hj. change (sent_buffer (set_rtt _ self2)) with sb. rewrite Hsbf.
        case_decide; [|by apply Hm]. intros [= <-]. exact (Hm k meta Hk Hf).
Qed.
End process.

(** ** The loss samples *)
Section loss.
Context (sb : SequenceBuffer SentMeta) (Hwf : SeqBufFacts.wf sb).

(** Sequence numbers that are all found have different slots. *)
Lemma found_at_most l : NoDup l -> Forall (fun k => is_Some (SeqBufFacts.find sb k)) l ->
  (length l <= Z.to_nat (SeqBuf.len sb))%nat.
Proof.
  intros Hnd Hf. rewrite Forall_forall in Hf.
  assert (Hslots : NoDup (SeqBufFacts.slot sb <$> l)).
  { apply NoDup_fmap_2_strong; [|done]. intros i j Hi Hj Hs.
    destruct (Hf i Hi) as [vi Hvi], (Hf j Hj) as [vj Hvj]. unfold SeqBufFacts.find in *. rewrite Hs in Hvi.
    case_decide; [|done]. case_decide; [|done]. congruence. }
  rewrite <- (length_fmap (SeqBufFacts.slot sb) l), <- (length_seq (Z.to_nat (SeqBuf.len sb)) 0).
  apply submseteq_length, NoDup_submseteq; [done|].
  intros i (k & -> & _)%list_elem_of_fmap. apply elem_of_seq. pose proof (SeqBufFacts.slot_lt sb k Hwf).
  unfold SeqBuf.len. lia.
Qed.

(** The sequence numbers from [s] downwards. *)
Definition down (s : Z) (n : nat) : list Z := (fun i => wrap16 (s - Z.of_nat i)) <$> seq 0 n.

Lemma down_NoDup s n : Z.of_nat n <= 65536 -> NoDup (down s n).
Proof.
  intros Hn. apply NoDup_fmap_2_strong; [|apply NoDup_seq].
  intros i j Hi%elem_of_seq Hj%elem_of_seq Heq. u16_solve.
Qed.

Lemma down_S s n : down s (S n) = down s n ++ [wrap16 (s - Z.of_nat n)].
Proof. unfold down. by rewrite seq_S, fmap_app. Qed.

Lemma sample_loss_run fuel s cutoff n na ns : (n <= Z.to_nat (SeqBuf.len sb))%nat ->
  (Z.to_nat (SeqBuf.len sb) < fuel + n)%nat -> Forall (fun k => is_Some (SeqBufFacts.find sb k)) (down s n) ->
  0 <= na <= ns -> ns < PACKET_LOSS_RECALCULATE_INTERVAL ->
  exists na' ns', sample_loss fuel sb cutoff (wrap16 (s - Z.of_nat n)) na ns = Some (na', ns') /\
    0 <= na' <= ns' /\ ns' <= PACKET_LOSS_RECALCULATE_INTERVAL.
Proof.
  revert n na ns. induction fuel as [|fuel IH]; intros n na ns Hn Hfuel Hf Hna Hns; [lia|].
  cbn [sample_loss]. rewrite SeqBufFacts.get_find by done. cbn [mbind option_bind].
  destruct (SeqBufFacts.find sb (wrap16 (s - Z.of_nat n))) as [meta|] eqn:Hfind; [|exists na, ns; split; [done|lia]].
  assert (Hf' : Forall (fun k => is_Some (SeqBufFacts.find sb k)) (down s (S n))).
  { rewrite down_S. apply Forall_app. split; [done|]. apply Forall_singleton. by exists meta. }
  pose proof (SeqBufFacts.wf_len _ Hwf) as Hlen.
  pose proof (found_at_most _ (down_NoDup s (S n) ltac:(lia)) Hf') as Hmost.
  unfold down in Hmost. rewrite length_fmap, length_seq in Hmost.
  assert (Hseq : wrap16 (wrap16 (s - Z.of_nat n) - 1) = wrap16 (s - Z.of_nat (S n))) by u16_solve.
  rewrite Hseq. destruct (f_gt _ _); [apply IH; lia || done|].
  set (na1 := if sm_acked meta then na + 1 else na). assert (0 <= na1 <= ns + 1) by (unfold na1; destruct (sm_acked meta); lia).
  unfold PACKET_LOSS_RECALCULATE_INTERVAL in *.
  destruct (Z.eqb_spec (ns + 1) 100); [exists na1, (ns + 1); split; [done|lia]|].
  apply IH; lia || done.
Qed.
End loss.

Lemma update_packet_loss_run self : SeqBufFacts.wf (sent_buffer self) ->
  exists loss, update_packet_loss_calculation self = Some (set_packet_loss loss self, Ok tt).
Proof.
  intros Hwf. unfold update_packet_loss_calculation. rewrite run_get.
  pose proof (SeqBufFacts.wf_sequence _ Hwf) as Hs.
  destruct (sample_loss_run (sent_buffer self) Hwf (S (Z.to_nat (SeqBuf.len (sent_buffer self)))) (sequence (sent_buffer self))
    (f64_sub (time self) (f64_mul (f64_of_f32 (rtt self)) (f64_lit 11 10))) 0 0 0) as (na & ns & Hrun & _);
    [lia|lia|constructor|lia|done|].
  rewrite Z.sub_0_r, wrap16_small in Hrun by done. rewrite Hrun. run_done.
  destruct (ns =? 0); [exists (packet_loss self); by destruct self|by eexists].
Qed.

(** ** All the acks of a header *)
Section packet.
Context `{BP : BuildProfile, BO : ByteOrder}.

(** The acks a header carries. *)
Definition header_acks (h : ProtocolPacketHeader) : list (Z * bool) :=
  match ack_header h with
  | Some a => default [] (AckHeader_collect a)
  | None => []
  end.

Lemma decode_u16 id off bs : Forall (fun a => u16 a.1) (decode id off bs).
Proof.
  revert off. induction bs as [|b bs IH]; intros off; [constructor|]. cbn [decode].
  apply Forall_app. split; [|apply IH]. unfold byte_acks. apply Forall_fmap. repeat constructor; apply wrap16_range.
Qed.

Lemma header_acks_run h : wf_header h ->
  Forall (fun a => u16 a.1) (header_acks h) /\
  (forall a, ack_header h = Some a -> AckHeader_collect a = Some (header_acks h)).
Proof.
  intros [_ Ha]. unfold header_acks. destruct (ack_header h) as [a|]; [|by split; [constructor|]].
  destruct Ha as (_ & bs & Hbs & ->). rewrite collect_field by done. split; [apply decode_u16|].
  by intros a' [= <-]; rewrite collect_field.
Qed.

(** The handles [hs] of packets among those acked. *)
Definition handles_of_acked (acks : list (Z * bool)) (d : MessageDispatcher) (hs : list MessageHandle) : Prop :=
  forall h, h ∈ hs -> exists k hk, (k, true) ∈ acks /\ u16 k /\ SeqBufFacts.find (messages_in_packets d) k = Some hk /\ h ∈ hk.

(** What is known of a sent packet after the acks. *)
Definition after_acks (acks : list (Z * bool)) (j : Z) (m : option SentMeta) : option SentMeta :=
  if decide ((j, true) ∈ acks) then mark_acked <$> m else m.

Lemma mark_acked_id m : sm_acked m = true -> mark_acked m = m.
Proof. destruct m as [? b ? ?]. simpl. by intros ->. Qed.

Lemma after_acks_cons k b acks j m : after_acks ((k, b) :: acks) j m =
  after_acks acks j (if decide (j = k /\ b = true) then mark_acked <$> m else m).
Proof.
  unfold after_acks. pose proof (elem_of_cons acks (j, true) (k, b)) as Hiff.
  repeat case_decide; try done; try naive_solver. destruct m; done.
Qed.

(** One of them. *)
Lemma process_ack_step t k b self : receive_ok self -> u16 k ->
  exists self', process_ack t (k, b) self = Some (self', Ok tt) /\ receive_ok self' /\ ack_frame self self' /\
    (exists hs, handles_of_acked [(k, b)] (dispatcher self) hs /\
      ack_trace hs (dispatcher self, ep_channels self) (dispatcher self', ep_channels self')) /\
    forall j, SeqBufFacts.find (sent_buffer self') j =
      if decide (j = k /\ b = true) then mark_acked <$> SeqBufFacts.find (sent_buffer self) j
      else SeqBufFacts.find (sent_buffer self) j.
Proof.
  intros Hok Hk.
  assert (Hnone : exists hs, handles_of_acked [(k, b)] (dispatcher self) hs /\
    ack_trace hs (dispatcher self, ep_channels self) (dispatcher self, ep_channels self)).
  { exists []. split; [by intros h ?%elem_of_nil|constructor]. }
  destruct b.
  2: { exists self. split_and!; try done; [apply ack_frame_refl|]. intros j. by rewrite decide_False by naive_solver. }
  destruct (SeqBufFacts.find (sent_buffer self) k) as [meta|] eqn:Hf; [destruct (sm_acked meta) eqn:Hm|].
  - exists self. split; [apply process_ack_unknown; [apply Hok|naive_solver]|]. split; [done|].
    split; [apply ack_frame_refl|]. split; [done|].
    intros j. case_decide as Hj; [|done]. destruct Hj as [-> _]. rewrite Hf. simpl. by rewrite mark_acked_id.
  - destruct (process_ack_run t k self meta Hok Hk Hf Hm) as (self1 & Hrun & Hok1 & Hfr & Hf1 & _ & _ & Htr & _).
    exists self1. do 3 (split; [done|]). split.
    + destruct (SeqBufFacts.find (messages_in_packets (dispatcher self)) k) as [hk|] eqn:Hhk; cbn [default] in Htr.
      * exists hk. split; [|done]. intros h Hh. exists k, hk. split; [by left|done].
      * exists []. split; [by intros h ?%elem_of_nil|done].
    + intros j. rewrite Hf1. repeat case_decide; try naive_solver. subst. by rewrite Hf.
  - exists self. split; [apply process_ack_unknown; [apply Hok|naive_solver]|]. split; [done|].
    split; [apply ack_frame_refl|]. split; [done|].
    intros j. case_decide as Hj; [|done]. destruct Hj as [-> _]. by rewrite Hf.
Qed.

Lemma process_acks_run t acks self : receive_ok self -> Forall (fun a => u16 a.1) acks ->
  exists self', st_for acks (process_ack t) self = Some (self', Ok tt) /\ receive_ok self' /\ ack_frame self self' /\
    (exists hs, handles_of_acked acks (dispatcher self) hs /\
      ack_trace hs (dispatcher self, ep_channels self) (dispatcher self', ep_channels self')) /\
    forall j, SeqBufFacts.find (sent_buffer self') j = after_acks acks j (SeqBufFacts.find (sent_buffer self) j).
Proof.
  revert self. induction acks as [|[k b] acks IH]; intros self Hok Hu.
  { exists self. do 2 (split; [done|]). split; [apply ack_frame_refl|].
    split; [exists []; split; [by intros h ?%elem_of_nil|constructor]|]. intros j. unfold after_acks.
    case_decide as Hj; [by apply elem_of_nil in Hj|done]. }
  apply Forall_cons in Hu as [Hk Hu]. cbn [fst] in Hk.
  destruct (process_ack_step t k b self Hok Hk) as (self1 & Hrun1 & Hok1 & Hfr1 & (hs1 & Hhs1 & Htr1) & Hf1).
  destruct (IH self1 Hok1 Hu) as (self2 & Hrun2 & Hok2 & Hfr2 & (hs2 & Hhs2 & Htr2) & Hf2).
  exists self2. split; [cbn [st_for]; run_step Hrun1; exact Hrun2|]. split; [done|].
  split; [by eapply ack_frame_trans|]. split; [|intros j; by rewrite Hf2, Hf1, after_acks_cons].
  exists (hs1 ++ hs2). split; [|by eapply ack_trace_app].
  intros h [Hh|Hh]%elem_of_app; [destruct (Hhs1 h Hh) as (j & hj & Hj & H)|destruct (Hhs2 h Hh) as (j & hj & Hj & Hju & Hfj & H)].
  - exists j, hj. split; [|done]. apply list_elem_of_singleton in Hj as [= -> <-]. by left.
  - exists j, hj. split; [by right|]. split; [done|]. split; [by apply (af_handles _ _ Hfr1)|done].
Qed.

Lemma set_packet_loss_ok loss self : receive_ok self -> receive_ok (set_packet_loss loss self).
Proof. intros [[] Ha]. by split. Qed.

Lemma process_packet_acks_run h self : receive_ok self -> wf_header h ->
  exists self', process_packet_acks_and_rtt h self = Some (self', Ok tt) /\ receive_ok self' /\ ack_frame self self' /\
    (exists hs, handles_of_acked (header_acks h) (dispatcher self) hs /\
      ack_trace hs (dispatcher self, ep_channels self) (dispatcher self', ep_channels self')) /\
    forall j, SeqBufFacts.find (sent_buffer self') j = after_acks (header_acks h) j (SeqBufFacts.find (sent_buffer self) j).
Proof.
  intros Hok Hh. destruct (header_acks_run h Hh) as [Hu Hcol]. unfold process_packet_acks_and_rtt, ProtocolPacketHeader_acks.
  destruct (ack_header h) as [a|] eqn:Ha.
  - rewrite (Hcol a eq_refl). run_done.
    destruct (process_acks_run (packet_type h) (header_acks h) self Hok Hu) as (self1 & Hrun & Hok1 & Hfr & Htr & Hf).
    run_step Hrun. rewrite run_get. destruct (_ =? 0); [|by exists self1].
    destruct (update_packet_loss_run self1) as (loss & Hloss); [apply Hok1|].
    exists (set_packet_loss loss self1). split; [done|]. split; [by apply set_packet_loss_ok|]. split; [|done].
    destruct Hfr. by split.
  - exists self. split; [done|]. split; [done|]. split; [apply ack_frame_refl|].
    split; [exists []; split; [by intros h' ?%elem_of_nil|constructor]|]. intros j.
    unfold after_acks, header_acks. rewrite Ha. case_decide as Hj; [by apply elem_of_nil in Hj|done].
Qed.
End packet.

(** ** A packet, from its messages to their acks *)
Section sent_packet.
Context `{BP : BuildProfile, BO : ByteOrder, BL : !ByteOrderLaws BO, SM : SmallMap, SL : !SmallMapLaws SM}.

(** The ids of the queued messages, and no id of a channel is both that of a
    whole message and that of a fragment. *)
Definition ids_ok (l : ChannelList) : Prop := forall id ch m, channels l !! id = Some ch -> m ∈ ch_messages ch ->
  u16 (m_id m) /\
  forall m', m' ∈ ch_messages ch -> m_id m' = m_id m -> m_fragment m' = None -> m_fragment m = None.

Lemma describes_handle_ok l h m : ids_ok l -> describes l h m -> handle_ok l h.
Proof.
  intros Hids (Hid & Hfr & ch & Hch & m0 & Hm0 & Hsi & _ & Hsf & _).
  destruct (Hids _ _ _ Hch Hm0) as [Hu Hkind]. split; [congruence|]. exists ch. split; [done|].
  apply Forall_forall. intros m' Hm' He Hn. rewrite Hfr, Hsf, (Hkind m' Hm'); [done|congruence|done].
Qed.

(** The dispatcher can process acks after a packet was composed. *)
Lemma recorded_acks_ok self salt p ms hs self' : recorded self salt [] p ms hs self' -> ids_ok (ep_channels self) ->
  acks_ok (dispatcher self) (ep_channels self) -> acks_ok (dispatcher self') (ep_channels self').
Proof.
  intros [_ _ _ _ Hold (mip & Hd) Hdesc _ _ [Hdom Hsub] _ _] Hids [Hh Hf]. split; [|by rewrite Hd].
  intros k hs' Hk Hfind.
  assert (Hl : Forall (handle_ok (ep_channels self)) hs').
  { destruct (Hold k hs' Hk Hfind) as [[_ ->]|Ho]; [|by eapply Hh].
    revert Hdesc. clear -Hids. induction 1; constructor; [by eapply describes_handle_ok|done]. }
  eapply Forall_impl; [exact Hl|]. intros h. apply handle_ok_sub. intros id ch Hch.
  destruct (Hdom id) as [ch' Hch']; [eauto|]. exists ch'. split; [done|].
  destruct (Hsub id ch' Hch') as (ch0 & Hch0 & _ & Hms). by simplify_eq.
Qed.
End sent_packet.

(** ** The properties *)

(** C15. An ack takes effect exactly once.  The first ack of a packet in
    flight marks it, counts it, tells the channels, and reports what it
    completes to the user's ack inbox of the channel, in the order the
    messages were written: each whole message of the packet by its id, and a
    large message, as long as the sender's record of its fragments still waits
    for some, by its own id with the fragment that leaves none to wait for
    ([ack_reports]).  An ack of a
    packet that is unknown or already acked changes nothing, so neither does a
    second ack of the same packet. *)
Theorem ack_takes_effect_once `{BP : BuildProfile, BO : ByteOrder} t k self : receive_ok self -> u16 k ->
  let meta := SeqBufFacts.find (sent_buffer self) k in
  let hs := default [] (SeqBufFacts.find (messages_in_packets (dispatcher self)) k) in
  exists self', process_ack t (k, true) self = Some (self', Ok tt) /\ receive_ok self' /\
    (forall t', process_ack t' (k, true) self' = Some (self', Ok tt)) /\
    if bool_decide (sm_acked <$> meta = Some false)
    then SeqBufFacts.find (sent_buffer self') k = mark_acked <$> meta /\
      packets_acked (stats self') = packets_acked (stats self) + 1 /\
      (forall c, inbox_of (ack_inbox (dispatcher self')) c = inbox_of (ack_inbox (dispatcher self)) c ++
        acked_ids c (waiting (sfm_m (sent_frag_map (dispatcher self)))) hs)
    else self' = self.
Proof.
  intros Hok Hk meta hs. unfold meta. clear meta.
  assert (Hnop : forall self1 t', receive_ok self1 ->
    (forall m, SeqBufFacts.find (sent_buffer self1) k = Some m -> sm_acked m = true) ->
    process_ack t' (k, true) self1 = Some (self1, Ok tt)) by (intros; apply process_ack_unknown; [apply H|done]).
  destruct (SeqBufFacts.find (sent_buffer self) k) as [m|] eqn:Hf; [destruct (sm_acked m) eqn:Hm|];
    cbn [fmap option_fmap option_map]; rewrite ?Hm.
  - exists self. rewrite bool_decide_false by done. split_and!; try done; [|intros t']; apply Hnop; naive_solver.
  - rewrite bool_decide_true by done.
    destruct (process_ack_run t k self m Hok Hk Hf Hm) as (self' & Hrun & Hok' & _ & Hf' & _ & Hst & _ & Hin).
    assert (Hk' : SeqBufFacts.find (sent_buffer self') k = Some (mark_acked m)) by (by rewrite Hf', decide_True).
    exists self'. split_and!; try done. intros t'. apply Hnop; [done|]. intros m'. rewrite Hk'. by intros [= <-].
  - exists self. rewrite bool_decide_false by done. split_and!; try done; [|intros t']; apply Hnop; naive_solver.
Qed.

(** C16. A packet's acks are about its messages.  One round of the packing
    loop, when the ack window is not full, puts one packet in the outbox and
    remembers, under the packet's id, which messages it carries: the handles
    name, in order, exactly the messages whose bytes follow the header, each
    from its own channel.  The endpoint can process acks afterwards; the first
    ack of that packet takes effect and the following ones do nothing, and
    what appears in the ack inboxes is, in the order they were sent and each in
    its channel's inbox, the id of each whole message of the packet and,
    with each fragment that leaves nothing to wait for in the record of a large
    message that still waited for fragments, that message's id.  This is for an
    endpoint that may send ([can_compose]) and in whose channels no fragment
    shares its id with a whole message ([ids_ok]). *)
Theorem acked_packet_reports_its_messages `{BP : BuildProfile, BO : ByteOrder, BL : !ByteOrderLaws BO, SM : SmallMap}
    self salt : can_compose self salt -> acks_ok (dispatcher self) (ep_channels self) -> ids_ok (ep_channels self) ->
  sent_unacked_packets self < MAX_UNACKED_PACKETS -> received_unacked_packets self <= MAX_UNACKED_PACKETS ->
  exists s1 s2 self1 l1 p ms hs,
    start_packet (self, MkLocals None [] false) = Some (s1, Ok tt) /\
    fill_packet (S (ChannelList_queue_len (ep_channels s1.1))) s1 = Some (s2, Ok tt) /\
    finish_packet s2 = Some ((self1, l1), Ok tt) /\ outbox self1 = outbox self ++ [p] /\
    vdata p = front_bytes (next_header TMessages self) salt ++ concat (Message_as_slice <$> ms) /\
    Forall2 (describes (ep_channels self)) hs ms /\ receive_ok self1 /\
    forall t, exists self2, process_ack t (next_id self, true) self1 = Some (self2, Ok tt) /\ receive_ok self2 /\
      (forall t', process_ack t' (next_id self, true) self2 = Some (self2, Ok tt)) /\
      packets_acked (stats self2) = packets_acked (stats self1) + 1 /\
      forall c, inbox_of (ack_inbox (dispatcher self2)) c = inbox_of (ack_inbox (dispatcher self)) c ++
        acked_ids c (waiting (sfm_m (sent_frag_map (dispatcher self)))) hs.
Proof.
  intros Hcc Hacks Hids Hu Hr.
  destruct (compose_round self salt (MkLocals None [] false) Hcc eq_refl Hu Hr)
    as (s1 & s2 & [self1 l1] & p & ms & hs & Hst & Hfill & Hfin & _ & Hco & Hcc1 & Hrec). cbn [fst snd l_handles] in *.
  exists s1, s2, self1, l1, p, ms, hs. do 3 (split; [done|]). split; [by apply (co_outbox _ _ _ _ Hco)|].
  split; [apply Hrec|]. split; [apply Hrec|].
  assert (Hok : receive_ok self1) by (split; [apply Hcc1|by eapply recorded_acks_ok]). split; [done|]. intros t.
  assert (Hk : u16 (next_id self)) by apply wrap16_range.
  destruct (process_ack_run t (next_id self) self1 _ Hok Hk (rd_sent _ _ _ _ _ _ _ Hrec) eq_refl)
    as (self2 & Hrun & Hok2 & _ & Hf & _ & Hst2 & _ & Hin).
  exists self2. do 2 (split; [done|]). split.
  { intros t'. apply process_ack_unknown; [apply Hok2|]. intros m. rewrite Hf, decide_True by done. by intros [= <-]. }
  split; [done|]. intros c. rewrite (rd_handles _ _ _ _ _ _ _ Hrec) in Hin. rewrite Hin.
  destruct (rd_dispatcher _ _ _ _ _ _ _ Hrec) as (mip & ->). done.
Qed.

(** C21. Processing the acks of a packet always succeeds, the estimate of the
    packet loss included; exactly the packets the header acks are marked as
    acked, and what was sent, received and delivered is left as it was. *)
Theorem packet_acks_always_processed `{BP : BuildProfile, BO : ByteOrder} h self : receive_ok self -> wf_header h ->
  exists self', process_packet_acks_and_rtt h self = Some (self', Ok tt) /\ receive_ok self' /\
    (forall j, SeqBufFacts.find (sent_buffer self') j =
      if decide ((j, true) ∈ header_acks h) then mark_acked <$> SeqBufFacts.find (sent_buffer self) j
      else SeqBufFacts.find (sent_buffer self) j) /\
    received_buffer self' = received_buffer self /\ outbox self' = outbox self /\ sequence_id self' = sequence_id self /\
    message_inbox (dispatcher self') = message_inbox (dispatcher self).
Proof.
  intros Hok Hh. destruct (process_packet_acks_run h self Hok Hh) as (self' & Hrun & Hok' & [] & _ & Hf).
  exists self'. split_and!; try done. apply af_dispatcher0.
Qed.

(** An endpoint with one packet in flight that carries message 3 of channel 1. *)
Definition example_sent_meta : SentMeta := SentMeta_new (f64_lit 1 1) 40 0.
Definition example_in_flight : Pickleback :=
  set_sent_buffer (SeqBufFacts.fill_slot 1 example_sent_meta (SeqBufFacts.advance 1 (SeqBuf.with_capacity 512)))
    (set_dispatcher
       (set_handles (SeqBufFacts.fill_slot 1 [MkHandle 3 None 1] (SeqBufFacts.advance 1 (SeqBuf.with_capacity 512)))
          (MessageDispatcher_new PicklebackConfig_default))
       (set_ep_channels (MkChannelList {[1 := Reliable example_reliable]}) example_endpoint)).

Lemma insert_512 {T} `{!Default T} (v : T) :
  let sb := SeqBufFacts.fill_slot 1 v (SeqBufFacts.advance 1 (SeqBuf.with_capacity 512)) in
  SeqBufFacts.wf sb /\ SeqBuf.len sb = 512 /\
  forall k, u16 k -> SeqBufFacts.find sb k = if decide (k = 1) then Some v else None.
Proof.
  assert (Hwf : SeqBufFacts.wf (SeqBuf.with_capacity (T:=T) 512)) by (apply SeqBufFacts.with_capacity_wf; lia).
  split; [apply SeqBufFacts.fill_slot_wf; [by apply SeqBufFacts.advance_wf|lia]|]. split.
  - rewrite SeqBufFacts.insert_len. unfold SeqBuf.len. cbn [entries SeqBuf.with_capacity]. by rewrite length_replicate.
  - intros k Hk. rewrite SeqBufFacts.find_insert by (done || lia).
    case_decide; [done|]. do 2 (case_decide; [done|]). by apply SeqBufFacts.find_with_capacity.
Qed.

Lemma example_in_flight_ok `{BP : BuildProfile, BO : ByteOrder} : receive_ok example_in_flight.
Proof.
  destruct (insert_512 example_sent_meta) as (Hs & Hsl & _).
  destruct (insert_512 [MkHandle 3 None 1]) as (Hm & Hml & Hmf).
  destruct (cc_ok _ _ example_can_compose).
  split; split; unfold example_in_flight;
    cbn [sent_buffer received_buffer dispatcher messages_in_packets pool sequence_id newest_ack ep_channels set_sent_buffer
         set_dispatcher set_ep_channels set_handles next_message_id sent_frag_map]; try done; try lia.
  - intros id ch Hch. cbn [channels] in Hch. apply lookup_singleton_Some in Hch as [<- <-].
    split; [|split; [reflexivity|unfold MAX_CHANNELS; lia]].
    split; [by repeat constructor|]. split; [apply SeqBufFacts.with_capacity_wf; lia|exact default_resend_time].
  - intros k hs Hk. rewrite Hmf by done. case_decide; [|done]. intros [= <-]. constructor; [|constructor].
    split; [cbn [mh_id]; lia|]. exists (Reliable example_reliable). split; [reflexivity|]. repeat constructor; intros ?; done.
  - split; [apply SeqBufFacts.with_capacity_wf; simpl; lia|]. intros p st Hp.
    cbn [sfm_m MessageDispatcher_new sent_frag_map SentFragMap_with_capacity]. by rewrite SeqBufFacts.find_with_capacity.
Qed.

Lemma ack_takes_effect_once_witness :
  exists self', @process_ack debug_build big_endian TMessages (1, true) example_in_flight = Some (self', Ok tt) /\
    @receive_ok debug_build big_endian self' /\
    (forall t', @process_ack debug_build big_endian t' (1, true) self' = Some (self', Ok tt)) /\
    SeqBufFacts.find (sent_buffer self') 1 = Some (mark_acked example_sent_meta) /\
    packets_acked (stats self') = 1 /\ inbox_of (ack_inbox (dispatcher self')) 1 = [3].
Proof.
  destruct (ack_takes_effect_once (BP:=debug_build) (BO:=big_endian) TMessages 1 example_in_flight example_in_flight_ok)
    as (self' & Hrun & Hok & Hagain & H); [lia|].
  exists self'. split; [exact Hrun|]. split; [exact Hok|]. split; [exact Hagain|].
  assert (Hs : SeqBufFacts.find (sent_buffer example_in_flight) 1 = Some example_sent_meta)
    by (exact (proj2 (proj2 (insert_512 example_sent_meta)) 1 ltac:(lia))).
  assert (Hm : SeqBufFacts.find (messages_in_packets (dispatcher example_in_flight)) 1 = Some [MkHandle 3 None 1])
    by (exact (proj2 (proj2 (insert_512 [MkHandle 3 None 1])) 1 ltac:(lia))).
  rewrite Hs, Hm in H. rewrite bool_decide_true in H by reflexivity. destruct H as (Hf & Hst & Hin).
  split; [exact Hf|]. split; [exact Hst|]. exact (Hin 1).
Defined.

(** A header that acks packet 1 and not packet 0. *)
Definition example_ack_header : ProtocolPacketHeader :=
  {| packet_type := TMessages; h_id := 9; ack_header := Some (field_header 1 2 [1]) |}.

Lemma packet_acks_always_processed_witness :
  exists self', @process_packet_acks_and_rtt debug_build big_endian example_ack_header example_in_flight = Some (self', Ok tt) /\
    @receive_ok debug_build big_endian self' /\
    (forall j, SeqBufFacts.find (sent_buffer self') j =
      if decide ((j, true) ∈ header_acks example_ack_header)
      then mark_acked <$> SeqBufFacts.find (sent_buffer example_in_flight) j
      else SeqBufFacts.find (sent_buffer example_in_flight) j) /\
    received_buffer self' = received_buffer example_in_flight /\ outbox self' = outbox example_in_flight /\
    sequence_id self' = sequence_id example_in_flight /\
    message_inbox (dispatcher self') = message_inbox (dispatcher example_in_flight).
Proof.
  apply (packet_acks_always_processed (BP:=debug_build) (BO:=big_endian) example_ack_header example_in_flight example_in_flight_ok).
  split; [simpl; lia|]. split; [simpl; lia|]. exists [1]. split; [|reflexivity].
  split; [reflexivity|repeat constructor; lia|simpl; lia].
Defined.

Example example_header_acks : header_acks example_ack_header =
  [(1, true); (0, false); (65535, false); (65534, false); (65533, false); (65532, false); (65531, false)].
Proof. reflexivity. Qed.

(** An endpoint whose only channel has message 3 to send. *)
Definition example_loaded : Pickleback :=
  set_ep_channels (MkChannelList {[1 := Reliable example_reliable]}) example_endpoint.

Lemma example_loaded_composes `{BP : BuildProfile, BO : ByteOrder} :
  can_compose example_loaded 7 /\ acks_ok (dispatcher example_loaded) (ep_channels example_loaded) /\
  ids_ok (ep_channels example_loaded).
Proof.
  destruct example_can_compose as [Hok Hsalt Hsize Hsent Hhandles].
  split_and!.
  - split; [|exact Hsalt|exact Hsize|exact Hsent|exact Hhandles].
    destruct Hok. split; try done. intros id ch Hch.
    change (({[1 := Reliable example_reliable]} : gmap Z Channel) !! id = Some ch) in Hch. apply lookup_singleton_Some in Hch as [<- <-]. split; [|split; [reflexivity|unfold MAX_CHANNELS; lia]].
    split; [by repeat constructor|]. split; [apply SeqBufFacts.with_capacity_wf; lia|exact default_resend_time].
  - split; [|split].
    + intros k hs Hk. unfold example_loaded, example_endpoint. cbn. by rewrite SeqBufFacts.find_with_capacity.
    + apply SeqBufFacts.with_capacity_wf; simpl; lia.
    + intros p st Hp. unfold example_loaded, example_endpoint. cbn. by rewrite SeqBufFacts.find_with_capacity.
  - intros id ch m Hch Hm.
    change (({[1 := Reliable example_reliable]} : gmap Z Channel) !! id = Some ch) in Hch. apply lookup_singleton_Some in Hch as [<- <-].
    assert (Hkind : forall m', m' ∈ (rs_message <$> r_q example_reliable) -> u16 (m_id m') /\ m_fragment m' = None).
    { intros m' Hm'. cbn in Hm'. rewrite !elem_of_cons in Hm'. destruct Hm' as [->|[->|Hm']]; [cbn; split; [lia|done]..|].
      by apply elem_of_nil in Hm'. }
    split; [by apply Hkind|]. intros. by apply Hkind.
Qed.

Lemma acked_packet_reports_its_messages_witness :
  exists s1 s2 self1 l1 p ms hs,
    @start_packet debug_build big_endian (example_loaded, MkLocals None [] false) = Some (s1, Ok tt) /\
    @fill_packet debug_build big_endian elements_order
      (S (ChannelList_queue_len (ep_channels s1.1))) s1 = Some (s2, Ok tt) /\
    finish_packet s2 = Some ((self1, l1), Ok tt) /\ outbox self1 = [p] /\
    vdata p = @front_bytes big_endian (next_header TMessages example_loaded) 7 ++ concat (Message_as_slice <$> ms) /\
    Forall2 (@describes debug_build big_endian (ep_channels example_loaded)) hs ms /\
    @receive_ok debug_build big_endian self1 /\
    forall t, exists self2, @process_ack debug_build big_endian t (1, true) self1 = Some (self2, Ok tt) /\
      packets_acked (stats self2) = packets_acked (stats self1) + 1.
Proof.
  destruct (@example_loaded_composes debug_build big_endian) as (Hcc & Hacks & Hids).
  destruct (acked_packet_reports_its_messages (BP:=debug_build) (BO:=big_endian) (BL:=big_endian_laws)
    (SM:=elements_order) example_loaded 7 Hcc Hacks Hids)
    as (s1 & s2 & self1 & l1 & p & ms & hs & Hst & Hfill & Hfin & Hout & Hp & Hd & Hok & Hack).
  - vm_compute. reflexivity.
  - vm_compute. discriminate.
  - exists s1, s2, self1, l1, p, ms, hs. do 7 (split; [done|]). intros t.
    destruct (Hack t) as (self2 & Hrun & _ & _ & Hst2 & _). exists self2. by split.
Defined.
