(* ===== verification/Incoming.v ===== *)
(** * Incoming packets: proofs about [process_incoming_packet]

    Which packets are processed, that none is processed twice, and that the
    messages of a packet reach the user's inboxes. *)

From S2P Require Import Prelude Floats Types SequenceBuffer Cursor BufferPool AckHeader Message Packets Reassembler Channel Dispatcher Endpoint Compose Acks.

(** ** What the user sees *)

(** The inbox of a channel: ids and payloads. *)
Definition inbox_view (self : Pickleback) (c : Z) : list (option MessageId * list Z) :=
  (fun rm => (ReceivedMessage_id rm, ReceivedMessage_payload rm)) <$>
    default [] (message_inbox (dispatcher self) !! c).

(** What deliveries and pool traffic never touch. *)
Record deliver_frame (self self' : Pickleback) : Prop := {
  df_config : config self' = config self;
  df_sequence : sequence_id self' = sequence_id self;
  df_received : received_buffer self' = received_buffer self;
  df_sent : sent_buffer self' = sent_buffer self;
  df_outbox : outbox self' = outbox self;
  df_salt : xor_salt self' = xor_salt self;
  df_acks : ack_inbox (dispatcher self') = ack_inbox (dispatcher self);
}.

Lemma deliver_frame_refl self : deliver_frame self self.
Proof. by split. Qed.

Lemma deliver_frame_trans a b c : deliver_frame a b -> deliver_frame b c -> deliver_frame a c.
Proof. intros [] []. split; congruence. Qed.

Section delivery.
Context `{BP : BuildProfile, BO : ByteOrder}.

(** The message ids a channel has seen. *)
Definition seen_of (self : Pickleback) (c : Z) : option (SequenceBuffer bool) :=
  ch_seen <$> channels (ep_channels self) !! c.

Definition accepts (self : Pickleback) (c id : Z) : bool :=
  match seen_of self c with Some sb => acceptable sb id | None => false end.

Definition push_inbox (c : Z) (rm : ReceivedMessage) (d : MessageDispatcher) : MessageDispatcher :=
  MkDispatcher (next_message_id d) (sent_frag_map d) (messages_in_packets d) (message_reassembler d)
    (<[c := default [] (message_inbox d !! c) ++ [rm]]> (message_inbox d)) (ack_inbox d).

Lemma process_single_run m d : m_fragment m = None ->
  MessageDispatcher_process_received_message m d = Some (push_inbox (m_channel m) (Single m) d, Ok tt).
Proof.
  intros Hm. unfold MessageDispatcher_process_received_message. rewrite Hm. run_done. run_done. done.
Qed.

Lemma inbox_view_push self d c rm c' : message_inbox d = message_inbox (push_inbox c rm (dispatcher self)) ->
  inbox_view (set_dispatcher d self) c' = inbox_view self c' ++
    (if decide (c' = c) then [(ReceivedMessage_id rm, ReceivedMessage_payload rm)] else []).
Proof.
  intros Hd. unfold inbox_view. cbn [dispatcher set_dispatcher]. rewrite Hd. cbn [message_inbox push_inbox].
  case_decide as Hc.
  - subst c'. rewrite lookup_insert_eq. cbn [from_option id]. by rewrite fmap_app.
  - by rewrite lookup_insert_ne, app_nil_r.
Qed.

(** The dispatcher may change where the acks do not look. *)
Lemma receive_ok_dispatcher d self : receive_ok self ->
  messages_in_packets d = messages_in_packets (dispatcher self) -> sent_frag_map d = sent_frag_map (dispatcher self) ->
  next_message_id d = next_message_id (dispatcher self) -> receive_ok (set_dispatcher d self).
Proof.
  intros [[] [Hh Hf]] Hm Hs Hn. split; split; cbn; rewrite ?Hm, ?Hs, ?Hn; done.
Qed.

(** One message: its channel's filter decides whether the dispatcher sees
    it. *)
Lemma deliver_message_step m self ch : receive_ok self -> u16 (m_id m) ->
  channels (ep_channels self) !! m_channel m = Some ch ->
  exists ch', let self1 := set_ep_channels (ChannelList_set (m_channel m) ch' (ep_channels self)) self in
    receive_ok self1 /\ (ch_messages ch' = ch_messages ch /\ ch_keeps ch' = ch_keeps ch) /\
    ch_seen ch' = (if acceptable (ch_seen ch) (m_id m) then remember (ch_seen ch) (m_id m) else ch_seen ch) /\
    deliver_message m self =
      if acceptable (ch_seen ch) (m_id m) then on_dispatcher (MessageDispatcher_process_received_message m) self1
      else Some (self1, Ok tt).
Proof.
  intros Hok Hid Hch. destruct (eo_channels _ (proj1 Hok) _ _ Hch) as (Hwf & Hcid & Hr).
  destruct (ch_accept_law m ch Hwf Hid) as (ch' & Hrun & Hwf' & Hcid' & Hmsgs & _ & Hseen).
  exists ch'. cbv zeta. set (l' := ChannelList_set (m_channel m) ch' (ep_channels self)).
  pose proof (ch_accept_keeps m ch ch' _ Hrun) as Hkeeps. split; [|split; [done|split; [done|]]].
  - destruct Hok as [[] [Hh Hf]]. split; split; try done.
    + cbn [ep_channels set_ep_channels]. apply ChannelList_set_ok; congruence || done.
    + intros k hs Hk Hfind. eapply Forall_impl; [by eapply Hh|]. intros h. apply handle_ok_sub.
      intros id c Hc. simpl. destruct (decide (id = m_channel m)) as [->|Hne].
      * rewrite lookup_insert_eq. assert (c = ch) as -> by congruence. exists ch'. split; [done|].
        intros m0 Hm0. change (m0 ∈ ch_messages ch') in Hm0. by rewrite Hmsgs in Hm0.
      * rewrite lookup_insert_ne by done. by exists c.
  - unfold deliver_message. rewrite run_get. unfold ChannelList_get. rewrite Hch.
    erewrite run_bind_ok by (unfold st_zoom; rewrite Hrun; done). cbn beta. fold l'.
    by destruct (acceptable (ch_seen ch) (m_id m)).
Qed.

(** What the filters have seen after a message. *)
Lemma seen_of_delivered (self : Pickleback) m ch ch' d c : channels (ep_channels self) !! m_channel m = Some ch ->
  ch_seen ch' = (if acceptable (ch_seen ch) (m_id m) then remember (ch_seen ch) (m_id m) else ch_seen ch) ->
  seen_of (set_dispatcher d (set_ep_channels (ChannelList_set (m_channel m) ch' (ep_channels self)) self)) c =
    if decide (c = m_channel m /\ accepts self (m_channel m) (m_id m) = true)
    then (fun sb => remember sb (m_id m)) <$> seen_of self c else seen_of self c.
Proof.
  intros Hch Hseen. unfold accepts, seen_of. rewrite Hch. cbn [fmap option_fmap option_map ep_channels set_dispatcher
    set_ep_channels channels ChannelList_set]. destruct (decide (c = m_channel m)) as [->|Hne].
  - rewrite lookup_insert_eq, Hch. cbn [fmap option_fmap option_map]. rewrite Hseen. destruct (acceptable _ _);
      [by rewrite decide_True|by rewrite decide_False by naive_solver].
  - rewrite lookup_insert_ne by done. by rewrite decide_False by naive_solver.
Qed.

(** An unfragmented message; one of no channel is dropped. *)
Lemma deliver_message_run m self : receive_ok self -> u16 (m_id m) -> m_fragment m = None ->
  exists self', deliver_message m self = Some (self', Ok tt) /\ receive_ok self' /\ deliver_frame self self' /\
    pool self' = pool self /\
    (forall c, inbox_view self' c = inbox_view self c ++
      if decide (c = m_channel m /\ accepts self (m_channel m) (m_id m) = true)
      then [(Some (m_id m), Message_as_slice m)] else []) /\
    (forall c, seen_of self' c =
      if decide (c = m_channel m /\ accepts self (m_channel m) (m_id m) = true)
      then (fun sb => remember sb (m_id m)) <$> seen_of self c else seen_of self c).
Proof.
  intros Hok Hid Hfrag. destruct (channels (ep_channels self) !! m_channel m) as [ch|] eqn:Hch.
  2: { assert (Hno : accepts self (m_channel m) (m_id m) = false) by (unfold accepts, seen_of; by rewrite Hch).
       exists self. split; [unfold deliver_message, ChannelList_get; rewrite run_get, Hch; done|].
       split_and!; try done; intros c; rewrite Hno, decide_False by (by intros [_ ?]); [by rewrite app_nil_r|done]. }
  destruct (deliver_message_step m self ch Hok Hid Hch) as (ch' & Hok1 & [Hmsgs _] & Hseen & Hrun).
  set (self1 := set_ep_channels (ChannelList_set (m_channel m) ch' (ep_channels self)) self) in *. rewrite Hrun.
  assert (Hacc : accepts self (m_channel m) (m_id m) = acceptable (ch_seen ch) (m_id m))
    by (unfold accepts, seen_of; by rewrite Hch).
  destruct (acceptable (ch_seen ch) (m_id m)) eqn:Hb.
  - exists (set_dispatcher (push_inbox (m_channel m) (Single m) (dispatcher self1)) self1).
    split; [unfold on_dispatcher, st_zoom; by rewrite process_single_run|].
    split; [by apply receive_ok_dispatcher|]. split; [by split|]. split; [done|]. split.
    + intros c. rewrite inbox_view_push with (c := m_channel m) (rm := Single m) by done. rewrite Hacc.
      change (inbox_view self1 c) with (inbox_view self c).
      f_equal. destruct (decide (c = m_channel m)); [by rewrite decide_True|by rewrite decide_False by naive_solver].
    + intros c. apply (seen_of_delivered self m ch); [done|]. by rewrite Hb.
  - exists self1. split; [done|]. split; [done|]. split; [by split|]. split; [done|]. split.
    + intros c. rewrite Hacc, decide_False by (by intros [_ ?]). by rewrite app_nil_r.
    + intros c. change self1 with (set_dispatcher (dispatcher self) self1).
      apply (seen_of_delivered self m ch); [done|]. by rewrite Hb.
Qed.
End delivery.

(** ** The messages of a packet *)

(** An unfragmented message on the wire. *)
Record Plain := MkPlain { p_id : MessageId; p_channel : Z; p_payload : list Z }.

Definition plain_ok (p : Plain) : Prop :=
  u16 (p_id p) /\ 0 <= p_channel p < MAX_CHANNELS /\ Z.of_nat (length (p_payload p)) <= 1024.

Definition plain_view (p : Plain) : option MessageId * list Z := (Some (p_id p), p_payload p).

Definition plain_bytes `{ByteOrder} (p : Plain) : list Z :=
  header_bytes (p_id p) None (MessageSizeMode_from (Z.of_nat (length (p_payload p)))) (p_channel p)
    (Z.of_nat (length (p_payload p))) ++ p_payload p.

Section messages.
Context `{BP : BuildProfile, BO : ByteOrder, BL : !ByteOrderLaws BO}.

(** The messages that the filters of their channels accept, one after the
    other, given what the filters have seen. *)
Fixpoint new_of (seen : Z -> option (SequenceBuffer bool)) (ms : list Plain) : list Plain :=
  match ms with
  | [] => []
  | p :: ms =>
      let new := match seen (p_channel p) with Some sb => acceptable sb (p_id p) | None => false end in
      (if new then [p] else []) ++
      new_of (fun c => if decide (c = p_channel p /\ new = true) then (fun sb => remember sb (p_id p)) <$> seen c else seen c) ms
  end.

Lemma new_of_ext seen seen' ms : (forall c, seen c = seen' c) -> new_of seen ms = new_of seen' ms.
Proof.
  revert seen seen'. induction ms as [|p ms IH]; intros seen seen' Hs; [done|]. cbn [new_of]. rewrite Hs. f_equal. apply IH.
  intros c. by rewrite Hs.
Qed.

(** Every message is new to its channel, and the ids are so close to each
    other that seeing one does not make another too old. *)
Record deliverable (self : Pickleback) (ms : list Plain) : Prop := {
  dl_new : Forall (fun p => accepts self (p_channel p) (p_id p) = true) ms;
  dl_ids : NoDup (p_id <$> ms);
  dl_near : forall p q sb, p ∈ ms -> q ∈ ms -> seen_of self (p_channel q) = Some sb ->
    SeqBuf.check_sequence (SeqBuf.set_sequence (p_id p) sb) (p_id q) = true;
}.

Lemma acceptable_remember sb i j : SeqBufFacts.wf sb -> u16 i -> u16 j -> i <> j ->
  acceptable sb j = true -> SeqBuf.check_sequence (SeqBuf.set_sequence i sb) j = true ->
  acceptable (remember sb i) j = true.
Proof.
  intros Hwf Hi Hj Hne [Hc Hf]%andb_prop Hnear. unfold acceptable. apply andb_true_intro. split.
  - unfold SeqBuf.check_sequence in *. unfold remember. rewrite SeqBufFacts.insert_sequence, SeqBufFacts.insert_len.
    by destruct (sequence_greater_than i (sequence sb)).
  - apply negb_true_iff, bool_decide_eq_false in Hf. apply negb_true_iff, bool_decide_eq_false.
    unfold remember. rewrite SeqBufFacts.find_insert by done. rewrite decide_False by done.
    repeat case_decide; [by intros [? ?]..|done].
Qed.

(** Then all of them are accepted. *)
Lemma new_of_deliverable self ms : receive_ok self -> Forall plain_ok ms -> deliverable self ms -> new_of (seen_of self) ms = ms.
Proof.
  intros Hok Hms [Hnew Hnd Hnear].
  assert (Hwf : forall c sb, seen_of self c = Some sb -> SeqBufFacts.wf sb).
  { intros c sb. unfold seen_of. destruct (channels (ep_channels self) !! c) as [ch|] eqn:Hch; [|done].
    intros [= <-]. change (SeqBufFacts.wf (ch_seen ch)). apply ch_seen_wf. by apply (eo_channels _ (proj1 Hok) c). }
  assert (Hall : forall p, p ∈ ms -> exists sb, seen_of self (p_channel p) = Some sb /\ acceptable sb (p_id p) = true).
  { intros p Hp. rewrite Forall_forall in Hnew. specialize (Hnew p Hp). unfold accepts in Hnew.
    destruct (seen_of self (p_channel p)) as [sb|]; [by exists sb|done]. }
  clear Hnew Hok. revert Hall Hnear Hwf. generalize (seen_of self) as seen. clear self.
  induction ms as [|p ms IH]; intros seen Hall Hnear Hwf; [done|]. cbn [new_of].
  apply Forall_cons in Hms as [(Hp & _) Hms]. rewrite fmap_cons in Hnd. apply NoDup_cons in Hnd as [Hnotin Hnd].
  destruct (Hall p (list_elem_of_here _ _)) as (sbp & Hsbp & Haccp). rewrite Hsbp, Haccp. cbn [app]. f_equal. apply IH; try done.
  - intros q Hq. destruct (Hall q (list_elem_of_further _ _ _ Hq)) as (sb & Hsb & Hacc). rewrite Hsb. cbn [fmap option_fmap option_map].
    case_decide; [|by exists sb]. eexists. split; [done|]. rewrite Forall_forall in Hms.
    apply acceptable_remember; try done; [by eapply Hwf|by apply Hms| |].
    + intros He. apply Hnotin. rewrite He. by apply list_elem_of_fmap_2.
    + eapply Hnear; [apply list_elem_of_here|by apply list_elem_of_further|done].
  - intros a b sb' Ha Hb. case_decide.
    + destruct (seen (p_channel b)) as [sb|] eqn:Hsb; [|done]. intros [= <-].
      pose proof (Hnear a b sb (list_elem_of_further _ _ _ Ha) (list_elem_of_further _ _ _ Hb) Hsb) as Hn.
      unfold SeqBuf.check_sequence, remember in *. cbn [sequence SeqBuf.set_sequence] in *.
      change (SeqBuf.len (SeqBuf.set_sequence ?i ?s)) with (SeqBuf.len s) in *.
      by rewrite SeqBufFacts.insert_len.
    + intros Hsb. eapply Hnear; [by apply list_elem_of_further..|done].
  - intros c sb. case_decide; [|by apply Hwf]. destruct (seen c) as [sb0|] eqn:Hsb; [|done]. intros [= <-].
    apply SeqBufFacts.fill_slot_wf; [apply SeqBufFacts.advance_wf; [by eapply Hwf|done]|done].
Qed.

(** What parsing makes of it. *)
Definition plain_message (p : Plain) (buf : PooledBuffer) : Message :=
  {| m_id := p_id p; size_mode := MessageSizeMode_from (Z.of_nat (length (p_payload p)));
     m_channel := p_channel p; m_buffer := buf; m_fragment := None |}.

Lemma plain_parse p bp c rest : plain_ok p -> has_pool bp -> 0 <= position c ->
  remaining_slice c = plain_bytes p ++ rest ->
  exists bp' c' buf, Message_parse (bp, c) = Some ((bp', c'), Ok (plain_message p buf)) /\
    has_pool bp' /\ remaining_slice c' = rest /\ 0 <= position c' /\ vdata buf = p_payload p.
Proof.
  intros (Hid & Hch & Hlen) Hbp Hpos Hrem. unfold MAX_CHANNELS in Hch.
  destruct (Message_parse_run (p_id p) None (p_channel p) (p_payload p) bp c rest)
    as (bp' & c' & buf & Hrun & H); try done; [lia|].
  exists bp', c', buf. split; [|done]. rewrite Hrun. unfold plain_message.
  rewrite Z.mod_small by lia. done.
Qed.

Lemma plain_bytes_length p : (1 <= length (plain_bytes p))%nat.
Proof. unfold plain_bytes, header_bytes. rewrite !length_app. simpl. lia. Qed.

Lemma receive_ok_pool bp self : receive_ok self -> has_pool bp -> receive_ok (set_pool bp self).
Proof. intros [[] Ha] Hbp. by split. Qed.

Lemma receive_ok_stats st self : receive_ok self -> receive_ok (set_stats st self).
Proof. intros [[] Ha]. by split. Qed.

Lemma read_messages_run ms fuel self c : (length (remaining_slice c) <= fuel)%nat -> receive_ok self ->
  Forall plain_ok ms -> 0 <= position c ->
  remaining_slice c = concat (plain_bytes <$> ms) ->
  exists self' c', read_messages fuel (self, c) = Some ((self', c'), Ok tt) /\ receive_ok self' /\
    deliver_frame self self' /\
    forall ch, inbox_view self' ch = inbox_view self ch ++ (plain_view <$> filter (fun p => p_channel p = ch) (new_of (seen_of self) ms)).
Proof.
  revert fuel self c. induction ms as [|p ms IH]; intros fuel self c Hfuel Hok Hms Hpos Hrem.
  { exists self, c. assert (Hz : remaining c <= 0) by (rewrite remaining_length, Hrem by done; simpl; lia).
    split; [|split; [done|split; [apply deliver_frame_refl|intros ch; by rewrite app_nil_r]]].
    destruct fuel; cbn [read_messages]; rewrite run_get; cbn beta iota; by rewrite (proj2 (Z.ltb_ge _ _)). }
  apply Forall_cons in Hms as [Hp Hms]. rewrite fmap_cons in Hrem. cbn [concat] in Hrem.
  pose proof (plain_bytes_length p) as Hlen. rewrite Hrem, length_app in Hfuel.
  assert (Hr : 0 < remaining c) by (rewrite remaining_length, Hrem, length_app by done; lia).
  destruct fuel as [|fuel]; [lia|].
  destruct (plain_parse p (pool self) c _ Hp (eo_pool _ (proj1 Hok)) Hpos Hrem)
    as (bp & c1 & buf & Hparse & Hbp & Hrem1 & Hpos1 & Hbuf).
  set (self1 := set_stats (count_messages_received (stats self)) (set_pool bp self)).
  assert (Hok1 : receive_ok self1) by (apply receive_ok_stats; by apply receive_ok_pool).
  destruct (deliver_message_run (plain_message p buf) self1 Hok1) as (self2 & Hdel & Hok2 & Hfr2 & _ & Hin2 & Hseen2);
    [apply Hp|done|]. cbn [plain_message m_channel m_id] in Hin2, Hseen2.
  destruct (IH fuel self2 c1) as (self3 & c3 & Hrun & Hok3 & Hfr3 & Hin3); try done; [rewrite Hrem1; lia|].
  exists self3, c3. split.
  - cbn [read_messages]. rewrite run_get. cbn beta iota. rewrite (proj2 (Z.ltb_lt _ _)) by done. cbn [negb].
    erewrite run_bind_ok by (unfold st_zoom; cbn beta iota; rewrite Hparse; done). cbn beta iota.
    erewrite (run_bind_ok _ _ _ (self1, c1)) by done. cbn beta.
    erewrite run_bind_ok by (unfold st_fst, st_zoom; cbn [fst snd]; rewrite Hdel; done). exact Hrun.
  - split; [done|]. split; [eapply deliver_frame_trans; [|done]; destruct Hfr2; by split|].
    intros ch. rewrite Hin3, Hin2. change (inbox_view self1 ch) with (inbox_view self ch). cbn [new_of]. rewrite <- app_assoc. f_equal.
    fold (accepts self (p_channel p) (p_id p)). change (accepts self1) with (accepts self) in *.
    rewrite filter_app, fmap_app. f_equal.
    + destruct (accepts self (p_channel p) (p_id p)); [|by rewrite decide_False by (by intros [_ ?])]. rewrite filter_cons.
      destruct (decide (p_channel p = ch)) as [Heq|Hne].
      * rewrite decide_True by done. unfold Message_as_slice. cbn [m_buffer plain_message]. by rewrite Hbuf.
      * rewrite decide_False by naive_solver. done.
    + do 2 f_equal. apply new_of_ext. exact Hseen2.
Qed.
End messages.

(** ** Packets *)
Section packets.
Context `{BP : BuildProfile, BO : ByteOrder, BL : !ByteOrderLaws BO}.

(** What refusing a packet leaves: the statistics count it. *)
Definition counted (f : PicklebackStats -> PicklebackStats) (self : Pickleback) : Pickleback :=
  set_stats (f (count_packets_received (stats self))) self.

Lemma process_refused h self c : SeqBufFacts.wf (received_buffer self) ->
  SeqBuf.check_sequence (received_buffer self) (h_id h) = false \/
    is_Some (SeqBufFacts.find (received_buffer self) (h_id h)) ->
  process_incoming_packet h (self, c) =
    if SeqBuf.check_sequence (received_buffer self) (h_id h)
    then Some ((counted count_packets_duplicate self, c), Err DuplicatePacket)
    else Some ((counted count_packets_stale self, c), Err StalePacket).
Proof.
  intros Hwf Hr. unfold process_incoming_packet.
  erewrite (run_bind_ok _ _ _ (set_stats (count_packets_received (stats self)) self, c)) by done. cbn beta.
  rewrite run_get. cbn beta iota. cbn [received_buffer set_stats].
  destruct (SeqBuf.check_sequence (received_buffer self) (h_id h)) eqn:Hc; cbn [negb]; [|done].
  destruct Hr as [|Hf]; [done|]. rewrite SeqBufFacts.exists_find by done. run_done.
  by rewrite bool_decide_true.
Qed.

(** Nothing that follows its insertion takes a packet out of the received
    ones: it is known from then on. *)
Definition fresh (self : Pickleback) (id : Z) : Prop :=
  SeqBuf.check_sequence (received_buffer self) id = true /\ SeqBufFacts.find (received_buffer self) id = None.

(** The header of a fresh packet is remembered and its acks are processed. *)
Definition entered (h : ProtocolPacketHeader) (self : Pickleback) (c : Cursor) : Pickleback :=
  set_received_buffer
    (SeqBufFacts.fill_slot (h_id h)
      (ReceivedMeta_new (time self) (packet_header_size (config self) + (ProtocolPacketHeader_size h + remaining c)))
      (SeqBufFacts.advance (h_id h) (received_buffer self)))
    (set_stats (count_packets_received (stats self)) self).

Lemma entered_ok h self c : receive_ok self -> wf_header h -> receive_ok (entered h self c).
Proof.
  intros [[] Ha] Hh. split; [|done]. split; try done. pose proof (wfh_id _ Hh).
  apply SeqBufFacts.fill_slot_wf; [by apply SeqBufFacts.advance_wf|done].
Qed.

Lemma process_fresh_acks h self c : receive_ok self -> wf_header h -> fresh self (h_id h) ->
  exists self3, receive_ok self3 /\ ack_frame (entered h self c) self3 /\
    (exists hs, handles_of_acked (header_acks h) (dispatcher self) hs /\
      ack_trace hs (dispatcher self, ep_channels self) (dispatcher self3, ep_channels self3)) /\
    process_incoming_packet h (self, c) =
      match packet_type h with
      | TMessages => read_messages (Z.to_nat (remaining c)) (self3, c)
      | _ => Some ((self3, c), Ok tt)
      end.
Proof.
  intros Hok Hh [Hc Hf]. pose proof (eo_received _ (proj1 Hok)) as Hwf. pose proof (wfh_id _ Hh) as Hid.
  set (self1 := set_stats (count_packets_received (stats self)) self).
  pose proof (entered_ok h self c Hok Hh) as Hok2.
  destruct (process_packet_acks_run h (entered h self c) Hok2 Hh) as (self3 & Hacks & Hok3 & Hfr3 & Htr & _).
  exists self3. do 3 (split; [done|]).
  unfold process_incoming_packet. erewrite (run_bind_ok _ _ _ (self1, c)) by done. cbn beta.
  rewrite run_get. cbn beta iota. change (received_buffer self1) with (received_buffer self). rewrite Hc. cbn [negb].
  rewrite SeqBufFacts.exists_find, Hf by done. run_done.
  rewrite bool_decide_false by (by intros [? ?]).
  erewrite (run_bind_ok _ _ _ (entered h self c, c)).
  2: { unfold st_fst, st_zoom, on_received_buffer, st_zoom. cbn [fst snd]. change (received_buffer self1) with (received_buffer self).
       rewrite SeqBufFacts.insert_run, check_sequence_not_old by done. done. }
  cbn beta. erewrite run_bind_ok by (unfold st_fst, st_zoom; cbn [fst snd]; rewrite Hacks; done).
  destruct (packet_type h); done.
Qed.

Lemma process_fresh_run h self c ms : receive_ok self -> wf_header h -> packet_type h = TMessages -> fresh self (h_id h) ->
  Forall plain_ok ms -> 0 <= position c -> remaining_slice c = concat (plain_bytes <$> ms) ->
  exists self' c', process_incoming_packet h (self, c) = Some ((self', c'), Ok tt) /\ receive_ok self' /\
    is_Some (SeqBufFacts.find (received_buffer self') (h_id h)) /\
    outbox self' = outbox self /\ sequence_id self' = sequence_id self /\
    forall ch, inbox_view self' ch = inbox_view self ch ++ (plain_view <$> filter (fun p => p_channel p = ch) (new_of (seen_of self) ms)).
Proof.
  intros Hok Hh Ht Hfresh Hms Hpos Hrem.
  pose proof (eo_received _ (proj1 Hok)) as Hwf. pose proof (wfh_id _ Hh) as Hid.
  destruct (process_fresh_acks h self c Hok Hh Hfresh) as (self3 & Hok3 & Hfr3 & _ & Hrun). rewrite Ht in Hrun.
  assert (Hseen3 : forall ch, seen_of self3 ch = seen_of self ch).
  { intros ch. unfold seen_of. destruct (channels (ep_channels self) !! ch) as [cc|] eqn:Hch.
    - destruct (sh_channel _ _ (af_channels _ _ Hfr3) ch cc Hch) as (c3 & Hc3 & Hs3 & _).
      rewrite Hc3. cbn [fmap option_fmap option_map]. by rewrite Hs3.
    - destruct (channels (ep_channels self3) !! ch) as [c3|] eqn:Hc3; [|done].
      destruct (sh_back _ _ (af_channels _ _ Hfr3) ch c3 Hc3) as [c0 Hc0]. change (channels (ep_channels self) !! ch = Some c0) in Hc0. congruence. }
  destruct (read_messages_run ms (Z.to_nat (remaining c)) self3 c) as (self4 & c4 & Hread & Hok4 & Hfr4 & Hin4);
    try done; [rewrite remaining_length by done; lia|].
  exists self4, c4. split; [by rewrite Hrun|].
  destruct Hfr3, Hfr4. split; [done|]. rewrite df_received0, af_received, df_outbox0, af_outbox, df_sequence0, af_sequence.
  split; [|split; [done|split; [done|]]].
  - unfold entered. cbn [received_buffer set_received_buffer]. rewrite SeqBufFacts.find_insert, decide_True by done. eauto.
  - intros ch. rewrite Hin4, (new_of_ext _ _ ms Hseen3). f_equal. unfold inbox_view. by rewrite (kf_inbox _ _ af_dispatcher).
Qed.
End packets.

(** ** From wire to inbox *)
Section wire.
Context `{BP : BuildProfile, BO : ByteOrder, BL : !ByteOrderLaws BO}.

(** Receiving the bytes of a packet: what the client and the server do, when
    they are connected, with a packet of messages or a keep-alive, the check of
    the salt aside. *)
Definition process_at (c : Cursor) (header : ProtocolPacketHeader) : M Pickleback unit := fun self =>
  match process_incoming_packet header (self, c) with
  | Some ((self', _), r) => Some (self', r)
  | None => None
  end.

Definition receive_bytes (bytes : list Z) : M Pickleback unit := fun self =>
  match read_packet (Cursor_new bytes) with
  | Some (c, Ok (Messages p)) => process_at c (mp_header p) self
  | Some (c, Ok (KeepAlive p)) => process_at c (ka_header p) self
  | Some (_, Ok _) => Some (self, Err InvalidPacket)
  | Some (_, Err e) => Some (self, Err e)
  | None => None
  end.

Definition messages_wire (h : ProtocolPacketHeader) (salt : Z) (ms : list Plain) : list Z :=
  front_bytes h salt ++ concat (plain_bytes <$> ms).

Lemma normal_header_wf h : wf_header h -> wf_header (normal_header h).
Proof.
  intros [Hid Ha]. split; [done|]. simpl. destruct (ack_header h) as [a|]; [|done].
  destruct Ha as (Hai & bs & Hbs & ->). split; [done|]. exists bs. split; [done|]. reflexivity.
Qed.

Lemma header_acks_normal h : wf_header h -> header_acks (normal_header h) = header_acks h.
Proof.
  intros [_ Ha]. unfold header_acks, normal_header. cbn [ack_header]. destruct (ack_header h) as [a|]; [|done]. cbn.
  destruct Ha as (_ & bs & Hbs & ->). rewrite (collect_field _ _ bs) by done. unfold normal_ack.
  cbn [ack_id num_acks num_bytes_needed bit_buffer byte_offset bit_offset field_header].
  change (MkAckHeader ?a ?b ?c ?d 0 0) with (MkAckHeader a b c d 0 0).
  pose proof (collect_field (ack_id a) (Z.of_nat (length bs) * 7) bs Hbs) as Hcol. unfold field_header in Hcol. by rewrite Hcol.
Qed.

Lemma read_front h salt rest : wf_header h -> packet_type h = TMessages -> u64 salt ->
  exists c, read_packet (Cursor_new (front_bytes h salt ++ rest)) =
      Some (c, Ok (Messages {| mp_header := normal_header h; mp_xor_salt := salt |})) /\
    remaining_slice c = rest /\ 0 <= position c.
Proof.
  intros Hh Ht Hs. unfold front_bytes.
  destruct (read_packet_run (Messages {| mp_header := h; mp_xor_salt := salt |})
    (Cursor_new ((packet_header_bytes h ++ be_put 8 salt) ++ rest)) rest) as (c & Hrun & Hrem & Hpos); try done.
  { rewrite remaining_slice_new. unfold packet_bytes. cbn. by rewrite app_nil_r. }
  by exists c.
Qed.

Lemma read_messages_wire h salt ms : wf_header h -> packet_type h = TMessages -> u64 salt ->
  exists c, read_packet (Cursor_new (messages_wire h salt ms)) =
      Some (c, Ok (Messages {| mp_header := normal_header h; mp_xor_salt := salt |})) /\
    remaining_slice c = concat (plain_bytes <$> ms) /\ 0 <= position c.
Proof. apply read_front. Qed.

Lemma receive_wire_run h salt ms self : receive_ok self -> wf_header h -> packet_type h = TMessages -> u64 salt ->
  fresh self (h_id h) -> Forall plain_ok ms ->
  exists self', receive_bytes (messages_wire h salt ms) self = Some (self', Ok tt) /\ receive_ok self' /\
    (forall ch, inbox_view self' ch = inbox_view self ch ++ (plain_view <$> filter (fun p => p_channel p = ch) (new_of (seen_of self) ms))) /\
    outbox self' = outbox self /\
    exists f e, receive_bytes (messages_wire h salt ms) self' = Some (counted f self', Err e) /\
      (e = DuplicatePacket \/ e = StalePacket).
Proof.
  intros Hok Hh Ht Hs Hfresh Hms. destruct (read_messages_wire h salt ms Hh Ht Hs) as (c & Hread & Hrem & Hpos).
  destruct (process_fresh_run (normal_header h) self c ms Hok (normal_header_wf h Hh) Ht Hfresh Hms Hpos Hrem)
    as (self' & c' & Hrun & Hok' & Hknown & Hout & _ & Hin).
  exists self'. unfold receive_bytes, process_at. rewrite Hread. cbn [mp_header]. rewrite Hrun.
  do 4 (split; [done|]). pose proof (eo_received _ (proj1 Hok')) as Hwf.
  rewrite (process_refused (normal_header h) self' c Hwf (or_intror Hknown)).
  destruct (SeqBuf.check_sequence _ _); do 2 eexists; (split; [done|]); auto.
Qed.

Lemma plain_list ms : Forall (fun m => exists p, plain_ok p /\ Message_as_slice m = plain_bytes p) ms ->
  exists ps, Forall plain_ok ps /\ Message_as_slice <$> ms = plain_bytes <$> ps.
Proof.
  induction 1 as [|m ms (p & Hp & Hm) _ (ps & Hps & IH)]; [by exists []|].
  exists (p :: ps). split; [by constructor|]. by rewrite !fmap_cons, Hm, IH.
Qed.
End wire.

(** C12. Exactly once, in order: from a fresh packet of unfragmented messages
    the user gets the messages that are new to their channels and no others,
    appended to the channels' inboxes with their ids and payloads in the order
    of the packet, whatever acks the header carries; what is new is decided by
    the channels' filters, which remember what they accepted ([new_of]).  When
    all ids are new, different and near each other, that is every message of
    the packet.  The same packet received again is refused as a duplicate or as
    stale and changes the statistics only. *)
Theorem packet_delivered_exactly_once `{BP : BuildProfile, BO : ByteOrder, BL : !ByteOrderLaws BO} h salt ms self :
  receive_ok self -> wf_header h -> packet_type h = TMessages -> u64 salt -> fresh self (h_id h) -> Forall plain_ok ms ->
  exists self', receive_bytes (messages_wire h salt ms) self = Some (self', Ok tt) /\ receive_ok self' /\
    (forall ch, inbox_view self' ch =
      inbox_view self ch ++ (plain_view <$> filter (fun p => p_channel p = ch) (new_of (seen_of self) ms))) /\
    (deliverable self ms -> new_of (seen_of self) ms = ms) /\
    exists f e, receive_bytes (messages_wire h salt ms) self' = Some (counted f self', Err e) /\
      (e = DuplicatePacket \/ e = StalePacket).
Proof.
  intros Hok Hh Ht Hs Hfresh Hms.
  destruct (receive_wire_run h salt ms self Hok Hh Ht Hs Hfresh Hms) as (self' & Hrun & Hok' & Hin & _ & Hagain).
  exists self'. do 3 (split; [done|]). split; [by apply new_of_deliverable|done].
Qed.

(** C13. Whatever an endpoint sends, its peer understands: when the messages in
    the sender's channels are unfragmented, every packet that
    [visit_packets_to_send] hands out is, byte for byte, a packet of such
    messages, and every receiver to which it is fresh accepts it and appends
    those of its messages that are new to their channels to its inboxes, and
    no others. *)
Theorem sent_packets_are_delivered `{BP : BuildProfile, BO : ByteOrder, BL : !ByteOrderLaws BO, SM : SmallMap} sender salt :
  can_compose sender salt -> u64 salt -> outbox sender = [] ->
  (forall m, queued (ep_channels sender) m -> exists p, plain_ok p /\ Message_as_slice m = plain_bytes p) ->
  exists sender' packets, visit_packets_to_send sender = Some (sender', Ok packets) /\
    Forall (fun bytes => exists h ms, bytes = messages_wire h salt ms /\ Forall plain_ok ms /\
      Z.of_nat (length bytes) <= max_packet_size (config sender) /\
      forall receiver, receive_ok receiver -> fresh receiver (h_id h) ->
        exists receiver', receive_bytes bytes receiver = Some (receiver', Ok tt) /\ receive_ok receiver' /\
          forall ch, inbox_view receiver' ch = inbox_view receiver ch ++
            (plain_view <$> filter (fun p => p_channel p = ch) (new_of (seen_of receiver) ms))) packets.
Proof.
  intros Hcc Hsalt Hout Hplain.
  destruct (visit_packets_run sender salt Hcc) as (sender' & ps & Hrun & _ & _ & Hps & _).
  rewrite Hout in Hrun. exists sender', (vdata <$> ps). split; [done|]. apply Forall_fmap.
  eapply Forall_impl; [exact Hps|]. intros p (h & ms & Ht & Hh & Hms & Hbytes & Hsize).
  destruct (plain_list ms) as (qs & Hqs & Heq); [eapply Forall_impl; [exact Hms|]; exact Hplain|].
  rewrite Heq in Hbytes. exists h, qs. split; [exact Hbytes|]. split; [done|]. split; [done|].
  intros receiver Hrec Hfresh. cbn. rewrite Hbytes.
  destruct (receive_wire_run h salt qs receiver Hrec Hh Ht Hsalt Hfresh Hqs) as (r' & Hr & Hr' & Hin & _).
  by exists r'.
Qed.

Lemma unused_refuses id : 22768 <= id <= 55536 ->
  acceptable (SeqBuf.with_capacity (T:=bool) 10000) id = false.
Proof.
  intros Hid. unfold acceptable. apply andb_false_intro1. unfold SeqBuf.check_sequence.
  apply not_true_iff_false. rewrite sequence_greater_than_spec by (lia || apply wrap16_range).
  unfold SeqBuf.len. cbn [entries sequence SeqBuf.with_capacity]. rewrite length_replicate, Z2Nat.id by lia.
  change (wrap16 10000) with 10000. change (wrap16 (0 - 10000)) with 55536. u16_solve.
Qed.

(** C34. Message ids are counted per endpoint, but filtered per channel: a
    channel that has not received anything yet discards every message with an id
    from 22768 to 55536 as too old.  The packet is accepted all the same, so
    the peer gets its ack and reports the lost message as delivered. *)
Theorem unused_channel_discards `{BP : BuildProfile, BO : ByteOrder} m self : receive_ok self ->
  22768 <= m_id m <= 55536 -> m_fragment m = None ->
  seen_of self (m_channel m) = Some (SeqBuf.with_capacity 10000) ->
  exists self', deliver_message m self = Some (self', Ok tt) /\ receive_ok self' /\
    forall c, inbox_view self' c = inbox_view self c /\ seen_of self' c = seen_of self c.
Proof.
  intros Hok Hid Hf Hseen. destruct (deliver_message_run m self Hok) as (self' & Hrun & Hok' & _ & _ & Hin & Hs); [lia|done|].
  exists self'. split; [done|]. split; [done|]. intros c.
  assert (Hacc : accepts self (m_channel m) (m_id m) = false) by (unfold accepts; rewrite Hseen; by apply unused_refuses).
  rewrite Hin, Hs, Hacc, !decide_False by naive_solver. by rewrite app_nil_r.
Qed.

(** ** Witnesses *)
(** The last message repeats the first. *)
Definition example_messages : list Plain := [MkPlain 0 1 [1; 2; 3]; MkPlain 1 1 [4]; MkPlain 0 1 [1; 2; 3]].

Lemma example_messages_ok : Forall plain_ok example_messages.
Proof. repeat constructor; simpl; unfold MAX_CHANNELS; lia. Qed.

Lemma packet_delivered_exactly_once_witness :
  exists self', @receive_bytes debug_build big_endian (@messages_wire big_endian example_ack_header 7 example_messages)
      example_in_flight = Some (self', Ok tt) /\ @receive_ok debug_build big_endian self' /\
    inbox_view self' 1 = inbox_view example_in_flight 1 ++ [(Some 0, [1; 2; 3]); (Some 1, [4])] /\
    exists f e, @receive_bytes debug_build big_endian (@messages_wire big_endian example_ack_header 7 example_messages)
      self' = Some (counted f self', Err e) /\ (e = DuplicatePacket \/ e = StalePacket).
Proof.
  destruct (packet_delivered_exactly_once (BP:=debug_build) (BO:=big_endian) (BL:=big_endian_laws) example_ack_header 7
           example_messages example_in_flight example_in_flight_ok) as (self' & Hrun & Hok & Hin & _ & Hagain).
  - split; [simpl; lia|]. split; [simpl; lia|]. exists [1]. split; [|reflexivity].
    split; [reflexivity|repeat constructor; lia|simpl; lia].
  - reflexivity.
  - lia.
  - split; vm_compute; reflexivity.
  - apply example_messages_ok.
  - exists self'. split; [exact Hrun|]. split; [exact Hok|]. split; [|exact Hagain]. rewrite (Hin 1). vm_compute. reflexivity.
Defined.

Lemma sent_packets_are_delivered_witness :
  exists sender sender' packets,
    @send_message debug_build big_endian 1 [1; 2; 3] example_endpoint = Some (sender, Ok 0) /\
    @visit_packets_to_send debug_build big_endian elements_order sender = Some (sender', Ok packets) /\
    Forall (fun bytes => exists h ms, bytes = @messages_wire big_endian h 7 ms /\ Forall plain_ok ms /\
      Z.of_nat (length bytes) <= max_packet_size (config sender) /\
      forall receiver, @receive_ok debug_build big_endian receiver -> fresh receiver (h_id h) ->
        exists receiver', @receive_bytes debug_build big_endian bytes receiver = Some (receiver', Ok tt) /\
          @receive_ok debug_build big_endian receiver' /\
          forall ch, inbox_view receiver' ch = inbox_view receiver ch ++
            (plain_view <$> filter (fun p => p_channel p = ch) (new_of (@seen_of debug_build big_endian receiver) ms))) packets.
Proof.
  destruct send_message_outcomes_witness as (sender & ch' & m & Hsend & Hcc & Hout & Hchs & Hmsgs & Hslice & _).
  destruct (sent_packets_are_delivered (BP:=debug_build) (BO:=big_endian) (BL:=big_endian_laws) (SM:=elements_order) sender 7 Hcc)
    as (sender' & packets & H); [lia|exact Hout| |exists sender, sender', packets; split; [exact Hsend|exact H]].
  intros m1 (id & ch & Hch & m0 & Hm0 & Hsame). rewrite Hchs in Hch.
  exists (MkPlain 0 1 [1; 2; 3]). split; [split; [simpl; lia|split; [simpl; unfold MAX_CHANNELS; lia|simpl; lia]]|].
  apply lookup_insert_Some in Hch as [[_ <-]|[Hne Hch]].
  - rewrite Hmsgs in Hm0. apply list_elem_of_singleton in Hm0 as ->. destruct Hsame as (_ & _ & _ & _ & Hb).
    rewrite Hb, Hslice. reflexivity.
  - exfalso. cbn [example_endpoint set_xor_salt ep_channels fresh_endpoint channels] in Hch.
    apply lookup_insert_Some in Hch as [[Heq _]|[_ Hch]]; [congruence|].
    apply lookup_insert_Some in Hch as [[_ <-]|[_ Hch]]; [|discriminate].
    apply elem_of_nil in Hm0. exact Hm0.
Defined.

Lemma unused_channel_discards_witness :
  exists self', @deliver_message debug_build big_endian (MkMessage 30000 Small 1 (MkVec [7] 1) None) example_in_flight =
      Some (self', Ok tt) /\ @receive_ok debug_build big_endian self' /\
    forall c, inbox_view self' c = inbox_view example_in_flight c /\
      @seen_of debug_build big_endian self' c = @seen_of debug_build big_endian example_in_flight c.
Proof.
  apply (unused_channel_discards (BP:=debug_build) (BO:=big_endian) (MkMessage 30000 Small 1 (MkVec [7] 1) None)
           example_in_flight example_in_flight_ok); [simpl; lia|reflexivity|reflexivity].
Defined.
