(* ===== verification/Control.v ===== *)
(** * Control packets: the handshake's packets through an endpoint

    An endpoint without messages that sends and receives a few packets, as
    both ends do during the handshake: what goes into its outbox byte for
    byte, what visiting it hands out, and that what the peer sent is
    processed. *)

From S2P Require Import Prelude Floats Types SequenceBuffer Cursor BufferPool AckHeader Message Packets Reassembler Channel Dispatcher Endpoint Compose Acks Incoming.

Section control.
Context `{BP : BuildProfile, BO : ByteOrder, BL : !ByteOrderLaws BO, SM : SmallMap, SL : !SmallMapLaws SM}.

(** No channel holds a message. *)
Definition silent (l : ChannelList) : Prop := forall id ch, channels l !! id = Some ch -> ch_messages ch = [].

(** An endpoint that is in the beginning of its life: few packets were sent
    and received, and none of them carried messages. *)
Record idle (self : Pickleback) : Prop := {
  id_ok : receive_ok self;
  id_config : good_config (config self);
  id_size : 600 <= max_packet_size (config self);
  id_silent : silent (ep_channels self);
  id_sequence : 0 <= sequence (sent_buffer self) <= sequence_id self;
  id_few : sequence_id self <= 300 /\ sequence (received_buffer self) <= 300;
  id_received_len : SeqBuf.len (received_buffer self) <= 16384;
  id_known : forall j m, u16 j -> SeqBufFacts.find (received_buffer self) j = Some m -> 0 < j <= sequence (received_buffer self);
  id_below : acked_below (sequence (received_buffer self)) self;
}.

Lemma silent_nothing_to_send l : silent l -> ChannelList_any_with_messages_to_send l = false.
Proof.
  intros Hs. apply not_true_iff_false. rewrite any_with_messages. intros (id & ch & Hch & Hr).
  pose proof (ch_ready_le ch) as Hle. rewrite (Hs id ch Hch) in Hle. cbn [length] in Hle. lia.
Qed.

Lemma silent_shrink l l' : channels_shrink l l' -> silent l -> silent l'.
Proof.
  intros [_ Hsh Hb] Hs id ch' Hch'. destruct (Hb id ch' Hch') as [ch Hch].
  destruct (Hsh id ch Hch) as (c2 & Hc2 & _ & Hm). assert (c2 = ch') as -> by congruence.
  rewrite (Hs id ch Hch) in Hm. destruct (ch_messages ch') as [|m ms]; [done|].
  specialize (Hm m). rewrite elem_of_nil in Hm. destruct Hm. constructor.
Qed.

Lemma idle_received self : idle self -> 0 <= received_unacked_packets self <= 300.
Proof.
  intros []. pose proof (received_unacked_nonneg self (eo_received _ (proj1 id_ok0))).
  pose proof (SeqBufFacts.wf_sequence _ (eo_received _ (proj1 id_ok0))).
  split; [done|]. unfold received_unacked_packets. destruct (ack_low_watermark self) as [w|] eqn:Hw; [|lia].
  destruct (proj1 id_below0 w Hw). rewrite wrap16_small; lia.
Qed.

(** ** Sequence numbers before the first wrap *)
Lemma small_not_old {T} `{!Default T} (sb : SequenceBuffer T) k : SeqBufFacts.wf sb -> SeqBuf.len sb <= 16384 ->
  0 <= sequence sb <= k -> k <= 1000 -> SeqBufFacts.too_old sb k = false.
Proof.
  intros Hwf Hl Hs Hk. pose proof (SeqBufFacts.wf_len _ Hwf).
  unfold SeqBufFacts.too_old, sequence_less_than, sequence_greater_than.
  rewrite (wrap16_small (SeqBuf.len sb)) by lia.
  destruct (Z.le_gt_cases (SeqBuf.len sb) (sequence sb)).
  - rewrite wrap16_small by lia. apply not_true_iff_false. lia.
  - replace (wrap16 _) with (65536 + sequence sb - SeqBuf.len sb); [apply not_true_iff_false; lia|].
    unfold wrap16. rewrite <- (Z.mod_add _ 1) by lia. rewrite Z.mod_small; lia.
Qed.

Lemma small_check {T} `{!Default T} (sb : SequenceBuffer T) k : SeqBufFacts.wf sb -> SeqBuf.len sb <= 16384 ->
  0 <= sequence sb < k -> k <= 1000 -> SeqBuf.check_sequence sb k = true.
Proof.
  intros Hwf Hl Hs Hk. pose proof (small_not_old sb k Hwf Hl ltac:(lia) Hk) as Ho.
  pose proof (SeqBufFacts.wf_len _ Hwf).
  unfold SeqBuf.check_sequence, SeqBufFacts.too_old, sequence_less_than in *.
  rewrite sequence_greater_than_total, Ho; [done|lia|apply wrap16_range|].
  rewrite (wrap16_small (SeqBuf.len sb)) by lia. intros Heq. revert Ho. u16_solve.
Qed.

Lemma small_newer s k : 0 <= s < k -> k <= 1000 -> sequence_greater_than k s = true.
Proof. intros. unfold sequence_greater_than. lia. Qed.

(** ** Sending *)

(** A control packet that fits: its header is the one the endpoint makes. *)
Definition fits_control (p : ProtocolPacket) : Prop := wf_packet p /\ PacketType_from p <> TMessages.

Lemma fields_bytes_length p : Z.of_nat (length (fields_bytes p)) <= 16.
Proof. destruct p; cbn; rewrite ?length_app, ?be_put_length; simpl; lia. Qed.

Lemma control_bytes_length p : wf_header (packet_header p) -> ProtocolPacketHeader_size (packet_header p) <= 55 ->
  Z.of_nat (length (packet_bytes p)) <= 600.
Proof.
  intros Hh Hs. pose proof (fields_bytes_length p). unfold packet_bytes. rewrite !length_app.
  rewrite <- packet_header_bytes_length in Hs by done.
  assert (Z.of_nat (length (padding p)) <= 500) by (destruct p; cbn [padding]; rewrite ?length_replicate; simpl; lia). lia.
Qed.

(** What sending one control packet changes. *)
Record sends_control (self : Pickleback) (bytes : list Z) (self' : Pickleback) : Prop := {
  sc_idle : idle self';
  sc_outbox : exists buf, outbox self' = outbox self ++ [buf] /\ vdata buf = bytes;
  sc_sequence : sequence_id self' = sequence_id self + 1;
  sc_received : received_buffer self' = received_buffer self;
  sc_config : config self' = config self;
  sc_salt : xor_salt self' = xor_salt self;
}.

Lemma next_header_run t self : idle self -> sequence_id self < 300 ->
  next_packet_header t self = Some (set_sequence_id (sequence_id self + 1) self, Ok (next_header t self)) /\
  wf_header (next_header t self) /\ h_id (next_header t self) = sequence_id self + 1.
Proof.
  intros Hid Hn. pose proof (idle_received self Hid) as Hr. pose proof Hid as [[Hok _] _ _ _ Hseq _ _ _ _].
  assert (Hnext : next_id self = sequence_id self + 1) by (unfold next_id; apply wrap16_small; lia).
  rewrite next_packet_header_run by apply Hok. rewrite Hnext. unfold MAX_UNACKED_PACKETS, MAX_ACK_BYTES.
  rewrite (proj2 (Z.ltb_ge _ _)) by lia. split; [done|]. split; [apply next_header_wf; [apply Hok|lia]|done].
Qed.

Lemma send_control_run t p self : idle self -> sequence_id self < 300 -> fits_control p ->
  packet_header p = next_header t self ->
  exists self', send_packet p (set_sequence_id (sequence_id self + 1) self) = Some (self', Ok tt) /\
    sends_control self (packet_bytes p) self'.
Proof.
  intros Hid Hn [Hp Ht] Hh. pose proof (idle_received self Hid) as Hr.
  pose proof Hid as [[Hok Hacks] Hcfg Hsize Hsil Hseq Hfew Hrl Hknown [Hwm Hmeta]].
  assert (Hlen : Z.of_nat (length (packet_bytes p)) <= max_packet_size (config self)).
  { pose proof (control_bytes_length p (proj1 Hp)) as Hl. rewrite Hh in Hl.
    pose proof (next_header_size t self (eo_received _ Hok) ltac:(lia)). lia. }
  destruct (write_packet_run (config self) p (pool self) (eo_pool _ Hok) Hp Ht ltac:(lia)) as (bp & Hbp & Hw).
  rewrite decide_True in Hw by done. destruct Hw as (buf & Hw & Hbuf).
  set (meta := SentMeta_new (time self) (vec_len buf + packet_header_size (config self)) (sequence (received_buffer self))).
  set (n := sequence_id self + 1).
  set (sb := SeqBufFacts.fill_slot n meta (SeqBufFacts.advance n (sent_buffer self))).
  assert (Hsb : SeqBufFacts.wf sb) by (apply SeqBufFacts.fill_slot_wf; [apply SeqBufFacts.advance_wf; [apply Hok|lia]|lia]).
  eexists. split.
  - unfold send_packet. rewrite run_get. cbn [config set_sequence_id].
    erewrite run_bind_ok by (unfold on_pool_field, st_zoom; cbn [pool set_sequence_id]; rewrite Hw; done).
    unfold send_raw_packet. rewrite run_get.
    erewrite run_bind_ok; [done|]. unfold on_sent_buffer, st_zoom. cbn [sent_buffer set_pool set_sequence_id sequence_id time config received_buffer].
    fold meta n. rewrite SeqBufFacts.insert_run by (apply Hok || lia).
    rewrite small_not_old by (apply Hok || lia). done.
  - split; try done; [|by exists buf]. split; try done; cbn.
    + split; [|done]. destruct Hok. split; try done; cbn.
      * change (SeqBuf.len sb <= 16384). unfold sb. by rewrite SeqBufFacts.insert_len.
      * lia.
    + change (0 <= sequence sb <= n). unfold sb. rewrite SeqBufFacts.insert_sequence, small_newer by lia. lia.
    + lia.
    + split; [done|]. intros j m Hj. change (SeqBufFacts.find sb j = Some m -> 0 <= sm_acked_up_to m <= sequence (received_buffer self)).
      pose proof (SeqBufFacts.wf_sequence _ (eo_received _ Hok)).
      unfold sb. rewrite SeqBufFacts.find_insert by (apply Hok || lia). repeat case_decide; try done; [|by apply Hmeta].
      intros [= <-]. simpl. lia.
Qed.

(** ** Visiting *)
Lemma visit_idle self : idle self -> exists self', visit_packets_to_send self = Some (self', Ok (vdata <$> outbox self)) /\
  (exists bp, has_pool bp /\ self' = set_pool bp (set_outbox [] self)) /\ idle self' /\ outbox self' = [] /\ sequence_id self' = sequence_id self /\ received_buffer self' = received_buffer self /\
  config self' = config self /\ xor_salt self' = xor_salt self.
Proof.
  intros Hid. pose proof Hid as [[Hok Hacks] Hcfg Hsize Hsil Hseq Hfew Hrl Hknown Hbelow].
  destruct (return_all_run (outbox self) (set_outbox [] self)) as (bp & Hret & Hbp); [apply Hok|].
  exists (set_pool bp (set_outbox [] self)). split.
  - assert (Hc : exists r, compose_packets self = Some (self, r) /\ (r = Ok tt \/ r = Err (BackpressureErr TooManyPending))).
    { unfold compose_packets. rewrite run_get. destruct (_ <=? _); [eexists; split; [done|auto]|].
      exists (Ok tt). split; [|auto]. unfold mbind, ST_bind, st_with. cbn [compose_loop]. rewrite run_get. cbn beta iota.
      by rewrite silent_nothing_to_send. }
    destruct Hc as (r & Hc & Hr). unfold visit_packets_to_send.
    erewrite run_bind_ok by (unfold st_try; rewrite Hc; done). destruct Hr as [-> | ->]; cbn beta iota; rewrite run_get; run_done;
      run_step Hret; done.
  - split; [by exists bp|]. split; [|done]. destruct Hok. by split.
Qed.

(** ** Receiving *)

(** What processing a control packet changes. *)
Record receives_control (self : Pickleback) (id : Z) (self' : Pickleback) : Prop := {
  rc_idle : idle self';
  rc_received : sequence (received_buffer self') = id;
  rc_outbox : outbox self' = outbox self;
  rc_sequence : sequence_id self' = sequence_id self;
  rc_config : config self' = config self;
  rc_salt : xor_salt self' = xor_salt self;
}.

Lemma receive_control_run h self c : idle self -> wf_header h -> packet_type h <> TMessages ->
  sequence (received_buffer self) < h_id h <= 300 ->
  exists self', process_incoming_packet h (self, c) = Some ((self', c), Ok tt) /\ receives_control self (h_id h) self'.
Proof.
  intros Hid Hh Ht Hnew. pose proof Hid as [[Hok Hacks] Hcfg Hsize Hsil Hseq Hfew Hrl Hknown Hbelow].
  pose proof (eo_received _ Hok) as Hwf. pose proof (SeqBufFacts.wf_sequence _ Hwf) as Hs.
  set (self1 := set_stats (count_packets_received (stats self)) self).
  set (meta := ReceivedMeta_new (time self) (packet_header_size (config self) + (ProtocolPacketHeader_size h + remaining c))).
  set (rb := SeqBufFacts.fill_slot (h_id h) meta (SeqBufFacts.advance (h_id h) (received_buffer self))).
  set (self2 := set_received_buffer rb self1).
  assert (Hrb : SeqBufFacts.wf rb) by (apply SeqBufFacts.fill_slot_wf; [apply SeqBufFacts.advance_wf; [done|lia]|lia]).
  assert (Hrbs : sequence rb = h_id h) by (unfold rb; rewrite SeqBufFacts.insert_sequence, small_newer by lia; done).
  assert (Hrok : receive_ok self2) by (destruct Hok; split; [split; done|done]).
  destruct (process_packet_acks_run h self2 Hrok Hh) as (self3 & Hrun & Hok3 & Hfr & _).
  exists self3. split.
  - unfold process_incoming_packet. erewrite (run_bind_ok _ _ _ (self1, c)) by done. cbn beta.
    rewrite run_get. cbn beta iota. change (received_buffer self1) with (received_buffer self).
    rewrite small_check by (done || lia). cbn [negb].
    rewrite SeqBufFacts.exists_find by done. run_done.
    rewrite bool_decide_false by (intros [m Hm]; apply Hknown in Hm; lia).
    erewrite (run_bind_ok _ _ _ (self2, c)).
    2: { unfold st_fst, st_zoom, on_received_buffer, st_zoom. cbn [fst snd]. change (received_buffer self1) with (received_buffer self).
         rewrite SeqBufFacts.insert_run, small_not_old by (done || lia). done. }
    cbn beta. erewrite run_bind_ok by (unfold st_fst, st_zoom; cbn [fst snd]; rewrite Hrun; done).
    by destruct (packet_type h).
  - destruct Hfr. split; [|by rewrite af_received|by rewrite af_outbox|by rewrite af_sequence|by rewrite af_config|by rewrite af_salt].
    split; rewrite ?af_config, ?af_sequence, ?af_received, ?af_sent; try done.
    + by eapply silent_shrink.
    + change (sequence_id self <= 300 /\ sequence rb <= 300). lia.
    + change (SeqBuf.len rb <= 16384). unfold rb. by rewrite SeqBufFacts.insert_len.
    + intros j m Hj. change (SeqBufFacts.find rb j = Some m -> 0 < j <= sequence rb). rewrite Hrbs. unfold rb.
      rewrite SeqBufFacts.find_insert by (done || lia). repeat case_decide; try done; [lia|].
      intros Hm. apply Hknown in Hm; [lia|done].
    + apply af_below. change (sequence (received_buffer self2)) with (sequence rb). rewrite Hrbs. destruct Hbelow as [Hw Hm]. split.
      * intros w Hw'. specialize (Hw w Hw'). lia.
      * intros j m Hj Hf. specialize (Hm j m Hj Hf). lia.
Qed.

(** ** Time *)

(** [update] changes the time of the endpoint and of its channels only. *)
Lemma update_ok dt self : ep_ok self -> exists self', update dt self = Some (self', Ok tt) /\ ep_ok self' /\
  self' = set_ep_channels (ChannelList_update dt (ep_channels self)) (set_time (f64_add (time self) dt) self) /\
  forall id ch, channels (ep_channels self') !! id = Some ch ->
    exists c0, channels (ep_channels self) !! id = Some c0 /\ ch = ch_update dt c0 /\ ch_messages ch = ch_messages c0.
Proof.
  intros Hok. eexists. split; [done|].
  assert (Hch : forall id ch, channels (ChannelList_update dt (ep_channels self)) !! id = Some ch ->
    exists c0, channels (ep_channels self) !! id = Some c0 /\ ch = ch_update dt c0).
  { intros id ch. cbn. rewrite lookup_fmap. destruct (channels (ep_channels self) !! id) as [c0|]; [|done].
    intros [= <-]. eauto. }
  split; [|split; [done|]].
  - destruct Hok. split; try done. intros id ch (c0 & Hc0 & ->)%Hch. destruct (eo_channels id c0 Hc0) as (Hwf & Hi & Hr).
    destruct (ch_update_law dt c0 Hwf) as (Hwf' & _ & Hi' & _). split; [done|]. cbn in *. split; congruence || done.
  - intros id ch (c0 & Hc0 & ->)%Hch. exists c0. split; [done|]. split; [done|].
    destruct (eo_channels _ Hok _ _ Hc0) as (Hwf & _). by destruct (ch_update_law dt c0 Hwf) as (_ & -> & _).
Qed.

Lemma update_idle dt self : idle self -> exists self', update dt self = Some (self', Ok tt) /\ idle self' /\
  outbox self' = outbox self /\ sequence_id self' = sequence_id self /\ received_buffer self' = received_buffer self /\
  config self' = config self /\ xor_salt self' = xor_salt self.
Proof.
  intros [[Hok Hacks] Hcfg Hsize Hsil Hseq Hfew Hrl Hknown Hbelow].
  destruct (update_ok dt self Hok) as (self' & Hrun & Hok' & Heq & Hch).
  exists self'. split; [done|]. split; [|by rewrite Heq]. split; try (by rewrite Heq).
  - split; [done|]. rewrite Heq. destruct Hacks as [Hh Hf]. split; [|done]. intros k hs Hk Hfind.
    eapply Forall_impl; [by eapply Hh|]. intros h [Hid (ch & Hc & Hfit)]. split; [done|]. exists (ch_update dt ch). split.
    + cbn. by rewrite lookup_fmap, Hc.
    + destruct (eo_channels _ Hok _ _ Hc) as (Hwf & _). destruct (ch_update_law dt ch Hwf) as (_ & -> & _). done.
  - intros id ch (c0 & Hc0 & _ & ->)%Hch. by apply (Hsil id).
Qed.

(** ** A new endpoint *)
Lemma fresh_idle cfg time : good_config cfg -> 600 <= max_packet_size cfg -> idle (fresh_endpoint cfg time).
Proof.
  intros Hcfg Hsize. pose proof (cc_ok _ _ (fresh_can_compose cfg time 0 Hcfg)) as Hok.
  split; try done.
  - split; [by destruct Hok|]. split.
    + intros k hs Hk. cbn. by rewrite SeqBufFacts.find_with_capacity.
    + split; [apply Hok|]. intros p st Hp. cbn. by rewrite SeqBufFacts.find_with_capacity.
  - intros id ch. cbn. intros [[_ <-]|[_ Hch]]%lookup_insert_Some; [done|].
    apply lookup_insert_Some in Hch as [[_ <-]|[_ Hch]]; done.
  - cbn. unfold SeqBuf.len. cbn [entries SeqBuf.with_capacity]. rewrite length_replicate. destruct Hcfg. lia.
  - intros j m Hj. cbn. by rewrite SeqBufFacts.find_with_capacity.
  - split; [done|]. intros j m Hj. cbn. by rewrite SeqBufFacts.find_with_capacity.
Qed.

Lemma set_salt_idle salt self : idle self -> idle (set_xor_salt salt self).
Proof. intros [[Hok Hacks]]. split; try done. split; [by destruct Hok|done]. Qed.

(** What the peer parses. *)
Lemma read_control p : wf_packet p -> exists c, read_packet (Cursor_new (packet_bytes p)) = Some (c, Ok (normal_packet p)).
Proof.
  intros Hp. destruct (read_packet_run p (Cursor_new (packet_bytes p)) []) as (c & Hread & _);
    [done|by destruct p|done|by rewrite remaining_slice_new, app_nil_r|]. by exists c.
Qed.
End control.
