(* ===== verification/Pieces.v ===== *)
(** * Messages and their pieces: what travels, and what arrives

    A message given to [send_message] (endpoint.rs) travels as one piece, or
    as one piece per fragment (dispatcher.rs, [add_large_message_to_channel]).
    This file says which pieces a history of messages consists of, that each
    is parsed back as it was written, and what the receiver's two memories do
    with them whatever the order of arrival: the filter of a channel
    (channel.rs) and the reassembler (message_reassembler.rs). *)

From S2P Require Import Prelude Floats Types SequenceBuffer Cursor BufferPool Message Reassembler Channel Dispatcher.

(** ** Pieces *)

(** A message: the id [send_message] returned, and what it was given. *)
Record Sent := MkSent { s_id : MessageId; s_channel : Z; s_payload : list Z }.

#[export] Instance Sent_eq_dec : EqDecision Sent.
Proof. solve_decision. Defined.

Definition s_len (s : Sent) : Z := Z.of_nat (length (s_payload s)).
Definition s_small (s : Sent) : bool := s_len s <=? 1024.

(** How many message ids it takes. *)
Definition s_count (s : Sent) : Z := if s_small s then 1 else fragment_count (s_len s).

Record Piece := MkPiece {
  pc_id : MessageId;
  pc_channel : Z;
  pc_fragment : option Fragment;
  pc_payload : list Z;
}.

Definition piece (s : Sent) (i : Z) : Piece := {|
  pc_id := s_id s + i;
  pc_channel := s_channel s;
  pc_fragment := if s_small s then None else Some (MkFragment i (s_count s) (s_id s));
  pc_payload := if s_small s then s_payload s else chunk (s_payload s) i;
|}.

Definition pieces (s : Sent) : list Piece := piece s <$> seqZ 0 (s_count s).

Definition pc_len (pc : Piece) : Z := Z.of_nat (length (pc_payload pc)).

(** A piece on the wire. *)
Definition piece_bytes `{ByteOrder} (pc : Piece) : list Z :=
  header_bytes (pc_id pc) (pc_fragment pc) (MessageSizeMode_from (pc_len pc)) (pc_channel pc) (pc_len pc) ++ pc_payload pc.

(** Half of the id space: below it ids compare as numbers do. *)
Definition ID_LIMIT : Z := 32768.

(** What can be sent safely: at most 1 MB, below 64 kB when overflow checks
    are on, and in a number of fragments that the tail's header has room for. *)
Record good_sent `{BuildProfile} (s : Sent) : Prop := {
  gs_id : 0 <= s_id s;
  gs_limit : s_id s + s_count s <= ID_LIMIT;
  gs_channel : 0 <= s_channel s < MAX_CHANNELS;
  gs_len : s_len s <= 1048576;
  gs_profile : overflow_checks = true -> s_len s < 65536;
  gs_narrow : s_count s < 256 \/ 255 < Z.of_nat (length (chunk (s_payload s) (s_count s - 1)));
}.

(** No two messages share an id. *)
Definition apart (G : list Sent) : Prop := forall s s', s ∈ G -> s' ∈ G ->
  s = s' \/ s_id s + s_count s <= s_id s' \/ s_id s' + s_count s' <= s_id s.

Record history `{BuildProfile} (G : list Sent) : Prop := {
  hi_good : Forall good_sent G;
  hi_apart : apart G;
  hi_channels : forall s, s ∈ G -> s_channel s = 0 \/ s_channel s = 1;
}.

(** All ids are within one window of the first. *)
Definition short (G : list Sent) : Prop := forall s, s ∈ G -> s_id s + s_count s <= 10000.

Lemma short_app G G' : short (G ++ G') -> short G.
Proof. intros Hs s Hin. apply Hs, elem_of_app. by left. Qed.

Lemma s_count_bounds s : s_len s <= 1048576 -> 1 <= s_count s <= 1024 /\ (s_small s = false -> 2 <= s_count s).
Proof.
  unfold s_count, s_small. destruct (Z.leb_spec (s_len s) 1024) as [|Hl]; [done|]. intros Hmax.
  destruct (fragment_count_bounds (s_len s)) as [Hb|Hb]; [lia|split; [lia|intros _; lia]|lia].
Qed.

(** A history finds the piece of an id. *)
Lemma piece_of_id G s s' i i' : apart G -> s ∈ G -> s' ∈ G -> 0 <= i < s_count s -> 0 <= i' < s_count s' ->
  s_id s + i = s_id s' + i' -> s = s' /\ i = i'.
Proof. intros Ha Hs Hs' Hi Hi' Heq. destruct (Ha s s' Hs Hs') as [->|[?|?]]; split; (done || lia). Qed.

(** What a received message [m] must look like to be the piece [pc]. *)
Record received (pc : Piece) (m : Message) : Prop := {
  rc_id : m_id m = pc_id pc;
  rc_channel : m_channel m = pc_channel pc;
  rc_fragment : m_fragment m = pc_fragment pc;
  rc_payload : Message_as_slice m = pc_payload pc;
}.

Section wire.
Context `{BP : BuildProfile, BO : ByteOrder, BL : !ByteOrderLaws BO}.

Lemma piece_fits s i : good_sent s -> 0 <= i < s_count s ->
  u16 (pc_id (piece s i)) /\ pc_len (piece s i) <= 1024 /\
  wf_fragment_opt (pc_fragment (piece s i)) (pc_len (piece s i)) /\
  narrow_fragment_opt (pc_fragment (piece s i)) (MessageSizeMode_from (pc_len (piece s i))).
Proof.
  intros [Hid Hlim _ Hlen _ Hnar] Hi. pose proof (s_count_bounds s Hlen) as [Hc1 Hc2]. unfold ID_LIMIT in Hlim.
  split; [cbn; lia|]. unfold pc_len, piece. cbn [pc_payload pc_fragment].
  unfold s_count, s_small, s_len in *. set (len := Z.of_nat (length (s_payload s))) in *.
  destruct (Z.leb_spec len 1024) as [Hs|Hs]; [done|]. specialize (Hc2 eq_refl).
  pose proof (chunk_length (s_payload s) i) as Hck. cbv zeta in Hck. fold len in Hck. specialize (Hck Hi). rewrite Hck.
  pose proof (fragment_count_bounds len ltac:(lia)) as Hb.
  destruct (Z.eqb_spec i (fragment_count len - 1)) as [->|Hne].
  - split; [lia|]. split; [split; cbn; lia|]. unfold narrow_fragment_opt, narrow_fragment. cbn.
    destruct (MessageSizeMode_from _) eqn:Em; [|done]. apply MessageSizeMode_from_small in Em. lia.
  - split; [lia|]. split; [split; cbn; lia|]. done.
Qed.

Lemma piece_parse s i bp c rest : good_sent s -> 0 <= i < s_count s -> has_pool bp -> 0 <= position c ->
  remaining_slice c = piece_bytes (piece s i) ++ rest ->
  exists bp' c' m, Message_parse (bp, c) = Some ((bp', c'), Ok m) /\ received (piece s i) m /\
    has_pool bp' /\ remaining_slice c' = rest /\ 0 <= position c'.
Proof.
  intros Hg Hi Hbp Hpos Hrem. destruct (piece_fits s i Hg Hi) as (Hid & Hlen & Hwf & Hnar).
  pose proof (gs_channel _ Hg) as Hch. unfold MAX_CHANNELS in Hch.
  destruct (Message_parse_run (pc_id (piece s i)) (pc_fragment (piece s i)) (pc_channel (piece s i)) (pc_payload (piece s i))
    bp c rest) as (bp' & c' & buf & Hrun & Hbp' & Hrem' & Hpos' & Hbuf); try done; [cbn; lia|].
  do 3 eexists. split; [exact Hrun|]. split; [|done]. split; cbn [m_id m_channel m_fragment Message_as_slice m_buffer].
  - done.
  - by rewrite Z.mod_small by (cbn; lia).
  - cbn. destruct (s_small s); [done|]. cbn. unfold received_fragment. cbn. do 2 f_equal.
    destruct Hg as [Hid0 Hlim _ Hl _ _]. unfold ID_LIMIT in Hlim. pose proof (s_count_bounds s Hl).
    rewrite Z.add_simpl_r. apply wrap16_small. lia.
  - exact Hbuf.
Qed.

Lemma piece_bytes_length pc : (1 <= length (piece_bytes pc))%nat.
Proof. unfold piece_bytes, header_bytes. rewrite !length_app. simpl. lia. Qed.
End wire.

(** ** The reassembler *)

(** [acc] are the pieces that the filters let pass, by channel and id. *)
Definition passed (acc : list (Z * Z)) (s : Sent) (i : Z) : Prop := (s_channel s, s_id s + i) ∈ acc.

(** Of the message [s] the reassembler holds the pieces that passed, as long
    as one is missing. *)
Definition gathering (acc : list (Z * Z)) (s : Sent) (r : MessageReassembler) : Prop :=
  exists fs h, Forall2 received (pieces s) fs /\ (forall m, m ∈ h -> m ∈ fs) /\
    (forall m, m ∈ fs -> m ∈ h <-> (s_channel s, m_id m) ∈ acc) /\
    in_progress r !! s_id s = kept_entry h fs.

Lemma pieces_received s fs k m : Forall2 received (pieces s) fs -> fs !! k = Some m ->
  0 <= Z.of_nat k < s_count s /\ received (piece s (Z.of_nat k)) m.
Proof.
  intros Hfs Hk. destruct (Forall2_lookup_r _ _ _ _ _ Hfs Hk) as (pc & Hpc & Hr).
  unfold pieces in Hpc. apply list_lookup_fmap_Some in Hpc as (i & -> & [-> Hi]%lookup_seqZ). split; [lia|exact Hr].
Qed.

Lemma pieces_lookup s i : 0 <= i < s_count s -> pieces s !! Z.to_nat i = Some (piece s i).
Proof.
  intros Hi. unfold pieces. rewrite list_lookup_fmap.
  assert (seqZ 0 (s_count s) !! Z.to_nat i = Some i) as -> by (apply lookup_seqZ; lia). done.
Qed.

Lemma pieces_length s : 0 <= s_count s -> Z.of_nat (length (pieces s)) = s_count s.
Proof. intros. unfold pieces. rewrite length_fmap, length_seqZ. lia. Qed.

Lemma pieces_fragments s fs : s_small s = false -> s_len s <= 1048576 -> Forall2 received (pieces s) fs ->
  fragments_of (s_id s) fs /\ concat (Message_as_slice <$> fs) = s_payload s.
Proof.
  intros Hs Hmax Hfs. pose proof (s_count_bounds s Hmax) as [Hc1 Hc2]. specialize (Hc2 Hs).
  assert (Hlen : Z.of_nat (length fs) = s_count s).
  { rewrite <- (Forall2_length _ _ _ Hfs). apply pieces_length. lia. }
  assert (Hget : forall k m, fs !! k = Some m -> received (piece s (Z.of_nat k)) m).
  { intros k m Hk. destruct (Forall2_lookup_r _ _ _ _ _ Hfs Hk) as (pc & Hpc & Hr).
    pose proof (lookup_lt_Some _ _ _ Hk) as Hlt. rewrite <- (Nat2Z.id k) in Hpc. rewrite pieces_lookup in Hpc by lia.
    by injection Hpc as <-. }
  split.
  - split; [lia|]. intros k m Hk. rewrite (rc_fragment _ _ (Hget k m Hk)), Hlen. cbn. by rewrite Hs.
  - transitivity (concat (chunk (s_payload s) <$> seqZ 0 (Z.of_nat (length fs)))).
    + f_equal. apply list_eq. intros k. rewrite !list_lookup_fmap. destruct (fs !! k) as [m|] eqn:Hk.
      * pose proof (lookup_lt_Some _ _ _ Hk). assert (seqZ 0 (Z.of_nat (length fs)) !! k = Some (0 + Z.of_nat k)) as ->
          by (apply lookup_seqZ; lia). cbn. rewrite (rc_payload _ _ (Hget k m Hk)). cbn. by rewrite Hs.
      * apply lookup_ge_None in Hk. rewrite (proj2 (lookup_ge_None _ _)); [done|]. rewrite length_seqZ. lia.
    + apply concat_chunks. rewrite Hlen. unfold s_count, s_small, s_len in *. rewrite Hs.
      destruct (fragment_count_bounds (Z.of_nat (length (s_payload s)))); lia.
Qed.

(** The reassembler starts to gather a message it has nothing of. *)
Lemma gathering_start acc s r : s_len s <= 1048576 -> in_progress r !! s_id s = None ->
  (forall i, 0 <= i < s_count s -> ~ passed acc s i) -> gathering acc s r.
Proof.
  intros Hmax Hr Hnone. exists ((fun pc => MkMessage (pc_id pc) Small (pc_channel pc) (MkVec (pc_payload pc) 0) (pc_fragment pc)) <$> pieces s), [].
  assert (Hall : Forall2 received (pieces s)
    ((fun pc => MkMessage (pc_id pc) Small (pc_channel pc) (MkVec (pc_payload pc) 0) (pc_fragment pc)) <$> pieces s))
    by (apply Forall2_fmap_r, Forall_Forall2_diag, Forall_forall; by intros pc _).
  split; [done|]. split; [by intros m ?%elem_of_nil|]. split.
  { intros m (k & Hk)%list_elem_of_lookup. split; [by intros ?%elem_of_nil|]. intros Hp. exfalso.
    destruct (pieces_received s _ k m Hall Hk) as [Hb Hm]. apply (Hnone _ Hb). by rewrite (rc_id _ _ Hm) in Hp. }
  rewrite Hr. unfold kept_entry. by rewrite count_in_nil, decide_False by lia.
Qed.

Lemma gathering_mono acc acc' s r r' : (forall i, 0 <= i < s_count s -> passed acc s i <-> passed acc' s i) ->
  in_progress r' !! s_id s = in_progress r !! s_id s -> gathering acc s r -> gathering acc' s r'.
Proof.
  intros Hacc Hr (fs & h & Hfs & Hsub & Hh & He). exists fs, h. do 2 (split; [done|]). rewrite Hr. split; [|done].
  intros m Hm. rewrite (Hh m Hm). apply list_elem_of_lookup in Hm as [k Hk].
  destruct (pieces_received s fs k m Hfs Hk) as [Hb Hr']. rewrite (rc_id _ _ Hr'). exact (Hacc _ Hb).
Qed.

(** What [add_fragment] returns when [m] is the piece of [s] that passed
    last. *)
Record completed (acc : list (Z * Z)) (s : Sent) (rm : ReceivedMessage) : Prop := {
  cm_id : ReceivedMessage_id rm = Some (s_id s);
  cm_channel : ReceivedMessage_channel rm = Some (s_channel s);
  cm_payload : ReceivedMessage_payload rm = s_payload s;
  cm_passed : forall i, 0 <= i < s_count s -> passed acc s i;
}.

(** A fragment that has not arrived may be any. *)
Lemma kept_entry_insert h fs k x y : fs !! k = Some x -> x ∉ h -> y ∉ h -> kept_entry h (<[k:=y]> fs) = kept_entry h fs.
Proof.
  intros Hk Hx Hy.
  assert (Hcons : forall z l, count_in h (z :: l) = ((if decide (z ∈ h) then 1 else 0) + count_in h l)%nat).
  { intros z l. unfold count_in. rewrite filter_cons. by destruct (decide (z ∈ h)). }
  assert (H : count_in h (<[k:=y]> fs) = count_in h fs /\
    ((fun m => if decide (m ∈ h) then Some m else None) <$> <[k:=y]> fs) =
    ((fun m => if decide (m ∈ h) then Some m else None) <$> fs)).
  { revert k Hk. induction fs as [|z fs IH]; intros [|k] Hk; try done.
    - injection Hk as ->. change (<[0%nat:=y]> (x :: fs)) with (y :: fs). rewrite !Hcons, !fmap_cons.
      by rewrite !decide_False by done.
    - change (<[S k:=y]> (z :: fs)) with (z :: <[k:=y]> fs). destruct (IH k Hk) as [H1 H2].
      by rewrite !Hcons, !fmap_cons, H1, H2. }
  destruct H as [H1 H2]. unfold kept_entry, kept. by rewrite H1, H2, length_insert.
Qed.

(** What an arriving piece finds: room for it among those of its message. *)
Lemma gathering_room acc s i m r : s_len s <= 1048576 -> 0 <= i < s_count s -> received (piece s i) m ->
  ~ passed acc s i -> gathering acc s r ->
  exists fs h, Forall2 received (pieces s) fs /\ fs !! Z.to_nat i = Some m /\ (m ∉ h) /\
    (forall x, x ∈ h -> x ∈ fs) /\ (forall x, x ∈ fs -> x ∈ h <-> (s_channel s, m_id x) ∈ acc) /\
    in_progress r !! s_id s = kept_entry h fs.
Proof.
  intros Hmax Hi Hm Hnew (fs & h & Hfs & Hsub & Hh & He). pose proof (pieces_lookup s i Hi) as Hpc.
  destruct (Forall2_lookup_l _ _ _ _ _ Hfs Hpc) as (m0 & Hm0 & Hr0). pose proof (lookup_lt_Some _ _ _ Hm0) as Hlt.
  assert (Hid : forall x, received (piece s i) x -> x ∉ h).
  { intros x Hx Hxh. apply Hnew. unfold passed. pose proof (proj1 (Hh x (Hsub x Hxh)) Hxh) as Hp.
    by rewrite (rc_id _ _ Hx) in Hp. }
  exists (<[Z.to_nat i := m]> fs), h. split.
  { rewrite <- (list_insert_id (pieces s) (Z.to_nat i) (piece s i)) by done. by apply Forall2_insert. }
  split; [by apply list_lookup_insert_eq|]. split; [by apply Hid|]. split.
  - intros x Hx. destruct (proj1 (list_elem_of_lookup _ _) (Hsub x Hx)) as [k Hk].
    apply list_elem_of_lookup. exists k. rewrite list_lookup_insert_ne; [done|]. intros <-.
    apply (Hid x); [|done]. congruence.
  - split.
    { intros x (k & Hk)%list_elem_of_lookup. destruct (decide (k = Z.to_nat i)) as [->|Hne].
      - rewrite list_lookup_insert_eq in Hk by done. injection Hk as <-. split; [intros Hx; by apply Hid in Hx|].
        rewrite (rc_id _ _ Hm). intros Hp. by apply Hnew in Hp.
      - rewrite list_lookup_insert_ne in Hk by done. apply Hh. by apply list_elem_of_lookup_2 in Hk. }
    rewrite He. symmetry. apply (kept_entry_insert h fs _ m0 m); auto.
Qed.

Lemma gather_step acc s i m r : s_small s = false -> s_len s <= 1048576 -> 0 <= i < s_count s ->
  received (piece s i) m -> ~ passed acc s i -> gathering acc s r ->
  let acc' := (s_channel s, s_id s + i) :: acc in
  exists r' o, MessageReassembler_add_fragment m r = Some (r', Ok o) /\ gathering acc' s r' /\
    (forall q, q <> s_id s -> in_progress r' !! q = in_progress r !! q) /\
    match o with Some rm => completed acc' s rm | None => ~ forall j, 0 <= j < s_count s -> passed acc' s j end.
Proof.
  intros Hs Hmax Hi Hm Hnew Hg acc'.
  destruct (gathering_room acc s i m r Hmax Hi Hm Hnew Hg) as (fs & h & Hfs & Hfi & Hmh & Hsub & Hh & He).
  destruct (pieces_fragments s fs Hs Hmax Hfs) as [Hfrags Hpay].
  assert (Hsub' : forall x, x ∈ m :: h -> x ∈ fs).
  { intros x [->|Hx]%elem_of_cons; [by eapply list_elem_of_lookup_2|auto]. }
  assert (Hpassed : forall x, x ∈ fs -> x ∈ m :: h <-> (s_channel s, m_id x) ∈ acc').
  { intros x Hx. assert (Hid : m_id m = s_id s + i) by apply Hm. unfold acc'. rewrite !elem_of_cons, <- (Hh x Hx), <- Hid.
    split; [intros [->|?]; [by left|by right]|intros [Heq|?]; [left|by right]].
    destruct (proj1 (list_elem_of_lookup _ _) Hx) as [k Hk]. destruct (pieces_received s fs k x Hfs Hk) as [Hb Hx'].
    injection Heq as Heq. rewrite (rc_id _ _ Hx'), Hid in Heq. cbn in Heq.
    assert (k = Z.to_nat i) as -> by lia. congruence. }
  eexists _, _. split; [by apply (add_fragment_step (s_id s) fs h (Z.to_nat i))|]. split.
  { exists fs, (m :: h). split; [done|]. split; [done|]. cbn. by rewrite lookup_partial_alter_eq. }
  split; [intros q Hq; cbn; by rewrite lookup_partial_alter_ne|]. case_decide as Hall.
  2: { intros Hp. apply Hall, Forall_forall. intros x Hx. apply Hpassed; [done|].
       destruct (proj1 (list_elem_of_lookup _ _) Hx) as [k Hk]. destruct (pieces_received s fs k x Hfs Hk) as [Hb Hx'].
       rewrite (rc_id _ _ Hx'). by apply Hp. }
  assert (Hget : forall j, 0 <= j < s_count s -> exists x, fs !! Z.to_nat j = Some x /\ received (piece s j) x).
  { intros j Hj. destruct (Forall2_lookup_l _ _ _ _ _ Hfs (pieces_lookup s j Hj)) as (x & Hx & Hr). eauto. }
  destruct (Hget 0) as (f0 & Hf0 & Hr0); [lia|]. change (Z.to_nat 0) with 0%nat in Hf0. split.
  - cbn. rewrite Hf0. cbn. by rewrite (fo_fragment _ _ Hfrags 0%nat f0 Hf0).
  - cbn. rewrite Hf0. cbn. by rewrite (rc_channel _ _ Hr0).
  - by rewrite payload_concat.
  - intros j Hj. destruct (Hget j Hj) as (x & Hx & Hr). rewrite Forall_forall in Hall.
    pose proof (list_elem_of_lookup_2 _ _ _ Hx) as Hin. pose proof (proj1 (Hpassed x Hin) (Hall x Hin)) as Hp.
    by rewrite (rc_id _ _ Hr) in Hp.
Qed.

(** ** The filter of a channel *)

(** The filter has seen the ids in [A], all below the limit, and refuses
    them. *)
Record filtered (sb : SequenceBuffer bool) (A : Z -> Prop) : Prop := {
  fl_wf : SeqBufFacts.wf sb;
  fl_len : SeqBuf.len sb = 10000;
  fl_newest : sequence sb < ID_LIMIT;
  fl_seen : forall i, A i -> 0 <= i <= sequence sb /\ acceptable sb i = false;
}.

Lemma filtered_new : filtered (SeqBuf.with_capacity 10000) (fun _ => False).
Proof.
  split; [apply SeqBufFacts.with_capacity_wf; lia| |done|done].
  unfold SeqBuf.len. cbn [entries SeqBuf.with_capacity]. by rewrite length_replicate.
Qed.

Lemma filtered_weaken sb (A B : Z -> Prop) : filtered sb A -> (forall i, B i -> A i) -> filtered sb B.
Proof. intros [] HB. split; auto. Qed.

(** Below the limit the window is that of numbers. *)
Lemma check_low (sb : SequenceBuffer bool) i : SeqBufFacts.wf sb -> SeqBuf.len sb = 10000 -> sequence sb < ID_LIMIT -> 0 <= i < ID_LIMIT ->
  SeqBuf.check_sequence sb i = true -> sequence sb - 10000 < i.
Proof.
  intros Hwf Hl Hs Hi. pose proof (SeqBufFacts.wf_sequence _ Hwf) as [Hs0 _]. unfold SeqBuf.check_sequence, ID_LIMIT in *.
  rewrite Hl. rewrite sequence_greater_than_spec by (apply wrap16_range || lia). u16_solve.
Qed.

Lemma check_low_iff (sb : SequenceBuffer bool) i : SeqBufFacts.wf sb -> SeqBuf.len sb = 10000 -> 0 <= i <= sequence sb -> sequence sb < ID_LIMIT ->
  SeqBuf.check_sequence sb i = true <-> sequence sb - 10000 < i.
Proof.
  intros Hwf Hl Hi Hs. unfold SeqBuf.check_sequence, ID_LIMIT in *.
  rewrite Hl. rewrite sequence_greater_than_spec by (apply wrap16_range || lia). u16_solve.
Qed.

Lemma skipped_low s k x : 0 <= s < k -> k < ID_LIMIT -> s < x <= k ->
  x = k \/ x ∈ SeqBufFacts.skipped s k.
Proof.
  unfold ID_LIMIT. intros Hs Hk Hx. unfold SeqBufFacts.skipped, sequence_greater_than.
  rewrite (wrap16_small (s + 1)) by lia.
  rewrite (proj2 (Z.ltb_lt s k)), (proj2 (Z.leb_le (k - s) 32768)) by lia. cbn [andb orb].
  destruct (Z.eqb_spec (s + 1) k); cbn [negb]; [left; lia|right]. apply elem_of_seqZ. lia.
Qed.

(** An id that was refused before an accepted one is refused after it. *)
Lemma refused_stays (sb : SequenceBuffer bool) i j : SeqBufFacts.wf sb -> SeqBuf.len sb = 10000 -> sequence sb < ID_LIMIT ->
  0 <= i < ID_LIMIT -> acceptable sb i = true -> 0 <= j <= sequence sb -> acceptable sb j = false ->
  acceptable (remember sb i) j = false.
Proof.
  intros Hwf Hl Hs Hi Hacc Hj Hno. unfold acceptable in Hacc. apply andb_true_iff in Hacc as [Hc _].
  pose proof (check_low sb i Hwf Hl Hs Hi Hc) as Hlow. pose proof (SeqBufFacts.wf_sequence _ Hwf) as Hs0.
  assert (Hwf' : SeqBufFacts.wf (remember sb i)).
  { apply SeqBufFacts.fill_slot_wf; [apply SeqBufFacts.advance_wf; [done|]|]; unfold ID_LIMIT in *; lia. }
  assert (Hseq : sequence (remember sb i) = Z.max (sequence sb) i).
  { unfold remember. rewrite SeqBufFacts.insert_sequence. unfold sequence_greater_than, ID_LIMIT in *.
    destruct (_ || _) eqn:E; revert E; lia. }
  assert (Hl' : SeqBuf.len (remember sb i) = 10000) by (unfold remember; by rewrite SeqBufFacts.insert_len).
  unfold acceptable. apply andb_false_iff.
  destruct (Z.le_gt_cases j (Z.max (sequence sb) i - 10000)) as [Hold|Hin].
  { left. apply not_true_iff_false. rewrite check_low_iff by (rewrite ?Hseq; done || lia). lia. }
  right. apply negb_false_iff, bool_decide_eq_true. unfold remember, ID_LIMIT in *.
  rewrite SeqBufFacts.find_insert by (done || lia). rewrite Hl.
  destruct (decide (j = i)) as [->|Hne]; [by eexists|].
  assert (Hnear : forall x, x mod 10000 = j mod 10000 -> -10000 < x - j < 10000 -> x = j).
  { intros x Hm Hx. pose proof (Z.div_mod x 10000). pose proof (Z.div_mod j 10000). lia. }
  rewrite decide_False by (intros Hm; symmetry in Hm; apply Hnear in Hm; lia).
  rewrite decide_False.
  - unfold acceptable in Hno. apply andb_false_iff in Hno as [Hno|Hno].
    + exfalso. apply not_true_iff_false in Hno. apply Hno. apply check_low_iff; (done || lia).
    + by apply negb_false_iff, bool_decide_eq_true in Hno.
  - intros (x & Hm & Hx)%list_elem_of_fmap. unfold SeqBufFacts.skipped in Hx.
    destruct (sequence_greater_than i (sequence sb) && _) eqn:Hgt; [|by apply elem_of_nil in Hx].
    apply andb_true_iff in Hgt as [Hgt _]. unfold sequence_greater_than in Hgt.
    rewrite (wrap16_small (sequence sb + 1)) in Hx by lia. apply elem_of_seqZ in Hx.
    symmetry in Hm. apply Hnear in Hm; lia.
Qed.

Lemma filtered_remember (sb : SequenceBuffer bool) A i : filtered sb A -> 0 <= i < ID_LIMIT -> acceptable sb i = true ->
  ~ A i /\ filtered (remember sb i) (fun j => j = i \/ A j).
Proof.
  intros [Hwf Hl Hs Hseen] Hi Hacc. split; [intros HA; destruct (Hseen i HA); congruence|].
  assert (Hseq : sequence (remember sb i) = Z.max (sequence sb) i).
  { pose proof (SeqBufFacts.wf_sequence _ Hwf). unfold remember. rewrite SeqBufFacts.insert_sequence.
    unfold sequence_greater_than, ID_LIMIT in *. destruct (_ || _) eqn:E; revert E; lia. }
  assert (Hu : u16 i) by (unfold ID_LIMIT in *; lia).
  split.
  - apply SeqBufFacts.fill_slot_wf; [by apply SeqBufFacts.advance_wf|done].
  - unfold remember. by rewrite SeqBufFacts.insert_len.
  - rewrite Hseq. lia.
  - rewrite Hseq. intros j [->|HA].
    + split; [lia|]. unfold acceptable, remember. rewrite SeqBufFacts.find_insert, decide_True by done.
      by rewrite bool_decide_true, andb_false_r by eauto.
    + destruct (Hseen j HA) as [Hj Hno]. split; [lia|]. by apply refused_stays.
Qed.

(** While all ids are within one window of the first, nothing is too old: the
    filter refuses only what it has seen. *)
Definition exact_filter (sb : SequenceBuffer bool) (A : Z -> Prop) : Prop :=
  sequence sb < 10000 /\ forall i, 0 <= i < 10000 -> acceptable sb i = false -> A i.

Lemma check_near (sb : SequenceBuffer bool) i : SeqBuf.len sb = 10000 -> 0 <= sequence sb < 10000 -> 0 <= i < 10000 ->
  SeqBuf.check_sequence sb i = true.
Proof.
  intros Hl Hs Hi. unfold SeqBuf.check_sequence. rewrite Hl.
  rewrite sequence_greater_than_spec by (apply wrap16_range || lia). u16_solve.
Qed.

Lemma exact_filter_weaken sb (A B : Z -> Prop) : exact_filter sb A -> (forall i, A i -> B i) -> exact_filter sb B.
Proof. intros [Hs HA] HB. split; auto. Qed.

Lemma exact_filter_new A : exact_filter (SeqBuf.with_capacity 10000) A.
Proof.
  split; [done|]. intros i Hi Hno. exfalso. apply not_true_iff_false in Hno. apply Hno. unfold acceptable.
  destruct filtered_new as [Hwf Hl _ _]. apply andb_true_iff. split.
  - by apply check_near.
  - apply negb_true_iff, bool_decide_eq_false. rewrite SeqBufFacts.find_with_capacity by lia. by intros [? ?].
Qed.

Lemma exact_filter_remember sb A B i : filtered sb B -> exact_filter sb A -> 0 <= i < 10000 ->
  exact_filter (remember sb i) (fun j => j = i \/ A j).
Proof.
  intros [Hwf Hl _ _] [Hs HA] Hi. pose proof (SeqBufFacts.wf_sequence _ Hwf) as Hs0.
  assert (Hseq : sequence (remember sb i) < 10000).
  { unfold remember. rewrite SeqBufFacts.insert_sequence. case_match; lia. }
  split; [done|]. intros j Hj Hno. destruct (decide (j = i)) as [|Hne]; [by left|right]. apply HA; [done|].
  unfold acceptable in *. apply andb_false_iff in Hno as [Hno|Hno].
  - exfalso. apply not_true_iff_false in Hno. apply Hno.
    assert (0 <= sequence (remember sb i)) by (unfold remember; rewrite SeqBufFacts.insert_sequence; case_match; lia).
    apply check_near; [unfold remember; by rewrite SeqBufFacts.insert_len|lia|done].
  - apply andb_false_iff. right. apply negb_false_iff, bool_decide_eq_true. apply negb_false_iff, bool_decide_eq_true in Hno.
    revert Hno. unfold remember. rewrite SeqBufFacts.find_insert by (done || lia). rewrite decide_False by done.
    repeat case_decide; [by intros [? ?]..|done].
Qed.
