(* ===== verification/Reports.v ===== *)
(** * What the acks report

    The ack inbox of a dispatcher (dispatcher.rs) names messages, and its
    record of fragmented messages says which fragments are still waited for.
    This file relates both to what the peer has got, of which a packet's acks
    are the only news ([acked_packet]). *)

From S2P Require Import Prelude Types SequenceBuffer Cursor BufferPool Message Channel Dispatcher Compose Acks Pieces.

Section reports.
Context (G : list Sent) (D : Sent -> Z -> Prop).

(** The handle of a piece; the peer has the piece. *)
Definition piece_handle (x : Sent * Z) : MessageHandle :=
  MkHandle (s_id x.1 + x.2) (if s_small x.1 then None else Some x.2) (s_channel x.1).

Definition piece_in (x : Sent * Z) : Prop := x.1 ∈ G /\ 0 <= x.2 < s_count x.1.

(** The peer has a message when it has all of its pieces. *)
Definition arrived (s : Sent) : Prop := forall i, 0 <= i < s_count s -> D s i.

Definition confirmed (c : Z) (id : MessageId) : Prop := exists s, s ∈ G /\ s_id s = id /\ s_channel s = c /\ arrived s.

Definition frag_status (p : Z) (st : FragAckStatus) : Prop :=
  exists s, s ∈ G /\ s_id s = p /\
    match st with
    | Unknown => True
    | Complete => arrived s
    | Partial rem => forall i, 0 <= i < s_count s -> D s i \/ fragment_id p i ∈ rem
    end.

(** What the dispatcher reports, or will report, is true. *)
Record reports (d : MessageDispatcher) : Prop := {
  rp_inbox : forall c id, id ∈ inbox_of (ack_inbox d) c -> confirmed c id;
  rp_frags : forall p st, u16 p -> SeqBufFacts.find (sfm_m (sent_frag_map d)) p = Some st -> frag_status p st;
}.

(** The handle of a piece that the peer has. *)
Definition delivered (h : MessageHandle) : Prop := exists x, piece_in x /\ h = piece_handle x /\ D x.1 x.2.
End reports.

Section acks.
Context `{BP : BuildProfile, BO : ByteOrder} (G : list Sent) (D : Sent -> Z -> Prop) (HG : history G).

Lemma fragment_id_small s i : s ∈ G -> 0 <= i < s_count s -> fragment_id (s_id s) i = s_id s + i.
Proof.
  intros Hs Hi. pose proof (proj1 (Forall_forall _ _) (hi_good _ HG) s Hs) as [H0 Hl _ _ _ _].
  unfold ID_LIMIT in Hl. apply wrap16_small. lia.
Qed.

(** Two messages with one id are one. *)
Lemma same_id s s' : s ∈ G -> s' ∈ G -> s_id s = s_id s' -> s = s'.
Proof.
  intros Hs Hs' Hid. destruct HG as [Hgood Ha]. rewrite Forall_forall in Hgood.
  pose proof (s_count_bounds s (gs_len _ (Hgood s Hs))) as [? _].
  pose proof (s_count_bounds s' (gs_len _ (Hgood s' Hs'))) as [? _].
  destruct (Ha s s' Hs Hs') as [?|[?|?]]; [done|lia..].
Qed.

Lemma delivered_u16 h : delivered G D h -> u16 (mh_id h).
Proof.
  intros ([s i] & [Hs Hi] & -> & _). cbn [fst snd mh_id piece_handle] in *.
  rewrite <- (fragment_id_small s i Hs Hi). apply wrap16_range.
Qed.

(** A fragment that arrived is crossed off; when none is left the message has
    arrived. *)
Lemma frag_acked_reports s i m m' b : s ∈ G -> 0 <= i < s_count s -> D s i ->
  frag_acked (s_id s) (s_id s + i) m m' b -> u16 (s_id s) ->
  (forall p st, u16 p -> SeqBufFacts.find m p = Some st -> frag_status G D p st) ->
  (forall p st, u16 p -> SeqBufFacts.find m' p = Some st -> frag_status G D p st) /\ (b = true -> arrived D s).
Proof.
  intros Hs Hi Hd [Hst Hall] Hu Hm.
  assert (Hcross : forall rem, SeqBufFacts.find m (s_id s) = Some (Partial rem) -> forall j, 0 <= j < s_count s ->
    D s j \/ fragment_id (s_id s) j ∈ List.filter (fun k => negb (k =? s_id s + i)) rem).
  { intros rem Hrem j Hj. destruct (Hm _ _ Hu Hrem) as (s' & Hs' & Hid & Hp).
    assert (s' = s) as -> by (by apply same_id). destruct (Hp j Hj) as [|Hin]; [by left|].
    destruct (decide (j = i)) as [->|Hne]; [by left|right].
    rewrite list_elem_of_In, List.filter_In. split; [by apply list_elem_of_In|].
    rewrite fragment_id_small by done. apply negb_true_iff, Z.eqb_neq. lia. }
  assert (Hnone : forall rem, SeqBufFacts.find m (s_id s) = Some (Partial rem) ->
    List.filter (fun k => negb (k =? s_id s + i)) rem = [] -> arrived D s).
  { intros rem Hrem Hnil j Hj. destruct (Hcross rem Hrem j Hj) as [|Hin]; [done|]. rewrite Hnil in Hin.
    by apply elem_of_nil in Hin. }
  split; [|intros Hb; destruct (Hall Hb) as (rem & Hrem & Hnil); by eapply Hnone].
  intros p st Hpu Hp. destruct (Hst p st Hp) as [Hold|[-> (rem & Hrem & Hcase)]]; [by apply Hm|].
  exists s. split; [done|]. split; [done|]. destruct Hcase as [->|[-> Hnil]]; [by apply Hcross|by eapply Hnone].
Qed.

Lemma ack_message_reports h d d' : frag_safe (sfm_m (sent_frag_map d)) -> delivered G D h -> reports G D d ->
  ack_message h d = Some (d', Ok tt) -> frag_safe (sfm_m (sent_frag_map d')) /\ reports G D d'.
Proof.
  intros Hsafe Hdel [Hin Hfr] Hrun. pose proof (delivered_u16 h Hdel) as Hu.
  destruct (ack_message_run h d Hu Hsafe) as (d1 & Hrun1 & Hsafe' & _). assert (d1 = d') as -> by congruence.
  split; [done|]. clear Hrun1. destruct Hdel as ([s i] & [Hs Hi] & -> & Hd). cbn [fst snd] in *.
  revert Hrun. unfold ack_message, MessageHandle_parent_id, piece_handle. cbn [frag_index mh_id mh_channel fst snd].
  destruct (s_small s) eqn:Hsm; cbn [fmap option_fmap option_map].
  - assert (i = 0 /\ s_count s = 1) as [-> Hc] by (unfold s_count in *; rewrite Hsm in *; lia).
    intros [= <-]. split; [|done]. intros c id. unfold inbox_of. cbn [ack_inbox].
    assert (Hnew : confirmed G D (s_channel s) (s_id s + 0)).
    { exists s. split_and!; try done; [lia|]. intros j Hj. by assert (j = 0) as -> by lia. }
    destruct (decide (c = s_channel s)) as [->|Hne]; [|by rewrite lookup_insert_ne; auto].
    rewrite lookup_insert_eq. cbn. intros [Hold| ->%list_elem_of_singleton]%elem_of_app; [by apply Hin|done].
  - assert (Hp : wrap16 (s_id s + i - i) = s_id s).
    { rewrite Z.add_simpl_r. rewrite <- (Z.add_0_r (s_id s)). change (fragment_id (s_id s) 0 = s_id s + 0). apply fragment_id_small; [done|lia]. }
    rewrite Hp.
    assert (Hup : u16 (s_id s)) by (rewrite <- Hp; apply wrap16_range).
    destruct (ack_fragment_run (s_id s) (s_id s + i) (sent_frag_map d) Hup Hsafe) as (sm & b & Hrun1 & _ & _ & Hacked).
    destruct (frag_acked_reports s i _ _ _ Hs Hi Hd Hacked Hup Hfr) as [Hfr' Hb].
    erewrite run_bind_ok by (unfold on_sent_frag_map, st_zoom; rewrite Hrun1; done). cbn beta.
    destruct b; intros [= <-]; [|split; [exact Hin|exact Hfr']]. split; [|exact Hfr']. intros c id. unfold inbox_of. cbn [ack_inbox].
    destruct (decide (c = s_channel s)) as [->|Hne]; [|by rewrite lookup_insert_ne; auto].
    rewrite lookup_insert_eq. cbn. intros [Hold| ->%list_elem_of_singleton]%elem_of_app; [by apply Hin|].
    exists s. auto.
Qed.

(** Acks of pieces that arrived keep the reports true. *)
Lemma ack_trace_reports hs s1 s2 : ack_trace hs s1 s2 -> Forall (delivered G D) hs ->
  frag_safe (sfm_m (sent_frag_map s1.1)) -> reports G D s1.1 -> reports G D s2.1.
Proof.
  induction 1 as [s|h hs bufs d l d1 l1 s Hch Hack _ IH|mip hs d l s _ IH]; cbn [fst] in *; [done| |].
  - intros [Hh Hhs]%Forall_cons Hsafe Hr. destruct (ack_message_reports h d d1 Hsafe Hh Hr Hack). auto.
  - intros Hhs Hsafe Hr. apply IH; [done..|]. by destruct Hr.
Qed.
End acks.

(** ** What the reliable channel keeps *)

(** Each piece sent on channel 1 is with the peer, or waits in the channel to
    be sent again. *)
Definition kept_reliable `{BuildProfile, ByteOrder} (G : list Sent) (D : Sent -> Z -> Prop) (l : ChannelList) : Prop :=
  exists ch, channels l !! 1 = Some ch /\ ch_keeps ch = true /\
    forall s i, piece_in G (s, i) -> s_channel s = 1 -> D s i \/ exists m, m ∈ ch_messages ch /\ m_id m = s_id s + i.

Section kept.
Context `{BP : BuildProfile, BO : ByteOrder}.

Lemma kept_calm G D l l' :
  (forall ch, channels l !! 1 = Some ch -> exists ch', channels l' !! 1 = Some ch' /\ ch_keeps ch' = ch_keeps ch /\
    (ch_keeps ch = true -> forall m, m ∈ ch_messages ch -> m ∈ ch_messages ch')) -> kept_reliable G D l -> kept_reliable G D l'.
Proof.
  intros Hl (ch & Hch & Hk & Hall). destruct (Hl ch Hch) as (ch' & Hch' & Hk' & Hm). exists ch'. split; [done|].
  split; [congruence|]. intros s i Hs Hc. destruct (Hall s i Hs Hc) as [|(m & Hin & Hid)]; [by left|right]. exists m. auto.
Qed.

Lemma kept_mono G (D D' : Sent -> Z -> Prop) l : (forall s i, s ∈ G -> D s i -> D' s i) -> kept_reliable G D l -> kept_reliable G D' l.
Proof.
  intros HD (ch & Hch & Hk & Hall). exists ch. do 2 (split; [done|]). intros s i [Hs Hi] Hc.
  destruct (Hall s i (conj Hs Hi) Hc); [left|by right]. auto.
Qed.

(** The message [s] is queued in channel [c], as [ms]. *)
Lemma kept_snoc G D s l c ch ch' ms : kept_reliable G D l -> channels l !! c = Some ch -> s_channel s = c -> ch_keeps ch' = ch_keeps ch ->
  ch_messages ch' = ch_messages ch ++ ms -> (forall i, 0 <= i < s_count s -> exists m, m ∈ ms /\ m_id m = s_id s + i) ->
  kept_reliable (G ++ [s]) D (ChannelList_set c ch' l).
Proof.
  intros (ch1 & Hch1 & Hk1 & Hall) Hch Hc Hk Hm Hms. unfold kept_reliable. cbn [channels ChannelList_set]. destruct (decide (c = 1)) as [->|Hne].
  - rewrite lookup_insert_eq. assert (ch1 = ch) as -> by congruence. exists ch'. split; [done|]. split; [congruence|].
    rewrite Hm.
    intros x i [Hx Hi] Hxc. cbn [fst snd] in *. apply elem_of_app in Hx as [Hx| ->%list_elem_of_singleton].
    + destruct (Hall x i (conj Hx Hi) Hxc) as [|(m & Hin & Hid)]; [by left|right]. exists m. split; [apply elem_of_app; by left|done].
    + right. destruct (Hms i Hi) as (m & Hin & Hid). exists m. split; [apply elem_of_app; by right|done].
  - rewrite lookup_insert_ne by done. exists ch1. do 2 (split; [done|]).
    intros x i [Hx Hi] Hxc. cbn [fst snd] in *. apply elem_of_app in Hx as [Hx| ->%list_elem_of_singleton]; [by apply Hall|congruence].
Qed.

Lemma channel_ack_received_inv h l l' bufs : channel_ack_received h l = Some (l', Ok bufs) ->
  exists ch ch', channels l !! mh_channel h = Some ch /\ message_ack_received h ch = Some (ch', Ok bufs) /\
    l' = ChannelList_set (mh_channel h) ch' l.
Proof.
  unfold channel_ack_received. rewrite run_get. unfold ChannelList_get.
  destruct (channels l !! mh_channel h) as [ch|]; [|done]. run_done. unfold mbind, ST_bind, st_local.
  destruct (message_ack_received h ch) as [[ch' [b|e]]|] eqn:Hrun; [|done..]. intros [= <- <-]. by exists ch, ch'.
Qed.

(** Only what the peer has is dropped. *)
Lemma ack_trace_kept G D hs s1 s2 : apart G -> ack_trace hs s1 s2 -> Forall (delivered G D) hs -> kept_reliable G D s1.2 -> kept_reliable G D s2.2.
Proof.
  intros Ha. induction 1 as [s|h hs bufs d l d1 l1 s Hrun Hack _ IH|mip hs d l s _ IH]; cbn [snd] in *; [done| |by auto].
  intros [(x & [Hx Hxi] & -> & HD) Hhs]%Forall_cons (ch1 & Hch1 & Hk1 & Hall). apply IH; [done|].
  apply channel_ack_received_inv in Hrun as (ch & ch' & Hch & Hrun & ->).
  destruct (ch_ack_keeps _ _ _ _ Hrun) as [Hk Hm]. unfold kept_reliable. cbn [channels ChannelList_set].
  destruct (decide (mh_channel (piece_handle x) = 1)) as [He|Hne].
  - rewrite He in *. rewrite lookup_insert_eq. assert (ch1 = ch) as -> by congruence. exists ch'. split; [done|].
    split; [congruence|]. intros s0 i [Hs0 Hi] Hc. destruct (Hall s0 i (conj Hs0 Hi) Hc) as [|(m & Hin & Hid)]; [by left|].
    destruct (Hm m Hin) as [Hin'|Hid']; [right; by exists m|left]. cbn [fst snd] in *.
    destruct (piece_of_id G s0 x.1 i x.2 Ha Hs0 Hx Hi Hxi) as [-> ->]; [|done]. rewrite <- Hid, Hid'. done.
  - rewrite lookup_insert_ne by done. by exists ch1.
Qed.
End kept.

(** More is sent, more arrives: what was reported stays true. *)
Lemma reports_mono G G' (D D' : Sent -> Z -> Prop) d : G ⊆ G' -> (forall s i, s ∈ G -> D s i -> D' s i) ->
  reports G D d -> reports G' D' d.
Proof.
  intros HG HD [Hin Hfr].
  assert (Harr : forall s, s ∈ G -> arrived D s -> arrived D' s) by (intros s Hs Ha i Hi; auto).
  split.
  - intros c id Hid. destruct (Hin c id Hid) as (s & Hs & ? & ? & Ha). exists s. auto.
  - intros p st Hpu Hp. destruct (Hfr p st Hpu Hp) as (s & Hs & Hid & Hst). exists s. split; [auto|]. split; [done|].
    destruct st as [| |rem]; [done|auto|]. intros i Hi. destruct (Hst i Hi); auto.
Qed.
