(* ===== verification/Lifetime.v ===== *)
(** * An endpoint over its life

    What stays true of an endpoint of endpoint.rs while it sends, receives,
    processes acks and is drained, in any order: the messages it has queued
    and sent are those it was given, and what it has received are the pieces
    of the messages its peer was given.  [Link] puts two of them together. *)

From S2P Require Import Prelude Floats Types SequenceBuffer Cursor BufferPool AckHeader Message Packets Reassembler Channel Dispatcher Endpoint Compose Acks Incoming Control Pieces Reports.

(** ** What an endpoint remembers of what it sent *)

(** A packet: its header, and the pieces of messages it carries; or a
    keep-alive, with its client index. *)
Record Posted := MkPosted { po_header : ProtocolPacketHeader; po_pieces : list (Sent * Z); po_keepalive : option Z }.

Definition posted_id (pk : Posted) : PacketId := h_id (po_header pk).

(** No two packets share an id. *)
Definition unique_ids (P : list Posted) : Prop :=
  forall pk pk', pk ∈ P -> pk' ∈ P -> posted_id pk = posted_id pk' -> pk = pk'.

Definition keepalive_with (salt index : Z) (h : ProtocolPacketHeader) : ProtocolPacket :=
  KeepAlive {| ka_header := h; ka_xor_salt := salt; ka_client_index := index |}.

(** On the wire: the header, the salt and the pieces. *)
Definition posted_bytes `{ByteOrder} (salt : Z) (pk : Posted) : list Z :=
  match po_keepalive pk with
  | Some index => packet_bytes (keepalive_with salt index (po_header pk))
  | None => front_bytes (po_header pk) salt ++ concat ((fun x : Sent * Z => piece_bytes (piece x.1 x.2)) <$> po_pieces pk)
  end.

Record posted_ok (G : list Sent) (pk : Posted) : Prop := {
  po_wf : wf_header (po_header pk);
  po_type : packet_type (po_header pk) = match po_keepalive pk with Some _ => TKeepAlive | None => TMessages end;
  po_in : Forall (piece_in G) (po_pieces pk);
  po_empty : forall index, po_keepalive pk = Some index -> u32 index /\ po_pieces pk = [];
}.

(** The packets [P] are put into the outbox, in order. *)
Definition posts `{ByteOrder} (salt : Z) (self : Pickleback) (P : list Posted) (self' : Pickleback) : Prop :=
  vdata <$> outbox self' = (vdata <$> outbox self) ++ (posted_bytes salt <$> P).

Record posts_nothing (self self' : Pickleback) : Prop := {
  pn_sequence : sequence_id self' = sequence_id self;
  pn_outbox : outbox self' = outbox self;
}.

(** The packets [pk] acks have been received. *)
Definition acks_received (rb : SequenceBuffer ReceivedMeta) (pk : Posted) : Prop :=
  forall k, (k, true) ∈ header_acks (po_header pk) -> u16 k /\ is_Some (SeqBufFacts.find rb k).

(** [m] waits in channel [c] as a piece of a message of [G]. *)
Definition queued_piece `{ByteOrder} (G : list Sent) (c : Z) (m : Message) : Prop :=
  exists s i, s ∈ G /\ 0 <= i < s_count s /\ s_channel s = c /\
    m_id m = pc_id (piece s i) /\ m_fragment m = pc_fragment (piece s i) /\ Message_as_slice m = piece_bytes (piece s i).

(** The record of fragmented messages, before its numbers wrap: its keys are
    in the window. *)
Record frag_low (m : SequenceBuffer FragAckStatus) : Prop := {
  fw_wf : SeqBufFacts.wf m;
  fw_len : SeqBuf.len m < 32768;
  fw_keys : forall p, u16 p -> is_Some (SeqBufFacts.find m p) -> sequence m - SeqBuf.len m < p <= sequence m;
}.

Lemma frag_low_shrink m m' : frag_low m -> SeqBufFacts.wf m' -> keys_shrink m m' -> frag_low m'.
Proof. intros [] Hwf []. split; [done|congruence|]. rewrite ks_sequence, ks_len. auto. Qed.

Lemma frag_low_safe m : frag_low m -> frag_safe m.
Proof.
  intros [Hwf Hl Hk]. split; [done|]. intros p st Hp Hf. destruct (Hk p Hp) as [Hlo Hhi]; [eauto|].
  pose proof (SeqBufFacts.wf_sequence _ Hwf). pose proof (SeqBufFacts.wf_len _ Hwf).
  split; [|unfold sequence_greater_than; lia].
  unfold SeqBufFacts.too_old, sequence_less_than. apply not_true_iff_false.
  rewrite sequence_greater_than_spec by (apply wrap16_range || lia). u16_solve.
Qed.

(** A message id further on is inserted. *)
Lemma frag_low_insert m p st : frag_low m -> sequence m <= p < 32768 ->
  let m' := SeqBufFacts.fill_slot p st (SeqBufFacts.advance p m) in frag_low m' /\ sequence m' = p.
Proof.
  intros [Hwf Hl Hk] Hp m'. pose proof (SeqBufFacts.wf_sequence _ Hwf) as Hs. pose proof (SeqBufFacts.wf_len _ Hwf) as Hn.
  assert (Hseq : sequence m' = p).
  { unfold m'. rewrite SeqBufFacts.insert_sequence. unfold sequence_greater_than. destruct (_ || _) eqn:E; revert E; lia. }
  assert (Hlen : SeqBuf.len m' = SeqBuf.len m) by apply SeqBufFacts.insert_len.
  split; [|done]. split.
  - apply SeqBufFacts.fill_slot_wf; [apply SeqBufFacts.advance_wf; [done|lia]|lia].
  - by rewrite Hlen.
  - rewrite Hseq, Hlen. intros j Hj. unfold m'. rewrite SeqBufFacts.find_insert by (done || lia).
    destruct (decide (j = p)) as [->|Hne]; [lia|]. destruct (decide (j mod _ = p mod _)) as [|Hmod]; [by intros [? ?]|].
    destruct (decide (_ ∈ _)) as [|Hnin]; [by intros [? ?]|]. intros Hf. destruct (Hk j Hj Hf) as [Hlo Hhi].
    split; [|lia]. destruct (Z.lt_ge_cases (p - SeqBuf.len m) j) as [|Hold]; [done|]. exfalso.
    assert (Hm : (j + SeqBuf.len m) mod SeqBuf.len m = j mod SeqBuf.len m)
      by (rewrite <- (Z.mul_1_l (SeqBuf.len m)) at 1; apply Z_mod_plus_full).
    destruct (skipped_low (sequence m) p (j + SeqBuf.len m)) as [Heq|Hin]; [lia|unfold ID_LIMIT; lia|lia| |].
    + apply Hmod. by rewrite <- Heq, Hm.
    + apply Hnin. rewrite <- Hm. by apply (list_elem_of_fmap_2 (fun r => r mod SeqBuf.len m)).
Qed.

(** [G] are the messages queued so far, [P] the packets composed so far, and
    [D] holds of the pieces that the peer has got. *)
Record sending `{BP : BuildProfile, BO : ByteOrder} (G : list Sent) (P : list Posted) (D : Sent -> Z -> Prop)
    (salt : option Z) (self : Pickleback) : Prop := {
  sn_ok : receive_ok self;
  sn_salt : xor_salt self = salt;
  sn_size : 63 <= max_packet_size (config self);
  sn_history : history G;
  sn_next : forall s, s ∈ G -> s_id s + s_count s <= next_message_id (dispatcher self);
  sn_limit : next_message_id (dispatcher self) <= ID_LIMIT;
  sn_sent : sequence (sent_buffer self) <= sequence_id self;
  sn_handles : sequence (messages_in_packets (dispatcher self)) <= sequence_id self;
  sn_posted : Forall (posted_ok G) P;
  sn_ids : forall pk, pk ∈ P -> 0 < posted_id pk <= sequence_id self;
  sn_unique : unique_ids P;
  sn_memory : forall k hs, u16 k -> SeqBufFacts.find (messages_in_packets (dispatcher self)) k = Some hs ->
    exists pk, pk ∈ P /\ posted_id pk = k /\ hs = piece_handle <$> po_pieces pk;
  sn_reports : reports G D (dispatcher self);
  sn_channels : forall c, is_Some (channels (ep_channels self) !! c) -> c = 0 \/ c = 1;
  sn_kept : kept_reliable G D (ep_channels self);
  sn_queued : forall c ch m, channels (ep_channels self) !! c = Some ch -> m ∈ ch_messages ch -> queued_piece G c m;
  sn_frag_newest : sequence (sfm_m (sent_frag_map (dispatcher self))) <= next_message_id (dispatcher self);
  sn_frags : frag_low (sfm_m (sent_frag_map (dispatcher self)));
}.

(** What a channel holds, and whether it keeps it. *)
Definition held `{BP : BuildProfile, BO : ByteOrder} (self : Pickleback) (c : Z) : option (list Message * bool) :=
  (fun ch => (ch_messages ch, ch_keeps ch)) <$> channels (ep_channels self) !! c.

(** Nothing was added to what the sender must remember. *)
Record undisturbed `{BP : BuildProfile, BO : ByteOrder} (self self' : Pickleback) : Prop := {
  ca_config : config self' = config self;
  ca_salt : xor_salt self' = xor_salt self;
  ca_sequence : sequence_id self' = sequence_id self;
  ca_sent : sequence (sent_buffer self') = sequence (sent_buffer self);
  ca_newest : sequence (messages_in_packets (dispatcher self')) = sequence (messages_in_packets (dispatcher self));
  ca_handles : forall k hs, u16 k -> SeqBufFacts.find (messages_in_packets (dispatcher self')) k = Some hs ->
    SeqBufFacts.find (messages_in_packets (dispatcher self)) k = Some hs;
  ca_next : next_message_id (dispatcher self') = next_message_id (dispatcher self);
  ca_frags : sent_frag_map (dispatcher self') = sent_frag_map (dispatcher self);
  ca_reported : forall c id, id ∈ inbox_of (ack_inbox (dispatcher self')) c -> id ∈ inbox_of (ack_inbox (dispatcher self)) c;
  ca_held : forall c, held self' c = held self c;
  ca_outbox : outbox self' = outbox self;
}.

Section undisturbed.
Context `{BP : BuildProfile, BO : ByteOrder}.

Lemma undisturbed_refl self : undisturbed self self.
Proof. by split. Qed.

Lemma held_inv self self' c ch : held self' c = held self c -> channels (ep_channels self) !! c = Some ch ->
  exists ch', channels (ep_channels self') !! c = Some ch' /\ ch_messages ch' = ch_messages ch /\ ch_keeps ch' = ch_keeps ch.
Proof.
  unfold held. intros Heq Hch. rewrite Hch in Heq. apply fmap_Some in Heq as (ch' & Hch' & Heq). injection Heq as Hm Hk.
  by exists ch'.
Qed.

Lemma undisturbed_trans a b c : undisturbed a b -> undisturbed b c -> undisturbed a c.
Proof.
  intros [] []. split; try congruence; auto.
Qed.

Lemma sending_undisturbed G P D salt self self' : sending G P D salt self -> receive_ok self' -> undisturbed self self' ->
  sending G P D salt self'.
Proof.
  intros [] Hok [].
  split; rewrite ?ca_config0, ?ca_salt0, ?ca_sequence0, ?ca_sent0, ?ca_newest0, ?ca_next0, ?ca_frags0; auto.
  - destruct sn_reports0 as [Hin Hfr]. split; [auto|by rewrite ca_frags0].
  - intros c [ch' Hch']. destruct (held_inv self' self c ch' (eq_sym (ca_held0 c)) Hch') as (ch & Hch & _). eauto.
  - eapply kept_calm; [|exact sn_kept0]. intros ch Hch. destruct (held_inv self self' 1 ch (ca_held0 1) Hch) as (ch' & Hch' & Hm & Hk).
    exists ch'. do 2 (split; [done|]). intros _ m. by rewrite Hm.
  - intros c ch' m Hch' Hm. destruct (held_inv self' self c ch' (eq_sym (ca_held0 c)) Hch') as (ch & Hch & Hms & _).
    rewrite <- Hms in Hm. eauto.
Qed.

(** More arrives at the peer. *)
Lemma sending_mono G P (D D' : Sent -> Z -> Prop) salt self : (forall s i, s ∈ G -> D s i -> D' s i) ->
  sending G P D salt self -> sending G P D' salt self.
Proof. intros HD []. split; try done; [by eapply reports_mono|by eapply kept_mono]. Qed.

(** Two pieces in a channel with one id are the same. *)
Lemma sending_ids_ok G P D salt self : sending G P D salt self -> ids_ok (ep_channels self).
Proof.
  intros Hs c ch m Hch Hm. destruct (sn_queued _ _ _ _ _ Hs c ch m Hch Hm) as (s & i & Hin & Hi & _ & Hid & Hf & _).
  destruct (sn_history _ _ _ _ _ Hs) as [Hgood Hapart _]. pose proof (proj1 (Forall_forall _ _) Hgood s Hin) as Hg.
  destruct Hg as [H0 Hlim _ _ _ _]. unfold ID_LIMIT in Hlim. split; [rewrite Hid; cbn; lia|].
  intros m' Hm' Heq Hnone. destruct (sn_queued _ _ _ _ _ Hs c ch m' Hch Hm') as (s' & i' & Hin' & Hi' & _ & Hid' & Hf' & _).
  rewrite Hid, Hid' in Heq. cbn in Heq. destruct (piece_of_id G s' s i' i Hapart Hin' Hin Hi' Hi Heq) as [-> ->]. congruence.
Qed.

Lemma sending_can_compose G P D salt self : sending G P D (Some salt) self -> sequence_id self <= 16000 -> can_compose self salt.
Proof.
  intros Hs Hseq. pose proof (sn_sent _ _ _ _ _ Hs). pose proof (sn_handles _ _ _ _ _ Hs). destruct (sn_ok _ _ _ _ _ Hs) as [Hok _].
  pose proof (SeqBufFacts.wf_sequence _ (eo_sent _ Hok)). pose proof (SeqBufFacts.wf_sequence _ (eo_handles _ Hok)).
  split; [done|apply Hs|apply Hs|rewrite wrap16_small; lia..].
Qed.
End undisturbed.

(** ** Sending a message *)
Section send.
Context `{BP : BuildProfile, BO : ByteOrder, BL : !ByteOrderLaws BO}.

(** What the receiving side of an endpoint consists of. *)
Record same_inbox (self self' : Pickleback) : Prop := {
  si_seen : forall c, seen_of self' c = seen_of self c;
  si_reassembler : message_reassembler (dispatcher self') = message_reassembler (dispatcher self);
  si_inbox : message_inbox (dispatcher self') = message_inbox (dispatcher self);
}.

Lemma same_inbox_refl self : same_inbox self self.
Proof. by split. Qed.

Lemma same_inbox_trans a b c : same_inbox a b -> same_inbox b c -> same_inbox a c.
Proof. intros [] []. split; congruence. Qed.

Lemma queued_piece_app G G' c m : queued_piece G c m -> queued_piece (G ++ G') c m.
Proof. intros (s & i & Hin & H). exists s, i. split; [apply elem_of_app; by left|done]. Qed.

Lemma posted_ok_app G G' pk : posted_ok G pk -> posted_ok (G ++ G') pk.
Proof.
  intros []. split; try done. eapply Forall_impl; [done|]. intros x [Hx Hi]. split; [apply elem_of_app; by left|done].
Qed.

Lemma history_snoc G s n : history G -> good_sent s -> (forall s', s' ∈ G -> s_id s' + s_count s' <= n) -> s_id s = n ->
  s_channel s = 0 \/ s_channel s = 1 -> history (G ++ [s]).
Proof.
  intros [Hg Ha H01] Hs Hn Hid Hch. split; [apply Forall_app; split; [done|by apply Forall_singleton]| |].
  2: { by intros a [Hin| ->%list_elem_of_singleton]%elem_of_app; [apply H01|]. }
  intros a b [Hin| ->%list_elem_of_singleton]%elem_of_app [Hin'| ->%list_elem_of_singleton]%elem_of_app.
  - by apply Ha.
  - right. left. rewrite Hid. auto.
  - right. right. rewrite Hid. auto.
  - by left.
Qed.

(** The handles remembered are of messages sent before. *)
Lemma sending_memory_old G P D salt self k hs h : sending G P D salt self -> u16 k ->
  SeqBufFacts.find (messages_in_packets (dispatcher self)) k = Some hs -> h ∈ hs -> mh_id h < next_message_id (dispatcher self).
Proof.
  intros Hs Hk Hf Hh. destruct (sn_memory _ _ _ _ _ Hs k hs Hk Hf) as (pk & Hpk & _ & ->).
  apply list_elem_of_fmap in Hh as ([s i] & -> & Hx). pose proof (proj1 (Forall_forall _ _) (sn_posted _ _ _ _ _ Hs) pk Hpk) as [_ _ Hin].
  destruct (proj1 (Forall_forall _ _) Hin _ Hx) as [Hs' Hi]. cbn in *. pose proof (sn_next _ _ _ _ _ Hs s Hs'). lia.
Qed.

(** The message [s] queued: the channel has its pieces, the ids are taken. *)
Record queues (s : Sent) (d d' : MessageDispatcher) (ch ch' : Channel) : Prop := {
  qu_wf : ch_wf ch';
  qu_id : ch_id ch' = ch_id ch;
  qu_seen : ch_seen ch' = ch_seen ch /\ ch_keeps ch' = ch_keeps ch;
  qu_messages : exists ms, ch_messages ch' = ch_messages ch ++ ms /\ Forall (queued_piece [s] (s_channel s)) ms /\
    forall i, 0 <= i < s_count s -> exists m, m ∈ ms /\ m_id m = s_id s + i;
  qu_next : next_message_id d' = s_id s + s_count s;
  qu_handles : messages_in_packets d' = messages_in_packets d;
  qu_reassembler : message_reassembler d' = message_reassembler d;
  qu_inbox : message_inbox d' = message_inbox d;
  qu_acks : ack_inbox d' = ack_inbox d;
  qu_frags : frag_low (sfm_m (sent_frag_map d')) /\ sequence (sfm_m (sent_frag_map d')) <= s_id s + s_count s;
  qu_status : forall p st, u16 p -> SeqBufFacts.find (sfm_m (sent_frag_map d')) p = Some st ->
    SeqBufFacts.find (sfm_m (sent_frag_map d)) p = Some st \/
    p = s_id s /\ st = Partial (fragment_id (s_id s) <$> seqZ 0 (s_count s));
}.

(** What the dispatcher reports stays true when [s] is queued. *)
Lemma reports_queued G D s d d' ch ch' : reports G D d -> queues s d d' ch ch' -> reports (G ++ [s]) D d'.
Proof.
  intros Hr Hq. destruct (reports_mono G (G ++ [s]) D D d) as [Hin Hfr]; [intros x Hx; apply elem_of_app; by left|done|done|].
  split; [by rewrite (qu_acks _ _ _ _ _ Hq)|]. intros p st Hpu Hp.
  destruct (qu_status _ _ _ _ _ Hq p st Hpu Hp) as [Hold|[-> ->]]; [by apply Hfr|]. exists s.
  split; [apply elem_of_app; right; by apply list_elem_of_singleton|]. split; [done|]. intros i Hi. right.
  apply list_elem_of_fmap_2, elem_of_seqZ. lia.
Qed.

Lemma sending_enqueued G P D salt self s d bp ch ch' : sending G P D (Some salt) self -> sequence_id self <= 16000 ->
  good_sent s -> s_id s = next_message_id (dispatcher self) -> channels (ep_channels self) !! s_channel s = Some ch ->
  has_pool bp -> queues s (dispatcher self) d ch ch' ->
  sending (G ++ [s]) P D (Some salt) (enqueued (s_channel s) d bp ch' self) /\
  same_inbox self (enqueued (s_channel s) d bp ch' self).
Proof.
  intros Hs Hseq Hg Hid Hch Hbp Hqu.
  pose proof (reports_queued G D s _ _ _ _ (sn_reports _ _ _ _ _ Hs) Hqu) as Hrep.
  assert (Hch01 : s_channel s = 0 \/ s_channel s = 1) by (apply (sn_channels _ _ _ _ _ Hs); eauto).
  destruct Hqu as [Hwf Hcid [Hseen Hkeeps] (ms & Hms & Hpieces & Hall) Hnext Hmip Hre Hinb Hacks [Hfr Hfs] _].
  pose proof (gs_limit _ Hg) as Hlim. pose proof (s_count_bounds s (gs_len _ Hg)) as [Hc _]. unfold ID_LIMIT in Hlim.
  pose proof (gs_id _ Hg) as Hid0.
  assert (Hok : receive_ok (enqueued (s_channel s) d bp ch' self)).
  { split.
    - apply (cc_ok _ salt). apply (enqueued_can_compose _ _ _ _ ch); try done; [by eapply sending_can_compose|lia|apply Hfr].
    - split; [|by apply frag_low_safe]. intros k hs Hk. cbn. rewrite Hmip. intros Hf.
      destruct (sn_ok _ _ _ _ _ Hs) as [_ [Hh _]]. apply Forall_forall. intros h Hhin.
      pose proof (proj1 (Forall_forall _ _) (Hh k hs Hk Hf) h Hhin) as [Hu (c0 & Hc0 & Hfit)].
      pose proof (sending_memory_old G P D (Some salt) self k hs h Hs Hk Hf Hhin) as Hlt. split; [done|]. cbn.
      destruct (decide (mh_channel h = s_channel s)) as [He|Hne].
      + rewrite He, lookup_insert_eq. exists ch'. split; [done|]. rewrite He in Hc0. assert (c0 = ch) as -> by congruence.
        change (Forall (handle_fits h) (ch_messages ch')). rewrite Hms. apply Forall_app. split; [done|].
        eapply Forall_impl; [exact Hpieces|]. intros m (s' & i & ->%list_elem_of_singleton & Hi & _ & Hmid & _) Heq.
        cbn in Hmid. lia.
      + rewrite lookup_insert_ne by done. eauto. }
  split.
  - destruct Hs. split; cbn; rewrite ?Hmip, ?Hnext; try done.
    all: try (eapply Forall_impl; [exact sn_posted0|]; intros pk; apply posted_ok_app).
    + by apply (history_snoc G s (next_message_id (dispatcher self))).
    + intros s' [Hin'| ->%list_elem_of_singleton]%elem_of_app; [|lia]. specialize (sn_next0 s' Hin'). lia.
    + intros c Hc0. destruct (decide (c = s_channel s)) as [->|Hne]; [done|]. rewrite lookup_insert_ne in Hc0 by done. auto.
    + by apply (kept_snoc G D s _ _ ch ch' ms).
    + intros c c1 m. rewrite lookup_insert_Some. intros [[<- <-]|[Hne Hc1]] Hm.
      * change (m ∈ ch_messages ch') in Hm. rewrite Hms in Hm. apply elem_of_app in Hm as [Hm|Hm].
        -- apply queued_piece_app. by apply (sn_queued0 (s_channel s) ch).
        -- rewrite Forall_forall in Hpieces. destruct (Hpieces m Hm) as (s' & i & Hs' & H). exists s', i.
           split; [apply elem_of_app; by right|done].
      * apply queued_piece_app. by apply (sn_queued0 c c1).
  - split; [|done..]. intros c. unfold seen_of. cbn. destruct (decide (c = s_channel s)) as [->|Hne].
    + rewrite lookup_insert_eq, Hch. cbn. by f_equal.
    + by rewrite lookup_insert_ne.
Qed.

(** The fragments that [add_large_message_to_channel] queues are the pieces. *)
Lemma sent_fragments_pieces s ms : good_sent s -> s_small s = false ->
  Forall2 (sent_fragment (s_channel s) (s_id s) (s_count s) (s_payload s)) (seqZ 0 (s_count s)) ms ->
  Forall (queued_piece [s] (s_channel s)) ms /\
  forall i, 0 <= i < s_count s -> exists m, m ∈ ms /\ m_id m = s_id s + i.
Proof.
  intros Hg Hs Hall. split.
  2: { intros i Hi. assert (Hl : seqZ 0 (s_count s) !! Z.to_nat i = Some i) by (apply lookup_seqZ; lia).
       destruct (Forall2_lookup_l _ _ _ _ _ Hall Hl) as (m & Hm & [Hid _ _ _ _]). exists m. split; [by eapply list_elem_of_lookup_2|].
       destruct Hg as [Hid0 Hlim _ _ _ _]. unfold ID_LIMIT in Hlim. rewrite Hid. apply wrap16_small. lia. }
  apply Forall_forall. intros m (k & Hk)%list_elem_of_lookup.
  destruct (Forall2_lookup_r _ _ _ _ _ Hall Hk) as (i & [-> Hi]%lookup_seqZ & [Hid _ Hmode Hf Hb]).
  destruct Hg as [Hid0 Hlim _ _ _ _]. unfold ID_LIMIT in Hlim. rewrite wrap16_small in Hid by lia.
  exists s, (0 + Z.of_nat k). split; [by apply list_elem_of_singleton|]. do 2 (split; [done || lia|]).
  split; [done|]. cbn. rewrite Hs. split; [done|]. unfold piece_bytes, pc_len. cbn. rewrite Hs.
  by rewrite Hb, Hmode, Hf, Hid.
Qed.

Lemma add_message_queues s d bp ch : good_sent s -> s_id s = next_message_id d -> ch_id ch = s_channel s ->
  has_pool bp -> ch_wf ch -> frag_low (sfm_m (sent_frag_map d)) ->
  sequence (sfm_m (sent_frag_map d)) <= next_message_id d ->
  exists d' bp' ch', MessageDispatcher_add_message_to_channel (s_payload s) (d, (bp, ch)) =
      Some ((d', (bp', ch')),
        if negb (s_small s) && SeqBufFacts.too_old (sfm_m (sent_frag_map d)) (s_id s) then Err SequenceTooOld
        else Ok (s_id s)) /\
    has_pool bp' /\ queues s d d' ch ch'.
Proof.
  intros Hg Hid Hcid Hbp Hch Hfr Hnewest. pose proof Hg as [Hid0 Hlim Hchan Hlen Hprof _].
  pose proof (s_count_bounds s Hlen) as [Hc1 Hc2]. unfold ID_LIMIT, MAX_CHANNELS in *.
  unfold MessageDispatcher_add_message_to_channel. fold (s_len s). fold (s_small s).
  destruct (s_small s) eqn:Hs; cbn [negb andb].
  - assert (Hcount : s_count s = 1) by (unfold s_count; by rewrite Hs). unfold s_small in Hs. apply Z.leb_le in Hs.
    destruct (ch_enqueue_law (s_id s) (s_payload s) No bp ch) as
      (bp' & ch' & m & Henq & Hbp' & Hwf' & Hid' & Hseen & Hm & Hmid & _ & _ & Hmf & Hslice); [done|done|lia| |].
    { split; [lia|split; [exact Hs|exact I]]. }
    exists (set_next_id (wrap16 (next_message_id d + 1)) d), bp', ch'. split; [|split; [done|]].
    + erewrite run_bind_ok by (unfold st_fst, st_zoom; cbn [fst snd]; rewrite next_message_id_run; done). cbn beta.
      rewrite Hid in Henq |- *. erewrite run_bind_ok by (unfold st_snd, st_zoom; cbn [fst snd]; rewrite Henq; done). done.
    + pose proof (ch_enqueue_keeps _ _ _ _ _ _ _ _ Henq).
      split; try done; [|cbn; rewrite wrap16_small by lia; lia|cbn; split; [done|lia]|cbn; by left].
      exists [m]. split; [done|]. split.
      2: { intros i Hi. exists m. split; [by apply list_elem_of_singleton|lia]. }
      apply Forall_singleton. exists s, 0.
      split; [by apply list_elem_of_singleton|]. split; [lia|]. split; [done|].
      assert (Hsm : s_small s = true) by (by apply Z.leb_le).
      cbn. rewrite Hsm. split; [lia|]. split; [done|]. unfold piece_bytes, pc_len. cbn. rewrite Hsm, Z.add_0_r.
      by rewrite Hslice, Hcid.
  - assert (Hcount : s_count s = fragment_count (s_len s)) by (unfold s_count; by rewrite Hs).
    pose proof Hs as Hs'. unfold s_small in Hs'. apply Z.leb_gt in Hs'.
    destruct (add_large_run (s_payload s) d bp ch) as (sfm & bp' & ch' & ms & r & Hins & Hrun & Hbp' & Hwf' & Hi' & Hseen & Hm & Hall);
      [fold (s_len s); lia|done|lia|apply Hfr|done|done|lia|].
    fold (s_len s) in Hins, Hrun, Hall. rewrite <- Hcount in Hins, Hrun, Hall. rewrite <- Hid in Hins, Hrun, Hall.
    rewrite Hcid in Hall. revert Hins. unfold SentFragMap_insert_fragmented_message, sfm_zoom, st_zoom.
    rewrite SeqBufFacts.insert_run by (apply Hfr || lia).
    destruct (frag_low_insert (sfm_m (sent_frag_map d)) (s_id s) (Partial (fragment_id (s_id s) <$> seqZ 0 (s_count s))) Hfr)
      as [Hfr' Hseq']; [lia|].
    rewrite wrap16_small in Hrun by lia.
    destruct (SeqBufFacts.too_old (sfm_m (sent_frag_map d)) (s_id s)); intros [= <- <-];
      (do 3 eexists; split; [exact Hrun|]; split; [done|]);
      (split; try done; [exists ms; split; [done|by apply sent_fragments_pieces]|cbn [sent_frag_map set_sent_frag_map sfm_m]..]).
    + split; [done|lia].
    + intros p st _. by left.
    + split; [done|]. rewrite Hseq'. lia.
    + intros p st Hpu. rewrite SeqBufFacts.find_insert by (apply Hfr || lia).
      case_decide as Hp; [intros [= <-]; by right|]. repeat case_decide; [done..|by left].
Qed.

(** The messages [send_message] has queued, by its result: also when it
    reports [SequenceTooOld], the fragments are with the channel. *)
Definition taken (s : Sent) (r : result MessageId PicklebackError) : list Sent :=
  match r with Ok _ | Err SequenceTooOld => [s] | _ => [] end.

Lemma send_message_run G P D salt self c payload :
  let s := MkSent (next_message_id (dispatcher self)) c payload in
  sending G P D (Some salt) self -> sequence_id self <= 16000 -> good_sent s ->
  exists self' r, send_message c payload self = Some (self', r) /\ sending (G ++ taken s r) P D (Some salt) self' /\
    same_inbox self self' /\ received_buffer self' = received_buffer self /\ posts_nothing self self' /\
    forall id, r = Ok id -> id = s_id s.
Proof.
  intros s Hs Hseq Hg. unfold send_message. rewrite run_get.
  assert (Hnil : G ++ [] = G) by apply app_nil_r.
  assert (Hkeep : forall e, taken s (Err e) = [] -> sending (G ++ taken s (Err e)) P D (Some salt) self) by (intros e ->; by rewrite Hnil).
  destruct (_ <? _); [do 2 eexists; split; [done|]; split_and!; try done; by apply Hkeep|].
  destruct (_ <=? _); [do 2 eexists; split; [done|]; split_and!; try done; by apply Hkeep|].
  set (self1 := set_stats (count_message_sends (stats self)) self).
  assert (Hs1 : sending G P D (Some salt) self1).
  { apply (sending_undisturbed G P D (Some salt) self); [done|by apply receive_ok_stats, Hs|]. split; try done; eauto. }
  run_done. unfold ChannelList_get. destruct (channels (ep_channels self) !! c) as [ch|] eqn:Hch.
  2: { exists self1, (Err NoSuchChannel). split; [done|]. cbn [taken]. by rewrite Hnil. }
  destruct (sn_ok _ _ _ _ _ Hs) as [Hok _]. destruct (eo_channels _ Hok _ _ Hch) as (Hwf & Hcid & _).
  destruct (add_message_queues s (dispatcher self) (pool self) ch) as (d & bp & ch' & Hadd & Hbp & Hq); try done;
    [apply Hok|apply Hs|apply Hs|].
  destruct (sending_enqueued G P D salt self s d bp ch ch') as [Hs' Hsame]; try done.
  exists (enqueued c d bp ch' self). eexists. split.
  - unfold st_zoom. cbn [dispatcher pool set_stats self1 s s_payload] in *. rewrite Hadd. done.
  - destruct (negb (s_small s) && _); cbn [taken]; split_and!; try done; by intros id [= <-].
Qed.
End send.

(** ** Sending packets *)
Section visit.
Context `{BP : BuildProfile, BO : ByteOrder, BL : !ByteOrderLaws BO, SM : SmallMap, SL : !SmallMapLaws SM}.

Lemma channels_sub_seen self self' : channels_sub (ep_channels self) (ep_channels self') ->
  forall c, seen_of self' c = seen_of self c.
Proof.
  intros [Hdom Hsub] c. unfold seen_of. destruct (channels (ep_channels self') !! c) as [ch'|] eqn:Hch'.
  - destruct (Hsub c ch' Hch') as (ch & -> & Hs & _). exact (f_equal Some (kc_seen _ _ Hs)).
  - destruct (channels (ep_channels self) !! c) as [ch|] eqn:Hch; [|done].
    destruct (Hdom c) as [? ?]; [eauto|]. congruence.
Qed.

(** What a packed message is. *)
Lemma described_piece G P D salt self h m : sending G P D salt self -> describes (ep_channels self) h m ->
  exists x, piece_in G x /\ h = piece_handle x /\ Message_as_slice m = piece_bytes (piece x.1 x.2).
Proof.
  intros Hs (Hid & Hfr & ch & Hch & m0 & Hm0 & Hsi & _ & Hsf & Hsl).
  destruct (sn_queued _ _ _ _ _ Hs _ ch m0 Hch Hm0) as (s & i & Hin & Hi & Hc & Hmid & Hmf & Hb).
  exists (s, i). split; [done|]. split; [|exact (eq_trans (proj2 Hsl) Hb)].
  destruct h as [hid hfr hc]. unfold piece_handle. cbn in *. f_equal; [congruence| |congruence].
  rewrite Hfr, Hsf, Hmf. by destruct (s_small s).
Qed.

Lemma described_wire G P D salt self hs ms : sending G P D salt self -> Forall2 (describes (ep_channels self)) hs ms ->
  exists l, Forall (piece_in G) l /\ hs = piece_handle <$> l /\
    Message_as_slice <$> ms = (fun x : Sent * Z => piece_bytes (piece x.1 x.2)) <$> l.
Proof.
  intros Hs. induction 1 as [|h m hs ms Hd _ (l & Hl & Hh & Heq)]; [by exists []|].
  destruct (described_piece G P D salt self h m Hs Hd) as (x & Hx & Hhx & Hb).
  exists (x :: l). split; [by constructor|]. rewrite !fmap_cons, Heq, Hb. split; [by f_equal|done].
Qed.

Lemma next_id_small self : 0 <= sequence_id self < 65535 -> next_id self = sequence_id self + 1.
Proof. intros. unfold next_id. apply wrap16_small. lia. Qed.

Lemma sending_sequence_nonneg G P D salt self : sending G P D salt self -> 0 <= sequence_id self.
Proof. intros Hs. destruct (sn_ok _ _ _ _ _ Hs) as [Hok _]. apply Hok. Qed.

(** Another packet id was taken, for nothing. *)
Lemma sending_started G P D salt self bp : sending G P D salt self -> sequence_id self <= 16000 -> has_pool bp ->
  sending G P D salt (started self bp).
Proof.
  intros Hs Hseq Hbp. pose proof (sending_sequence_nonneg _ _ _ _ _ Hs). pose proof (next_id_small self ltac:(lia)) as Hn.
  destruct Hs as [[[] Hacks]]. split; try done; [|cbn; lia..|].
  - split; [|done]. split; try done. apply wrap16_range.
  - intros pk Hpk. specialize (sn_ids0 pk Hpk). cbn. lia.
Qed.

(** The acks a new header carries are of packets received. *)
Lemma next_header_acks t l o self : SeqBufFacts.wf (received_buffer self) -> received_unacked_packets self <= MAX_UNACKED_PACKETS ->
  acks_received (received_buffer self) (MkPosted (next_header t self) l o).
Proof.
  intros Hwf Hmax k. pose proof (received_unacked_nonneg self Hwf) as Hc0. unfold header_acks, next_header. cbn [po_header ack_header].
  destruct (Z.eqb_spec (received_unacked_packets self) 0) as [|Hne]; [by intros ?%elem_of_nil|].
  unfold MAX_UNACKED_PACKETS, MAX_ACK_BYTES in Hmax.
  rewrite collect_field, ack_bytes_decode by (try apply ack_bytes_field; lia). cbn [default].
  unfold buffer_acks. intros (i & Heq & _)%list_elem_of_fmap. injection Heq as -> Hb.
  split; [apply wrap16_range|]. symmetry in Hb. by apply bool_decide_eq_true in Hb.
Qed.

(** One more packet. *)
Lemma posted_snoc G P n pk : Forall (posted_ok G) P -> (forall pk, pk ∈ P -> 0 < posted_id pk <= n) ->
  (forall pk pk', pk ∈ P -> pk' ∈ P -> posted_id pk = posted_id pk' -> pk = pk') ->
  posted_ok G pk -> 0 <= n -> posted_id pk = n + 1 ->
  Forall (posted_ok G) (P ++ [pk]) /\ (forall pk', pk' ∈ P ++ [pk] -> 0 < posted_id pk' <= n + 1) /\
  (forall a b, a ∈ P ++ [pk] -> b ∈ P ++ [pk] -> posted_id a = posted_id b -> a = b).
Proof.
  intros HP Hids Huniq Hpk Hn Hid. split; [apply Forall_app; split; [done|by apply Forall_singleton]|]. split.
  - intros a [Ha| ->%list_elem_of_singleton]%elem_of_app; [specialize (Hids a Ha); lia|lia].
  - intros a b [Ha| ->%list_elem_of_singleton]%elem_of_app [Hb| ->%list_elem_of_singleton]%elem_of_app Heq; try done.
    + by apply Huniq.
    + specialize (Hids a Ha). lia.
    + specialize (Hids b Hb). lia.
Qed.

(** A packet is in the outbox. *)
Lemma sending_recorded G P D salt self p ms hs self' : sending G P D (Some salt) self -> sequence_id self <= 16000 ->
  composed self salt [p] self' -> recorded self salt [] p ms hs self' ->
  exists pk, sending G (P ++ [pk]) D (Some salt) self' /\ acks_received (received_buffer self) pk /\
    same_inbox self self' /\ sequence_id self' = sequence_id self + 1 /\ hs = piece_handle <$> po_pieces pk /\
    posted_id pk = sequence_id self + 1 /\ vdata p = posted_bytes salt pk.
Proof.
  intros Hs Hseq Hco Hrec. pose proof (sending_sequence_nonneg _ _ _ _ _ Hs).
  pose proof (next_id_small self ltac:(lia)) as Hn.
  assert (Hok : receive_ok self').
  { split; [apply Hco|]. apply (recorded_acks_ok self salt p ms hs); [done|by eapply sending_ids_ok|apply Hs]. }
  destruct Hrec as [Hhd Hp Hsid Hnew Hold (mip & Hd) Hdesc _ [Hns Hnh] Hsub _ Hun _]. cbn [app] in Hold, Hnew.
  destruct (described_wire G P D (Some salt) self hs ms Hs Hdesc) as (l & Hl & Hhl & Heq).
  exists (MkPosted (next_header TMessages self) l None).
  split; [|split; [by apply next_header_acks; [apply (proj1 (sn_ok _ _ _ _ _ Hs))|]|split; [split; [by apply channels_sub_seen|by rewrite Hd..]|split; [lia|split; [done|split; [done|]]]]]].
  2: { unfold posted_bytes. cbn. by rewrite Hp, Heq. }
  pose proof Hs as []. destruct (posted_snoc G P (sequence_id self) (MkPosted (next_header TMessages self) l None)) as (HP & Hids & Huniq);
    try done.
  split; rewrite ?(co_config _ _ _ _ Hco), ?(co_salt _ _ _ _ Hco), ?Hns, ?Hnh, ?Hsid, ?Hn; try done;
    try (rewrite Hd; done); try lia.
  - intros k hs' Hk Hf. destruct (Hold k hs' Hk Hf) as [[-> ->]|Ho].
    + eexists. split; [apply elem_of_app; right; by apply list_elem_of_singleton|]. by split.
    + destruct (sn_memory0 k hs' Hk Ho) as (pk & Hpk & Hpk2). exists pk. split; [apply elem_of_app; by left|done].
  - rewrite Hd. by destruct sn_reports0.
  - intros c [ch' Hch']. destruct (proj2 Hsub c ch' Hch') as (ch & Hch & _). eauto.
  - eapply kept_calm; [|exact sn_kept0]. intros ch Hch. destruct (proj1 Hsub 1) as [ch' Hch']; [by eexists|].
    destruct (proj2 Hsub 1 ch' Hch') as (ch0 & Hch0 & [_ Hk Hm] & _). assert (ch0 = ch) as -> by congruence. by exists ch'.
  - intros c ch' m Hch' Hm. destruct (proj2 Hsub c ch' Hch') as (ch & Hch & _ & Hms). eauto.
Qed.

(** The piece of [m] is in one of the packets [P]. *)
Definition carried (P : list Posted) (c : Z) (m : Message) : Prop :=
  exists pk x, pk ∈ P /\ x ∈ po_pieces pk /\ s_channel x.1 = c /\ s_id x.1 + x.2 = m_id m.

(** What is due is still due, or in one of the packets [P]. *)
Definition due_posted (self self' : Pickleback) (P : list Posted) : Prop :=
  forall c ch m, channels (ep_channels self) !! c = Some ch -> m ∈ ch_due ch ->
    (exists ch', channels (ep_channels self') !! c = Some ch' /\ m ∈ ch_due ch') \/ carried P c m.

Lemma due_posted_cons self self1 self2 pk P hs : due_handled (ep_channels self) (ep_channels self1) hs ->
  hs = piece_handle <$> po_pieces pk -> due_posted self1 self2 P -> due_posted self self2 (pk :: P).
Proof.
  intros H1 -> H2 c ch m Hch Hm. destruct (H1 c ch m Hch Hm) as [(ch1 & Hch1 & Hm1)|(h & Hh & Hc & Hid)].
  - destruct (H2 c ch1 m Hch1 Hm1) as [|(pk' & x & Hpk & Hx)]; [by left|right]. exists pk', x. split; [by right|done].
  - apply list_elem_of_fmap in Hh as (x & -> & Hx). right. exists pk, x. split; [by left|done].
Qed.

Lemma rounds_sending G P D salt self ps self' : rounds salt self ps self' -> sending G P D (Some salt) self ->
  sequence_id self + Z.of_nat (length ps) <= 16000 ->
  exists P', sending G (P ++ P') D (Some salt) self' /\ Forall (acks_received (received_buffer self)) P' /\
    same_inbox self self' /\ received_buffer self' = received_buffer self /\
    sequence_id self' <= sequence_id self + Z.of_nat (length ps) + 1 /\ due_posted self self' P' /\
    (forall pk, pk ∈ P' -> sequence_id self < posted_id pk) /\ vdata <$> ps = posted_bytes salt <$> P'.
Proof.
  intros Hr. revert P. induction Hr as [self|self bp Hbp|self p ms hs self1 ps self2 Hco Hrec _ IH]; intros P Hs Hlen; cbn [length] in *.
  - exists []. rewrite app_nil_r. split_and!; try done; [lia| |by intros pk ?%elem_of_nil]. intros c ch m Hch Hm. left. eauto.
  - pose proof (sending_sequence_nonneg _ _ _ _ _ Hs). exists []. rewrite app_nil_r.
    split; [apply sending_started; (done || lia)|]. split_and!; try done; [cbn; rewrite next_id_small; lia| |by intros pk ?%elem_of_nil].
    intros c ch m Hch Hm. left. eauto.
  - destruct (sending_recorded G P D salt self p ms hs self1 Hs) as (pk & Hs1 & Hpk & Hsame & Hsid & Hhs & Hpid & Hpb); [lia|done|done|].
    destruct (IH (P ++ [pk]) Hs1) as (P' & Hs2 & HP' & Hsame2 & Hrb & Hsid2 & Hdue & Hnew & Hpbs); [lia|]. exists (pk :: P').
    rewrite <- (co_received _ _ _ _ Hco). rewrite (co_received _ _ _ _ Hco) in HP' |- *. rewrite <- app_assoc in Hs2.
    split_and!; try done; [by constructor|by eapply same_inbox_trans|by rewrite Hrb, (co_received _ _ _ _ Hco)|lia|..].
    -- eapply due_posted_cons; [apply (rd_due _ _ _ _ _ _ _ Hrec)|done..].
    -- intros x [->|Hx]%elem_of_cons; [lia|specialize (Hnew x Hx); lia].
    -- rewrite !fmap_cons. by rewrite Hpb, Hpbs.
Qed.

(** [visit_packets_to_send] hands out packets of the messages. *)
Lemma visit_sending G P D salt self : sending G P D (Some salt) self -> sequence_id self <= 15600 ->
  exists self' packets P', visit_packets_to_send self = Some (self', Ok packets) /\ sending G (P ++ P') D (Some salt) self' /\
    Forall (acks_received (received_buffer self)) P' /\ same_inbox self self' /\
    received_buffer self' = received_buffer self /\ sequence_id self' <= sequence_id self + Z.of_nat (length P') + 1 <= 16000 /\
    packets = (vdata <$> outbox self) ++ (posted_bytes salt <$> P') /\ outbox self' = [] /\
    (forall pk, pk ∈ P' -> sequence_id self < posted_id pk) /\
    (ChannelList_any_with_messages_to_send (ep_channels self') = false \/ window_full self') /\ due_posted self self' P'.
Proof.
  intros Hs Hseq. pose proof (sending_can_compose G P D salt self Hs ltac:(lia)) as Hcc.
  destruct (visit_packets_run self salt Hcc) as (self' & ps & Hrun & _ & _ & _ & Hlen & _ & Hend & selfc & bp & Hrd & Hco & Hbp & ->).
  assert (0 <= sent_unacked_packets self) by apply wrap16_range. unfold MAX_UNACKED_PACKETS, MAX_ACK_BYTES in Hlen.
  destruct (rounds_sending G P D salt self ps selfc Hrd Hs) as (P' & Hsc & HP' & Hsame & Hrb & Hsid & Hdue & Hnew & Hpbs); [lia|].
  eexists _, _, P'. split; [exact Hrun|].
  split; [|split; [done|split; [by eapply same_inbox_trans; [exact Hsame|]|split; [done|split; [cbn; apply (f_equal length) in Hpbs; rewrite !length_fmap in Hpbs; lia|split; [by rewrite fmap_app, Hpbs|by split_and!]]]]]].
  destruct Hsc as [[[] Ha]]. by split.
Qed.

(** With nothing left to send, what was due is posted. *)
Lemma due_carried self self' P c ch m : due_posted self self' P -> ChannelList_any_with_messages_to_send (ep_channels self') = false ->
  channels (ep_channels self) !! c = Some ch -> m ∈ ch_due ch -> carried P c m.
Proof.
  intros Hdue Hend Hch Hm. destruct (Hdue c ch m Hch Hm) as [(ch' & Hch' & Hm')|]; [|done].
  exfalso. apply not_true_iff_false in Hend. apply Hend, any_with_messages. exists c, ch'. split; [done|].
  rewrite ch_ready_due. destruct (ch_due ch'); [by apply elem_of_nil in Hm'|cbn; lia].
Qed.

(** Another packet [pk] has been posted. *)
Lemma sending_post G P D salt self pk : sending G P D salt self -> posted_ok G pk -> 0 < posted_id pk <= sequence_id self ->
  (forall x, x ∈ P -> posted_id x <> posted_id pk) -> sending G (P ++ [pk]) D salt self.
Proof.
  intros [] Hpk Hid Hnew. split; try done.
  - apply Forall_app. split; [done|by apply Forall_singleton].
  - by intros x [Hx| ->%list_elem_of_singleton]%elem_of_app; [apply sn_ids0|].
  - intros a b [Ha| ->%list_elem_of_singleton]%elem_of_app [Hb| ->%list_elem_of_singleton]%elem_of_app Heq; try done;
      [by apply sn_unique0|by destruct (Hnew a Ha)|by destruct (Hnew b Hb)].
  - intros k hs Hk Hf. destruct (sn_memory0 k hs Hk Hf) as (x & Hx & H'). exists x. split; [apply elem_of_app; by left|done].
Qed.

(** A packet without messages goes into the outbox. *)
Lemma raw_sending G P D salt self bp b : sending G P D salt self -> sequence_id self < 16000 -> has_pool bp ->
  exists self', send_raw_packet b (started self bp) = Some (self', Ok tt) /\ sending G P D salt self' /\
    same_inbox self self' /\ received_buffer self' = received_buffer self /\
    sequence_id self' = sequence_id self + 1 /\ outbox self' = outbox self ++ [b].
Proof.
  intros Hs Hseq Hbp. pose proof (sending_sequence_nonneg _ _ _ _ _ Hs) as Hnn.
  pose proof (proj1 (sn_ok _ _ _ _ _ Hs)) as Hok. pose proof (sending_started G P D salt self bp Hs ltac:(lia) Hbp) as Hst.
  pose proof (next_id_small self ltac:(lia)) as Hid. pose proof (sn_sent _ _ _ _ _ Hs). pose proof (SeqBufFacts.wf_sequence _ (eo_sent _ Hok)).
  destruct (insert_next (sent_buffer self) (sequence_id self) (sent_meta (started self bp) b))
    as (sb & Hsb & Hsbwf & Hsblen & Hsbseq & _); [apply Hok|apply Hok|apply Hok|rewrite wrap16_small; lia|].
  exists (set_stats (count_packets_sent (stats self)) (set_outbox (outbox self ++ [b]) (set_sent_buffer sb (started self bp)))).
  split.
  { unfold send_raw_packet. rewrite run_get.
    erewrite run_bind_ok by (unfold on_sent_buffer, st_zoom; cbn [sent_buffer started set_sequence_id set_pool];
      unfold sent_meta in Hsb; cbn [sequence_id started set_sequence_id]; unfold next_id; rewrite Hsb; done). done. }
  split; [|by split].
  destruct Hst as [[[] Hacks]]. split; try done; cbn.
  - split; [|done]. split; try done. cbn. by rewrite Hsblen.
  - rewrite Hsbseq. unfold next_id. lia.
Qed.

(** Its header is the endpoint's next one. *)
Lemma raw_posting G P D salt self bp b t o : let pk := MkPosted (next_header t self) [] o in
  sending G P D (Some salt) self -> sequence_id self < 16000 -> has_pool bp -> posted_ok G pk -> vdata b = posted_bytes salt pk ->
  exists self', send_raw_packet b (started self bp) = Some (self', Ok tt) /\ sending G (P ++ [pk]) D (Some salt) self' /\
    same_inbox self self' /\ received_buffer self' = received_buffer self /\
    sequence_id self' = sequence_id self + 1 /\ posts salt self [pk] self'.
Proof.
  intros pk Hs Hseq Hbp Hpk Hb. destruct (raw_sending G P D (Some salt) self bp b Hs Hseq Hbp) as (self' & Hrun & Hs' & Hsame & Hrb & Hid & Hout).
  pose proof (sending_sequence_nonneg _ _ _ _ _ Hs) as Hnn. pose proof (next_id_small self ltac:(lia)) as Hn.
  exists self'. split; [exact Hrun|]. split; [|split_and!; try done; unfold posts; rewrite Hout, fmap_app; cbn; by rewrite Hb].
  apply sending_post; [done|done|cbn; lia|]. intros x Hx. pose proof (sn_ids _ _ _ _ _ Hs x Hx). cbn. lia.
Qed.

(** An empty packet carries acks only. *)
Lemma empty_sending G P D salt self : sending G P D (Some salt) self -> sequence_id self < 16000 ->
  exists self' r P', send_empty_packet self = Some (self', r) /\ sending G (P ++ P') D (Some salt) self' /\
    Forall (acks_received (received_buffer self)) P' /\ same_inbox self self' /\
    received_buffer self' = received_buffer self /\ sequence_id self' <= sequence_id self + 1 /\ posts salt self P' self'.
Proof.
  intros Hs Hseq. pose proof (sending_sequence_nonneg _ _ _ _ _ Hs) as Hnn. unfold send_empty_packet. rewrite run_get.
  assert (Hnil : P ++ [] = P) by apply app_nil_r.
  assert (Hpn : forall s', outbox s' = outbox self -> posts salt self [] s') by (intros s' Ho; unfold posts; by rewrite Ho, app_nil_r).
  destruct (_ <=? _); [exists self; eexists _, []; rewrite Hnil; split_and!; try done; [lia|by apply Hpn]|].
  pose proof (proj1 (sn_ok _ _ _ _ _ Hs)) as Hok.
  destruct (get_buffer_run 1300 (pool self) (eo_pool _ Hok)) as (bp & b & Hget & Hbp & Hb).
  assert (Hg : on_pool_field (get_buffer 1300) self = Some (set_pool bp self, Ok b)).
  { unfold on_pool_field, st_zoom. by rewrite Hget. }
  run_step Hg. pose proof (sending_started G P D (Some salt) self bp Hs ltac:(lia) Hbp) as Hst.
  assert (Hid : sequence_id (started self bp) = sequence_id self + 1) by (apply next_id_small; lia).
  destruct (Z.lt_ge_cases MAX_UNACKED_PACKETS (received_unacked_packets self)) as [Hfull|Hroom].
  { exists (started self bp). eexists _, []. rewrite Hnil. split; [|split_and!; try done; [lia|by apply Hpn]].
    erewrite run_bind_err; [done|]. unfold st_with. rewrite write_packet_header_full; [done|apply Hok|done]. }
  destruct (write_packet_header_run (set_pool bp self) (VecCursor_new b) salt) as (w & n & Hw & _ & Hfront);
    [apply Hok|apply Hs|done|by cbn; unfold vec_len; rewrite Hb|done|].
  change (next_header TMessages (set_pool bp self)) with (next_header TMessages self) in Hfront.
  assert (Hhd : wf_header (next_header TMessages self)) by (apply next_header_wf; [apply Hok|done]).
  destruct (front_emits (next_header TMessages self) salt Hhd (VecCursor_new b)) as (w' & r & Hfront' & _ & Hr);
    [by cbn; unfold vec_len; rewrite Hb|].
  rewrite decide_True in Hr by done. destruct Hr as (-> & Hout & _).
  assert (w' = w) as -> by congruence. cbn in Hout. rewrite Hb in Hout. cbn in Hout.
  erewrite run_bind_ok by (unfold st_with; rewrite Hw; done). cbn beta iota.
  change (set_sequence_id (next_id (set_pool bp self)) (set_pool bp self)) with (started self bp).
  destruct (raw_posting G P D salt self bp (vc_vec w) TMessages None) as (self' & Hrun & Hs' & Hsame & Hrb & Hid' & Hp); try done.
  { unfold posted_bytes. cbn. by rewrite Hout, app_nil_r. }
  exists self'. eexists _, [_]. split; [exact Hrun|]. split; [exact Hs'|].
  split; [apply Forall_singleton, next_header_acks; [apply Hok|done]|]. split_and!; (done || lia).
Qed.

(** A control packet is sent, or does not fit. *)
Lemma packet_sending G P D salt self p : sending G P D salt self -> sequence_id self < 16000 ->
  wf_packet p -> PacketType_from p <> TMessages ->
  exists self' r, send_packet p (set_sequence_id (next_id self) self) = Some (self', r) /\ sending G P D salt self' /\
    same_inbox self self' /\ received_buffer self' = received_buffer self /\ sequence_id self' = sequence_id self + 1 /\
    ((exists b, outbox self' = outbox self ++ [b] /\ vdata b = packet_bytes p) \/ outbox self' = outbox self).
Proof.
  intros Hs Hseq Hp Ht. pose proof (sending_sequence_nonneg _ _ _ _ _ Hs) as Hnn. pose proof (next_id_small self ltac:(lia)) as Hid.
  pose proof (proj1 (sn_ok _ _ _ _ _ Hs)) as Hok. pose proof (sn_size _ _ _ _ _ Hs) as Hsize.
  destruct (write_packet_run (config self) p (pool self) (eo_pool _ Hok) Hp Ht) as (bp & Hbp & Hw); [lia|].
  unfold send_packet. rewrite run_get. cbn [config set_sequence_id]. destruct (decide _) as [Hle|Hgt].
  - destruct Hw as (buf & Hw & Hbuf). destruct (raw_sending G P D salt self bp buf Hs Hseq Hbp) as (self' & Hrun & Hs' & Hinb & Hrb & Hid' & Hout).
    exists self', (Ok tt). split; [|split_and!; try done; left; by exists buf].
    erewrite run_bind_ok by (unfold on_pool_field, st_zoom; cbn [pool set_sequence_id]; rewrite Hw; done). exact Hrun.
  - exists (started self bp). eexists. split.
    { by erewrite run_bind_err by (unfold on_pool_field, st_zoom; cbn [pool set_sequence_id]; rewrite Hw; done). }
    split; [apply sending_started; [done|lia|done]|]. split_and!; try done. by right.
Qed.

(** A keep-alive, as both ends send it: whatever goes wrong is ignored. *)
Definition send_keepalive (salt index : Z) : M Pickleback unit :=
  header ← st_try (next_packet_header TKeepAlive);
  match header with
  | Ok header => st_try (send_packet (keepalive_with salt index header));; mret tt
  | Err _ => mret tt
  end.

Lemma keepalive_sending G P D salt index self : sending G P D (Some salt) self -> sequence_id self < 16000 -> u64 salt -> u32 index ->
  exists self' P', send_keepalive salt index self = Some (self', Ok tt) /\ sending G (P ++ P') D (Some salt) self' /\
    Forall (acks_received (received_buffer self)) P' /\ same_inbox self self' /\
    received_buffer self' = received_buffer self /\ sequence_id self' <= sequence_id self + 1 /\ posts salt self P' self'.
Proof.
  intros Hs Hseq Hsalt Hidx. pose proof (sending_sequence_nonneg _ _ _ _ _ Hs) as Hnn.
  pose proof (proj1 (sn_ok _ _ _ _ _ Hs)) as Hok. pose proof (next_id_small self ltac:(lia)) as Hid.
  assert (Hnil : forall self', sending G P D (Some salt) self' -> outbox self' = outbox self ->
    sending G (P ++ []) D (Some salt) self' /\ posts salt self [] self').
  { intros self' Hs' Hout. unfold posts. by rewrite !app_nil_r, Hout. }
  unfold send_keepalive. pose proof (next_packet_header_run TKeepAlive self (eo_received _ Hok)) as Hnext.
  erewrite run_bind_ok by (unfold st_try; rewrite Hnext; done). cbn beta.
  destruct (Z.ltb_spec MAX_UNACKED_PACKETS (received_unacked_packets self)) as [Hfull|Hroom].
  { assert (Heq : set_sequence_id (next_id self) self = started self (pool self)) by (by destruct self). rewrite Heq.
    destruct (Hnil (started self (pool self))) as [Hst Hpost]; [apply sending_started; [done|lia|apply Hok]|done|].
    exists (started self (pool self)), []. split_and!; try done. cbn. unfold next_id in *. lia. }
  assert (Hhd : wf_header (next_header TKeepAlive self)) by (apply next_header_wf; [apply Hok|done]).
  destruct (packet_sending G P D (Some salt) self (keepalive_with salt index (next_header TKeepAlive self)) Hs Hseq)
    as (self' & r & Hrun & Hs' & Hinb & Hrb & Hid' & Hout); [done..|].
  assert (Hdone : (st_try (send_packet (keepalive_with salt index (next_header TKeepAlive self)));; mret tt)
    (set_sequence_id (next_id self) self) = Some (self', @Ok unit PicklebackError tt))
    by (erewrite run_bind_ok by (unfold st_try; rewrite Hrun; done); done).
  destruct Hout as [(b & Hout & Hb)|Hout].
  - set (pk := MkPosted (next_header TKeepAlive self) [] (Some index)). exists self', [pk]. split; [exact Hdone|]. split.
    { apply sending_post; [done|split; try done; by intros ? [= <-]|cbn; lia|].
      intros x Hx. pose proof (sn_ids _ _ _ _ _ Hs x Hx). cbn. lia. }
    split; [apply Forall_singleton, next_header_acks; [apply Hok|done]|]. split_and!; try done; [lia|].
    unfold posts. rewrite Hout, fmap_app. cbn. by rewrite Hb.
  - destruct (Hnil self' Hs' Hout) as [Hs2 Hpost]. exists self', []. split_and!; (done || lia).
Qed.
End visit.

(** ** What an endpoint has received *)

(** How the user sees a message that arrives. *)
Definition arrival (s : Sent) : option MessageId * list Z := (Some (s_id s), s_payload s).

(** [l] are the arrivals, once each, of the messages of channel [c] of which
    all pieces passed. *)
Definition account (G : list Sent) (acc : list (Z * Z)) (c : Z) (l : list (option MessageId * list Z)) : Prop :=
  exists ss, l = arrival <$> ss /\ NoDup ss /\
    forall s, s ∈ ss <-> s ∈ G /\ s_channel s = c /\ arrived (passed acc) s.

(** A piece that passes is no piece of another message. *)
Lemma passed_other G acc s i s' j : apart G -> s ∈ G -> s' ∈ G -> 0 <= i < s_count s -> 0 <= j < s_count s' -> s' <> s ->
  passed acc s' j <-> passed ((s_channel s, s_id s + i) :: acc) s' j.
Proof.
  intros Ha Hs Hs' Hi Hj Hne. unfold passed. rewrite elem_of_cons. split; [by right|]. intros [[= _ Hid]|]; [|done].
  by destruct (piece_of_id G s' s j i Ha Hs' Hs Hj Hi Hid).
Qed.

(** A message becomes complete, or none does. *)
Lemma account_snoc G acc c l s i : apart G -> account G acc c l -> s ∈ G -> 0 <= i < s_count s -> ~ passed acc s i ->
  let acc' := (s_channel s, s_id s + i) :: acc in arrived (passed acc') s ->
  account G acc' c (l ++ if decide (c = s_channel s) then [arrival s] else []).
Proof.
  intros Ha (ss & -> & Hnd & Hss) Hin Hi Hnew acc' Hall.
  assert (Hother : forall x, x ∈ G -> x <> s -> arrived (passed acc') x <-> arrived (passed acc) x).
  { intros x Hx Hne. split; intros Hp j Hj; apply (passed_other G acc s i x j); auto. }
  assert (Hs : s ∉ ss) by (intros Hx; apply Hnew; by apply (Hss s)).
  exists (ss ++ if decide (c = s_channel s) then [s] else []).
  split; [rewrite fmap_app; by destruct (decide _)|]. split.
  - apply NoDup_app. split; [done|]. destruct (decide _); [|split; [by intros x _ ?%elem_of_nil|constructor]].
    split; [|apply NoDup_singleton]. by intros x Hx ->%list_elem_of_singleton.
  - intros x. rewrite elem_of_app, Hss. destruct (decide (x = s)) as [->|Hne].
    + destruct (decide (c = s_channel s)) as [->|Hc]; [rewrite list_elem_of_singleton; tauto|].
      rewrite elem_of_nil. split; [intros [(_ & ? & _)|[]]; congruence|intros (_ & ? & _); congruence].
    + assert (Hx : x ∈ (if decide (c = s_channel s) then [s] else []) -> False)
        by (destruct (decide _); [by intros ?%list_elem_of_singleton|by intros ?%elem_of_nil]).
      split; [intros [(H1 & H2 & H3)|H1]; [by rewrite <- Hother in H3|done]|].
      intros (H1 & H2 & H3). left. by rewrite <- Hother.
Qed.

Lemma account_same G acc c l s i : apart G -> account G acc c l -> s ∈ G -> 0 <= i < s_count s ->
  let acc' := (s_channel s, s_id s + i) :: acc in ~ arrived (passed acc') s -> account G acc' c l.
Proof.
  intros Ha (ss & -> & Hnd & Hss) Hin Hi acc' Hnot. exists ss. do 2 (split; [done|]). intros x. rewrite Hss.
  destruct (decide (x = s)) as [->|Hne].
  - split; intros (_ & _ & Hp); [|done]. exfalso. apply Hnot. intros j Hj. right. by apply Hp.
  - split; intros (H1 & H2 & Hp); (do 2 (split; [done|])); intros j Hj; apply (passed_other G acc s i x j); auto.
Qed.

(** [G] is what the peer was given, [log c] what the user has taken from
    channel [c] before: each arrival is of another message of the channel. *)
Record receiving `{BP : BuildProfile, BO : ByteOrder} (G : list Sent) (log : Z -> list (option MessageId * list Z))
    (acc : list (Z * Z)) (self : Pickleback) : Prop := {
  rv_seen : forall c sb, seen_of self c = Some sb -> filtered sb (fun i => (c, i) ∈ acc);
  rv_gather : forall s, s ∈ G -> s_small s = false -> gathering acc s (message_reassembler (dispatcher self));
  rv_only : forall p, is_Some (in_progress (message_reassembler (dispatcher self)) !! p) -> exists s, s ∈ G /\ s_id s = p;
  rv_log : forall c, account G acc c (log c ++ inbox_view self c);
  rv_acc : forall c j, (c, j) ∈ acc -> exists s i, piece_in G (s, i) /\ s_channel s = c /\ j = s_id s + i;
  rv_exact : short G -> forall c sb, seen_of self c = Some sb -> exact_filter sb (fun i => (c, i) ∈ acc);
  rv_known : forall c, c = 0 \/ c = 1 -> is_Some (seen_of self c);
}.

(** The packets that were received are packets of the peer, and their pieces
    have passed. *)
Definition got (G : list Sent) (P : list Posted) (acc : list (Z * Z)) (rb : SequenceBuffer ReceivedMeta) : Prop :=
  forall k, u16 k -> is_Some (SeqBufFacts.find rb k) ->
    exists pk, pk ∈ P /\ posted_id pk = k /\ (short G -> Forall (fun x => passed acc x.1 x.2) (po_pieces pk)).

(** The packets noted end with one of the peer's, if any; there is room for
    [cap] of them. *)
Record heard (P : list Posted) (cap : Z) (rb : SequenceBuffer ReceivedMeta) : Prop := {
  hd_len : SeqBuf.len rb = cap;
  hd_room : cap <= 16384;
  hd_newest : sequence rb = 0 \/ exists pk, pk ∈ P /\ posted_id pk = sequence rb;
}.

Lemma heard_mono P P' cap rb : P ⊆ P' -> heard P cap rb -> heard P' cap rb.
Proof. intros HP [Hl Hr [H0|(pk & Hpk & Hid)]]; (split; [done|done|]); [by left|right]. exists pk. auto. Qed.

(** The packet [pk] is not too old to be let in. *)
Definition admits (rb : SequenceBuffer ReceivedMeta) (pk : Posted) : Prop := SeqBuf.check_sequence rb (posted_id pk) = true.

(** Among packets up to id [n], one that is less than [cap] behind is not. *)
Lemma admits_near P cap rb n pk : SeqBufFacts.wf rb -> heard P cap rb -> (forall x, x ∈ P -> 0 < posted_id x <= n) ->
  pk ∈ P -> n <= 16000 -> n < posted_id pk + cap -> admits rb pk.
Proof.
  intros Hwf [Hl Hr Hnew] HP Hpk Hn Hnear. pose proof (SeqBufFacts.wf_len _ Hwf) as Hpos. pose proof (HP pk Hpk) as Hid.
  assert (Hs : 0 <= sequence rb <= n).
  { destruct Hnew as [->|(x & Hx & <-)]; [lia|]. specialize (HP x Hx). lia. }
  unfold admits, SeqBuf.check_sequence. rewrite Hl in *. rewrite (wrap16_small cap) by lia. unfold sequence_greater_than.
  destruct (Z.lt_ge_cases (sequence rb) cap).
  - assert (wrap16 (sequence rb - cap) = sequence rb - cap + 65536) as -> by u16_solve. lia.
  - rewrite wrap16_small by lia. lia.
Qed.

Lemma got_mono G G' P P' acc acc' rb : (short G' -> short G) -> P ⊆ P' -> acc ⊆ acc' -> got G P acc rb -> got G' P' acc' rb.
Proof.
  intros HG HP Hacc Hgot k Hk Hf. destruct (Hgot k Hk Hf) as (pk & Hpk & Hid & Hp). exists pk. split; [auto|]. split; [done|].
  intros Hs. eapply Forall_impl; [by apply Hp, HG|]. intros x Hx. by apply Hacc.
Qed.

Section receive.
Context `{BP : BuildProfile, BO : ByteOrder, BL : !ByteOrderLaws BO}.

Lemma receiving_same G log acc self self' : same_inbox self self' -> receiving G log acc self -> receiving G log acc self'.
Proof.
  intros [Hseen Hre Hin] []. split; rewrite ?Hre; try done.
  - intros c sb. rewrite Hseen. auto.
  - intros c. unfold inbox_view. rewrite Hin. apply rv_log0.
  - intros Hs c sb. rewrite Hseen. auto.
  - intros c. rewrite Hseen. auto.
Qed.

Lemma receiving_log G log log' acc self : (forall c, log' c = log c) -> receiving G log acc self -> receiving G log' acc self.
Proof. intros Heq []. split; try done. intros c. by rewrite Heq. Qed.

Lemma receiving_more G G' log acc self : history (G ++ G') -> receiving G log acc self -> receiving (G ++ G') log acc self.
Proof.
  intros [Hgood Hapart _] [].
  assert (Hold : forall s i, s ∈ G ++ G' -> 0 <= i < s_count s -> passed acc s i -> s ∈ G).
  { intros s i Hs Hi Hp. destruct (rv_acc0 _ _ Hp) as (s0 & i0 & [Hs0 Hi0] & _ & Hid). cbn [fst snd] in *.
    destruct (piece_of_id (G ++ G') s s0 i i0 Hapart Hs) as [-> _]; try done. apply elem_of_app. by left. }
  split; try done.
  - intros s [Hs|Hs]%elem_of_app Hsm; [by apply rv_gather0|].
    destruct (decide (s ∈ G)) as [|Hnew]; [by apply rv_gather0|].
    assert (Hin : s ∈ G ++ G') by (apply elem_of_app; by right).
    pose proof (proj1 (Forall_forall _ _) Hgood s Hin) as Hg.
    apply gathering_start; [apply Hg| |intros i Hi Hp; apply Hnew; by eapply Hold].
    apply eq_None_not_Some. intros Hp. destruct (rv_only0 _ Hp) as (s' & Hs' & Hid). apply Hnew.
    assert (Hin' : s' ∈ G ++ G') by (apply elem_of_app; by left).
    pose proof (s_count_bounds s (gs_len _ Hg)) as [? _].
    pose proof (s_count_bounds s' (gs_len _ (proj1 (Forall_forall _ _) Hgood s' Hin'))) as [? _].
    destruct (Hapart s' s Hin' Hin) as [<-|Hd]; [done|lia].
  - intros p Hp. destruct (rv_only0 p Hp) as (s & Hs & Hid). exists s. split; [apply elem_of_app; by left|done].
  - intros c. destruct (rv_log0 c) as (ss & -> & Hnd & Hss). exists ss. do 2 (split; [done|]). intros s. rewrite Hss.
    split; intros (Hs & Hc & Hp); (split; [|done]); [apply elem_of_app; by left|].
    pose proof (s_count_bounds s (gs_len _ (proj1 (Forall_forall _ _) Hgood s Hs))) as [? _].
    apply (Hold s 0); [done|lia|]. apply Hp. lia.
  - intros c j Hcj. destruct (rv_acc0 c j Hcj) as (s & i & [Hs Hi] & H). exists s, i. split; [|done].
    split; [apply elem_of_app; by left|done].
  - intros Hs. by apply rv_exact0, (short_app G G').
Qed.

(** A piece that its filter lets pass reaches the dispatcher: what it adds to
    the inbox is its message, if that is complete. *)
Lemma process_piece G acc s i m d : Forall good_sent G -> apart G -> s ∈ G -> 0 <= i < s_count s ->
  received (piece s i) m -> ~ passed acc s i ->
  (forall s', s' ∈ G -> s_small s' = false -> gathering acc s' (message_reassembler d)) ->
  let acc' := (s_channel s, s_id s + i) :: acc in
  exists r' rms, MessageDispatcher_process_received_message m d =
      Some (MkDispatcher (next_message_id d) (sent_frag_map d) (messages_in_packets d) r'
              (match rms with [] => message_inbox d
               | _ => <[s_channel s := default [] (message_inbox d !! s_channel s) ++ rms]> (message_inbox d) end)
              (ack_inbox d), Ok tt) /\
    (forall s', s' ∈ G -> s_small s' = false -> gathering acc' s' r') /\
    (forall p, is_Some (in_progress r' !! p) -> p = s_id s \/ is_Some (in_progress (message_reassembler d) !! p)) /\
    (rms = [] /\ ~ arrived (passed acc') s \/
     exists rm, rms = [rm] /\ ReceivedMessage_id rm = Some (s_id s) /\ ReceivedMessage_payload rm = s_payload s /\
      arrived (passed acc') s).
Proof.
  intros Hgood Hapart Hin Hi Hm Hnew Hgather acc'. pose proof (proj1 (Forall_forall _ _) Hgood s Hin) as Hg.
  assert (Hother : forall s' j, s' ∈ G -> s' <> s -> 0 <= j < s_count s' -> passed acc s' j <-> passed acc' s' j).
  { intros s' j Hs' Hne Hj. by apply (passed_other G acc s i s' j). }
  pose proof (rc_fragment _ _ Hm) as Hfr. cbn in Hfr. destruct (s_small s) eqn:Hs.
  - assert (Hi0 : i = 0 /\ s_count s = 1) by (unfold s_count in *; rewrite Hs in *; lia). destruct Hi0 as [-> Hc].
    exists (message_reassembler d), [Single m]. split; [|split; [|split; [auto|]]].
    + rewrite process_single_run by done. unfold push_inbox. by rewrite (rc_channel _ _ Hm).
    + intros s' Hs' Hsm. eapply gathering_mono; [|done|by apply Hgather]. intros j. apply Hother; [done|congruence].
    + right. exists (Single m). split; [done|]. cbn [ReceivedMessage_id ReceivedMessage_payload].
      rewrite (rc_id _ _ Hm), (rc_payload _ _ Hm). cbn. rewrite Hs, Z.add_0_r. do 2 (split; [done|]).
      intros j Hj. assert (j = 0) as -> by lia. unfold passed, acc'. by left.
  - destruct (gather_step acc s i m (message_reassembler d) Hs (gs_len _ Hg) Hi Hm Hnew (Hgather s Hin Hs))
      as (r' & o & Hadd & Hg' & Hrest & Ho). fold acc' in Hg', Ho.
    assert (Hall : forall s', s' ∈ G -> s_small s' = false -> gathering acc' s' r').
    { intros s' Hs' Hsm. destruct (decide (s' = s)) as [->|Hne]; [done|].
      eapply gathering_mono; [intros j; by apply Hother| |by apply Hgather]. apply Hrest. intros Heq.
      pose proof (proj1 (Forall_forall _ _) Hgood s' Hs') as Hgs'.
      pose proof (s_count_bounds s (gs_len _ Hg)) as [? _]. pose proof (s_count_bounds s' (gs_len _ Hgs')) as [? _].
      destruct (Hapart s' s Hs' Hin) as [?|?]; [done|lia]. }
    assert (Honly : forall p, is_Some (in_progress r' !! p) -> p = s_id s \/ is_Some (in_progress (message_reassembler d) !! p)).
    { intros p Hp. destruct (decide (p = s_id s)); [by left|right]. by rewrite <- Hrest. }
    assert (Hrun : on_message_reassembler (MessageReassembler_add_fragment m) d =
      Some (MkDispatcher (next_message_id d) (sent_frag_map d) (messages_in_packets d) r' (message_inbox d) (ack_inbox d), Ok o)).
    { unfold on_message_reassembler, st_zoom. by rewrite Hadd. }
    exists r', (match o with Some rm => [rm] | None => [] end). split; [|split; [done|split; [done|]]].
    + unfold MessageDispatcher_process_received_message. rewrite Hfr. run_step Hrun. destruct o as [rm|]; [|done].
      rewrite (cm_channel _ _ _ Ho). run_done. done.
    + destruct o as [rm|]; [right; exists rm; by destruct Ho|by left].
Qed.

Lemma undisturbed_delivered self m ch ch' d : channels (ep_channels self) !! m_channel m = Some ch ->
  ch_messages ch' = ch_messages ch /\ ch_keeps ch' = ch_keeps ch ->
  messages_in_packets d = messages_in_packets (dispatcher self) -> sent_frag_map d = sent_frag_map (dispatcher self) ->
  next_message_id d = next_message_id (dispatcher self) -> ack_inbox d = ack_inbox (dispatcher self) ->
  undisturbed self (set_dispatcher d (set_ep_channels (ChannelList_set (m_channel m) ch' (ep_channels self)) self)).
Proof.
  intros Hch [Hms Hk] Hm Hs Hn Ha. split; cbn; rewrite ?Hm, ?Hs, ?Hn, ?Ha; try done.
  intros c. unfold held. cbn [ep_channels set_dispatcher set_ep_channels channels ChannelList_set].
  destruct (decide (c = m_channel m)) as [->|Hne]; [|by rewrite lookup_insert_ne].
  rewrite lookup_insert_eq, Hch. cbn [fmap option_fmap option_map]. by rewrite Hms, Hk.
Qed.

(** What is received once the piece [i] of [s] has passed: the filter
    remembers it, the inbox gets its message if that is complete. *)
Lemma receiving_passed G log acc s i sb views self self' : history G -> receiving G log acc self -> s ∈ G -> 0 <= i < s_count s ->
  seen_of self (s_channel s) = Some sb -> ~ passed acc s i ->
  let acc' := (s_channel s, s_id s + i) :: acc in
  filtered (remember sb (s_id s + i)) (fun j => j = s_id s + i \/ (s_channel s, j) ∈ acc) ->
  (forall c, seen_of self' c = if decide (c = s_channel s) then Some (remember sb (s_id s + i)) else seen_of self c) ->
  (forall s', s' ∈ G -> s_small s' = false -> gathering acc' s' (message_reassembler (dispatcher self'))) ->
  (forall p, is_Some (in_progress (message_reassembler (dispatcher self')) !! p) ->
    p = s_id s \/ is_Some (in_progress (message_reassembler (dispatcher self)) !! p)) ->
  (forall c, inbox_view self' c = inbox_view self c ++ if decide (c = s_channel s) then views else []) ->
  (views = [] /\ ~ arrived (passed acc') s \/ views = [arrival s] /\ arrived (passed acc') s) ->
  receiving G log acc' self'.
Proof.
  intros [Hgood Ha _] Hrv Hin Hi Hsb0 Hnew acc' Hf Hsb Hgather Honly Hbox Hviews.
  pose proof (proj1 (Forall_forall _ _) Hgood s Hin) as Hg. pose proof (gs_id _ Hg) as Hid0. split.
  - intros c sb'. rewrite Hsb. destruct (decide (c = s_channel s)) as [->|Hne]; [intros [= <-]|].
    + eapply filtered_weaken; [exact Hf|]. intros j [Hj|Hj]%elem_of_cons; [left; congruence|by right].
    + intros Hc. eapply filtered_weaken; [by apply (rv_seen _ _ _ _ Hrv)|]. intros j [Hj|Hj]%elem_of_cons; [congruence|done].
  - exact Hgather.
  - intros p Hp. destruct (Honly p Hp) as [->|Hp']; [by exists s|by apply (rv_only _ _ _ _ Hrv)].
  - intros c. pose proof (rv_log _ _ _ _ Hrv c) as Hl. rewrite Hbox, app_assoc.
    destruct Hviews as [[-> Hnot]|[-> Hall]]; [|by apply account_snoc].
    destruct (decide _); rewrite app_nil_r; by apply account_same.
  - intros c j [[= -> ->]|Hcj]%elem_of_cons; [by exists s, i|by apply (rv_acc _ _ _ _ Hrv)].
  - intros Hshort c sb'. specialize (Hshort s Hin) as Hsh. rewrite Hsb. destruct (decide (c = s_channel s)) as [->|Hne]; [intros [= <-]|].
    + eapply exact_filter_weaken; [eapply exact_filter_remember; [by apply (rv_seen _ _ _ _ Hrv)| |lia]|].
      * exact (rv_exact _ _ _ _ Hrv Hshort _ _ Hsb0).
      * intros j [->|Hj]; [by left|by right].
    + intros Hc. eapply exact_filter_weaken; [by apply (rv_exact _ _ _ _ Hrv Hshort)|]. intros j Hj. by right.
  - intros c Hc. rewrite Hsb. destruct (decide _); [by eexists|by apply (rv_known _ _ _ _ Hrv)].
Qed.

Lemma deliver_piece G H P D salt log acc s i m self : sending H P D salt self -> history G -> receiving G log acc self ->
  s ∈ G -> 0 <= i < s_count s -> received (piece s i) m ->
  exists self' acc', deliver_message m self = Some (self', Ok tt) /\ sending H P D salt self' /\ undisturbed self self' /\
    receiving G log acc' self' /\ received_buffer self' = received_buffer self /\ acc ⊆ acc' /\ (short G -> passed acc' s i).
Proof.
  intros Hs [Hgood Hapart H01] Hrv Hin Hi Hm. pose proof (proj1 (Forall_forall _ _) Hgood s Hin) as Hg.
  pose proof (gs_id _ Hg) as Hid0. pose proof (gs_limit _ Hg) as Hlim.
  assert (Hmid : m_id m = s_id s + i) by apply Hm. assert (Hmc : m_channel m = s_channel s) by apply Hm.
  assert (Hu : u16 (m_id m)) by (unfold ID_LIMIT in Hlim; lia).
  destruct (rv_known _ _ _ _ Hrv _ (H01 s Hin)) as [sb0 Hsb0]. rewrite <- Hmc in Hsb0. pose proof Hsb0 as Hch.
  unfold seen_of in Hch. apply fmap_Some in Hch as (ch & Hch & ->).
  destruct (deliver_message_step m self ch (sn_ok _ _ _ _ _ Hs) Hu Hch) as (ch' & Hok1 & Hmsgs & Hseen & Hrun).
  set (self1 := set_ep_channels (ChannelList_set (m_channel m) ch' (ep_channels self)) self) in *. rewrite Hrun.
  assert (Hf : filtered (ch_seen ch) (fun j => (s_channel s, j) ∈ acc)) by (apply (rv_seen _ _ _ _ Hrv); by rewrite <- Hmc).
  destruct (acceptable (ch_seen ch) (m_id m)) eqn:Hacc.
  - destruct (filtered_remember _ _ (m_id m) Hf) as [Hnew Hf']; [lia|done|]. rewrite Hmid in Hnew, Hf'.
    destruct (process_piece G acc s i m (dispatcher self) Hgood Hapart Hin Hi Hm Hnew (rv_gather _ _ _ _ Hrv))
      as (r' & rms & Hproc & Hgather & Honly & Hrms).
    set (acc' := (s_channel s, s_id s + i) :: acc) in *.
    assert (Hsub : acc ⊆ acc') by (intros x Hx; by right).
    set (d' := MkDispatcher _ _ _ _ _ _) in Hproc.
    exists (set_dispatcher d' self1), acc'. split; [unfold on_dispatcher, st_zoom; change (dispatcher self1) with (dispatcher self); by rewrite Hproc|].
    assert (Hcalm : undisturbed self (set_dispatcher d' self1)) by (by apply undisturbed_delivered with (ch := ch)).
    split; [apply (sending_undisturbed H P D salt self); [done|by apply receive_ok_dispatcher|done]|]. split; [done|].
    split; [|split; [done|split; [done|by left]]].
    apply (receiving_passed G log acc s i (ch_seen ch)
      ((fun rm => (ReceivedMessage_id rm, ReceivedMessage_payload rm)) <$> rms) self); try done.
    + by rewrite <- Hmc.
    + intros c. unfold seen_of. cbn. destruct (decide (c = s_channel s)) as [->|Hne]; [|by rewrite Hmc, lookup_insert_ne].
      rewrite Hmc, lookup_insert_eq. cbn. rewrite <- Hmid. exact (f_equal Some Hseen).
    + intros c. unfold inbox_view. cbn. destruct Hrms as [[-> _]|(rm & -> & _)]; cbn; [destruct (decide _); by rewrite app_nil_r|].
      destruct (decide (c = s_channel s)) as [->|Hne]; [|by rewrite lookup_insert_ne, app_nil_r].
      rewrite lookup_insert_eq. cbn. by rewrite fmap_app.
    + destruct Hrms as [[-> Hnot]|(rm & -> & Hrid & Hrp & Hall)]; [by left|right]. split; [cbn; by rewrite Hrid, Hrp|done].
  - exists self1, acc. split; [done|].
    assert (Hcalm : undisturbed self self1) by (apply (undisturbed_delivered self m ch ch' (dispatcher self)); done).
    split; [by apply (sending_undisturbed H P D salt self)|]. split; [done|]. split; [|split; [done|split; [done|]]].
    + apply (receiving_same G log acc self); [|done].
      split; [|done..]. intros c. unfold seen_of. cbn. destruct (decide (c = m_channel m)) as [->|Hne].
      * rewrite lookup_insert_eq, Hch. exact (f_equal Some Hseen).
      * by rewrite lookup_insert_ne.
    + intros Hshort. unfold passed. rewrite <- Hmid, <- Hmc. specialize (Hshort s Hin) as Hsh.
      refine (proj2 (rv_exact _ _ _ _ Hrv Hshort _ _ Hsb0) _ _ Hacc). lia.
Qed.

(** Acks change nothing of what was received. *)
Lemma ack_frame_same_inbox self self' : ack_frame self self' -> same_inbox self self'.
Proof.
  intros [_ _ _ _ _ [_ Hi Hr _] _ [_ Hsh Hback] _ _ _]. split; [|done..].
  intros c. unfold seen_of. destruct (channels (ep_channels self) !! c) as [ch|] eqn:Hch.
  - destruct (Hsh c ch Hch) as (c2 & -> & Hseen & _). exact (f_equal Some Hseen).
  - destruct (channels (ep_channels self') !! c) as [ch'|] eqn:Hch'; [|done]. destruct (Hback c ch' Hch'). congruence.
Qed.

(** The acks of packets whose pieces the peer has. *)
Definition acks_true (P : list Posted) (D : Sent -> Z -> Prop) (h : ProtocolPacketHeader) : Prop :=
  forall k, (k, true) ∈ header_acks h -> exists pk, pk ∈ P /\ posted_id pk = k /\ Forall (fun x => D x.1 x.2) (po_pieces pk).

(** What of them matters. *)
Definition acks_told (P : list Posted) (D : Sent -> Z -> Prop) (h : ProtocolPacketHeader) : Prop :=
  forall k pk, (k, true) ∈ header_acks h -> pk ∈ P -> posted_id pk = k -> Forall (fun x => D x.1 x.2) (po_pieces pk).

Lemma acks_true_told P D h : unique_ids P -> acks_true P D h -> acks_told P D h.
Proof. intros Hu Ht k pk Hk Hpk Hid. destruct (Ht k Hk) as (pk' & Hpk' & Hid' & HD). by rewrite (Hu pk pk') by congruence. Qed.

Lemma sending_acked G P D salt self self' h hs : sending G P D salt self -> receive_ok self' -> ack_frame self self' ->
  acks_told P D h -> handles_of_acked (header_acks h) (dispatcher self) hs ->
  ack_trace hs (dispatcher self, ep_channels self) (dispatcher self', ep_channels self') -> sending G P D salt self'.
Proof.
  intros Hs Hok' [Hc Hseq Hrb Hout Hsalt [Hn Hi Hr Hk] [Hmn Hmf] [_ Hsh Hback] _ Hss _] Htrue Hhs Htr.
  assert (Hdel : Forall (delivered G D) hs).
  { apply Forall_forall. intros h0 Hh0. destruct (Hhs h0 Hh0) as (k & hk & Hack & Hku & Hf & Hin).
    destruct (sn_memory _ _ _ _ _ Hs k hk Hku Hf) as (pk & Hpk & Hid & ->).
    pose proof (Htrue k pk Hack Hpk Hid) as HD.
    apply list_elem_of_fmap in Hin as (x & -> & Hx). exists x. rewrite Forall_forall in HD.
    pose proof (proj1 (Forall_forall _ _) (sn_posted _ _ _ _ _ Hs) pk Hpk) as [_ _ Hpin _]. rewrite Forall_forall in Hpin. auto. }
  pose proof (ack_trace_reports G D (sn_history _ _ _ _ _ Hs) hs _ _ Htr Hdel) as Hrep. cbn [fst] in Hrep.
  assert (Hchs : forall c ch', channels (ep_channels self') !! c = Some ch' ->
    exists ch, channels (ep_channels self) !! c = Some ch /\ forall m, m ∈ ch_messages ch' -> m ∈ ch_messages ch).
  { intros c ch' Hch'. destruct (Hback c ch' Hch') as [ch Hch]. exists ch. split; [done|].
    destruct (Hsh c ch Hch) as (c2 & Hc2 & _ & Hm). assert (c2 = ch') as -> by congruence. done. }
  pose proof (ack_trace_kept G D hs _ _ (hi_apart _ (sn_history _ _ _ _ _ Hs)) Htr Hdel) as Hkept. cbn [snd] in Hkept.
  destruct Hs. pose proof Hk as [Hks _ _]. split; rewrite ?Hc, ?Hsalt, ?Hseq, ?Hss, ?Hmn, ?Hn, ?Hks, ?Hout; auto.
  - apply Hrep; [|done]. apply frag_low_safe, sn_frags0.
  - intros c [ch' Hch']. destruct (Hchs c ch' Hch') as (ch & Hch & _). eauto.
  - intros c ch' m Hch' Hm. destruct (Hchs c ch' Hch') as (ch & Hch & Hms). eauto.
  - eapply frag_low_shrink; [done|apply Hok'|done].
Qed.

Lemma read_pieces G H P D salt log l fuel acc self c : (length (remaining_slice c) <= fuel)%nat ->
  sending H P D salt self -> history G -> receiving G log acc self -> Forall (piece_in G) l -> 0 <= position c ->
  remaining_slice c = concat ((fun x : Sent * Z => piece_bytes (piece x.1 x.2)) <$> l) ->
  exists self' c' acc', read_messages fuel (self, c) = Some ((self', c'), Ok tt) /\ sending H P D salt self' /\
    posts_nothing self self' /\ receiving G log acc' self' /\ received_buffer self' = received_buffer self /\
    acc ⊆ acc' /\ (short G -> Forall (fun x => passed acc' x.1 x.2) l).
Proof.
  revert fuel acc self c. induction l as [|[s i] l IH]; intros fuel acc self c Hfuel Hs HG Hrv Hl Hpos Hrem.
  { exists self, c, acc. assert (Hz : remaining c <= 0) by (rewrite remaining_length, Hrem by done; simpl; lia).
    split; [|by split_and!]. destruct fuel; cbn [read_messages]; rewrite run_get; cbn beta iota; by rewrite (proj2 (Z.ltb_ge _ _)). }
  apply Forall_cons in Hl as [[Hin Hi] Hl]. cbn [fst snd] in Hin, Hi. rewrite fmap_cons in Hrem. cbn [concat fst snd] in Hrem.
  pose proof (piece_bytes_length (piece s i)) as Hlen. rewrite Hrem, length_app in Hfuel.
  assert (Hr : 0 < remaining c) by (rewrite remaining_length, Hrem, length_app by done; lia).
  destruct fuel as [|fuel]; [lia|]. pose proof (proj1 (Forall_forall _ _) (hi_good _ HG) s Hin) as Hg.
  destruct (piece_parse s i (pool self) c _ Hg Hi (eo_pool _ (proj1 (sn_ok _ _ _ _ _ Hs))) Hpos Hrem)
    as (bp & c1 & m & Hparse & Hm & Hbp & Hrem1 & Hpos1).
  set (self1 := set_stats (count_messages_received (stats self)) (set_pool bp self)).
  assert (Hc1 : undisturbed self self1) by (split; try done; by eauto).
  assert (Hs1 : sending H P D salt self1).
  { apply (sending_undisturbed H P D salt self); [done|apply receive_ok_stats; apply receive_ok_pool; [apply Hs|done]|done]. }
  destruct (deliver_piece G H P D salt log acc s i m self1 Hs1 HG) as (self2 & acc2 & Hdel & Hs2 & Hc2 & Hrv2 & Hrb2 & Hsub2 & Hp2); try done.
  { by apply (receiving_same G log acc self). }
  destruct (IH fuel acc2 self2 c1) as (self3 & c3 & acc3 & Hrun & Hs3 & Hc3 & Hrv3 & Hrb3 & Hsub3 & Hp3); try done; [rewrite Hrem1; lia|].
  exists self3, c3, acc3. split.
  - cbn [read_messages]. rewrite run_get. cbn beta iota. rewrite (proj2 (Z.ltb_lt _ _)) by done. cbn [negb].
    erewrite run_bind_ok by (unfold st_zoom; cbn beta iota; rewrite Hparse; done). cbn beta iota.
    erewrite (run_bind_ok _ _ _ (self1, c1)) by done. cbn beta.
    erewrite run_bind_ok by (unfold st_fst, st_zoom; cbn [fst snd]; rewrite Hdel; done). exact Hrun.
  - split_and!; try done; [destruct Hc3, Hc2; by split; [rewrite pn_sequence0|rewrite pn_outbox0]|by rewrite Hrb3, Hrb2|by etrans|].
    intros Hsh. constructor; [|by apply Hp3]. apply Hsub3. by apply Hp2.
Qed.

(** The receive buffer when a packet has been entered into it. *)
Lemma heard_entered Q cap pk h self c : heard Q cap (received_buffer self) -> pk ∈ Q -> h_id h = posted_id pk ->
  heard Q cap (received_buffer (entered h self c)).
Proof.
  intros [Hlen Hroom Hnew] HQ He. unfold entered. cbn [received_buffer set_received_buffer]. split.
  - by rewrite SeqBufFacts.insert_len.
  - done.
  - rewrite SeqBufFacts.insert_sequence, He. destruct (sequence_greater_than _ _); [right|done]. by exists pk.
Qed.

Lemma got_entered G Q acc acc' pk h self c : SeqBufFacts.wf (received_buffer self) -> u16 (h_id h) -> got G Q acc (received_buffer self) ->
  acc ⊆ acc' -> pk ∈ Q -> h_id h = posted_id pk -> (short G -> Forall (fun x => passed acc' x.1 x.2) (po_pieces pk)) ->
  got G Q acc' (received_buffer (entered h self c)).
Proof.
  intros Hwf Hid Hgot Hsub HQ He Hp k Hk. unfold entered. cbn [received_buffer set_received_buffer].
  rewrite SeqBufFacts.find_insert by done. destruct (decide (k = h_id h)) as [->|Hne].
  - intros _. exists pk. by split_and!.
  - repeat case_decide; [by intros [? ?]..|]. intros Hfk. by eapply (got_mono G G Q Q acc acc').
Qed.

(** A packet that is too old or has been received only counts. *)
Lemma process_refused_pieces G H P Q D salt log acc cap pk self c : sending H P D salt self -> receiving G log acc self ->
  got G Q acc (received_buffer self) -> heard Q cap (received_buffer self) -> unique_ids Q -> pk ∈ Q -> u16 (posted_id pk) ->
  SeqBuf.check_sequence (received_buffer self) (posted_id pk) = false \/ is_Some (SeqBufFacts.find (received_buffer self) (posted_id pk)) ->
  exists self' c' r acc', process_incoming_packet (normal_header (po_header pk)) (self, c) = Some ((self', c'), r) /\
    sending H P D salt self' /\ posts_nothing self self' /\ receiving G log acc' self' /\
    got G Q acc' (received_buffer self') /\ acc ⊆ acc' /\ heard Q cap (received_buffer self') /\
    (admits (received_buffer self) pk -> short G -> Forall (fun x => passed acc' x.1 x.2) (po_pieces pk)).
Proof.
  intros Hs Hrv Hgot Hheard Huniq HQ Hid Hr. pose proof (sn_ok _ _ _ _ _ Hs) as Hok.
  pose proof (eo_received _ (proj1 Hok)) as Hwf.
  assert (Hcount : forall f, sending H P D salt (counted f self) /\ receiving G log acc (counted f self)).
  { intros f. assert (Hc : undisturbed self (counted f self)) by (split; try done; by eauto).
    split; [by apply (sending_undisturbed H P D salt self); [..|apply receive_ok_stats|]|]. by apply (receiving_same G log acc self). }
  rewrite process_refused by done.
  assert (Hadm : admits (received_buffer self) pk -> short G -> Forall (fun x => passed acc x.1 x.2) (po_pieces pk)).
  { intros Ha Hsh. destruct Hr as [Hr|Hr]; [unfold admits in Ha; congruence|].
    destruct (Hgot _ Hid Hr) as (pk' & Hpk' & He & Hp). assert (pk' = pk) as -> by (by apply Huniq). by apply Hp. }
  destruct (SeqBuf.check_sequence _ _) eqn:Hcs; eexists _, c, _, acc; (split; [done|]); split_and!; (done || apply Hcount).
Qed.

Lemma process_pieces G H P Q D salt log acc cap pk self c : sending H P D salt self -> history G -> receiving G log acc self ->
  got G Q acc (received_buffer self) -> heard Q cap (received_buffer self) -> unique_ids Q ->
  posted_ok G pk -> pk ∈ Q -> acks_true P D (po_header pk) -> 0 <= position c ->
  (po_keepalive pk = None ->
    remaining_slice c = concat ((fun x : Sent * Z => piece_bytes (piece x.1 x.2)) <$> po_pieces pk)) ->
  exists self' c' r acc', process_incoming_packet (normal_header (po_header pk)) (self, c) = Some ((self', c'), r) /\
    sending H P D salt self' /\ posts_nothing self self' /\ receiving G log acc' self' /\
    got G Q acc' (received_buffer self') /\ acc ⊆ acc' /\ heard Q cap (received_buffer self') /\
    (admits (received_buffer self) pk -> short G -> Forall (fun x => passed acc' x.1 x.2) (po_pieces pk)).
Proof.
  intros Hs HG Hrv Hgot Hheard Huniq [Hwfh Ht Hl Hka] HQ Htrue Hpos Hrem. pose proof (sn_ok _ _ _ _ _ Hs) as Hok.
  set (h := normal_header (po_header pk)). pose proof (normal_header_wf _ Hwfh) as Hh. fold h in Hh.
  assert (Hack : header_acks h = header_acks (po_header pk)) by (by apply header_acks_normal).
  pose proof (eo_received _ (proj1 Hok)) as Hwf. pose proof (wfh_id _ Hh) as Hid.
  destruct (decide (SeqBuf.check_sequence (received_buffer self) (h_id h) = false \/
    is_Some (SeqBufFacts.find (received_buffer self) (h_id h)))) as [Hr|Hf]; [by apply (process_refused_pieces G H P Q D salt)|].
  assert (Hfresh : fresh self (h_id h)).
  { split; [destruct (SeqBuf.check_sequence _ _); tauto|]. apply eq_None_not_Some. tauto. }
  destruct (process_fresh_acks h self c Hok Hh Hfresh) as (self3 & Hok3 & Hfr3 & (hs & Hhs & Htr) & Hrun).
  assert (Hs2 : sending H P D salt (entered h self c)).
  { apply (sending_undisturbed H P D salt self); [done|by apply entered_ok|]. split; try done; by eauto. }
  assert (Htrue' : acks_told P D h).
  { apply acks_true_told; [apply Hs|]. intros k. rewrite Hack. apply Htrue. }
  assert (Hs3 : sending H P D salt self3) by exact (sending_acked H P D salt (entered h self c) self3 h hs Hs2 Hok3 Hfr3 Htrue' Hhs Htr).
  assert (Hrv3 : receiving G log acc self3).
  { apply (receiving_same G log acc self); [|done]. apply (same_inbox_trans _ (entered h self c)); [done|by apply ack_frame_same_inbox]. }
  assert (Hrest : exists self4 c4 acc4, process_incoming_packet h (self, c) = Some ((self4, c4), Ok tt) /\ sending H P D salt self4 /\
    posts_nothing self3 self4 /\ receiving G log acc4 self4 /\ received_buffer self4 = received_buffer self3 /\ acc ⊆ acc4 /\
    (short G -> Forall (fun x => passed acc4 x.1 x.2) (po_pieces pk))).
  { rewrite Hrun. change (packet_type h) with (packet_type (po_header pk)). rewrite Ht. destruct (po_keepalive pk) as [index|].
    - exists self3, c, acc. destruct (Hka index eq_refl) as [_ ->]. by split_and!.
    - destruct (read_pieces G H P D salt log (po_pieces pk) (Z.to_nat (remaining c)) acc self3 c)
        as (self4 & c4 & acc4 & Hread); try done; [rewrite remaining_length by done; by auto with lia|by auto|]. by exists self4, c4, acc4. }
  destruct Hrest as (self4 & c4 & acc4 & Hrun4 & Hs4 & Hc4 & Hrv4 & Hrb4 & Hsub & Hp). exists self4, c4, (Ok tt), acc4.
  do 2 (split; [done|]). split; [destruct Hc4, Hfr3; by split; [rewrite pn_sequence0|rewrite pn_outbox0]|]. split; [done|]. rewrite Hrb4, (af_received _ _ Hfr3).
  split; [by apply (got_entered G Q acc acc4 pk)|]. split; [done|]. split; [by apply heard_entered with pk|]. intros _. exact Hp.
Qed.

(** A control packet that is new. *)
Lemma control_received G P D salt H log acc h self c : sending G P D salt self -> receiving H log acc self ->
  wf_header h -> packet_type h <> TMessages -> fresh self (h_id h) -> acks_told P D h ->
  exists self', process_incoming_packet h (self, c) = Some ((self', c), Ok tt) /\ sending G P D salt self' /\
    receiving H log acc self'.
Proof.
  intros Hs Hrv Hh Ht Hfresh Htold. pose proof (sn_ok _ _ _ _ _ Hs) as Hok.
  destruct (process_fresh_acks h self c Hok Hh Hfresh) as (self' & Hok' & Hfr & (hs & Hhs & Htr) & Hrun).
  exists self'. split; [rewrite Hrun; by destruct (packet_type h)|]. split.
  - apply (sending_acked G P D salt (entered h self c) self' h hs); try done.
    apply (sending_undisturbed G P D salt self); [done|by apply entered_ok|]. split; try done; by eauto.
  - apply (receiving_same H log acc self); [|done]. apply (same_inbox_trans _ (entered h self c)); [done|by apply ack_frame_same_inbox].
Qed.

(** What the receiver parses. *)
Definition posted_packet (salt : Z) (pk : Posted) : ProtocolPacket :=
  match po_keepalive pk with
  | Some index => keepalive_with salt index (normal_header (po_header pk))
  | None => Messages {| mp_header := normal_header (po_header pk); mp_xor_salt := salt |}
  end.

Lemma read_posted G pk salt : posted_ok G pk -> u64 salt ->
  exists c, read_packet (Cursor_new (posted_bytes salt pk)) = Some (c, Ok (posted_packet salt pk)) /\ 0 <= position c /\
    (po_keepalive pk = None ->
      remaining_slice c = concat ((fun x : Sent * Z => piece_bytes (piece x.1 x.2)) <$> po_pieces pk)).
Proof.
  intros [Hh Ht Hl Hka] Hsalt. unfold posted_bytes, posted_packet. destruct (po_keepalive pk) as [index|].
  - set (p := keepalive_with salt index (po_header pk)).
    destruct (read_packet_run p (Cursor_new (packet_bytes p)) []) as (c & Hread & _ & Hpos); try done.
    { split; [done|]. split; [done|]. split; [done|]. by apply (Hka index). }
    { by rewrite remaining_slice_new, app_nil_r. }
    exists c. split; [exact Hread|]. by split.
  - destruct (read_front (po_header pk) salt (concat ((fun x : Sent * Z => piece_bytes (piece x.1 x.2)) <$> po_pieces pk)) Hh Ht Hsalt)
      as (c & Hread & Hrem & Hpos). exists c. by split_and!.
Qed.

(** A packet of the peer. *)
Lemma receive_wire_packet G H P Q D salt salt' log acc cap pk self : sending H P D salt self -> history G -> u64 salt' ->
  receiving G log acc self -> got G Q acc (received_buffer self) -> heard Q cap (received_buffer self) -> unique_ids Q ->
  posted_ok G pk -> pk ∈ Q -> acks_true P D (po_header pk) ->
  exists self' r acc', receive_bytes (posted_bytes salt' pk) self = Some (self', r) /\ sending H P D salt self' /\
    posts_nothing self self' /\ receiving G log acc' self' /\
    got G Q acc' (received_buffer self') /\ acc ⊆ acc' /\ heard Q cap (received_buffer self') /\
    (admits (received_buffer self) pk -> short G -> Forall (fun x => passed acc' x.1 x.2) (po_pieces pk)).
Proof.
  intros Hs HG Hsalt Hrv Hgot Hheard Huniq Hpk HQ Htrue. destruct (read_posted G pk salt' Hpk Hsalt) as (c & Hread & Hpos & Hrem).
  destruct (process_pieces G H P Q D salt log acc cap pk self c) as (self' & c' & r & acc' & Hrun & Hrest); try done.
  exists self', r, acc'. split; [|done]. unfold receive_bytes, process_at. rewrite Hread. unfold posted_packet.
  destruct (po_keepalive pk); cbn; by rewrite Hrun.
Qed.

(** ** Time, and what the user takes *)
Lemma update_lives G H P D salt log acc dt self : sending H P D salt self -> receiving G log acc self ->
  exists self', update dt self = Some (self', Ok tt) /\ sending H P D salt self' /\ undisturbed self self' /\
    received_buffer self' = received_buffer self /\ receiving G log acc self'.
Proof.
  intros Hs Hrv. destruct (sn_ok _ _ _ _ _ Hs) as [Hok Hacks].
  destruct (update_ok dt self Hok) as (self' & Hrun & Hok' & Heq & Hch).
  assert (Hd : dispatcher self' = dispatcher self) by (by rewrite Heq).
  assert (Hmsgs : forall c, ch_messages <$> channels (ep_channels self') !! c = ch_messages <$> channels (ep_channels self) !! c).
  { intros c. rewrite Heq. cbn. rewrite lookup_fmap. destruct (channels (ep_channels self) !! c) as [ch|] eqn:Hc; [|done].
    destruct (ch_update_law dt ch) as (_ & Hm & _); [by apply (eo_channels _ Hok c)|]. exact (f_equal Some Hm). }
  assert (Hheld : forall c, held self' c = held self c).
  { intros c. unfold held. rewrite Heq. cbn [ep_channels channels]. cbn. rewrite lookup_fmap.
    destruct (channels (ep_channels self) !! c) as [ch|] eqn:Hc; [|done].
    destruct (ch_update_law dt ch) as (_ & Hm & _); [by apply (eo_channels _ Hok c)|]. cbn [fmap option_fmap option_map].
    exact (f_equal2 (fun x y => Some (x, y)) Hm (ch_update_keeps dt ch)). }
  assert (Hlook : forall c ch, channels (ep_channels self) !! c = Some ch ->
    exists ch', channels (ep_channels self') !! c = Some ch' /\ ch_messages ch' = ch_messages ch).
  { intros c ch Hc. specialize (Hmsgs c). rewrite Hc in Hmsgs. destruct (channels (ep_channels self') !! c) as [ch'|]; [|done].
    exists ch'. split; [done|]. by injection Hmsgs. }
  assert (Hcalm : undisturbed self self').
  { split; try (by rewrite Heq). exact Hheld. }
  exists self'. split; [done|]. split; [|split; [done|split; [by rewrite Heq|]]].
  - apply (sending_undisturbed H P D salt self); [done| |done]. split; [done|]. rewrite Hd. destruct Hacks as [Hh Hf]. split; [|done].
    intros k hs Hk Hfind. eapply Forall_impl; [by eapply Hh|]. intros h. apply handle_ok_sub.
    intros c ch Hc. destruct (Hlook c ch Hc) as (ch' & Hc' & Hm). exists ch'. split; [done|]. by rewrite Hm.
  - apply (receiving_same G log acc self); [|done]. split; [|by rewrite Hd..]. intros c. unfold seen_of. rewrite Heq. cbn.
    rewrite lookup_fmap. destruct (channels (ep_channels self) !! c) as [ch|] eqn:Hc; [|done].
    destruct (ch_update_law dt ch) as (_ & _ & _ & Hseen); [by apply (eo_channels _ Hok c)|]. exact (f_equal Some Hseen).
Qed.

(** The user takes the messages of channel [c]. *)
Lemma drain_lives G H P D salt log acc c self : sending H P D salt self -> receiving G log acc self ->
  exists self' l, drain_received_messages c self = Some (self', Ok (Container_new l)) /\ sending H P D salt self' /\
    undisturbed self self' /\ received_buffer self' = received_buffer self /\
    receiving G (fun j => if decide (j = c) then log c ++ ((fun rm => (ReceivedMessage_id rm, ReceivedMessage_payload rm)) <$> l)
                          else log j) acc self'.
Proof.
  intros Hs Hrv. eexists _, (default [] (message_inbox (dispatcher self) !! c)). split; [done|].
  set (self' := set_dispatcher _ self).
  assert (Hcalm : undisturbed self self') by (split; try done; by eauto).
  split; [apply (sending_undisturbed H P D salt self); [done|apply receive_ok_dispatcher; [apply Hs|done..]|done]|].
  do 2 (split; [done|]). destruct Hrv. split; try done. intros j. specialize (rv_log0 j). unfold inbox_view in *. cbn.
  destruct (decide (j = c)) as [->|Hne].
  - rewrite lookup_insert_eq. cbn. by rewrite app_nil_r.
  - by rewrite lookup_insert_ne.
Qed.

Lemma drain_acks_lives G H P D salt log acc c self : sending H P D salt self -> receiving G log acc self ->
  exists self' l, drain_message_acks c self = Some (self', Ok l) /\ sending H P D salt self' /\
    undisturbed self self' /\ received_buffer self' = received_buffer self /\ receiving G log acc self' /\
    forall id, id ∈ l -> confirmed H D c id.
Proof.
  intros Hs Hrv. eexists _, (inbox_of (ack_inbox (dispatcher self)) c). split; [done|]. set (self' := set_dispatcher _ self).
  assert (Hcalm : undisturbed self self').
  { split; try done. intros c' id. cbn. unfold inbox_of. destruct (decide (c' = c)) as [->|Hne].
    - rewrite lookup_insert_eq. by intros ?%elem_of_nil.
    - by rewrite lookup_insert_ne. }
  split; [apply (sending_undisturbed H P D salt self); [done|apply receive_ok_dispatcher; [apply Hs|done..]|done]|].
  do 2 (split; [done|]). split; [|intros id; apply (rp_inbox _ _ _ (sn_reports _ _ _ _ _ Hs))]. by apply (receiving_same G log acc self).
Qed.
End receive.

(** An endpoint through which no message has gone. *)
Record unused `{BP : BuildProfile, BO : ByteOrder} (salt : option Z) (self : Pickleback) : Prop := {
  un_sending : forall D, sending [] [] D salt self;
  un_receiving : receiving [] (fun _ => []) [] self;
}.

(** The salt is set. *)
Lemma sending_set_salt `{BP : BuildProfile, BO : ByteOrder} G P D salt salt' self : sending G P D salt self ->
  sending G P D salt' (set_xor_salt salt' self).
Proof. intros [[[] Hacks]]. by split. Qed.

Lemma receiving_set_salt `{BP : BuildProfile, BO : ByteOrder} G log acc salt self : receiving G log acc self ->
  receiving G log acc (set_xor_salt salt self).
Proof. by apply receiving_same. Qed.

(** A new endpoint has sent and received nothing. *)
Lemma fresh_lives `{BP : BuildProfile, BO : ByteOrder} cfg t salt : good_config cfg -> sent_frag_map_size cfg < 32768 ->
  let self := set_xor_salt salt (fresh_endpoint cfg t) in
  (forall D, sending [] [] D salt self) /\ receiving [] (fun _ => []) [] self /\ got [] [] [] (received_buffer self) /\
  sequence_id self = 0 /\ exists cap, heard [] cap (received_buffer self).
Proof.
  intros Hcfg Hfrags self. destruct (fresh_can_compose cfg t 0 Hcfg) as [Hok0 _ Hsize _ _].
  assert (Hok : ep_ok self) by (by destruct Hok0).
  assert (Hlow : frag_low (sfm_m (sent_frag_map (dispatcher self)))).
  { split; [apply Hok| |]; cbn.
    - unfold SeqBuf.len. cbn [entries SeqBuf.with_capacity]. rewrite length_replicate. destruct Hcfg. lia.
    - intros p Hp. rewrite SeqBufFacts.find_with_capacity by done. by intros [? ?]. }
  assert (Hchs : forall c ch, channels (ep_channels self) !! c = Some ch -> ch_messages ch = [] /\ ch_seen ch = SeqBuf.with_capacity 10000).
  { intros c ch. cbn [self ep_channels set_xor_salt fresh_endpoint channels].
    intros [[_ <-]|[_ [[_ <-]|[_ H]]%lookup_insert_Some]]%lookup_insert_Some; done. }
  assert (Hdom : forall c, is_Some (channels (ep_channels self) !! c) <-> c = 0 \/ c = 1).
  { intros c. cbn [self ep_channels set_xor_salt fresh_endpoint channels]. rewrite !lookup_insert_is_Some', lookup_empty.
    split; [intros [<-|[<-|[? ?]]]; [by right|by left|done]|intros [ -> | -> ]; auto]. }
  split; [|split; [|split; [|split; [done|eexists; split; [done| |by left]]]]].
  4: { cbn. unfold SeqBuf.len. cbn [entries SeqBuf.with_capacity]. rewrite length_replicate. destruct Hcfg. lia. }
  - intros D. split; try done; try (unfold ID_LIMIT; cbn; lia); try (by intros ? ?%elem_of_nil).
    + split; [done|]. split; [|by apply frag_low_safe]. intros k hs Hk. cbn. by rewrite SeqBufFacts.find_with_capacity.
    + split; [constructor|by intros s s' ?%elem_of_nil|by intros s ?%elem_of_nil].
    + by intros pk pk' ?%elem_of_nil.
    + intros k hs Hk. cbn. by rewrite SeqBufFacts.find_with_capacity.
    + split; [by intros c id ?%elem_of_nil|]. intros p st Hp. cbn. by rewrite SeqBufFacts.find_with_capacity.
    + intros c. apply Hdom.
    + exists (Reliable (ReliableChannel_new 1 t)). do 2 (split; [done|]). by intros s i [?%elem_of_nil _].
    + intros c ch m Hch Hm. rewrite (proj1 (Hchs c ch Hch)) in Hm. by apply elem_of_nil in Hm.
  - split.
    + intros c sb. unfold seen_of. destruct (channels (ep_channels self) !! c) as [ch|] eqn:Hch; [|done].
      intros [= <-]. change (filtered (ch_seen ch) (fun i => (c, i) ∈ [])). rewrite (proj2 (Hchs c ch Hch)).
      eapply filtered_weaken; [apply filtered_new|]. by intros i ?%elem_of_nil.
    + by intros s ?%elem_of_nil.
    + intros p. cbn. by intros [? ?].
    + intros c. exists []. split; [done|]. split; [constructor|]. intros s. rewrite elem_of_nil. split; [done|].
      by intros [[] _].
    + by intros c j ?%elem_of_nil.
    + intros _ c sb. unfold seen_of. destruct (channels (ep_channels self) !! c) as [ch|] eqn:Hch; [|done].
      intros [= <-]. change (exact_filter (ch_seen ch) (fun i => (c, i) ∈ [])). rewrite (proj2 (Hchs c ch Hch)).
      apply exact_filter_new.
    + intros c Hc. unfold seen_of. apply fmap_is_Some. by apply Hdom.
  - intros k Hk. cbn. rewrite SeqBufFacts.find_with_capacity by done. by intros [? ?].
Qed.
