(* ===== verification/Calm.v ===== *)
(** * An endpoint during the handshake

    Until its first message an endpoint is little more than two counters: how
    many packets it has sent, and the newest that it has received.  What the
    handshake does to it, and that it is then ready for the messages of a
    session ([unused]). *)

From S2P Require Import Prelude Floats Types SequenceBuffer Cursor BufferPool AckHeader Message Packets Reassembler Channel Dispatcher Endpoint Compose Acks Incoming Control Pieces Reports Lifetime.

Section calm.
Context `{BP : BuildProfile, BO : ByteOrder, BL : !ByteOrderLaws BO, SM : SmallMap, SL : !SmallMapLaws SM}.

(** [n] packets sent, the newest packet received is [m], the outbox holds the
    packets [obs]: all that the other end can tell. *)
Record calm (n m : Z) (salt : option Z) (obs : list (list Z)) (self : Pickleback) : Prop := {
  cm_idle : idle self;
  cm_sent : sequence_id self = n;
  cm_received : sequence (received_buffer self) = m;
  cm_salt : xor_salt self = salt;
  cm_outbox : vdata <$> outbox self = obs;
  cm_unused : unused salt self;
}.

Lemma calm_fresh cfg time : good_config cfg -> 600 <= max_packet_size cfg -> sent_frag_map_size cfg < 32768 ->
  calm 0 0 None [] (fresh_endpoint cfg time).
Proof.
  intros Hcfg Hsize Hfrags. split; [by apply fresh_idle|done..|].
  destruct (fresh_lives cfg time None Hcfg Hfrags) as (Hs & Hr & _). by split.
Qed.

Lemma calm_set_salt n m salt obs salt' self : calm n m salt obs self -> calm n m salt' obs (set_xor_salt salt' self).
Proof.
  intros [Hid Hn Hm Hs Ho [Hsn Hrv]]. split; [by apply set_salt_idle|done..|].
  split; [intros D; by eapply sending_set_salt|by apply receiving_set_salt].
Qed.

Lemma calm_update n m salt obs dt self : calm n m salt obs self ->
  exists self', update dt self = Some (self', Ok tt) /\ calm n m salt obs self'.
Proof.
  intros [Hid Hn Hm Hs Ho [Hsn Hrv]]. destruct (update_idle dt self Hid) as (self' & Hrun & Hid' & Hout & Hseq & Hrec & _ & Hsalt).
  exists self'. split; [done|]. split; try congruence.
  assert (Hlive : forall D, sending [] [] D salt self' /\ receiving [] (fun _ => []) [] self').
  { intros D. destruct (update_lives [] [] [] D salt (fun _ => []) [] dt self (Hsn D) Hrv) as (s2 & Hrun2 & Hs2 & _ & _ & Hr2).
    assert (s2 = self') as -> by congruence. by split. }
  split; [intros D; apply Hlive|apply (Hlive (fun _ _ => True))].
Qed.

Lemma calm_visit n m salt obs self : calm n m salt obs self ->
  exists self', visit_packets_to_send self = Some (self', Ok obs) /\ calm n m salt [] self'.
Proof.
  intros [Hid Hn Hm Hs Ho [Hsn Hrv]].
  destruct (visit_idle self Hid) as (self' & Hrun & (bp & Hbp & Heq) & Hid' & Hout & Hseq & Hrec & _ & Hsalt).
  exists self'. split; [congruence|]. split; try congruence; [by rewrite Hout|]. subst self'. split.
  - intros D. destruct (Hsn D) as [[[] Ha]]. by split.
  - by apply (receiving_same [] _ [] self).
Qed.

(** A packet of type [t] with the endpoint's next header. *)
Lemma calm_send n m salt obs t (packet : ProtocolPacketHeader -> ProtocolPacket) self : calm n m salt obs self -> n < 300 ->
  t <> TMessages ->
  (forall h, packet_header (packet h) = h /\ PacketType_from (packet h) = t /\
    (wf_header h -> packet_type h = t -> wf_packet (packet h))) ->
  exists h self1 self', next_packet_header t self = Some (self1, Ok h) /\ send_packet (packet h) self1 = Some (self', Ok tt) /\
    calm n m salt obs (set_sequence_id n self1) /\
    wf_packet (packet h) /\ h_id h = n + 1 /\ calm (n + 1) m salt (obs ++ [packet_bytes (packet h)]) self'.
Proof.
  intros Hc Hlt Ht Hpk. pose proof Hc as [Hid Hn Hm Hs Ho [Hsn Hrv]]. subst n.
  destruct (next_header_run t self Hid Hlt) as (Hnext & Hh & Hhid).
  set (h := next_header t self) in *. destruct (Hpk h) as (Hph & Hpt & Hwf).
  assert (Hfit : fits_control (packet h)) by (split; [auto|congruence]).
  destruct (send_control_run t (packet h) self Hid Hlt Hfit Hph) as (self' & Hrun & [Hid' (buf & Hout & Hbuf) Hseq Hrec Hcfg Hsalt]).
  eexists h, _, self'. split; [exact Hnext|]. split; [done|].
  split; [by destruct self|]. split; [apply Hfit|]. split; [done|].
  split; try congruence; [rewrite Hout, fmap_app, Ho; cbn; by rewrite Hbuf|].
  assert (Hnext_id : sequence_id self + 1 = next_id self).
  { pose proof (id_sequence _ Hid). unfold next_id. rewrite wrap16_small; lia. }
  rewrite Hnext_id in Hrun.
  assert (Hlive : forall D, sending [] [] D salt self' /\ same_inbox self self').
  { intros D. destruct (packet_sending [] [] D salt self (packet h) (Hsn D)) as (s2 & r & Hrun2 & Hs2 & Hin & _);
      [lia|apply Hfit|apply Hfit|]. assert (s2 = self') as -> by congruence. by split. }
  split; [intros D; apply Hlive|]. eapply receiving_same; [apply (Hlive (fun _ _ => True))|done].
Qed.

Lemma calm_receive n m salt obs h c self : calm n m salt obs self -> wf_header h -> packet_type h <> TMessages ->
  m < h_id h <= 300 ->
  exists self', process_incoming_packet h (self, c) = Some ((self', c), Ok tt) /\ calm n (h_id h) salt obs self'.
Proof.
  intros [Hid Hn Hm Hs Ho [Hsn Hrv]] Hh Ht Hnew. subst m.
  destruct (receive_control_run h self c Hid Hh Ht Hnew) as (self' & Hrun & [Hid' Hrec Hout Hseq Hcfg Hsalt]).
  exists self'. split; [done|]. split; try congruence.
  pose proof (eo_received _ (proj1 (id_ok _ Hid))) as Hwf. pose proof (SeqBufFacts.wf_sequence _ Hwf) as Hsq.
  assert (Hfresh : fresh self (h_id h)).
  { split; [apply small_check; [done|apply Hid|lia..]|]. apply eq_None_not_Some. intros [x Hx].
    apply (id_known _ Hid) in Hx; [lia|apply wfh_id, Hh]. }
  assert (Hlive : forall D, sending [] [] D salt self' /\ receiving [] (fun _ => []) [] self').
  { intros D. destruct (control_received [] [] D salt [] (fun _ => []) [] h self c (Hsn D) Hrv Hh Ht Hfresh) as (s2 & Hrun2 & Hlive);
      [by intros k pk _ ?%elem_of_nil|]. assert (s2 = self') as -> by congruence. done. }
  split; [intros D; apply Hlive|apply (Hlive (fun _ _ => True))].
Qed.
End calm.
