(* ===== verification/Link.v ===== *)
(** * Two endpoints over a network

    Two endpoints of endpoint.rs exchange packets over a network that loses,
    repeats, delays and reorders them at will; users send messages, take
    received ones and read acks at both ends, in any interleaving.  No call
    panics; each user receives only messages that the other sent, each at most
    once; what is acked has arrived; a message of the reliable channel waits to
    be sent again until it has arrived, and arrives when the packets that carry
    it do.  The two are new or have been through a handshake ([joined]), and
    may send keep-alives. *)

From S2P Require Import Prelude Floats Types SequenceBuffer Cursor BufferPool AckHeader Message Packets Reassembler Channel Dispatcher Endpoint Compose Acks Incoming Control Pieces Reports Lifetime.

(** ** The two ends *)

(** One end: the endpoint, the messages queued so far, the packets handed to
    the network so far, and the messages the user has taken, with their
    channels, and the acks. *)
Record Half := MkHalf {
  hf_ep : Pickleback;
  hf_sent : list Sent;
  hf_wire : list (list Z);
  hf_taken : list (Z * ReceivedMessage);
  hf_acked : list (Z * MessageId);
}.

Definition set_ep (ep : Pickleback) (h : Half) : Half := MkHalf ep (hf_sent h) (hf_wire h) (hf_taken h) (hf_acked h).

(** What can happen at an end. *)
Inductive Event :=
| SendMessage (channel : Z) (payload : list Z)
| Visit
| SendEmpty
| SendKeepalive (index : Z)
| Arrive (n : nat)
| Tick (dt : f64)
| Drain (channel : Z)
| DrainAcks (channel : Z).

Section link.
Context `{BP : BuildProfile, BO : ByteOrder, SM : SmallMap}.

(** The message that the next [send_message] queues. *)
Definition next_sent (h : Half) (channel : Z) (payload : list Z) : Sent :=
  MkSent (next_message_id (dispatcher (hf_ep h))) channel payload.

(** The user takes the messages of a channel, and drops their container. *)
Definition take_messages (channel : Z) : M Pickleback (list ReceivedMessage) :=
  c ← drain_received_messages channel;
  drop_received_messages c;;
  mret (messages c).

(** An event at the end [h], when the packets [wire] are all that the other
    end has handed to the network.  [None] is a panic. *)
Definition half_step (wire : list (list Z)) (e : Event) (h : Half) : option Half :=
  match e with
  | SendMessage channel payload =>
      '(ep, r) ← send_message channel payload (hf_ep h);
      Some (MkHalf ep (hf_sent h ++ taken (next_sent h channel payload) r) (hf_wire h) (hf_taken h) (hf_acked h))
  | Visit =>
      '(ep, r) ← visit_packets_to_send (hf_ep h);
      Some (MkHalf ep (hf_sent h) (hf_wire h ++ match r with Ok packets => packets | Err _ => [] end) (hf_taken h) (hf_acked h))
  | SendEmpty => '(ep, _) ← send_empty_packet (hf_ep h); Some (set_ep ep h)
  | SendKeepalive index =>
      match xor_salt (hf_ep h) with
      | Some salt => '(ep, _) ← send_keepalive salt index (hf_ep h); Some (set_ep ep h)
      | None => Some h
      end
  | Arrive n =>
      match wire !! n with
      | Some bytes => '(ep, _) ← receive_bytes bytes (hf_ep h); Some (set_ep ep h)
      | None => Some h
      end
  | Tick dt => '(ep, _) ← update dt (hf_ep h); Some (set_ep ep h)
  | Drain channel =>
      '(ep, r) ← take_messages channel (hf_ep h);
      Some (MkHalf ep (hf_sent h) (hf_wire h)
        (hf_taken h ++ match r with Ok l => (fun rm => (channel, rm)) <$> l | Err _ => [] end) (hf_acked h))
  | DrainAcks channel =>
      '(ep, r) ← drain_message_acks channel (hf_ep h);
      Some (MkHalf ep (hf_sent h) (hf_wire h) (hf_taken h)
        (hf_acked h ++ match r with Ok l => (fun id => (channel, id)) <$> l | Err _ => [] end))
  end.

(** How long the two may talk: what is sent is within the bounds of
    [good_sent], and packet ids stay below 16000, long before they wrap. *)
Definition allowed (e : Event) (h : Half) : Prop :=
  match e with
  | SendMessage channel payload => good_sent (next_sent h channel payload)
  | Visit => sequence_id (hf_ep h) <= 15600
  | SendEmpty => sequence_id (hf_ep h) < 16000
  | SendKeepalive index => sequence_id (hf_ep h) < 16000 /\ u32 index
  | _ => True
  end.

(** The left end is [l.1], the right one [l.2]. *)
Definition link_step (left : bool) (e : Event) (l : Half * Half) : option (Half * Half) :=
  if left then h ← half_step (hf_wire l.2) e l.1; Some (h, l.2)
  else h ← half_step (hf_wire l.1) e l.2; Some (l.1, h).

Definition end_of (left : bool) (l : Half * Half) : Half := if left then l.1 else l.2.

(** An end when a session begins: [new], and the session's salt set. *)
Definition start_of (cfg : PicklebackConfig) (t : f64) (salt : Z) (h : Half) : Prop :=
  good_config cfg /\ sent_frag_map_size cfg < 32768 /\
  exists ep, Pickleback_new cfg t = Some ep /\ h = MkHalf (set_xor_salt (Some salt) ep) [] [] [] [].

(** An end when the handshake is over: the packets [P] of the handshake, none
    with messages, have been handed out, and packets of [Q] were received. *)
Record joined (salt : Z) (P Q : list Posted) (h : Half) : Prop := {
  jo_unused : unused (Some salt) (hf_ep h);
  jo_few : sequence_id (hf_ep h) <= 16000;
  jo_room : SeqBuf.len (received_buffer (hf_ep h)) <= 16384;
  jo_half : h = MkHalf (hf_ep h) [] (posted_bytes salt <$> P) [] [];
  jo_outbox : outbox (hf_ep h) = [];
  jo_posted : Forall (posted_ok []) P;
  jo_ids : forall pk, pk ∈ P -> 0 < posted_id pk <= sequence_id (hf_ep h);
  jo_unique : unique_ids P;
  jo_acks : forall pk k, pk ∈ P -> (k, true) ∈ header_acks (po_header pk) -> exists pk', pk' ∈ Q /\ posted_id pk' = k;
  jo_received : forall k, u16 k -> is_Some (SeqBufFacts.find (received_buffer (hf_ep h)) k) -> exists pk, pk ∈ Q /\ posted_id pk = k;
  jo_newest : sequence (received_buffer (hf_ep h)) = 0 \/ exists pk, pk ∈ Q /\ posted_id pk = sequence (received_buffer (hf_ep h));
}.

(** Two ends begin new, or when the handshake is over. *)
Inductive reachable : Half * Half -> Prop :=
| reach_start cfg t cfg' t' salt h h' : u64 salt -> start_of cfg t salt h -> start_of cfg' t' salt h' -> reachable (h, h')
| reach_joined salt P Q h h' : u64 salt -> joined salt P Q h -> joined salt Q P h' -> reachable (h, h')
| reach_step left e l l' : reachable l -> allowed e (end_of left l) -> link_step left e l = Some l' -> reachable l'.

(** Events one after another. *)
Inductive link_run : Half * Half -> list (bool * Event) -> Half * Half -> Prop :=
| run_nil l : link_run l [] l
| run_cons left e l l1 es l2 : allowed e (end_of left l) -> link_step left e l = Some l1 -> link_run l1 es l2 ->
    link_run l ((left, e) :: es) l2.

(** Events at one end. *)
Inductive moves (wire : list (list Z)) : Half -> list Event -> Half -> Prop :=
| moves_nil h : moves wire h [] h
| moves_cons e h h1 es h2 : allowed e h -> half_step wire e h = Some h1 -> moves wire h1 es h2 -> moves wire h (e :: es) h2.

(** The bytes of a packet of a session: of messages, or a keep-alive. *)
Definition speaks (salt : Z) (bytes : list Z) : Prop := exists c p, read_packet (Cursor_new bytes) = Some (c, Ok p) /\
  match p with KeepAlive p => ka_xor_salt p = salt | Messages p => mp_xor_salt p = salt | _ => False end.

(** All that the user of [h] has received on channel [c], in order. *)
Definition arrivals (h : Half) (c : Z) : list (option MessageId * list Z) :=
  ((fun x : Z * ReceivedMessage => (ReceivedMessage_id x.2, ReceivedMessage_payload x.2)) <$>
     filter (fun x => x.1 = c) (hf_taken h)) ++ inbox_view (hf_ep h) c.

(** A piece of [s] waits in its channel to be sent. *)
Definition waits (h : Half) (s : Sent) : Prop := exists ch m i,
  channels (ep_channels (hf_ep h)) !! s_channel s = Some ch /\ m ∈ ch_messages ch /\ 0 <= i < s_count s /\
  m_id m = s_id s + i /\ Message_as_slice m = piece_bytes (piece s i).

(** Everything in channel [c] can be sent now. *)
Definition all_ready (h : Half) (c : Z) : Prop := forall ch, channels (ep_channels (hf_ep h)) !! c = Some ch ->
  ch_ready ch = length (ch_messages ch).
End link.

(** ** The invariant *)
Section invariant.
Context `{BP : BuildProfile, BO : ByteOrder, BL : !ByteOrderLaws BO, SM : SmallMap}.

Lemma st_for_run {S A E} (P : S -> Prop) (l : list A) (f : A -> ST E S unit) :
  (forall x s, P s -> exists s', f x s = Some (s', Ok tt) /\ P s') ->
  forall s, P s -> exists s', st_for l f s = Some (s', Ok tt) /\ P s'.
Proof.
  intros Hf. induction l as [|x l IH]; intros s Hs; [by exists s|].
  destruct (Hf x s Hs) as (s1 & Hrun & Hs1). destruct (IH s1 Hs1) as (s2 & Hrun2 & Hs2).
  exists s2. split; [|done]. cbn [st_for]. by run_step Hrun.
Qed.

Lemma drop_run c bp : has_pool bp -> exists bp', Container_drop c bp = Some (bp', Ok tt) /\ has_pool bp'.
Proof.
  apply st_for_run. intros [m|ms] s Hs; [by apply return_buffer_run|].
  revert s Hs. apply st_for_run. intros m s Hs. by apply return_buffer_run.
Qed.

(** What the user of [h] has taken from channel [c]. *)
Definition taken_log (h : Half) (c : Z) : list (option MessageId * list Z) :=
  (fun x : Z * ReceivedMessage => (ReceivedMessage_id x.2, ReceivedMessage_payload x.2)) <$>
    filter (fun x => x.1 = c) (hf_taken h).

(** What an end knows the other has, of the messages [G] it has queued: while
    ids are short, what passed there, [acc]. *)
Definition has (G : list Sent) (acc : list (Z * Z)) (s : Sent) (i : Z) : Prop := short G -> passed acc s i.

(** One end: [G] and [Q] are what the other has queued and posted, [P] is what
    it has posted itself, [acc] are the pieces that passed, [D] the pieces the
    other has; [cap] is how many packets it can note. *)
Record half_ok (salt cap : Z) (G : list Sent) (Q : list Posted) (D : Sent -> Z -> Prop) (P : list Posted) (acc : list (Z * Z))
    (h : Half) : Prop := {
  ho_sending : sending (hf_sent h) P D (Some salt) (hf_ep h);
  ho_receiving : receiving G (taken_log h) acc (hf_ep h);
  ho_got : got G Q acc (received_buffer (hf_ep h));
  ho_heard : heard Q cap (received_buffer (hf_ep h));
  ho_sequence : sequence_id (hf_ep h) <= 16000;
  ho_wire : posted_bytes salt <$> P = hf_wire h ++ (vdata <$> outbox (hf_ep h));
  ho_acks : forall pk, pk ∈ P -> acks_true Q (has G acc) (po_header pk);
  ho_acked : forall c id, (c, id) ∈ hf_acked h -> confirmed (hf_sent h) D c id;
}.

Lemma confirmed_mono G G' (D D' : Sent -> Z -> Prop) c id : G ⊆ G' -> (forall s i, s ∈ G -> D s i -> D' s i) ->
  confirmed G D c id -> confirmed G' D' c id.
Proof. intros HG HD (s & Hs & ? & ? & Ha). exists s. split_and!; auto. intros i Hi. auto. Qed.

Lemma acks_true_mono P P' (D D' : Sent -> Z -> Prop) h : P ⊆ P' -> (forall s i, D s i -> D' s i) ->
  acks_true P D h -> acks_true P' D' h.
Proof.
  intros HP HD Ht k Hk. destruct (Ht k Hk) as (pk & Hpk & Hid & Hf). exists pk. split_and!; auto.
  eapply Forall_impl; [exact Hf|]. intros x. apply HD.
Qed.

Lemma has_mono G G' acc acc' s i : (short G' -> short G) -> acc ⊆ acc' -> has G acc s i -> has G' acc' s i.
Proof. intros HG Hacc H Hs. by apply Hacc, H, HG. Qed.

(** The other end has queued, posted and received more. *)
Lemma half_ok_other salt cap G G' Q Q' (D D' : Sent -> Z -> Prop) P acc h : history (G ++ G') -> (forall s i, D s i -> D' s i) ->
  half_ok salt cap G Q D P acc h -> half_ok salt cap (G ++ G') (Q ++ Q') D' P acc h.
Proof.
  intros HG HD [Hs Hr Hgot Hhd Hq Hw Ha Hd].
  assert (HQ : Q ⊆ Q ++ Q') by (intros x Hx; apply elem_of_app; by left).
  split; try done.
  - eapply sending_mono; [|exact Hs]. auto.
  - by apply receiving_more.
  - eapply got_mono; [apply short_app|exact HQ|done|exact Hgot].
  - by eapply heard_mono.
  - intros pk Hpk. eapply acks_true_mono; [exact HQ| |by apply Ha]. intros s i. apply has_mono; [apply short_app|done].
  - intros c id Hid. eapply confirmed_mono; [done| |by apply Hd]. auto.
Qed.

(** The pieces the other end has become more. *)
Lemma half_ok_has salt cap G Q (D D' : Sent -> Z -> Prop) P acc h : history G -> (forall s i, D s i -> D' s i) ->
  half_ok salt cap G Q D P acc h -> half_ok salt cap G Q D' P acc h.
Proof.
  intros HG HD Hh. rewrite <- (app_nil_r G), <- (app_nil_r Q). eapply half_ok_other; [by rewrite app_nil_r|exact HD|exact Hh].
Qed.

(** The packets an end composes ack what it has received. *)
Lemma new_acks G Q acc rb P P' : got G Q acc rb -> (forall pk, pk ∈ P -> acks_true Q (has G acc) (po_header pk)) ->
  Forall (acks_received rb) P' -> forall pk, pk ∈ P ++ P' -> acks_true Q (has G acc) (po_header pk).
Proof.
  intros Hgot HP HP' pk [Hpk|Hpk]%elem_of_app; [by apply HP|]. intros k Hk.
  rewrite Forall_forall in HP'. destruct (HP' pk Hpk k Hk) as [Hu Hf]. destruct (Hgot k Hu Hf) as (pk' & Hpk' & Hid & Hp).
  exists pk'. do 2 (split; [done|]). apply Forall_forall. intros x Hx Hs. specialize (Hp Hs). rewrite Forall_forall in Hp. auto.
Qed.

(** An event that adds nothing but received pieces. *)
Lemma half_ok_ep salt cap G Q D P acc h ep acc' : half_ok salt cap G Q D P acc h -> sending (hf_sent h) P D (Some salt) ep ->
  posts_nothing (hf_ep h) ep -> receiving G (taken_log h) acc' ep -> got G Q acc' (received_buffer ep) ->
  heard Q cap (received_buffer ep) -> acc ⊆ acc' -> half_ok salt cap G Q D P acc' (set_ep ep h).
Proof.
  intros [_ _ _ _ Hq Hw Ha Hd] Hs [Hid Hout] Hr Hgot Hhd Hsub. split; try done; [by cbn; rewrite Hid|by cbn; rewrite Hout|].
  intros pk Hpk. eapply acks_true_mono; [done| |by apply Ha]. intros s i. by apply has_mono.
Qed.

Lemma send_step salt cap G Q D P acc h channel payload : half_ok salt cap G Q D P acc h -> allowed (SendMessage channel payload) h ->
  exists ep r, send_message channel payload (hf_ep h) = Some (ep, r) /\
    half_ok salt cap G Q D P acc (MkHalf ep (hf_sent h ++ taken (next_sent h channel payload) r) (hf_wire h) (hf_taken h) (hf_acked h)).
Proof.
  intros [Hs Hr Hgot Hhd Hq Hw Ha Hd] Hg.
  destruct (send_message_run (hf_sent h) P D salt (hf_ep h) channel payload Hs Hq Hg) as (ep & r & Hrun & Hs' & Hsame & Hrb & [Hid Hout] & _).
  exists ep, r. split; [done|]. split; cbn; try done; [by eapply receiving_same|by rewrite Hrb|by rewrite Hrb|lia|by rewrite Hout|].
  intros c id Hc. eapply confirmed_mono; [intros x Hx; apply elem_of_app; by left| |by apply Hd]. done.
Qed.

(** An event that posts the packets [P']. *)
Lemma posted_step salt cap G Q D P P' acc h ep wire : half_ok salt cap G Q D P acc h -> sending (hf_sent h) (P ++ P') D (Some salt) ep ->
  Forall (acks_received (received_buffer (hf_ep h))) P' -> same_inbox (hf_ep h) ep ->
  received_buffer ep = received_buffer (hf_ep h) -> sequence_id ep <= 16000 ->
  (vdata <$> outbox (hf_ep h)) ++ (posted_bytes salt <$> P') = wire ++ (vdata <$> outbox ep) ->
  half_ok salt cap G Q D (P ++ P') acc (MkHalf ep (hf_sent h) (hf_wire h ++ wire) (hf_taken h) (hf_acked h)).
Proof.
  intros [Hs Hr Hgot Hhd Hq Hw Ha Hd] Hs' HP' Hsame Hrb Hid Hwire. split; cbn; try done.
  - by eapply receiving_same.
  - by rewrite Hrb.
  - by rewrite Hrb.
  - by rewrite fmap_app, Hw, <- !app_assoc, Hwire.
  - by eapply new_acks.
Qed.

Lemma drop_lives G H P D salt log acc c self : sending H P D salt self -> receiving G log acc self ->
  exists self', drop_received_messages c self = Some (self', Ok tt) /\ sending H P D salt self' /\ undisturbed self self' /\
    received_buffer self' = received_buffer self /\ receiving G log acc self'.
Proof.
  intros Hs Hr. destruct (drop_run c (pool self)) as (bp & Hrun & Hbp); [apply Hs|]. exists (set_pool bp self).
  split; [unfold drop_received_messages, on_pool_field, st_zoom; by rewrite Hrun|].
  assert (Hu : undisturbed self (set_pool bp self)) by (split; try done; by eauto).
  split; [|do 2 (split; [done|]); by apply (receiving_same G log acc self)].
  apply (sending_undisturbed H P D salt self); [done|by apply receive_ok_pool; [apply Hs|]|done].
Qed.

Lemma taken_of_channel channel c (l : list ReceivedMessage) :
  filter (fun x : Z * ReceivedMessage => x.1 = c) ((fun rm => (channel, rm)) <$> l) =
    if decide (c = channel) then (fun rm => (channel, rm)) <$> l else [].
Proof.
  induction l as [|rm l IH]; [by destruct (decide _)|]. rewrite fmap_cons, filter_cons, IH. cbn [fst].
  destruct (decide (c = channel)) as [->|Hne]; [by rewrite decide_True|by rewrite decide_False].
Qed.

Lemma take_messages_step salt cap G Q D P acc h channel : half_ok salt cap G Q D P acc h ->
  exists ep l, take_messages channel (hf_ep h) = Some (ep, Ok l) /\
    half_ok salt cap G Q D P acc (MkHalf ep (hf_sent h) (hf_wire h) (hf_taken h ++ ((fun rm => (channel, rm)) <$> l)) (hf_acked h)).
Proof.
  intros [Hs Hr Hgot Hhd Hq Hw Ha Hd].
  destruct (drain_lives G _ P D (Some salt) _ acc channel _ Hs Hr) as (ep1 & l & Hrun1 & Hs1 & Hu1 & Hrb1 & Hr1).
  destruct (drop_lives G _ P D (Some salt) _ acc (Container_new l) ep1 Hs1 Hr1) as (ep & Hrun & Hs2 & Hu2 & Hrb2 & Hr2).
  exists ep, l. split; [unfold take_messages; run_step Hrun1; by run_step Hrun|].
  split; cbn; try done; [|by rewrite Hrb2, Hrb1|by rewrite Hrb2, Hrb1|by rewrite (ca_sequence _ _ Hu2), (ca_sequence _ _ Hu1)|
    by rewrite (ca_outbox _ _ Hu2), (ca_outbox _ _ Hu1)].
  eapply receiving_log; [|exact Hr2]. intros c. unfold taken_log. cbn. rewrite filter_app, fmap_app.
  destruct (decide (c = channel)) as [->|Hne].
  - rewrite taken_of_channel, decide_True by done. by rewrite <- list_fmap_compose.
  - by rewrite taken_of_channel, decide_False, app_nil_r.
Qed.

Lemma drain_acks_step salt cap G Q D P acc h channel : half_ok salt cap G Q D P acc h ->
  exists ep l, drain_message_acks channel (hf_ep h) = Some (ep, Ok l) /\
    half_ok salt cap G Q D P acc (MkHalf ep (hf_sent h) (hf_wire h) (hf_taken h) (hf_acked h ++ ((fun id => (channel, id)) <$> l))).
Proof.
  intros [Hs Hr Hgot Hhd Hq Hw Ha Hd].
  destruct (drain_acks_lives G _ P D (Some salt) _ acc channel _ Hs Hr) as (ep & l & Hrun & Hs' & Hu & Hrb & Hr' & Hl).
  exists ep, l. split; [done|].
  split; cbn; try done; [by rewrite Hrb|by rewrite Hrb|by rewrite (ca_sequence _ _ Hu)|by rewrite (ca_outbox _ _ Hu)|].
  intros c id [Hid|Hid]%elem_of_app; [by apply Hd|]. apply list_elem_of_fmap in Hid as (x & [= -> ->] & Hx). by apply Hl.
Qed.

(** A keep-alive. *)
Lemma keepalive_step salt cap G Q D P acc h index : half_ok salt cap G Q D P acc h -> u64 salt -> allowed (SendKeepalive index) h ->
  exists ep P', send_keepalive salt index (hf_ep h) = Some (ep, Ok tt) /\ half_ok salt cap G Q D (P ++ P') acc (set_ep ep h) /\
    sequence_id ep <= sequence_id (hf_ep h) + 1.
Proof.
  intros Hh Hsalt [Hseq Hidx].
  destruct (keepalive_sending _ P D salt index _ (ho_sending _ _ _ _ _ _ _ _ Hh) Hseq Hsalt Hidx)
    as (ep & P' & Hrun & Hs' & HP' & Hsame & Hrb & Hid & Hp). exists ep, P'. split; [done|]. split; [|done].
  pose proof (posted_step salt cap G Q D P P' acc h ep [] Hh Hs' HP' Hsame Hrb ltac:(lia)) as Hok.
  rewrite app_nil_r in Hok. apply Hok. symmetry. exact Hp.
Qed.

(** What [visit_packets_to_send] posts. *)
Lemma visit_step salt cap G Q D P acc h : half_ok salt cap G Q D P acc h -> allowed Visit h ->
  exists ep packets P', visit_packets_to_send (hf_ep h) = Some (ep, Ok packets) /\
    half_ok salt cap G Q D (P ++ P') acc (MkHalf ep (hf_sent h) (hf_wire h ++ packets) (hf_taken h) (hf_acked h)) /\
    outbox ep = [] /\ (forall pk, pk ∈ P' -> sequence_id (hf_ep h) < posted_id pk) /\
    (ChannelList_any_with_messages_to_send (ep_channels ep) = false \/ window_full ep) /\ due_posted (hf_ep h) ep P' /\
    sequence_id ep <= sequence_id (hf_ep h) + Z.of_nat (length packets) + 1.
Proof.
  intros Hh He.
  destruct (visit_sending (hf_sent h) P D salt (hf_ep h) (ho_sending _ _ _ _ _ _ _ _ Hh) He)
    as (ep & packets & P' & Hrun & Hs' & HP' & Hsame & Hrb & Hid & Hp & Hout & Hnew & Hend & Hdue).
  assert (Hlen : sequence_id ep <= sequence_id (hf_ep h) + Z.of_nat (length packets) + 1).
  { rewrite Hp, length_app, !length_fmap. lia. }
  exists ep, packets, P'. split; [done|]. split; [|done].
  apply posted_step; try done; [lia|]. by rewrite Hout, app_nil_r.
Qed.

(** The packet [pk] that was handed out as number [n] is let in. *)
Definition lets_in (G : list Sent) (Q : list Posted) (wire : list (list Z)) (e : Event) (h : Half) (acc : list (Z * Z)) : Prop :=
  forall n pk, e = Arrive n -> Q !! n = Some pk -> (n < length wire)%nat -> admits (received_buffer (hf_ep h)) pk -> short G ->
    Forall (fun x => passed acc x.1 x.2) (po_pieces pk).

(** An event at one end: more may be queued, posted and received. *)
Lemma half_step_ok salt cap G Q D P acc wire rest e h : half_ok salt cap G Q D P acc h -> history G -> u64 salt ->
  Forall (posted_ok G) Q -> unique_ids Q -> posted_bytes salt <$> Q = wire ++ rest ->
  (forall pk, pk ∈ Q -> acks_true P D (po_header pk)) -> allowed e h ->
  exists h' new P' acc', half_step wire e h = Some h' /\ hf_sent h' = hf_sent h ++ new /\
    (length (hf_wire h) <= length (hf_wire h'))%nat /\
    half_ok salt cap G Q D (P ++ P') acc' h' /\ acc ⊆ acc' /\ lets_in G Q wire e h acc'.
Proof.
  intros Hh HG Hsalt HQ Huniq Hw Htrue He. pose proof Hh as [Hs Hr Hgot Hhd Hq _ _ _].
  assert (Hnil : P ++ [] = P) by apply app_nil_r. assert (Hnil' : hf_sent h = hf_sent h ++ []) by (by rewrite app_nil_r).
  destruct e as [channel payload| | |index|n|dt|channel|channel]; cbn [half_step].
  - destruct (send_step salt cap G Q D P acc h channel payload Hh He) as (ep & r & Hrun & Hok). rewrite Hrun.
    eexists _, _, [], acc. rewrite Hnil. by split_and!.
  - destruct (visit_step salt cap G Q D P acc h Hh He) as (ep & packets & P' & Hrun & Hok & _). rewrite Hrun.
    eexists _, [], P', acc. split_and!; try done. cbn. rewrite length_app. lia.
  - destruct (empty_sending _ P D salt _ Hs He) as (ep & r & P' & Hrun & Hs' & HP' & Hsame & Hrb & Hid & Hp). rewrite Hrun.
    eexists _, [], P', acc. split_and!; try done. cbn in He.
    pose proof (posted_step salt cap G Q D P P' acc h ep [] Hh Hs' HP' Hsame Hrb ltac:(lia)) as Hok.
    rewrite app_nil_r in Hok. apply Hok. symmetry. exact Hp.
  - rewrite (sn_salt _ _ _ _ _ Hs). destruct (keepalive_step salt cap G Q D P acc h index Hh Hsalt He) as (ep & P' & Hrun & Hok & _).
    rewrite Hrun. eexists _, [], P', acc. by split_and!.
  - destruct (wire !! n) as [bytes|] eqn:Hn.
    2: { exists h, [], [], acc. rewrite Hnil. split_and!; try done. intros n' pk [= <-] _ Hlt. apply lookup_lt_is_Some in Hlt as [? ?]. congruence. }
    assert (Hpk : (posted_bytes salt <$> Q) !! n = Some bytes) by (rewrite Hw; by apply lookup_app_l_Some).
    apply list_lookup_fmap_Some in Hpk as (pk & -> & Hpk). pose proof (list_elem_of_lookup_2 _ _ _ Hpk) as HpkQ.
    destruct (receive_wire_packet G _ P Q D (Some salt) salt _ acc cap pk _ Hs HG Hsalt Hr Hgot Hhd)
      as (ep & r & acc' & Hrun & Hs' & Hid & Hr' & Hgot' & Hsub & Hhd' & Hlet); [done|rewrite Forall_forall in HQ; auto|done|auto|].
    rewrite Hrun. eexists _, [], [], acc'. rewrite Hnil. split_and!; try done; [by eapply half_ok_ep|].
    intros n' pk' [= <-] Hpk' _ Hadm Hsh. assert (pk' = pk) as -> by congruence. auto.
  - destruct (update_lives G _ P D (Some salt) _ acc dt _ Hs Hr) as (ep & Hrun & Hs' & Hu & Hrb & Hr'). rewrite Hrun.
    eexists _, [], [], acc. rewrite Hnil. split_and!; try done.
    apply (half_ok_ep salt cap G Q D P acc); try done; [split; apply Hu|by rewrite Hrb..].
  - destruct (take_messages_step salt cap G Q D P acc h channel Hh) as (ep & l & Hrun & Hok). rewrite Hrun.
    eexists _, [], [], acc. rewrite Hnil. by split_and!.
  - destruct (drain_acks_step salt cap G Q D P acc h channel Hh) as (ep & l & Hrun & Hok). rewrite Hrun.
    eexists _, [], [], acc. rewrite Hnil. by split_and!.
Qed.

(** Both ends: what [h] has posted is [P], what has passed there is [acc]. *)
Record pair_ok (salt cap cap' : Z) (P Q : list Posted) (acc acc' : list (Z * Z)) (h h' : Half) : Prop := {
  pr_here : half_ok salt cap (hf_sent h') Q (has (hf_sent h) acc') P acc h;
  pr_there : half_ok salt cap' (hf_sent h) P (has (hf_sent h') acc) Q acc' h';
}.

Lemma pair_sym salt cap cap' P Q acc acc' h h' : pair_ok salt cap cap' P Q acc acc' h h' -> pair_ok salt cap' cap Q P acc' acc h' h.
Proof. by intros []. Qed.

Lemma pair_history salt cap cap' P Q acc acc' h h' : pair_ok salt cap cap' P Q acc acc' h h' -> history (hf_sent h) /\ history (hf_sent h').
Proof. intros [H H']. split; [apply (ho_sending _ _ _ _ _ _ _ _ H)|apply (ho_sending _ _ _ _ _ _ _ _ H')]. Qed.

(** One end moves on. *)
Lemma pair_advance salt cap cap' P Q acc acc' h h' P' acc2 new h2 : pair_ok salt cap cap' P Q acc acc' h h' ->
  half_ok salt cap (hf_sent h') Q (has (hf_sent h) acc') (P ++ P') acc2 h2 -> hf_sent h2 = hf_sent h ++ new -> acc ⊆ acc2 ->
  pair_ok salt cap cap' (P ++ P') Q acc2 acc' h2 h'.
Proof.
  intros Hp Hok Hnew Hsub. destruct (pair_history _ _ _ _ _ _ _ _ _ Hp) as [_ HG']. destruct Hp as [_ H'].
  pose proof (sn_history _ _ _ _ _ (ho_sending _ _ _ _ _ _ _ _ Hok)) as HG. rewrite Hnew in HG. split; rewrite Hnew.
  - eapply half_ok_has; [done| |exact Hok]. intros s i. apply has_mono; [apply short_app|done].
  - eapply half_ok_other; [done| |exact H']. intros s i. by apply has_mono.
Qed.

(** An event at [h]. *)
Lemma pair_step salt cap cap' P Q acc acc' h h' e : u64 salt -> pair_ok salt cap cap' P Q acc acc' h h' -> allowed e h ->
  exists h2 P' acc2, half_step (hf_wire h') e h = Some h2 /\ pair_ok salt cap cap' (P ++ P') Q acc2 acc' h2 h' /\
    hf_sent h ⊆ hf_sent h2 /\ (length (hf_wire h) <= length (hf_wire h2))%nat /\ acc ⊆ acc2 /\
    lets_in (hf_sent h') Q (hf_wire h') e h acc2.
Proof.
  intros Hsalt Hp He. pose proof Hp as [H H']. pose proof (ho_sending _ _ _ _ _ _ _ _ H') as Hs'.
  destruct (half_step_ok salt cap _ Q _ P acc (hf_wire h') (vdata <$> outbox (hf_ep h')) e h H)
    as (h2 & new & P' & acc2 & Hrun & Hnew & Hlen & Hok & Hsub & Hlet); try done; [apply Hs'|apply Hs'|apply Hs'|apply H'|apply H'|].
  exists h2, P', acc2. split; [done|]. split; [by eapply pair_advance|]. split_and!; try done.
  rewrite Hnew. intros x Hx. apply elem_of_app. by left.
Qed.

Definition link_ok (salt : Z) (l : Half * Half) : Prop := exists cap cap' P Q acc acc', pair_ok salt cap cap' P Q acc acc' l.1 l.2.

(** Seen from either end. *)
Lemma link_ends salt left l : link_ok salt l ->
  exists cap cap' P Q acc acc', pair_ok salt cap cap' P Q acc acc' (end_of left l) (end_of (negb left) l).
Proof.
  intros (cap & cap' & P & Q & acc & acc' & Hp). destruct left; cbn; [by exists cap, cap', P, Q, acc, acc'|].
  exists cap', cap, Q, P, acc', acc. by apply pair_sym.
Qed.

Lemma link_step_pair salt cap cap' P Q acc acc' left e l : u64 salt -> allowed e (end_of left l) ->
  pair_ok salt cap cap' P Q acc acc' (end_of left l) (end_of (negb left) l) ->
  exists l' P' acc2, link_step left e l = Some l' /\
    pair_ok salt cap cap' (P ++ P') Q acc2 acc' (end_of left l') (end_of (negb left) l') /\
    hf_sent (end_of left l) ⊆ hf_sent (end_of left l') /\
    (length (hf_wire (end_of left l)) <= length (hf_wire (end_of left l')))%nat /\ acc ⊆ acc2 /\
    lets_in (hf_sent (end_of (negb left) l)) Q (hf_wire (end_of (negb left) l)) e (end_of left l) acc2 /\
    end_of (negb left) l' = end_of (negb left) l.
Proof.
  intros Hsalt He Hp. destruct (pair_step salt cap cap' P Q acc acc' _ _ e Hsalt Hp He) as (h2 & P' & acc2 & Hrun & Hok & Hrest).
  destruct l as [l1 l2]. destruct left; cbn [link_step end_of negb fst snd] in *; rewrite Hrun; cbn.
  - exists (h2, l2), P', acc2. destruct Hrest as (? & ? & ? & ?). by split_and!.
  - exists (l1, h2), P', acc2. destruct Hrest as (? & ? & ? & ?). by split_and!.
Qed.

Lemma pair_link salt cap cap' P Q acc acc' left l :
  pair_ok salt cap cap' P Q acc acc' (end_of left l) (end_of (negb left) l) -> link_ok salt l.
Proof.
  intros Hp. destruct left; cbn in Hp; [by exists cap, cap', P, Q, acc, acc'|].
  exists cap', cap, Q, P, acc', acc. by apply pair_sym.
Qed.

Lemma link_step_ok salt left e l : u64 salt -> link_ok salt l -> allowed e (end_of left l) ->
  exists l', link_step left e l = Some l' /\ link_ok salt l'.
Proof.
  intros Hsalt Hok He. destruct (link_ends salt left l Hok) as (cap & cap' & P & Q & acc & acc' & Hp).
  destruct (link_step_pair salt cap cap' P Q acc acc' left e l Hsalt He Hp) as (l' & P' & acc2 & Hrun & Hp' & _).
  exists l'. split; [done|]. by eapply pair_link.
Qed.

Lemma start_ok cfg t salt h : start_of cfg t salt h ->
  hf_sent h = [] /\ exists cap, forall D, half_ok salt cap [] [] D [] [] h.
Proof.
  intros (Hcfg & Hfrags & ep & Hnew & ->). rewrite Pickleback_new_run in Hnew. injection Hnew as <-.
  destruct (fresh_lives cfg t (Some salt) Hcfg Hfrags) as (Hs & Hr & Hgot & Hid & cap & Hhd). split; [done|]. exists cap. intros D.
  split; [apply Hs|done..| |done|by intros pk ?%elem_of_nil|by intros c id ?%elem_of_nil]. cbn [hf_ep]. rewrite Hid. lia.
Qed.

(** Control packets that were sent before. *)
Lemma sending_joined P D salt self : sending [] [] D salt self -> Forall (posted_ok []) P ->
  (forall pk, pk ∈ P -> 0 < posted_id pk <= sequence_id self) -> unique_ids P -> sending [] P D salt self.
Proof.
  intros Hs HP Hids Hu. pose proof (sn_memory _ _ _ _ _ Hs) as Hmem. destruct Hs. split; try done.
  intros k hs Hk Hf. by destruct (Hmem k hs Hk Hf) as (pk & ?%elem_of_nil & _).
Qed.

Lemma control_pieces pk : posted_ok [] pk -> po_pieces pk = [].
Proof. intros [_ _ Hin _]. destruct (po_pieces pk); [done|]. inversion Hin as [|? ? [Hx _] _]. by apply elem_of_nil in Hx. Qed.

Lemma joined_ok salt P Q h D : joined salt P Q h -> Forall (posted_ok []) Q ->
  hf_sent h = [] /\ half_ok salt (SeqBuf.len (received_buffer (hf_ep h))) [] Q D P [] h.
Proof.
  intros [[Hs Hr] Hfew Hlen Hh Hout HP Hids Hu Hacks Hrec Hnew] HQ. split; [by rewrite Hh|].
  assert (Hno : forall pk, pk ∈ Q -> po_pieces pk = []) by (intros pk Hpk; rewrite Forall_forall in HQ; by apply control_pieces, HQ).
  split.
  - rewrite Hh. by apply sending_joined.
  - by rewrite Hh.
  - intros k Hk Hf. destruct (Hrec k Hk Hf) as (pk & Hpk & Hid). exists pk. do 2 (split; [done|]). by rewrite (Hno pk Hpk).
  - by split.
  - lia.
  - by rewrite Hout, app_nil_r, Hh.
  - intros pk Hpk k Hk. destruct (Hacks pk k Hpk Hk) as (pk' & Hpk' & Hid). exists pk'. do 2 (split; [done|]). by rewrite (Hno pk' Hpk').
  - rewrite Hh. by intros c id ?%elem_of_nil.
Qed.

Lemma link_reachable_ok l : reachable l -> exists salt, u64 salt /\ link_ok salt l.
Proof.
  induction 1 as [cfg t cfg' t' salt h h' Hsalt Hh Hh'|salt P Q h h' Hsalt Hh Hh'|left e l l' _ (salt & Hsalt & Hok) He Hstep].
  - exists salt. split; [done|]. destruct (start_ok _ _ _ _ Hh) as [Hn1 [cap H1]]. destruct (start_ok _ _ _ _ Hh') as [Hn2 [cap' H2]].
    exists cap, cap', [], [], [], []. split; cbn [fst snd]; rewrite ?Hn1, ?Hn2; done.
  - exists salt. split; [done|].
    destruct (joined_ok salt P Q h (has [] []) Hh (jo_posted _ _ _ _ Hh')) as [Hn1 H1].
    destruct (joined_ok salt Q P h' (has [] []) Hh' (jo_posted _ _ _ _ Hh)) as [Hn2 H2].
    eexists _, _, P, Q, [], []. split; cbn [fst snd]; rewrite ?Hn1, ?Hn2; done.
  - exists salt. split; [done|]. destruct (link_step_ok salt left e l Hsalt Hok He) as (l2 & Hrun & Hok2). congruence.
Qed.

(** One end moves on. *)
Definition with_end (left : bool) (h : Half) (l : Half * Half) : Half * Half := if left then (h, l.2) else (l.1, h).

Lemma with_end_same left l : with_end left (end_of left l) l = l.
Proof. by destruct l, left. Qed.

Lemma moves_link salt left l es h : u64 salt -> link_ok salt l -> moves (hf_wire (end_of (negb left) l)) (end_of left l) es h ->
  link_run l ((fun e => (left, e)) <$> es) (with_end left h l) /\ link_ok salt (with_end left h l).
Proof.
  intros Hsalt Hok Hm. remember (hf_wire (end_of (negb left) l)) as wire eqn:Hw.
  remember (end_of left l) as h0 eqn:Hh0. revert l Hok Hw Hh0.
  induction Hm as [h|e h h1 es h2 He Hstep _ IH]; intros l Hok -> ->; [rewrite with_end_same; split; [constructor|done]|].
  assert (Hrun : link_step left e l = Some (with_end left h1 l)).
  { destruct l as [a b], left; cbn in Hstep |- *; by rewrite Hstep. }
  destruct (link_step_ok salt left e l Hsalt Hok He) as (l' & Hrun' & Hok').
  assert (l' = with_end left h1 l) as -> by congruence.
  destruct (IH (with_end left h1 l)) as [Hr2 Hok2]; [done|by destruct l, left..|].
  assert (Heq : with_end left h2 (with_end left h1 l) = with_end left h2 l) by (by destruct l, left). rewrite Heq in Hr2, Hok2.
  split; [|done]. rewrite fmap_cons. by eapply run_cons.
Qed.

Lemma wire_speaks salt left l bytes : u64 salt -> link_ok salt l -> bytes ∈ hf_wire (end_of left l) -> speaks salt bytes.
Proof.
  intros Hsalt Hok Hin. destruct (link_ends salt left l Hok) as (cap & cap' & P & Q & acc & acc' & [H _]).
  assert (HP : bytes ∈ posted_bytes salt <$> P) by (rewrite (ho_wire _ _ _ _ _ _ _ _ H); apply elem_of_app; by left).
  apply list_elem_of_fmap in HP as (pk & -> & Hpk).
  pose proof (sn_posted _ _ _ _ _ (ho_sending _ _ _ _ _ _ _ _ H)) as Hall. rewrite Forall_forall in Hall.
  destruct (read_posted _ pk salt (Hall pk Hpk) Hsalt) as (c & Hread & _). exists c, (posted_packet salt pk).
  split; [done|]. unfold posted_packet. by destruct (po_keepalive pk).
Qed.

(** What arrives. *)
Lemma reachable_arrivals left l c : reachable l ->
  exists ss, arrivals (end_of left l) c = arrival <$> ss /\ NoDup (s_id <$> ss) /\
    forall s, s ∈ ss -> s ∈ hf_sent (end_of (negb left) l) /\ s_channel s = c.
Proof.
  intros Hl. destruct (link_reachable_ok l Hl) as (salt & Hsalt & Hok).
  destruct (link_ends salt left l Hok) as (cap & cap' & P & Q & acc & acc' & H1 & H2).
  pose proof (sn_history _ _ _ _ _ (ho_sending _ _ _ _ _ _ _ _ H2)) as HG.
  destruct (rv_log _ _ _ _ (ho_receiving _ _ _ _ _ _ _ _ H1) c) as (ss & Hlog & Hnd & Hss).
  exists ss. split; [exact Hlog|]. split; [|intros s Hs; by apply Hss in Hs as (? & ? & _)].
  apply NoDup_fmap_2_strong; [|done]. intros s s' Hs Hs' Hid. apply (same_id _ HG); [by apply Hss..|done].
Qed.

(** Packets that arrive while they are recent enough. *)
Definition let_through (left : bool) (es : list (bool * Event)) (cap : Z) (n : nat) (P : list Posted) (l : Half * Half)
    (acc : list (Z * Z)) : Prop :=
  forall k pk, (negb left, Arrive k) ∈ es -> P !! k = Some pk -> (k < n)%nat ->
    sequence_id (hf_ep (end_of left l)) < posted_id pk + cap -> Forall (fun x => passed acc x.1 x.2) (po_pieces pk).

(** From the state [l] on, seen from the end [left]: more is posted and more
    arrives. *)
Lemma run_pair salt cap cap' left l es l2 : link_run l es l2 -> u64 salt -> short (hf_sent (end_of left l2)) ->
  forall P Q acc acc', pair_ok salt cap cap' P Q acc acc' (end_of left l) (end_of (negb left) l) ->
  exists P' Q' acc2 acc2', pair_ok salt cap cap' (P ++ P') (Q ++ Q') acc2 acc2' (end_of left l2) (end_of (negb left) l2) /\
    acc' ⊆ acc2' /\ hf_sent (end_of left l) ⊆ hf_sent (end_of left l2) /\
    let_through left es cap' (length (hf_wire (end_of left l))) P l2 acc2'.
Proof.
  intros Hrun Hsalt Hshort. induction Hrun as [l|from e l l1 es l2 He Hstep Hrun IH]; intros P Q acc acc' Hp.
  { exists [], [], acc, acc'. rewrite !app_nil_r. split_and!; try done. by intros k pk ?%elem_of_nil. }
  specialize (IH Hshort). destruct (decide (from = left)) as [->|Hfrom].
  - destruct (link_step_pair salt cap cap' P Q acc acc' left e l Hsalt He Hp)
      as (l1' & P1 & acc1 & Hstep1 & Hp1 & Hs1 & Hlen & _ & _ & _). assert (l1' = l1) as -> by congruence.
    destruct (IH _ _ _ _ Hp1) as (P2 & Q2 & acc2 & acc2' & Hp2 & Hsub & Hs2 & Hdel). exists (P1 ++ P2), Q2, acc2, acc2'.
    rewrite app_assoc. split; [done|]. split; [done|]. split; [by transitivity (hf_sent (end_of left l1))|].
    intros k pk [[= Hb]|Hk]%elem_of_cons HP Hlt; [by destruct left|].
    apply (Hdel k pk); [done|by apply lookup_app_l_Some|lia].
  - assert (from = negb left) as -> by (by destruct from, left).
    assert (Hp' : pair_ok salt cap' cap Q P acc' acc (end_of (negb left) l) (end_of (negb (negb left)) l)) by (rewrite negb_involutive; by apply pair_sym).
    destruct (link_step_pair salt cap' cap Q P acc' acc (negb left) e l Hsalt He Hp')
      as (l1' & Q1 & acc1' & Hstep1 & Hp1 & _ & _ & Hacc & Hlet & Hsame). assert (l1' = l1) as -> by congruence.
    rewrite negb_involutive in Hp1, Hlet, Hsame. apply pair_sym in Hp1.
    destruct (IH _ _ _ _ Hp1) as (P2 & Q2 & acc2 & acc2' & Hp2 & Hsub & Hs2 & Hdel). exists P2, (Q1 ++ Q2), acc2, acc2'.
    rewrite app_assoc. rewrite Hsame in Hs2, Hdel. split; [done|]. split; [by transitivity acc1'|]. split; [done|].
    intros k pk [[= He']|Hk]%elem_of_cons HP Hlt Hnear; [|by apply (Hdel k pk)].
    eapply Forall_impl; [|intros x Hx; apply Hsub; exact Hx].
    apply (Hlet k pk); try done; [|intros s Hs; by apply Hshort, Hs2].
    pose proof (pr_here _ _ _ _ _ _ _ _ _ Hp2) as H2. pose proof (ho_sending _ _ _ _ _ _ _ _ H2) as Hs.
    apply (admits_near P cap' _ (sequence_id (hf_ep (end_of left l2)))); try done.
    + apply (proj1 (sn_ok _ _ _ _ _ (ho_sending _ _ _ _ _ _ _ _ (pr_there _ _ _ _ _ _ _ _ _ Hp)))).
    + apply (ho_heard _ _ _ _ _ _ _ _ (pr_there _ _ _ _ _ _ _ _ _ Hp)).
    + intros x Hx. apply (sn_ids _ _ _ _ _ Hs). apply elem_of_app. by left.
    + by eapply list_elem_of_lookup_2.
    + apply (ho_sequence _ _ _ _ _ _ _ _ H2).
Qed.
(** What was queued and is with the other end. *)
Lemma arrived_arrival salt cap cap' P Q acc acc' h h' s c : pair_ok salt cap cap' P Q acc acc' h h' -> s ∈ hf_sent h ->
  s_channel s = c -> arrived (passed acc') s -> arrival s ∈ arrivals h' c.
Proof.
  intros Hp Hs Hc Harr. destruct (rv_log _ _ _ _ (ho_receiving _ _ _ _ _ _ _ _ (pr_there _ _ _ _ _ _ _ _ _ Hp)) c) as (ss & Hlog & _ & Hss).
  change (arrivals h' c) with (taken_log h' c ++ inbox_view (hf_ep h') c).
  rewrite Hlog. by apply list_elem_of_fmap_2, Hss.
Qed.

(** The reliable channel keeps what is not. *)
Lemma kept_piece salt cap cap' P Q acc acc' h h' s i : pair_ok salt cap cap' P Q acc acc' h h' -> short (hf_sent h) ->
  s ∈ hf_sent h -> s_channel s = 1 -> 0 <= i < s_count s ->
  passed acc' s i \/ exists ch m, channels (ep_channels (hf_ep h)) !! 1 = Some ch /\ m ∈ ch_messages ch /\ m_id m = s_id s + i.
Proof.
  intros [H _] Hshort Hs Hc Hi. destruct (sn_kept _ _ _ _ _ (ho_sending _ _ _ _ _ _ _ _ H)) as (ch & Hch & _ & Hall).
  destruct (Hall s i (conj Hs Hi) Hc) as [Hp|(m & Hm & Hid)]; [left; by apply Hp|right]. by exists ch, m.
Qed.

Lemma kept_or_waits salt cap cap' P Q acc acc' h h' s : pair_ok salt cap cap' P Q acc acc' h h' -> short (hf_sent h) ->
  s ∈ hf_sent h -> s_channel s = 1 -> arrived (passed acc') s \/ waits h s.
Proof.
  intros Hp Hshort Hs Hc.
  destruct (decide (Forall (fun i => (s_channel s, s_id s + i) ∈ acc') (seqZ 0 (s_count s)))) as [Hall|Hnot].
  { left. intros i Hi. rewrite Forall_forall in Hall. apply Hall, elem_of_seqZ. lia. }
  right. apply not_Forall_Exists in Hnot; [|apply _]. apply Exists_exists in Hnot as (i & Hi & Hnp). apply elem_of_seqZ in Hi.
  destruct (kept_piece salt cap cap' P Q acc acc' h h' s i Hp Hshort Hs Hc) as [|(ch & m & Hch & Hm & Hid)]; [lia|done|].
  pose proof (ho_sending _ _ _ _ _ _ _ _ (pr_here _ _ _ _ _ _ _ _ _ Hp)) as Hse.
  destruct (sn_queued _ _ _ _ _ Hse 1 ch m Hch Hm) as (s' & i' & Hs' & Hi' & _ & Hid' & _ & Hb). cbn in Hid'.
  destruct (piece_of_id _ s s' i i' (hi_apart _ (sn_history _ _ _ _ _ Hse)) Hs Hs') as [-> ->]; [lia|done|lia|].
  exists ch, m, i'. rewrite Hc. split_and!; (done || lia).
Qed.

Lemma posted_piece salt cap cap' P Q acc acc' h h' pk x : pair_ok salt cap cap' P Q acc acc' h h' -> pk ∈ P -> x ∈ po_pieces pk ->
  piece_in (hf_sent h) x.
Proof.
  intros [H _] Hpk Hx. pose proof (sn_posted _ _ _ _ _ (ho_sending _ _ _ _ _ _ _ _ H)) as HP. rewrite Forall_forall in HP.
  destruct (HP pk Hpk) as [_ _ Hin]. rewrite Forall_forall in Hin. auto.
Qed.

(** The packets an end has handed out, when its outbox is empty. *)
Lemma pair_wire salt cap cap' P Q acc acc' h h' : pair_ok salt cap cap' P Q acc acc' h h' ->
  (length (hf_wire h) <= length P)%nat /\ (outbox (hf_ep h) = [] -> length (hf_wire h) = length P).
Proof.
  intros [H _]. pose proof (f_equal length (ho_wire _ _ _ _ _ _ _ _ H)) as Hl. rewrite length_app, !length_fmap in Hl.
  split; [lia|]. intros Ho. rewrite Ho in Hl. cbn in Hl. lia.
Qed.

(** A visit, seen from the end [left]. *)
Lemma visit_pair salt cap cap' P Q acc acc' left l l1 : pair_ok salt cap cap' P Q acc acc' (end_of left l) (end_of (negb left) l) ->
  allowed Visit (end_of left l) -> link_step left Visit l = Some l1 ->
  exists P', pair_ok salt cap cap' (P ++ P') Q acc acc' (end_of left l1) (end_of (negb left) l1) /\
    hf_sent (end_of left l1) = hf_sent (end_of left l) /\ length (hf_wire (end_of left l1)) = length (P ++ P') /\
    (forall pk, pk ∈ P' -> sequence_id (hf_ep (end_of left l)) < posted_id pk) /\
    (ChannelList_any_with_messages_to_send (ep_channels (hf_ep (end_of left l1))) = false \/ window_full (hf_ep (end_of left l1))) /\
    due_posted (hf_ep (end_of left l)) (hf_ep (end_of left l1)) P'.
Proof.
  intros Hp He Hrun. destruct (visit_step salt cap _ Q _ P acc _ (pr_here _ _ _ _ _ _ _ _ _ Hp) He)
    as (ep & packets & P' & Hvisit & Hok & Hout & Hnew & Hend & Hdue & _).
  set (h1 := MkHalf ep _ _ _ _) in Hok. exists P'.
  assert (Hl1 : end_of left l1 = h1 /\ end_of (negb left) l1 = end_of (negb left) l).
  { destruct l as [a b], left; cbn in Hrun, Hvisit; rewrite Hvisit in Hrun; by injection Hrun as <-. }
  destruct Hl1 as [Hl1 Hl2]. rewrite Hl1, Hl2.
  assert (Hp1 : pair_ok salt cap cap' (P ++ P') Q acc acc' h1 (end_of (negb left) l)).
  { by apply (pair_advance salt cap cap' P Q acc acc' (end_of left l) _ P' acc [] h1); [..|rewrite app_nil_r|]. }
  split; [done|]. split; [done|]. split; [|done]. by apply (pair_wire _ _ _ _ _ _ _ _ _ Hp1).
Qed.
Lemma run_reachable l es l2 : link_run l es l2 -> reachable l -> reachable l2.
Proof. induction 1 as [|left e l l1 es l2 He Hstep _ IH]; [done|]. intros Hl. apply IH. by eapply reach_step. Qed.

Lemma run_app l es l1 es' l2 : link_run l es l1 -> link_run l1 es' l2 -> link_run l (es ++ es') l2.
Proof. induction 1 as [|left e l l1 es l3 He Hstep _ IH]; intros H; [done|]. econstructor; [exact He|exact Hstep|by apply IH]. Qed.

(** Packets are only added to the wires. *)
Lemma half_step_wire wire e h h' : half_step wire e h = Some h' -> (length (hf_wire h) <= length (hf_wire h'))%nat.
Proof.
  destruct e as [channel payload| | |index|n|dt|channel|channel]; cbn [half_step].
  2: { intros ([ep [l|e]] & _ & [= <-])%bind_Some; cbn; rewrite length_app; lia. }
  3: destruct (xor_salt _); [|by intros [= <-]].
  4: destruct (wire !! n); [|by intros [= <-]].
  all: by intros ([ep r] & _ & [= <-])%bind_Some.
Qed.

Lemma run_wire left l es l2 : link_run l es l2 -> (length (hf_wire (end_of left l)) <= length (hf_wire (end_of left l2)))%nat.
Proof.
  induction 1 as [|from e l l1 es l2 _ Hstep _ IH]; [done|]. etrans; [|exact IH].
  destruct l as [a b], from; cbn in Hstep; apply bind_Some in Hstep as (h & Hh & [= <-]); apply half_step_wire in Hh; by destruct left.
Qed.

(** What is due and handed out arrives. *)
Lemma reachable_arrive `{SL : !SmallMapLaws SM} left l l1 es l2 s :
  reachable l -> all_ready (end_of left l) 1 -> allowed Visit (end_of left l) ->
  link_step left Visit l = Some l1 -> ~ window_full (hf_ep (end_of left l1)) ->
  link_run l1 es l2 -> short (hf_sent (end_of left l2)) ->
  (forall n, (length (hf_wire (end_of left l)) <= n < length (hf_wire (end_of left l1)))%nat -> (negb left, Arrive n) ∈ es) ->
  sequence_id (hf_ep (end_of left l2)) <=
    sequence_id (hf_ep (end_of left l)) + SeqBuf.len (received_buffer (hf_ep (end_of (negb left) l))) ->
  s ∈ hf_sent (end_of left l) -> s_channel s = 1 ->
  arrival s ∈ arrivals (end_of (negb left) l2) 1.
Proof.
  intros Hl Hready He Hvisit Hroom Hrun Hshort Harr Hnear Hs Hc. destruct (link_reachable_ok l Hl) as (salt & Hsalt & Hok).
  destruct (link_ends salt left l Hok) as (cap & cap' & P & Q & acc & acc' & Hp).
  destruct (visit_pair salt cap cap' P Q acc acc' left l l1 Hp He Hvisit) as (P' & Hp1 & Hsent & Hlen & Hnew & Hend & Hdue).
  destruct (run_pair salt cap cap' left l1 es l2 Hrun Hsalt Hshort _ _ _ _ Hp1) as (P2 & Q2 & acc2 & acc2' & Hp2 & Hsub & Hsub2 & Hlet).
  rewrite Hsent in Hsub2. apply (arrived_arrival salt cap cap' _ _ _ _ _ _ s 1 Hp2); [auto|done|]. intros i Hi.
  assert (Hcap : SeqBuf.len (received_buffer (hf_ep (end_of (negb left) l))) = cap')
    by apply (ho_heard _ _ _ _ _ _ _ _ (pr_there _ _ _ _ _ _ _ _ _ Hp)).
  destruct (pair_wire _ _ _ _ _ _ _ _ _ Hp) as [Hle _]. rewrite Hcap in Hnear. destruct Hend as [Hend|]; [|done].
  assert (Hshort0 : short (hf_sent (end_of left l))) by (intros x Hx; by apply Hshort, Hsub2).
  destruct (kept_piece salt cap cap' P Q acc acc' _ _ s i Hp Hshort0 Hs Hc Hi) as [Hpass|(ch & m & Hch & Hm & Hid)]; [by apply Hsub|].
  assert (Hdm : m ∈ ch_due ch) by (rewrite ch_due_all; [done|by apply Hready]).
  destruct (due_carried _ _ P' 1 ch m Hdue Hend Hch Hdm) as (pk & x & Hpk & Hx & Hxc & Hxid).
  destruct (list_elem_of_lookup_1 _ _ Hpk) as [k Hk]. pose proof (lookup_lt_Some _ _ _ Hk) as Hkl.
  assert (Hall : Forall (fun x => passed acc2' x.1 x.2) (po_pieces pk)).
  { apply (Hlet (length P + k)%nat pk); [apply Harr; rewrite Hlen, length_app; split; [lia|lia]|rewrite lookup_app_r by lia; by rewrite Nat.add_sub', Hk|rewrite Hlen, length_app; lia|].
    specialize (Hnew pk Hpk). lia. }
  destruct (posted_piece salt cap cap' (P ++ P') Q acc acc' _ _ pk x Hp1) as [Hxs Hxi]; [apply elem_of_app; by right|done|].
  rewrite Hsent in Hxs. destruct (pair_history _ _ _ _ _ _ _ _ _ Hp) as [[_ Ha _] _].
  destruct (piece_of_id _ s x.1 i x.2 Ha Hs Hxs Hi Hxi) as [-> ->]; [lia|]. by apply (proj1 (Forall_forall _ _) Hall).
Qed.
End invariant.

(** ** The properties *)

(** C9. Two endpoints never panic each other.  Start from two new endpoints of
    any good configurations that share a session's salt, and let anything
    happen, at either end and in any order: messages small and large are sent
    on any channels, packets are visited and handed to the network, empty
    packets are sent, any packet ever handed to the network arrives (late,
    again, or never), time passes, messages and acks are drained.  As long as
    the messages are within the bounds the code handles and the ids have not
    wrapped, every call returns: no assertion, index, unwrap or overflow
    fails, and every loop ends. *)
Theorem link_never_panics `{BP : BuildProfile, BO : ByteOrder, BL : !ByteOrderLaws BO, SM : SmallMap}
    left e l : reachable l -> allowed e (end_of left l) -> exists l', link_step left e l = Some l'.
Proof.
  intros Hl He. destruct (link_reachable_ok l Hl) as (salt & Hsalt & Hok).
  destruct (link_step_ok salt left e l Hsalt Hok He) as (l' & Hrun & _). by exists l'.
Qed.

(** C5. What arrives was sent, once.  However the network treats the packets,
    what the user of one end has received on a channel, in the order of
    arrival, are messages that the other end queued on that channel: the whole
    payload under the id that [send_message] gave it, fragmented or not, and
    no message twice.  This is for messages within the bounds the code
    handles, with ids below 32768, and packet ids up to 16000 ([allowed]);
    after the message ids wrap the filters accept duplicates. *)
Theorem link_delivers_at_most_once `{BP : BuildProfile, BO : ByteOrder, BL : !ByteOrderLaws BO, SM : SmallMap}
    left l c : reachable l ->
  exists ss, arrivals (end_of left l) c = arrival <$> ss /\ NoDup (s_id <$> ss) /\
    forall s, s ∈ ss -> s ∈ hf_sent (end_of (negb left) l) /\ s_channel s = c.
Proof. apply reachable_arrivals. Qed.

(** C8. Acks tell the truth.  However the network treats the packets, when an
    end reports a message as acked (to the user who drains the acks, or in the
    inbox the user may drain next), then it is a message that this end's user
    queued on that channel, and the other end has received it: its whole
    payload is among what arrived on the channel there.  This is while the
    sender's ids are within the first 10000 ([short]), the window of the
    channels' filters, beyond which a channel may discard what it acks. *)
Theorem link_acks_are_truthful `{BP : BuildProfile, BO : ByteOrder, BL : !ByteOrderLaws BO, SM : SmallMap}
    left l c id : reachable l -> short (hf_sent (end_of left l)) ->
  (c, id) ∈ hf_acked (end_of left l) \/ id ∈ inbox_of (ack_inbox (dispatcher (hf_ep (end_of left l)))) c ->
  exists s, s ∈ hf_sent (end_of left l) /\ s_id s = id /\ s_channel s = c /\
    arrival s ∈ arrivals (end_of (negb left) l) c.
Proof.
  intros Hl Hshort Hid. destruct (link_reachable_ok l Hl) as (salt & Hsalt & Hok).
  destruct (link_ends salt left l Hok) as (cap & cap' & P & Q & acc & acc' & Hp). pose proof Hp as [H1 H2].
  assert (Hconf : confirmed (hf_sent (end_of left l)) (has (hf_sent (end_of left l)) acc') c id).
  { destruct Hid as [Hid|Hid]; [by apply (ho_acked _ _ _ _ _ _ _ _ H1)|]. by apply (rp_inbox _ _ _ (sn_reports _ _ _ _ _ (ho_sending _ _ _ _ _ _ _ _ H1))). }
  destruct Hconf as (s & Hs & Hsid & Hsc & Harr). exists s. do 3 (split; [done|]).
  apply (arrived_arrival salt cap cap' P Q acc acc' _ _ s c Hp Hs Hsc). intros i Hi. by apply Harr.
Qed.

(** C7. No reliable message is forgotten.  However the network treats the
    packets, and whatever was acked, a message queued on the reliable channel
    either has arrived whole at the other end, or one of its pieces still waits
    in the sender's channel, with the bytes that are to be sent, so that it
    will be sent again.  This is while the sender's ids are within the first
    10000 ([short]), the window of the channels' filters, beyond which a
    channel may discard what it acks. *)
Theorem link_keeps_reliable_messages `{BP : BuildProfile, BO : ByteOrder, BL : !ByteOrderLaws BO, SM : SmallMap}
    left l s : reachable l -> short (hf_sent (end_of left l)) -> s ∈ hf_sent (end_of left l) -> s_channel s = 1 ->
  arrival s ∈ arrivals (end_of (negb left) l) 1 \/ waits (end_of left l) s.
Proof.
  intros Hl Hshort Hs Hc. destruct (link_reachable_ok l Hl) as (salt & Hsalt & Hok).
  destruct (link_ends salt left l Hok) as (cap & cap' & P & Q & acc & acc' & Hp).
  destruct (kept_or_waits salt cap cap' P Q acc acc' _ _ s Hp Hshort Hs Hc) as [Ha|Hw]; [left|by right].
  by apply (arrived_arrival salt cap cap' P Q acc acc' _ _ s 1 Hp).
Qed.

(** C6. Reliable messages arrive.  From any state of two endpoints, when every
    message that waits in the reliable channel of one is ready to be sent (its
    resend interval of 0.1 s has elapsed, [all_ready]), let its
    [visit_packets_to_send] hand out packets.  If afterwards neither end is
    350 packets behind with its acks, then once each of those packets has
    arrived at the other end, in any order, again and again, among any other
    events at both ends, every message that was queued on the reliable channel
    has arrived there, whatever was lost before.  This is for ids within the
    first 10000 ([short]), beyond which a channel may discard messages, and the
    packets must arrive before so many more are sent that the receiver finds
    them too old. *)
Theorem link_reliable_messages_arrive `{BP : BuildProfile, BO : ByteOrder, BL : !ByteOrderLaws BO, SM : SmallMap,
    SL : !SmallMapLaws SM} left l l1 es l2 s :
  reachable l -> all_ready (end_of left l) 1 -> allowed Visit (end_of left l) ->
  link_step left Visit l = Some l1 -> ~ window_full (hf_ep (end_of left l1)) ->
  link_run l1 es l2 -> short (hf_sent (end_of left l2)) ->
  (forall n, (length (hf_wire (end_of left l)) <= n < length (hf_wire (end_of left l1)))%nat -> (negb left, Arrive n) ∈ es) ->
  sequence_id (hf_ep (end_of left l2)) <=
    sequence_id (hf_ep (end_of left l)) + SeqBuf.len (received_buffer (hf_ep (end_of (negb left) l))) ->
  s ∈ hf_sent (end_of left l) -> s_channel s = 1 ->
  arrival s ∈ arrivals (end_of (negb left) l2) 1.
Proof. apply reachable_arrive. Qed.

(** A session in which the left end sends a message of three bytes in one
    packet, which arrives twice at the right, and the right end acks it. *)
Definition example_end : Half :=
  MkHalf (set_xor_salt (Some 7) (fresh_endpoint PicklebackConfig_default (f64_lit 1 1))) [] [] [] [].

(** A check that an event is [allowed]. *)
Definition allowed_now (e : Event) (h : Half) : bool :=
  match e with
  | SendMessage channel payload =>
      (0 <=? next_message_id (dispatcher (hf_ep h))) && (next_message_id (dispatcher (hf_ep h)) <? 1000) &&
      (0 <=? channel) && (channel <? 32) && (Z.of_nat (length payload) <=? 1024)
  | Visit => sequence_id (hf_ep h) <=? 15600
  | SendEmpty => sequence_id (hf_ep h) <? 16000
  | SendKeepalive index => (sequence_id (hf_ep h) <? 16000) && (0 <=? index) && (index <? 4294967296)
  | _ => true
  end.

Lemma allowed_now_ok e h : allowed_now e h = true -> @allowed debug_build e h.
Proof.
  destruct e as [channel payload| | |index|n|dt|channel|channel]; cbn -[Z.leb Z.ltb]; try done; [|lia..].
  intros Hb. assert (Hsmall : s_small (next_sent h channel payload) = true) by (unfold s_small, s_len; cbn; lia).
  split; cbn; unfold ID_LIMIT, MAX_CHANNELS, s_count; rewrite ?Hsmall; unfold s_len; cbn; lia.
Qed.

Fixpoint play_from (l : Half * Half) (es : list (bool * Event)) : option (Half * Half) :=
  match es with
  | [] => Some l
  | (from, e) :: es =>
      if allowed_now e (end_of from l)
      then l' ← @link_step debug_build big_endian elements_order from e l; play_from l' es
      else None
  end.

Definition play (es : list (bool * Event)) : option (Half * Half) := play_from (example_end, example_end) es.

Lemma play_run l es l2 : play_from l es = Some l2 -> @link_run debug_build big_endian elements_order l es l2.
Proof.
  revert l. induction es as [|[left e] es IH]; intros l; cbn [play_from]; [intros [= <-]; constructor|].
  destruct (allowed_now e (end_of left l)) eqn:Ha; [|done]. intros (l1 & Hl1 & Hrun)%bind_Some.
  econstructor; [by apply allowed_now_ok|exact Hl1|by apply IH].
Qed.


Lemma play_reachable es l : play es = Some l -> @reachable debug_build big_endian elements_order l.
Proof.
  intros Hp. apply (run_reachable _ _ _ (play_run _ _ _ Hp)).
  apply (reach_start PicklebackConfig_default (f64_lit 1 1) PicklebackConfig_default (f64_lit 1 1) 7);
    [lia|split; [apply default_good_config|split; [simpl; lia|eexists; split; [apply Pickleback_new_run|done]]]..].
Qed.

Definition example_events : list (bool * Event) :=
  [(true, SendMessage 1 [1; 2; 3]); (true, Visit); (false, Arrive 0%nat); (false, Arrive 0%nat);
   (false, SendEmpty); (false, Visit); (true, Arrive 0%nat); (true, DrainAcks 1)].

Lemma example_session : exists l, play example_events = Some l /\
  next_message_id (dispatcher (hf_ep l.2)) = 0 /\ arrivals l.2 1 = [(Some 0, [1; 2; 3])] /\ hf_acked l.1 = [(1, 0)] /\
  hf_sent l.1 = [MkSent 0 1 [1; 2; 3]].
Proof.
  assert (H : (fun l => (next_message_id (dispatcher (hf_ep l.2)), arrivals l.2 1, hf_acked l.1, hf_sent l.1)) <$> play example_events =
    Some (0, [(Some 0, [1; 2; 3])], [(1, 0)], [MkSent 0 1 [1; 2; 3]])) by (vm_compute; reflexivity).
  destruct (play example_events) as [l|]; [|done]. injection H as H1 H2 H3 H4. by exists l.
Qed.

Lemma link_never_panics_witness :
  exists l l', play example_events = Some l /\
    @link_step debug_build big_endian elements_order false (SendMessage 0 [1; 2; 3]) l = Some l'.
Proof.
  destruct example_session as (l & Hp & Hn & _). exists l.
  destruct (link_never_panics (BP:=debug_build) (BO:=big_endian) (BL:=big_endian_laws) (SM:=elements_order)
    false (SendMessage 0 [1; 2; 3]) l (play_reachable _ l Hp)) as (l' & Hrun).
  - apply allowed_now_ok. cbn [allowed_now end_of]. rewrite Hn. reflexivity.
  - exists l'. split; [exact Hp|exact Hrun].
Defined.

Lemma link_delivers_at_most_once_witness :
  exists l, play example_events = Some l /\ arrivals (end_of false l) 1 = [(Some 0, [1; 2; 3])] /\
    exists ss, arrivals (end_of false l) 1 = arrival <$> ss /\ NoDup (s_id <$> ss) /\
      forall s, s ∈ ss -> s ∈ hf_sent (end_of true l) /\ s_channel s = 1.
Proof.
  destruct example_session as (l & Hp & _ & Ha & _). exists l. split; [exact Hp|]. split; [exact Ha|].
  exact (link_delivers_at_most_once (BP:=debug_build) (BO:=big_endian) (BL:=big_endian_laws) (SM:=elements_order)
    false l 1 (play_reachable _ l Hp)).
Defined.

Lemma link_acks_are_truthful_witness :
  exists l, play example_events = Some l /\ hf_acked (end_of true l) = [(1, 0)] /\
    exists s, s ∈ hf_sent (end_of true l) /\ s_id s = 0 /\ s_channel s = 1 /\ arrival s ∈ arrivals (end_of false l) 1.
Proof.
  destruct example_session as (l & Hp & _ & _ & Hack & Hsent). exists l. split; [exact Hp|]. split; [exact Hack|].
  apply (link_acks_are_truthful (BP:=debug_build) (BO:=big_endian) (BL:=big_endian_laws) (SM:=elements_order)
    true l 1 0 (play_reachable _ l Hp)).
  - intros s. cbn [end_of]. rewrite Hsent. intros ->%list_elem_of_singleton. vm_compute. discriminate.
  - left. cbn [end_of]. rewrite Hack. apply list_elem_of_here.
Defined.

(** The packet is lost; a second later the message is sent again. *)
Definition lossy_events : list (bool * Event) := [(true, SendMessage 1 [1; 2; 3]); (true, Visit); (true, Tick (f64_lit 1 1))].

Definition later_events : list (bool * Event) := [(false, SendMessage 0 [5]); (false, Arrive 1%nat); (true, SendMessage 0 [6])].

(** What is seen of the session: before the second visit, and after. *)
Definition lossy_view (l l1 l2 : Half * Half) :=
  ((arrivals l.2 1, allowed_now Visit l.1,
    (fun ch => (@ch_ready debug_build big_endian _ _ Channel_laws ch,
                length (@ch_messages debug_build big_endian _ _ Channel_laws ch))) <$> channels (ep_channels (hf_ep l.1)) !! 1),
   (hf_sent l.1, hf_sent l2.1),
   (sent_unacked_packets (hf_ep l1.1), received_unacked_packets (hf_ep l1.1)),
   (length (hf_wire l.1), length (hf_wire l1.1)),
   (sequence_id (hf_ep l2.1), sequence_id (hf_ep l.1), SeqBuf.len (received_buffer (hf_ep l.2)))).

Lemma lossy_session : exists l l1 l2, play lossy_events = Some l /\
  @link_step debug_build big_endian elements_order true Visit l = Some l1 /\ play_from l1 later_events = Some l2 /\
  lossy_view l l1 l2 = (([], true, Some (1%nat, 1%nat)),
    ([MkSent 0 1 [1; 2; 3]], [MkSent 0 1 [1; 2; 3]; MkSent 1 0 [6]]), (2, 0), (1%nat, 2%nat), (2, 1, 512)).
Proof.
  assert (H : (l ← play lossy_events; l1 ← @link_step debug_build big_endian elements_order true Visit l;
               l2 ← play_from l1 later_events; Some (lossy_view l l1 l2)) = Some (([], true, Some (1%nat, 1%nat)),
    ([MkSent 0 1 [1; 2; 3]], [MkSent 0 1 [1; 2; 3]; MkSent 1 0 [6]]), (2, 0), (1%nat, 2%nat), (2, 1, 512))) by (vm_compute; reflexivity).
  apply bind_Some in H as (l & Hl & (l1 & Hl1 & (l2 & Hl2 & H)%bind_Some)%bind_Some). exists l, l1, l2.
  split; [exact Hl|]. split; [exact Hl1|]. split; [exact Hl2|]. exact (inj Some _ _ H).
Qed.

Lemma short_now G : forallb (fun s => s_id s + s_count s <=? 10000) G = true -> short G.
Proof. intros H s Hs. rewrite forallb_forall in H. apply Z.leb_le, H. by apply list_elem_of_In. Qed.

Lemma link_keeps_reliable_messages_witness :
  exists l, play lossy_events = Some l /\ arrivals (end_of false l) 1 = [] /\
    (arrival (MkSent 0 1 [1; 2; 3]) ∈ arrivals (end_of false l) 1 \/
     @waits debug_build big_endian (end_of true l) (MkSent 0 1 [1; 2; 3])).
Proof.
  destruct lossy_session as (l & l1 & l2 & Hl & _ & _ & Hv). exists l. split; [exact Hl|].
  injection Hv as Ha _ _ Hs _ _ _ _ _ _ _ _. split; [exact Ha|].
  apply (link_keeps_reliable_messages (BP:=debug_build) (BO:=big_endian) (BL:=big_endian_laws) (SM:=elements_order)
    true l _ (play_reachable _ l Hl)); [..|reflexivity].
  - apply short_now. cbn [end_of]. rewrite Hs. reflexivity.
  - cbn [end_of]. rewrite Hs. apply list_elem_of_here.
Defined.

Lemma link_reliable_messages_arrive_witness :
  exists l l1 l2, play lossy_events = Some l /\ arrivals (end_of false l) 1 = [] /\
    @link_step debug_build big_endian elements_order true Visit l = Some l1 /\ play_from l1 later_events = Some l2 /\
    arrival (MkSent 0 1 [1; 2; 3]) ∈ arrivals (end_of false l2) 1.
Proof.
  destruct lossy_session as (l & l1 & l2 & Hl & Hl1 & Hl2 & Hv). exists l, l1, l2. split; [exact Hl|].
  injection Hv as Ha Hnow Hready Hs Hs2 Hu1 Hu2 Hw Hw1 Hq2 Hq Hcap. split; [exact Ha|]. split; [exact Hl1|]. split; [exact Hl2|].
  apply (link_reliable_messages_arrive (BP:=debug_build) (BO:=big_endian) (BL:=big_endian_laws) (SM:=elements_order)
    (SL:=elements_order_laws) true l l1 later_events l2 (MkSent 0 1 [1; 2; 3]) (play_reachable _ l Hl)).
  - intros ch Hch. cbn [end_of] in Hch. rewrite Hch in Hready. injection Hready as H1 H2. exact (eq_trans H1 (eq_sym H2)).
  - apply allowed_now_ok. exact Hnow.
  - exact Hl1.
  - unfold window_full. cbn [end_of]. rewrite Hu1, Hu2. unfold MAX_UNACKED_PACKETS, MAX_ACK_BYTES. clear. lia.
  - by apply play_run.
  - apply short_now. cbn [end_of]. rewrite Hs2. reflexivity.
  - intros n Hn. cbn [end_of] in Hn. rewrite Hw, Hw1 in Hn. assert (n = 1%nat) as -> by lia. right. apply list_elem_of_here.
  - cbn [end_of negb]. rewrite Hq2, Hq, Hcap. lia.
  - cbn [end_of]. rewrite Hs. apply list_elem_of_here.
  - reflexivity.
Defined.
