(* ===== verification/Client.v ===== *)
(** * The client ([client.rs])

    The client's end of a connection: the handshake with a server, keep-alives
    and timeouts around one endpoint. *)

From S2P Require Import Prelude Floats Types SequenceBuffer Cursor BufferPool AckHeader Message Packets Reassembler Channel Dispatcher Endpoint.

(** [std::net::SocketAddr]. *)
Inductive SocketAddr :=
| V4 (ip port : Z)
| V6 (ip port flowinfo scope_id : Z).

#[export] Instance SocketAddr_eq_dec : EqDecision SocketAddr.
Proof. solve_decision. Defined.

Inductive ClientState :=
| SendingConnectionRequest
| SendingChallengeResponse
| Connected
| Disconnected (reason : DisconnectReason)
| SelfInitiatedDisconnect.

#[export] Instance ClientState_eq_dec : EqDecision ClientState.
Proof. solve_decision. Defined.

Definition is_disconnected (s : ClientState) : bool := match s with Disconnected _ => true | _ => false end.

Record PicklebackClient := MkClient {
  c_time : f64;
  state : ClientState;
  client_salt : option Z;
  server_salt : option Z;
  c_xor_salt : option Z;
  proto_last_send : f64;
  last_receive_time : f64;
  last_send_time : f64;
  pickleback : Pickleback;
  server_addr : option SocketAddr;
  state_transitions : list ClientState;
}.

(** Writes to one field. *)
Definition set_c_time v c := MkClient v (state c) (client_salt c) (server_salt c) (c_xor_salt c) (proto_last_send c)
  (last_receive_time c) (last_send_time c) (pickleback c) (server_addr c) (state_transitions c).
Definition set_state v c := MkClient (c_time c) v (client_salt c) (server_salt c) (c_xor_salt c) (proto_last_send c)
  (last_receive_time c) (last_send_time c) (pickleback c) (server_addr c) (state_transitions c).
Definition set_client_salt v c := MkClient (c_time c) (state c) v (server_salt c) (c_xor_salt c) (proto_last_send c)
  (last_receive_time c) (last_send_time c) (pickleback c) (server_addr c) (state_transitions c).
Definition set_server_salt v c := MkClient (c_time c) (state c) (client_salt c) v (c_xor_salt c) (proto_last_send c)
  (last_receive_time c) (last_send_time c) (pickleback c) (server_addr c) (state_transitions c).
Definition set_c_xor_salt v c := MkClient (c_time c) (state c) (client_salt c) (server_salt c) v (proto_last_send c)
  (last_receive_time c) (last_send_time c) (pickleback c) (server_addr c) (state_transitions c).
Definition set_proto_last_send v c := MkClient (c_time c) (state c) (client_salt c) (server_salt c) (c_xor_salt c) v
  (last_receive_time c) (last_send_time c) (pickleback c) (server_addr c) (state_transitions c).
Definition set_last_receive_time v c := MkClient (c_time c) (state c) (client_salt c) (server_salt c) (c_xor_salt c)
  (proto_last_send c) v (last_send_time c) (pickleback c) (server_addr c) (state_transitions c).
Definition set_last_send_time v c := MkClient (c_time c) (state c) (client_salt c) (server_salt c) (c_xor_salt c)
  (proto_last_send c) (last_receive_time c) v (pickleback c) (server_addr c) (state_transitions c).
Definition set_pickleback v c := MkClient (c_time c) (state c) (client_salt c) (server_salt c) (c_xor_salt c)
  (proto_last_send c) (last_receive_time c) (last_send_time c) v (server_addr c) (state_transitions c).
Definition set_server_addr v c := MkClient (c_time c) (state c) (client_salt c) (server_salt c) (c_xor_salt c)
  (proto_last_send c) (last_receive_time c) (last_send_time c) (pickleback c) v (state_transitions c).
Definition set_state_transitions v c := MkClient (c_time c) (state c) (client_salt c) (server_salt c) (c_xor_salt c)
  (proto_last_send c) (last_receive_time c) (last_send_time c) (pickleback c) (server_addr c) v.

Section operations.
Context `{BP : BuildProfile, BO : ByteOrder, SM : SmallMap}.

Definition on_pickleback {A} : M Pickleback A -> M PicklebackClient A := st_zoom pickleback set_pickleback.

Definition zero : f64 := S754_zero false.

Definition PicklebackClient_new (time : f64) (cfg : PicklebackConfig) : option PicklebackClient :=
  p ← Pickleback_new cfg zero;
  Some {|
    c_time := time; state := Disconnected Normal; client_salt := None; server_salt := None; c_xor_salt := None;
    proto_last_send := zero; last_receive_time := zero; last_send_time := zero;
    pickleback := p; server_addr := None; state_transitions := [];
  |}.

Definition client_reset : M PicklebackClient unit :=
  c ← st_get;
  p ← st_lift (Pickleback_new (config (pickleback c)) zero);
  st_put {|
    c_time := c_time c; state := state c; client_salt := None; server_salt := None; c_xor_salt := None;
    proto_last_send := zero; last_receive_time := zero; last_send_time := zero;
    pickleback := p; server_addr := None; state_transitions := state_transitions c;
  |}.

Definition state_transition (new_state : ClientState) : M PicklebackClient unit :=
  st_modify (set_state new_state);;
  st_modify (set_proto_last_send zero);;
  c ← st_get;
  on_pickleback (st_modify (set_xor_salt (c_xor_salt c)));;
  (if is_disconnected new_state then client_reset else mret tt);;
  st_modify (fun c => set_state_transitions (state_transitions c ++ [new_state]) c).

Definition client_update (dt : f64) : M PicklebackClient unit :=
  st_modify (fun c => set_c_time (f64_add (c_time c) dt) c);;
  on_pickleback (update dt);;
  c ← st_get;
  if negb (is_disconnected (state c)) && f_gt (f64_sub (c_time c) (last_receive_time c)) CONNECTION_TIMEOUT
  then state_transition (Disconnected TimedOut)
  else mret tt.

Definition disconnect : M PicklebackClient unit :=
  c ← st_get;
  match state c with
  | Connected | SendingChallengeResponse => state_transition SelfInitiatedDisconnect
  | _ => state_transition (Disconnected Normal)
  end.

(** [rand::random::<u64>()] is the argument [salt]. *)
Definition connect (salt : Z) (addr : SocketAddr) : M PicklebackClient unit :=
  st_modify (set_server_addr (Some addr));;
  st_modify (set_server_salt None);;
  st_modify (set_c_xor_salt None);;
  st_modify (set_client_salt (Some salt));;
  state_transition SendingConnectionRequest.

Definition client_send (packet : ProtocolPacket) : M PicklebackClient unit :=
  on_pickleback (send_packet packet);;
  st_modify (fun c => set_last_send_time (c_time c) c).

(** [if let Ok(header) = next_packet_header(t) { if send(..).is_ok() .. }]:
    whether the packet was sent. *)
Definition send_with_header (t : PacketType) (packet : ProtocolPacketHeader -> PicklebackClient -> option ProtocolPacket)
  : M PicklebackClient bool :=
  header ← st_try (on_pickleback (next_packet_header t));
  match header with
  | Ok header =>
      c ← st_get;
      p ← st_lift (packet header c);
      sent ← st_try (client_send p);
      mret (match sent with Ok _ => true | Err _ => false end)
  | Err _ => mret false
  end.

Definition disconnect_packet (header : ProtocolPacketHeader) (c : PicklebackClient) : option ProtocolPacket :=
  salt ← c_xor_salt c; Some (Disconnect {| dp_header := header; dp_xor_salt := salt |}).
Definition request_packet (header : ProtocolPacketHeader) (c : PicklebackClient) : option ProtocolPacket :=
  salt ← client_salt c;
  Some (ConnectionRequest {| crq_header := header; crq_client_salt := salt; protocol_version := PROTOCOL_VERSION |}).
Definition response_packet (header : ProtocolPacketHeader) (c : PicklebackClient) : option ProtocolPacket :=
  salt ← c_xor_salt c; Some (ConnectionChallengeResponse {| ccr_header := header; ccr_xor_salt := salt |}).
Definition keepalive_packet (header : ProtocolPacketHeader) (c : PicklebackClient) : option ProtocolPacket :=
  salt ← c_xor_salt c; Some (KeepAlive {| ka_header := header; ka_xor_salt := salt; ka_client_index := 0 |}).

Definition is_some {A} (o : option A) : bool := match o with Some _ => true | None => false end.

(** The handshake part of [visit_packets_to_send]: [keepalive_needed]. *)
Definition send_protocol_packets : M PicklebackClient bool :=
  c ← st_get;
  let resend := f_lt (proto_last_send c) (f64_sub (c_time c) HANDSHAKE_RESEND_INTERVAL) in
  let mark_sent (sent : bool) : M PicklebackClient bool :=
    (if sent then st_modify (fun c => set_proto_last_send (c_time c) c) else mret tt);; mret false in
  match state c with
  | SelfInitiatedDisconnect =>
      if is_some (c_xor_salt c) then
        st_for (seq 0 10) (fun _ => send_with_header TDisconnect disconnect_packet;; mret tt);;
        state_transition (Disconnected Normal);;
        mret false
      else mret false
  | SendingConnectionRequest =>
      if resend then sent ← send_with_header TConnectionRequest request_packet; mark_sent sent else mret false
  | SendingChallengeResponse =>
      if resend && is_some (c_xor_salt c)
      then sent ← send_with_header TConnectionChallengeResponse response_packet; mark_sent sent
      else mret false
  | Connected => mret (f_ge (f64_sub (c_time c) (last_send_time c)) KEEPALIVE_INTERVAL)
  | Disconnected _ => mret false
  end.

(** [visit_packets_to_send]: what [send_fn] is called with, in order. *)
Definition client_visit_packets_to_send : M PicklebackClient (list (SocketAddr * list Z)) :=
  c ← st_get;
  match server_addr c with
  | None => mret []
  | Some server_addr =>
      keepalive_needed ← send_protocol_packets;
      packets ← on_pickleback visit_packets_to_send;
      if (Nat.eqb (length packets) 0) && keepalive_needed then
        send_with_header TKeepAlive keepalive_packet;;
        packets ← on_pickleback visit_packets_to_send;
        mret ((fun p => (server_addr, p)) <$> packets)
      else mret ((fun p => (server_addr, p)) <$> packets)
  end.

Definition client_process (header : ProtocolPacketHeader) : M (PicklebackClient * Cursor) unit :=
  st_zoom (fun '(c, cur) => (pickleback c, cur)) (fun '(p, cur) '(c, _) => (set_pickleback p c, cur))
    (process_incoming_packet header).

(** The [match packet]: the new state, if any. *)
Definition handle_packet (packet : ProtocolPacket) : M (PicklebackClient * Cursor) (option ClientState) :=
  '(c, _) ← st_get;
  match packet, state c with
  | ConnectionChallenge p, SendingConnectionRequest =>
      match client_salt c with
      | Some self_client_salt =>
          if negb (self_client_salt =? cch_client_salt p) then st_throw InvalidPacket
          else
            st_fst (st_modify (set_server_salt (Some (cch_server_salt p))));;
            st_fst (st_modify (set_c_xor_salt (Some (Z.lxor (cch_server_salt p) self_client_salt))));;
            client_process (cch_header p);;
            mret (Some SendingChallengeResponse)
      | None => mret None
      end
  | ConnectionDenied p, (SendingConnectionRequest | SendingChallengeResponse) =>
      st_fst (st_modify (set_server_salt None));;
      st_fst (st_modify (set_c_xor_salt None));;
      mret (Some (Disconnected (reason p)))
  | KeepAlive p, (Connected | SendingChallengeResponse) =>
      if bool_decide (c_xor_salt c = Some (ka_xor_salt p)) then
        st_fst (st_modify (fun c => set_last_receive_time (c_time c) c));;
        client_process (ka_header p);;
        '(c, _) ← st_get;
        mret (if bool_decide (state c = SendingChallengeResponse) then Some Connected else None)
      else mret None
  | Messages p, Connected =>
      (if bool_decide (c_xor_salt c = Some (mp_xor_salt p)) then client_process (mp_header p) else mret tt);;
      mret None
  | _, _ => mret None
  end.

Definition client_receive (packet : list Z) (source : SocketAddr) : M PicklebackClient unit :=
  c ← st_get;
  match server_addr c with
  | None => mret tt
  | Some server_addr =>
      if negb (bool_decide (server_addr = source)) then st_throw SocketAddrMismatch
      else
        '(_, new_state) ← st_with (Cursor_new packet)
          (packet ← st_snd read_packet;
           st_fst (st_modify (fun c => set_last_receive_time (c_time c) c));;
           handle_packet packet);
        match new_state with
        | Some new_state => state_transition new_state
        | None => mret tt
        end
  end.

Definition client_drain_state_transitions : M PicklebackClient (list ClientState) :=
  c ← st_get;
  st_put (set_state_transitions [] c);;
  mret (state_transitions c).

Definition client_drain_message_acks (channel : Z) : M PicklebackClient (list MessageId) :=
  on_pickleback (drain_message_acks channel).

Definition client_drain_received_messages (channel : Z) : M PicklebackClient ReceivedMessagesContainer :=
  on_pickleback (drain_received_messages channel).
End operations.
