(* ===== verification/ClientFacts.v ===== *)
(** * The client's state machine: proofs about [client.rs] *)

From S2P Require Import Prelude Floats Types SequenceBuffer Cursor BufferPool AckHeader Message Packets Reassembler Channel Dispatcher Endpoint Compose Client.

(** ** What an endpoint's operations leave alone *)
Section keeps.
Context `{BP : BuildProfile, BO : ByteOrder, SM : SmallMap}.

Lemma keeps_fst {S T A X} (f : S -> X) (m : M S A) : keeps f m -> keeps (fun p : S * T => f p.1) (st_fst m).
Proof.
  intros Hm [s t] [s' t'] r. unfold st_fst, st_zoom. cbn [fst snd].
  destruct (m s) as [[s1 x]|] eqn:Hs; [|done]. intros [= <- _ _]. by eapply Hm.
Qed.

Lemma keeps_with {S W A X} (f : S -> X) (w : W) (m : M (S * W) A) :
  keeps (fun p : S * W => f p.1) m -> keeps f (st_with w m).
Proof.
  intros Hm s s' r. unfold st_with. destruct (m (s, w)) as [[[s1 w1] [a|e]]|] eqn:Hs; [| |done];
    intros [= <- _]; by apply (Hm _ _ _ Hs).
Qed.

Ltac fixed_tac := repeat first [progress keeps_tac | apply keeps_fst | apply keeps_with].

(** The salt and the configuration of an endpoint. *)
Definition fixed (p : Pickleback) : option Z * PicklebackConfig := (xor_salt p, config p).
Abbreviation fixed1 := (fun p => fixed p.1).

Lemma next_packet_header_fixed t : keeps fixed (next_packet_header t).
Proof. unfold next_packet_header. fixed_tac. Qed.
Hint Resolve next_packet_header_fixed : keeps.

Lemma send_raw_packet_fixed b : keeps fixed (send_raw_packet b).
Proof. unfold send_raw_packet, on_sent_buffer, modify_stats. fixed_tac. Qed.
Hint Resolve send_raw_packet_fixed : keeps.

Lemma send_packet_fixed p : keeps fixed (send_packet p).
Proof. unfold send_packet, on_pool_field. fixed_tac. Qed.

Lemma write_packet_header_fixed `{Write W} : keeps (X:=option Z * PicklebackConfig) (fun p : Pickleback * W => fixed p.1) write_packet_header.
Proof. unfold write_packet_header, st_snd. fixed_tac. Qed.
Hint Resolve write_packet_header_fixed : keeps.

Lemma pack_channel_fixed id : keeps (fun p : Pickleback * Locals => fixed p.1) (pack_channel id).
Proof.
  intros [self l] s' r. unfold pack_channel. destruct (ChannelList_get _ _); [|done]. destruct (l_writer l); [|done].
  destruct (write_channel_messages_to_packet _) as [[p x]|]; [|done]. by intros [= <- _].
Qed.
Hint Resolve pack_channel_fixed : keeps.

Lemma fill_packet_fixed fuel : keeps (fun p : Pickleback * Locals => fixed p.1) (fill_packet fuel).
Proof. induction fuel as [|fuel IH]; cbn [fill_packet]; unfold modify_stats; fixed_tac. Qed.
Hint Resolve fill_packet_fixed : keeps.

Lemma start_packet_fixed : keeps (fun p : Pickleback * Locals => fixed p.1) start_packet.
Proof. unfold start_packet, on_pool_field, st_snd. fixed_tac. Qed.
Hint Resolve start_packet_fixed : keeps.

Lemma finish_packet_fixed : keeps (fun p : Pickleback * Locals => fixed p.1) finish_packet.
Proof. unfold finish_packet, on_dispatcher, st_snd. fixed_tac. Qed.
Hint Resolve finish_packet_fixed : keeps.

Lemma compose_loop_fixed fuel : keeps (fun p : Pickleback * Locals => fixed p.1) (compose_loop fuel).
Proof. induction fuel as [|fuel IH]; cbn [compose_loop]; fixed_tac. Qed.
Hint Resolve compose_loop_fixed : keeps.

Lemma visit_packets_to_send_fixed : keeps fixed visit_packets_to_send.
Proof. unfold visit_packets_to_send, compose_packets, on_pool_field. fixed_tac. Qed.

Lemma update_fixed dt : keeps fixed (update dt).
Proof. unfold update. fixed_tac. Qed.

Lemma process_ack_fixed t a : keeps fixed (process_ack t a).
Proof.
  unfold process_ack, on_sent_buffer, modify_stats, on_dispatcher_channels, on_pool_field. destruct a as [k b].
  fixed_tac; apply keeps_zoom; intros [] ?; reflexivity.
Qed.
Hint Resolve process_ack_fixed : keeps.

Lemma update_packet_loss_fixed : keeps fixed update_packet_loss_calculation.
Proof.
  intros s s' r. unfold update_packet_loss_calculation. rewrite run_get. unfold mbind, ST_bind, st_lift, st_asks.
  destruct (sample_loss _ _ _ _ _ _) as [[na ns]|]; [|done]. destruct (ns =? 0); by intros [= <- _].
Qed.
Hint Resolve update_packet_loss_fixed : keeps.

Lemma process_packet_acks_fixed h : keeps fixed (process_packet_acks_and_rtt h).
Proof. unfold process_packet_acks_and_rtt. fixed_tac. Qed.
Hint Resolve process_packet_acks_fixed : keeps.

Lemma deliver_message_fixed m : keeps fixed (deliver_message m).
Proof. unfold deliver_message, on_dispatcher. fixed_tac. Qed.
Hint Resolve deliver_message_fixed : keeps.

Lemma read_messages_fixed fuel : keeps (fun p : Pickleback * Cursor => fixed p.1) (read_messages fuel).
Proof.
  induction fuel as [|fuel IH]; cbn [read_messages]; unfold modify_stats; fixed_tac;
    apply keeps_zoom; intros [] []; reflexivity.
Qed.
Hint Resolve read_messages_fixed : keeps.

Lemma process_incoming_packet_fixed h : keeps (fun p : Pickleback * Cursor => fixed p.1) (process_incoming_packet h).
Proof. unfold process_incoming_packet, modify_stats, on_received_buffer. fixed_tac. Qed.
End keeps.

(** ** The state machine *)
Section machine.
Context `{BP : BuildProfile, BO : ByteOrder, SM : SmallMap}.

(** What the handshake depends on. *)
Definition client_view (c : PicklebackClient) :=
  (state c, server_addr c, client_salt c, server_salt c, c_xor_salt c, fixed (pickleback c)).

(** In every state but [Disconnected] there is a server; past the challenge
    both salts are known, and the session's salt is their exclusive or, for
    the client and for its endpoint. *)
Definition client_ok (c : PicklebackClient) : Prop :=
  match state c with
  | Disconnected _ => server_addr c = None /\ client_salt c = None /\ c_xor_salt c = None
  | SendingConnectionRequest => is_Some (server_addr c) /\ is_Some (client_salt c)
  | SendingChallengeResponse | Connected | SelfInitiatedDisconnect =>
      is_Some (server_addr c) /\ exists a b, client_salt c = Some a /\ server_salt c = Some b /\
        c_xor_salt c = Some (Z.lxor b a) /\ xor_salt (pickleback c) = Some (Z.lxor b a)
  end.

Lemma client_ok_view c c' : client_view c' = client_view c -> client_ok c -> client_ok c'.
Proof. unfold client_view, client_ok, fixed. intros [= -> -> -> -> -> -> _]. done. Qed.

Lemma on_pickleback_view {A} (m : M Pickleback A) : keeps fixed m -> keeps client_view (on_pickleback m).
Proof.
  intros Hm c c' r. unfold on_pickleback, st_zoom. destruct (m (pickleback c)) as [[p x]|] eqn:Hp; [|done].
  intros [= <- _]. unfold client_view. simpl. by rewrite (Hm _ _ _ Hp).
Qed.

(** A change of state. *)
Lemma state_transition_run ns c c' r : state_transition ns c = Some (c', r) ->
  r = Ok tt /\ state c' = ns /\
  if is_disconnected ns then server_addr c' = None /\ client_salt c' = None /\ c_xor_salt c' = None
  else server_addr c' = server_addr c /\ client_salt c' = client_salt c /\ server_salt c' = server_salt c /\
    c_xor_salt c' = c_xor_salt c /\ xor_salt (pickleback c') = c_xor_salt c.
Proof.
  unfold state_transition. do 2 run_done. rewrite run_get. run_done.
  destruct (is_disconnected ns).
  - unfold client_reset. rewrite run_assoc, run_get. unfold mbind, ST_bind, st_lift, st_asks.
    destruct (Pickleback_new _ _) as [p|]; [|done]. cbn. by intros [= <- <-].
  - run_done. by intros [= <- <-].
Qed.

Lemma client_send_view p : keeps client_view (client_send p).
Proof. unfold client_send. apply keeps_bind; [apply on_pickleback_view, send_packet_fixed|intros ?; by apply keeps_modify]. Qed.

Lemma send_with_header_view t packet : keeps client_view (send_with_header t packet).
Proof.
  unfold send_with_header. apply keeps_bind; [apply keeps_try, on_pickleback_view, next_packet_header_fixed|].
  intros [h|e]; [|apply keeps_ret]. apply keeps_bind; [apply keeps_get|intros c]. apply keeps_bind; [apply keeps_lift|intros p].
  apply keeps_bind; [apply keeps_try, client_send_view|intros ?; apply keeps_ret].
Qed.

(** The calls of a client's user. *)
Inductive client_call :=
| CallUpdate (dt : f64)
| CallDisconnect
| CallConnect (salt : Z) (addr : SocketAddr)
| CallVisit
| CallReceive (packet : list Z) (source : SocketAddr).

Definition run_client (call : client_call) : M PicklebackClient unit :=
  match call with
  | CallUpdate dt => client_update dt
  | CallDisconnect => disconnect
  | CallConnect salt addr => connect salt addr
  | CallVisit => client_visit_packets_to_send;; mret tt
  | CallReceive packet source => client_receive packet source
  end.

(** The state a packet of the server takes the client to. *)
Inductive packet_moves (c : PicklebackClient) : ProtocolPacket -> ClientState -> Prop :=
| challenged p : state c = SendingConnectionRequest -> client_salt c = Some (cch_client_salt p) ->
    packet_moves c (ConnectionChallenge p) SendingChallengeResponse
| denied p : state c = SendingConnectionRequest \/ state c = SendingChallengeResponse ->
    packet_moves c (ConnectionDenied p) (Disconnected (reason p))
| confirmed p : state c = SendingChallengeResponse -> c_xor_salt c = Some (ka_xor_salt p) ->
    packet_moves c (KeepAlive p) Connected.

(** The states a call may lead to. *)
Definition legal (call : client_call) (c : PicklebackClient) (new : ClientState) : Prop :=
  new = state c \/
  match call with
  | CallUpdate _ => new = Disconnected TimedOut
  | CallDisconnect => new = Disconnected Normal \/
      (new = SelfInitiatedDisconnect /\ (state c = Connected \/ state c = SendingChallengeResponse))
  | CallConnect _ _ => new = SendingConnectionRequest
  | CallVisit => new = Disconnected Normal /\ state c = SelfInitiatedDisconnect
  | CallReceive packet source => server_addr c = Some source /\
      exists cur p, read_packet (Cursor_new packet) = Some (cur, Ok p) /\ packet_moves c p new
  end.

(** The session's salt does not change while connected. *)
Definition same_session (c c' : PicklebackClient) : Prop := state c' = Connected -> c_xor_salt c' = c_xor_salt c.

Definition steps_to (call : client_call) (c c' : PicklebackClient) : Prop :=
  client_ok c' /\ legal call c (state c') /\ same_session c c'.

Lemma steps_view call c c' : client_ok c -> client_view c' = client_view c -> steps_to call c c'.
Proof. intros Hok Hv. split; [by eapply client_ok_view|]. split; [left; by injection Hv|]. intros _. by injection Hv. Qed.

(** A step to a state other than [Connected]. *)
Lemma steps_away call c c' : client_ok c' -> legal call c (state c') -> state c' <> Connected -> steps_to call c c'.
Proof. intros Hok Hl Hs. split; [done|]. split; [done|]. intros Hc. by destruct Hs. Qed.

Lemma disconnected_ok reason c c' r : state_transition (Disconnected reason) c = Some (c', r) ->
  client_ok c' /\ state c' = Disconnected reason.
Proof. intros (_ & Hs & H)%state_transition_run. split; [|done]. unfold client_ok. by rewrite Hs. Qed.

Lemma update_steps dt c c' r : client_ok c -> client_update dt c = Some (c', r) -> steps_to (CallUpdate dt) c c'.
Proof.
  intros Hok. unfold client_update. run_done. intros [(c1 & [] & H1 & H2)|(e & H & _)]%run_bind_inv.
  - apply (on_pickleback_view _ (update_fixed dt)) in H1. rewrite run_get in H2.
    destruct (negb _ && _).
    + apply disconnected_ok in H2 as [Hok' Hs]. apply steps_away; [done|by right|congruence].
    + injection H2 as <- _. by apply steps_view.
  - apply (on_pickleback_view _ (update_fixed dt)) in H. by apply steps_view.
Qed.

Lemma disconnect_steps c c' r : client_ok c -> disconnect c = Some (c', r) -> steps_to CallDisconnect c c'.
Proof.
  intros Hok. unfold disconnect. rewrite run_get. destruct (state c) eqn:Hs.
  1, 4, 5: intros [Hok' Hs']%disconnected_ok; apply steps_away; [done|right; by left|congruence].
  all: intros (_ & Hs' & Ha & Hc & Hss & Hx & Hp)%state_transition_run; unfold client_ok in Hok; rewrite Hs in Hok;
    destruct Hok as (Haddr & a & b & H1 & H2 & H3 & H4); apply steps_away; [|right; right; split; [done|]; rewrite Hs; auto|congruence];
    unfold client_ok; rewrite Hs', Ha, Hc, Hss, Hx, Hp; split; [done|]; rewrite H3; eauto 10.
Qed.

Lemma connect_steps salt addr c c' r : connect salt addr c = Some (c', r) -> steps_to (CallConnect salt addr) c c'.
Proof.
  unfold connect. do 4 run_done. intros (_ & Hs' & Ha & Hc & _)%state_transition_run.
  apply steps_away; [|by right|congruence]. unfold client_ok. rewrite Hs', Ha, Hc. simpl. eauto.
Qed.

Lemma send_protocol_steps c c1 r : send_protocol_packets c = Some (c1, r) ->
  client_view c1 = client_view c \/
  (state c = SelfInitiatedDisconnect /\ client_ok c1 /\ state c1 = Disconnected Normal).
Proof.
  unfold send_protocol_packets. rewrite run_get.
  assert (Hmark : forall (b : bool) t pk, keeps client_view (sent ← send_with_header t pk;
    (if sent : bool then st_modify (fun c => set_proto_last_send (c_time c) c) else mret tt);; mret b)).
  { intros b t pk. apply keeps_bind; [apply send_with_header_view|intros sent].
    apply keeps_bind; [destruct sent; [by apply keeps_modify|apply keeps_ret]|intros ?; apply keeps_ret]. }
  destruct (state c) eqn:Hs.
  - destruct (f_lt _ _); [intros H; left; by eapply Hmark in H|intros [= <- _]; by left].
  - destruct (f_lt _ _ && _); [intros H; left; by eapply Hmark in H|intros [= <- _]; by left].
  - intros [= <- _]. by left.
  - intros [= <- _]. by left.
  - destruct (is_some (c_xor_salt c)); [|intros [= <- _]; by left].
    assert (Hloop : keeps client_view (st_for (seq 0 10) (fun _ => send_with_header TDisconnect disconnect_packet;; mret tt))).
    { apply keeps_for. intros ?. apply keeps_bind; [apply send_with_header_view|intros ?; apply keeps_ret]. }
    intros [(c2 & [] & H1 & H2)|(e & H & _)]%run_bind_inv; [|left; by apply Hloop in H].
    apply run_bind_inv in H2 as [(c3 & [] & H2 & H3)|(e & H2 & _)]; apply disconnected_ok in H2 as [Hok Hs'];
      [injection H3 as <- _|]; by right.
Qed.

Lemma visit_steps c c' r : client_ok c -> client_visit_packets_to_send c = Some (c', r) -> steps_to CallVisit c c'.
Proof.
  intros Hok. unfold client_visit_packets_to_send. rewrite run_get.
  destruct (server_addr c) as [addr|]; [|intros [= <- _]; by apply steps_view].
  assert (Hrest : forall keep, keeps client_view (packets ← on_pickleback visit_packets_to_send;
    if (Nat.eqb (length packets) 0) && keep then
      send_with_header TKeepAlive keepalive_packet;;
      packets ← on_pickleback visit_packets_to_send;
      mret ((fun p => (addr, p)) <$> packets)
    else mret ((fun p => (addr, p)) <$> packets))).
  { intros keep. apply keeps_bind; [apply on_pickleback_view, visit_packets_to_send_fixed|intros packets].
    destruct (_ && keep); [|apply keeps_ret]. apply keeps_bind; [apply send_with_header_view|intros ?].
    apply keeps_bind; [apply on_pickleback_view, visit_packets_to_send_fixed|intros ?; apply keeps_ret]. }
  assert (Hall : forall c1 r1, send_protocol_packets c = Some (c1, r1) -> client_view c' = client_view c1 -> steps_to CallVisit c c').
  { intros c1 r1 Hsend Hv. apply send_protocol_steps in Hsend as [Hv1|(Hs & Hok1 & Hs1)].
    - apply steps_view; [done|congruence].
    - assert (Hst : state c' = Disconnected Normal) by (injection Hv as Hst; congruence).
      apply steps_away; [by eapply client_ok_view|by right|congruence]. }
  intros [(c1 & keep & H1 & H2)|(e & H & _)]%run_bind_inv; [|by eapply Hall].
  eapply Hall; [exact H1|]. by eapply Hrest.
Qed.

Lemma client_process_view h : keeps (fun p : PicklebackClient * Cursor => client_view p.1) (client_process h).
Proof.
  intros [c cur] [c' cur'] r. unfold client_process, st_zoom. cbn beta iota.
  destruct (process_incoming_packet h (pickleback c, cur)) as [[[p cur1] x]|] eqn:Hp; [|done]. intros [= <- _ _].
  apply process_incoming_packet_fixed in Hp. cbn [fst] in Hp. unfold client_view. simpl. by rewrite Hp.
Qed.

(** Handling a packet: what is left for the transition that may follow. *)
Definition handled (p : ProtocolPacket) (c c1 : PicklebackClient) (r : result (option ClientState) PicklebackError) : Prop :=
  match r with
  | Ok (Some new) => packet_moves c p new /\
      (is_disconnected new = false -> is_Some (server_addr c1) /\ exists a b, client_salt c1 = Some a /\
        server_salt c1 = Some b /\ c_xor_salt c1 = Some (Z.lxor b a) /\
        (new = Connected -> c_xor_salt c1 = c_xor_salt c))
  | _ => client_ok c1 /\ state c1 = state c /\ (state c = Connected -> c_xor_salt c1 = c_xor_salt c)
  end.

Lemma handled_view p c c1 r : client_ok c -> client_view c1 = client_view c ->
  match r with Ok (Some _) => False | _ => True end -> handled p c c1 r.
Proof.
  intros Hok Hv Hr. assert (client_ok c1 /\ state c1 = state c /\ c_xor_salt c1 = c_xor_salt c) as (? & ? & ?)
    by (split; [by eapply client_ok_view|by injection Hv]).
  by destruct r as [[?|]|].
Qed.

Lemma handle_packet_run p c cur c1 cur1 r : client_ok c -> handle_packet p (c, cur) = Some ((c1, cur1), r) ->
  handled p c c1 r.
Proof.
  intros Hok. unfold handle_packet. rewrite run_get. cbn beta iota.
  assert (Hsame : mret (M:=M (PicklebackClient * Cursor)) (@None ClientState) (c, cur) = Some ((c1, cur1), r) -> handled p c c1 r).
  { intros [= <- _ <-]. by apply handled_view. }
  destruct p as [p|p|p|p|p|p|p]; try exact Hsame.
  - destruct (state c) eqn:Hs; try exact Hsame. destruct (client_salt c) as [a|] eqn:Ha; [|exact Hsame].
    destruct (Z.eqb_spec a (cch_client_salt p)) as [Heq|Hne]; cbn [negb]; [|intros [= <- _ <-]; by apply handled_view].
    set (c2 := set_c_xor_salt (Some (Z.lxor (cch_server_salt p) a)) (set_server_salt (Some (cch_server_salt p)) c)).
    do 2 (erewrite run_bind_ok by done; cbn beta). unfold client_ok in Hok. rewrite Hs in Hok. destruct Hok as [Haddr _].
    intros [([c3 cur3] & [] & H1 & H2)|(e & H1 & ->)]%run_bind_inv; apply client_process_view in H1; cbn [fst] in H1;
      change (client_view _ = _) with (client_view c3 = client_view c2) in H1 || idtac.
    + injection H2 as <- _ <-. unfold client_view in H1. injection H1 as _ H1 H2 H3 H4 _ _. split; [subst a; by constructor|].
      intros _. rewrite H1, H2, H3, H4. split; [exact Haddr|]. exists a, (cch_server_salt p). done.
    + assert (Hst : state c1 = SendingConnectionRequest) by (injection H1; intros; congruence).
      split; [|split; congruence]. unfold client_ok. rewrite Hst. injection H1 as _ -> -> _ _ _ _. split; [exact Haddr|]. by exists a.
  - destruct (state c) eqn:Hs; try exact Hsame; do 2 (erewrite run_bind_ok by done; cbn beta); intros [= <- _ <-];
      (split; [constructor; rewrite Hs; auto|done]).
  - destruct (state c) eqn:Hs; try exact Hsame.
    intros [([c3 cur3] & [] & H1 & H2)|(e & H1 & ->)]%run_bind_inv.
    2: { case_bool_decide; [apply client_process_view in H1; cbn [fst] in H1; by apply handled_view|by injection H1]. }
    injection H2 as <- _ <-. apply handled_view; [done| |done].
    case_bool_decide; [apply client_process_view in H1; exact H1|by injection H1 as <- _].
  - assert (Hka : state c = Connected \/ state c = SendingChallengeResponse -> c_xor_salt c = Some (ka_xor_salt p) ->
      (st_fst (st_modify (fun c => set_last_receive_time (c_time c) c));;
       client_process (ka_header p);;
       '(c, _) ← st_get;
       mret (if bool_decide (state c = SendingChallengeResponse) then Some Connected else None)) (c, cur) =
        Some ((c1, cur1), r) -> handled (KeepAlive p) c c1 r).
    { clear Hsame. intros Hs Hx. erewrite run_bind_ok by done. cbn beta.
      intros [([c3 cur3] & [] & H1 & H2)|(e & H1 & ->)]%run_bind_inv; apply client_process_view in H1; cbn [fst] in H1;
        [|by apply handled_view].
      rewrite run_get in H2. cbn beta iota in H2. injection H2 as <- _ <-.
      assert (Hst : state c3 = state c) by (by injection H1). rewrite Hst.
      case_bool_decide as Hsc; [|by apply handled_view].
      split; [by constructor|]. intros _. unfold client_ok in Hok. rewrite Hsc in Hok.
      destruct Hok as (Haddr & a & b & Ha & Hb & Hc & Hp). injection H1 as _ -> -> -> -> _ _.
      split; [exact Haddr|]. exists a, b. by split_and!. }
    destruct (state c) eqn:Hs; try exact Hsame;
      (destruct (bool_decide (c_xor_salt c = Some (ka_xor_salt p))) eqn:Hx; [apply bool_decide_eq_true in Hx|exact Hsame]);
      apply Hka; auto.
Qed.

Lemma receive_steps packet source c c' r : client_ok c -> client_receive packet source c = Some (c', r) ->
  steps_to (CallReceive packet source) c c'.
Proof.
  intros Hok. unfold client_receive. rewrite run_get.
  destruct (server_addr c) as [addr|] eqn:Ha; [|intros [= <- _]; by apply steps_view].
  case_bool_decide as Hsrc; cbn [negb]; [|intros [= <- _]; by apply steps_view]. subst source.
  unfold st_with at 1. unfold mbind at 1, ST_bind at 1.
  set (c2 := set_last_receive_time (c_time c) c).
  assert (Hok2 : client_ok c2) by (by eapply client_ok_view; [|exact Hok]).
  destruct (read_packet (Cursor_new packet)) as [[cur [p|e]]|] eqn:Hread.
  2: { unfold mbind, ST_bind, st_snd, st_zoom. cbn [snd]. rewrite Hread. intros [= <- _]. by apply steps_view. }
  2: { unfold mbind, ST_bind, st_snd, st_zoom. cbn [snd]. by rewrite Hread. }
  erewrite run_bind_ok by (unfold st_snd, st_zoom; cbn [snd]; rewrite Hread; done). cbn [fst snd].
  erewrite (run_bind_ok _ _ _ (c2, cur)) by done. cbn beta.
  destruct (handle_packet p (c2, cur)) as [[[c3 cur3] [o|e]]|] eqn:Hh; [| |done];
    apply (handle_packet_run p c2 cur c3 cur3 _ Hok2) in Hh.
  2: { intros [= <- _]. destruct Hh as (Hok3 & Hs3 & Hx3). split; [done|]. split; [left; by rewrite Hs3|].
       intros Hc3. apply Hx3. congruence. }
  destruct o as [new|].
  2: { intros [= <- _]. destruct Hh as (Hok3 & Hs3 & Hx3). split; [done|]. split; [left; by rewrite Hs3|].
       intros Hc3. apply Hx3. congruence. }
  destruct Hh as [Hmoves Hsalts]. intros (_ & Hs' & H)%state_transition_run.
  assert (Hlegal : legal (CallReceive packet addr) c (state c')).
  { right. split; [done|]. exists cur, p. split; [done|]. rewrite Hs'. destruct Hmoves; by constructor. }
  destruct (is_disconnected new) eqn:Hd.
  - apply steps_away; [|done|by destruct new; rewrite Hs']. unfold client_ok. rewrite Hs'. by destruct new.
  - destruct H as (H1 & H2 & H3 & H4 & H5). destruct (Hsalts eq_refl) as (Haddr & a & b & Hca & Hsb & Hx & Hsame).
    split; [|split; [done|]].
    + unfold client_ok. rewrite Hs'. destruct new; try done; rewrite H1, ?H2, ?H3, ?H4, ?H5, ?Hca, ?Hsb, ?Hx; split; eauto 10.
    + unfold same_session. rewrite Hs', H4. exact Hsame.
Qed.

Lemma run_client_steps call c c' r : client_ok c -> run_client call c = Some (c', r) -> steps_to call c c'.
Proof.
  intros Hok. destruct call; cbn [run_client].
  - by apply update_steps.
  - by apply disconnect_steps.
  - apply connect_steps.
  - intros [(c1 & ps & H & [= <- _])|(e & H & _)]%run_bind_inv; by eapply visit_steps.
  - by apply receive_steps.
Qed.

(** The clients a user can get hold of. *)
Inductive client_reachable : PicklebackClient -> Prop :=
| reach_new time cfg c : PicklebackClient_new time cfg = Some c -> client_reachable c
| reach_call call c c' r : client_reachable c -> run_client call c = Some (c', r) -> client_reachable c'.

Lemma reachable_ok c : client_reachable c -> client_ok c.
Proof.
  induction 1 as [time cfg c Hnew|call c c' r _ IH Hrun].
  - unfold PicklebackClient_new in Hnew. destruct (Pickleback_new cfg zero) as [p|]; [|done]. by injection Hnew as <-.
  - by apply (run_client_steps call c c' r IH Hrun).
Qed.
End machine.

(** C18. The client's handshake is safe: whatever calls and packets a client
    has been through, the next call moves it along the state machine only
    ([legal]): it becomes connected only when, waiting for the answer to its
    challenge response, it receives from the server's address a keep-alive
    with the session's salt. *)
Theorem client_follows_state_machine `{BP : BuildProfile, BO : ByteOrder, SM : SmallMap} call c c' r :
  client_reachable c -> run_client call c = Some (c', r) -> legal call c (state c').
Proof. intros Hc Hrun. by eapply run_client_steps; [apply reachable_ok|]. Qed.

(** C19. The client's salts: a connected client, in every reachable state,
    knows its own salt, the server's, and their exclusive or, which is also
    the salt its endpoint puts in every packet; [visit_packets_to_send] never
    panics on a missing salt. *)
Theorem connected_client_has_salts `{BP : BuildProfile, BO : ByteOrder, SM : SmallMap} c :
  client_reachable c -> state c = Connected ->
  exists a b, client_salt c = Some a /\ server_salt c = Some b /\ c_xor_salt c = Some (Z.lxor b a) /\
    xor_salt (pickleback c) = Some (Z.lxor b a) /\ forall h, is_Some (keepalive_packet h c).
Proof.
  intros Hc Hs. pose proof (reachable_ok c Hc) as Hok. unfold client_ok in Hok. rewrite Hs in Hok.
  destruct Hok as (_ & a & b & Ha & Hb & Hx & Hp). exists a, b. split_and!; try done.
  intros h. unfold keepalive_packet. rewrite Hx. simpl. eauto.
Qed.

(** ** Goodbyes *)
Section goodbye.
Context `{BP : BuildProfile, BO : ByteOrder, BL : !ByteOrderLaws BO, SM : SmallMap, SL : !SmallMapLaws SM}.

Lemma send_raw_packet_total b self : ep_ok self ->
  exists self' r, send_raw_packet b self = Some (self', r) /\ ep_ok self'.
Proof.
  intros Hok. pose proof Hok as []. unfold send_raw_packet. rewrite run_get.
  set (meta := SentMeta_new _ _ _).
  pose proof (SeqBufFacts.insert_run (sent_buffer self) (sequence_id self) meta eo_sent eo_sequence) as Hins.
  destruct (SeqBufFacts.too_old _ _).
  - exists self, (Err SequenceTooOld). split; [|done].
    erewrite run_bind_err by (unfold on_sent_buffer, st_zoom; rewrite Hins; done). by destruct self.
  - eexists _, (Ok tt). split; [by erewrite run_bind_ok by (unfold on_sent_buffer, st_zoom; rewrite Hins; done)|].
    split; cbn; try done.
    + by apply SeqBufFacts.fill_slot_wf; [apply SeqBufFacts.advance_wf|].
    + change (SeqBuf.len (SeqBufFacts.fill_slot (sequence_id self) meta (SeqBufFacts.advance (sequence_id self) (sent_buffer self))) <= 16384).
      by rewrite SeqBufFacts.insert_len.
Qed.

Lemma send_packet_total p self : ep_ok self -> wf_packet p -> PacketType_from p <> TMessages ->
  0 <= max_packet_size (config self) -> exists self' r, send_packet p self = Some (self', r) /\ ep_ok self'.
Proof.
  intros Hok Hp Ht Hmax. unfold send_packet. rewrite run_get.
  destruct (write_packet_run (config self) p (pool self) (eo_pool _ Hok) Hp Ht Hmax) as (bp & Hbp & Hw).
  assert (Hok1 : ep_ok (set_pool bp self)) by (destruct Hok; by split).
  destruct (decide _) as [Hle|Hgt].
  - destruct Hw as (buf & Hw & _).
    erewrite run_bind_ok by (unfold on_pool_field, st_zoom; rewrite Hw; done). by apply send_raw_packet_total.
  - eexists _, _. split; [by erewrite run_bind_err by (unfold on_pool_field, st_zoom; rewrite Hw; done)|done].
Qed.

(** A packet whose fields besides the header fit their widths. *)
Definition sendable (t : PacketType) (packet : ProtocolPacketHeader -> PicklebackClient -> option ProtocolPacket)
    (c : PicklebackClient) : Prop :=
  t <> TMessages /\ forall h, wf_header h -> packet_type h = t ->
    exists p, packet h c = Some p /\ wf_packet p /\ PacketType_from p = t.

Lemma send_with_header_total t packet c : ep_ok (pickleback c) -> 0 <= max_packet_size (config (pickleback c)) ->
  (forall c', client_view c' = client_view c -> sendable t packet c') ->
  exists c' b, send_with_header t packet c = Some (c', Ok b) /\ ep_ok (pickleback c').
Proof.
  intros Hok Hmax Hsend. unfold send_with_header.
  pose proof (next_packet_header_run t (pickleback c) (eo_received _ Hok)) as Hnext.
  set (c1 := set_pickleback (set_sequence_id (next_id (pickleback c)) (pickleback c)) c).
  assert (Hok1 : ep_ok (pickleback c1)) by (destruct Hok; split; try done; apply wrap16_range).
  erewrite run_bind_ok by (unfold st_try, on_pickleback, st_zoom; rewrite Hnext; done). cbn beta. fold c1.
  destruct (Z.ltb_spec MAX_UNACKED_PACKETS (received_unacked_packets (pickleback c))) as [Hgt|Hle]; [by exists c1, false|].
  rewrite run_get. destruct (Hsend c1 eq_refl) as [Htm Hpk].
  destruct (Hpk (next_header t (pickleback c)) (next_header_wf _ _ (eo_received _ Hok) Hle) eq_refl) as (p & Hp & Hwf & Htp).
  rewrite Hp. run_done.
  destruct (send_packet_total p (pickleback c1) Hok1 Hwf ltac:(congruence) Hmax) as (pb & r & Hrun & Hok2).
  unfold client_send, mbind, ST_bind, st_try, on_pickleback, st_zoom. rewrite Hrun. destruct r as [[]|e]; eexists _, _; done.
Qed.

(** A new endpoint has nothing to send. *)
Lemma fresh_visit cfg time : good_config cfg ->
  exists self, visit_packets_to_send (fresh_endpoint cfg time) = Some (self, Ok []).
Proof.
  intros Hcfg. unfold visit_packets_to_send, compose_packets, mbind, ST_bind, st_try, st_get, st_with.
  change (MAX_UNACKED_PACKETS <=? sent_unacked_packets (fresh_endpoint cfg time)) with false. cbn [compose_loop].
  rewrite run_get. cbn beta iota.
  assert (Hany : ChannelList_any_with_messages_to_send (ep_channels (fresh_endpoint cfg time)) = false).
  { apply not_true_iff_false. rewrite any_with_messages. intros (id & ch & Hch & Hready).
    cbn [fresh_endpoint ep_channels channels] in Hch.
    apply lookup_insert_Some in Hch as [[_ <-]|[_ Hch]]; [cbn in Hready; lia|].
    apply lookup_insert_Some in Hch as [[_ <-]|[_ Hch]]; [cbn in Hready; lia|done]. }
  rewrite Hany. cbn [negb]. eexists. reflexivity.
Qed.

Lemma goodbye_loop {Y} (l : list Y) c salt : u64 salt -> c_xor_salt c = Some salt -> ep_ok (pickleback c) ->
  0 <= max_packet_size (config (pickleback c)) ->
  exists c', st_for l (fun _ => send_with_header TDisconnect disconnect_packet;; mret tt) c = Some (c', Ok tt) /\
    client_view c' = client_view c /\ ep_ok (pickleback c').
Proof.
  intros Hsalt. revert c. induction l as [|y l IH]; intros c Hx Hok Hmax; [by exists c|].
  destruct (send_with_header_total TDisconnect disconnect_packet c Hok Hmax) as (c1 & b & Hrun & Hok1).
  { intros c' Hv. split; [done|]. intros h Hh Ht. unfold disconnect_packet.
    assert (c_xor_salt c' = Some salt) as -> by (rewrite <- Hx; by injection Hv). simpl. eexists. split; [done|].
    split; [split; [exact Hh|split; [exact Ht|exact Hsalt]]|done]. }
  pose proof (send_with_header_view _ _ _ _ _ Hrun) as Hv1.
  assert (Hcfg : config (pickleback c1) = config (pickleback c)) by (by injection Hv1).
  destruct (IH c1) as (c2 & Hrun2 & Hv2 & Hok2); [rewrite <- Hx; by injection Hv1|done|by rewrite Hcfg|].
  exists c2. split; [|split; [congruence|done]]. cbn [st_for]. rewrite run_assoc. run_step Hrun. run_done. exact Hrun2.
Qed.
End goodbye.

(** A client that disconnects never says goodbye: [disconnect] leaves it
    to [visit_packets_to_send] to send ten disconnect packets, but that resets
    the endpoint before it hands out its outbox, so no packet is handed out (and
    the server has to wait for the timeout). *)
Theorem goodbye_is_never_sent `{BP : BuildProfile, BO : ByteOrder, BL : !ByteOrderLaws BO, SM : SmallMap, SL : !SmallMapLaws SM} c salt addr :
  state c = SelfInitiatedDisconnect -> server_addr c = Some addr -> c_xor_salt c = Some salt -> u64 salt ->
  ep_ok (pickleback c) -> good_config (config (pickleback c)) ->
  exists c', client_visit_packets_to_send c = Some (c', Ok []) /\ state c' = Disconnected Normal /\ server_addr c' = None.
Proof.
  intros Hs Ha Hx Hsalt Hok Hcfg. unfold client_visit_packets_to_send. rewrite run_get, Ha.
  destruct (goodbye_loop (seq 0 10) c salt Hsalt Hx Hok) as (c1 & Hloop & Hv1 & _); [destruct Hcfg; lia|].
  assert (Hcfg1 : config (pickleback c1) = config (pickleback c)) by (by injection Hv1).
  set (c2 := set_state_transitions (state_transitions c1 ++ [Disconnected Normal]) {|
      c_time := c_time c1; state := Disconnected Normal; client_salt := None; server_salt := None; c_xor_salt := None;
      proto_last_send := zero; last_receive_time := zero; last_send_time := zero;
      pickleback := fresh_endpoint (config (pickleback c1)) zero; server_addr := None;
      state_transitions := state_transitions c1 |}).
  assert (Htr : state_transition (Disconnected Normal) c1 = Some (c2, Ok tt)).
  { unfold state_transition. do 2 run_done. rewrite run_get. run_done. cbn [is_disconnected].
    unfold client_reset. rewrite run_assoc, run_get.
    cbn [pickleback config set_pickleback set_xor_salt set_proto_last_send set_state]. rewrite Pickleback_new_run. done. }
  assert (Hsend : send_protocol_packets c = Some (c2, Ok false)).
  { unfold send_protocol_packets. rewrite run_get, Hs, Hx. cbn [is_some]. run_step Hloop. run_step Htr. done. }
  run_step Hsend. destruct (fresh_visit (config (pickleback c1)) zero) as (p & Hp); [by rewrite Hcfg1|].
  exists (set_pickleback p c2). erewrite run_bind_ok by (unfold on_pickleback, st_zoom; cbn [pickleback c2 set_state_transitions]; rewrite Hp; reflexivity).
  split; [reflexivity|split; reflexivity].
Qed.


(** ** A handshake, evaluated *)
Definition example_server_addr : SocketAddr := V4 1 6000.

Definition example_new_client : PicklebackClient := {|
  c_time := f64_lit 1 1; state := Disconnected Normal; client_salt := None; server_salt := None; c_xor_salt := None;
  proto_last_send := zero; last_receive_time := zero; last_send_time := zero;
  pickleback := fresh_endpoint PicklebackConfig_default zero; server_addr := None; state_transitions := [];
|}.

Definition plain_header (t : PacketType) (id : Z) : ProtocolPacketHeader :=
  {| packet_type := t; h_id := id; ack_header := None |}.

(** Connect with salt 5, be challenged with salt 9, be accepted. *)
Definition example_calls : list client_call :=
  [CallConnect 5 example_server_addr;
   CallReceive (@packet_bytes big_endian (ConnectionChallenge
     {| cch_header := plain_header TConnectionChallenge 1; cch_client_salt := 5; cch_server_salt := 9 |})) example_server_addr;
   CallReceive (@packet_bytes big_endian (KeepAlive
     {| ka_header := plain_header TKeepAlive 2; ka_xor_salt := 12; ka_client_index := 0 |})) example_server_addr].

Section example.
#[local] Existing Instance debug_build.
#[local] Existing Instance big_endian.
#[local] Existing Instance elements_order.

Definition after_call (c : PicklebackClient) (call : client_call) : PicklebackClient :=
  match run_client call c with Some (c', _) => c' | None => c end.

Definition example_connected_client : PicklebackClient := foldl after_call example_new_client example_calls.

Lemma after_call_reachable c call : client_reachable c -> client_reachable (after_call c call).
Proof.
  intros Hc. unfold after_call. destruct (run_client call c) as [[c' r]|] eqn:Hrun; [by eapply reach_call|done].
Qed.

Lemma example_reachable : client_reachable example_connected_client.
Proof.
  unfold example_connected_client, example_calls. cbn [foldl]. do 3 apply after_call_reachable.
  eapply reach_new. unfold PicklebackClient_new. by rewrite Pickleback_new_run.
Qed.

Lemma client_follows_state_machine_witness :
  exists c' r, run_client CallDisconnect example_connected_client = Some (c', r) /\
    legal CallDisconnect example_connected_client (state c').
Proof.
  destruct (run_client CallDisconnect example_connected_client) as [[c' r]|] eqn:Hrun; [|exfalso; vm_compute in Hrun; discriminate].
  exists c', r. split; [reflexivity|].
  exact (client_follows_state_machine _ _ _ _ example_reachable Hrun).
Defined.

Lemma connected_client_has_salts_witness :
  state example_connected_client = Connected /\
  exists a b, client_salt example_connected_client = Some a /\ server_salt example_connected_client = Some b /\
    c_xor_salt example_connected_client = Some (Z.lxor b a) /\
    xor_salt (pickleback example_connected_client) = Some (Z.lxor b a) /\
    forall h, is_Some (keepalive_packet h example_connected_client).
Proof.
  assert (Hs : state example_connected_client = Connected) by (vm_compute; reflexivity).
  split; [exact Hs|]. exact (connected_client_has_salts _ example_reachable Hs).
Defined.

Lemma goodbye_is_never_sent_witness :
  exists c', client_visit_packets_to_send
      (set_state SelfInitiatedDisconnect (set_server_addr (Some example_server_addr)
        (set_c_xor_salt (Some 7) (set_pickleback example_endpoint example_new_client)))) = Some (c', Ok []) /\
    state c' = Disconnected Normal /\ server_addr c' = None.
Proof.
  apply (goodbye_is_never_sent (BL:=big_endian_laws) (SL:=elements_order_laws) _ 7 example_server_addr); [reflexivity..|lia| |apply default_good_config].
  apply (cc_ok _ _ example_can_compose).
Defined.
End example.
