(* ===== verification/Server.v ===== *)
(** * The server ([server.rs])

    The server's end: pending clients in the handshake, connected clients with
    an endpoint each, and the packets that belong to neither. *)

From S2P Require Import Prelude Floats Types SequenceBuffer Cursor BufferPool AckHeader Message Packets Reassembler Channel Dispatcher Endpoint Client.

Inductive ServerEvent :=
| ClientConnected (id : Z)
| ClientDisconnected (id : Z) (reason : DisconnectReason).

Record AddressedPacket := { ap_address : SocketAddr; ap_packet : VecU8 }.

Record PendingClient := MkPending {
  pc_client_salt : Z;
  pc_server_salt : Z;
  first_requested_time : f64;
  last_challenged_at : f64;
  pc_socket_addr : SocketAddr;
  pc_pickleback : Pickleback;
}.

Record ConnectedClient := MkConnected {
  cc_xor_salt : Z;
  cc_socket_addr : SocketAddr;
  confirmed : bool;
  client_index : option Z;
  last_received_time : f64;
  last_sent_time : f64;
  cc_pickleback : Pickleback;
}.

Record PicklebackServer := MkServer {
  s_time : f64;
  pending_clients : list PendingClient;
  connected_clients : list ConnectedClient;
  s_config : PicklebackConfig;
  s_pool : BufPool;
  s_outbox : list AddressedPacket;
  server_events : list ServerEvent;
}.

(** Writes to one field. *)
Definition set_last_challenged_at v p :=
  MkPending (pc_client_salt p) (pc_server_salt p) (first_requested_time p) v (pc_socket_addr p) (pc_pickleback p).
Definition set_pc_pickleback v p :=
  MkPending (pc_client_salt p) (pc_server_salt p) (first_requested_time p) (last_challenged_at p) (pc_socket_addr p) v.
Definition set_confirmed v c := MkConnected (cc_xor_salt c) (cc_socket_addr c) v (client_index c)
  (last_received_time c) (last_sent_time c) (cc_pickleback c).
Definition set_last_received_time v c := MkConnected (cc_xor_salt c) (cc_socket_addr c) (confirmed c) (client_index c)
  v (last_sent_time c) (cc_pickleback c).
Definition set_last_sent_time v c := MkConnected (cc_xor_salt c) (cc_socket_addr c) (confirmed c) (client_index c)
  (last_received_time c) v (cc_pickleback c).
Definition set_cc_pickleback v c := MkConnected (cc_xor_salt c) (cc_socket_addr c) (confirmed c) (client_index c)
  (last_received_time c) (last_sent_time c) v.
Definition set_s_time v s := MkServer v (pending_clients s) (connected_clients s) (s_config s) (s_pool s) (s_outbox s)
  (server_events s).
Definition set_pending_clients v s := MkServer (s_time s) v (connected_clients s) (s_config s) (s_pool s) (s_outbox s)
  (server_events s).
Definition set_connected_clients v s := MkServer (s_time s) (pending_clients s) v (s_config s) (s_pool s) (s_outbox s)
  (server_events s).
Definition set_s_pool v s := MkServer (s_time s) (pending_clients s) (connected_clients s) (s_config s) v (s_outbox s)
  (server_events s).
Definition set_s_outbox v s := MkServer (s_time s) (pending_clients s) (connected_clients s) (s_config s) (s_pool s) v
  (server_events s).
Definition set_server_events v s := MkServer (s_time s) (pending_clients s) (connected_clients s) (s_config s) (s_pool s)
  (s_outbox s) v.

(** ** Iteration over vectors of clients *)

(** [for x in v.iter_mut()]: the results of the bodies, in order. *)
Fixpoint for_each {X A} (body : M X A) : M (list X) (list A) := fun l =>
  match l with
  | [] => Some ([], Ok [])
  | x :: l =>
      match body x with
      | None => None
      | Some (x', Err e) => Some (x' :: l, Err e)
      | Some (x', Ok a) =>
          match for_each body l with
          | None => None
          | Some (l', Err e) => Some (x' :: l', Err e)
          | Some (l', Ok r) => Some (x' :: l', Ok (a :: r))
          end
      end
  end.

(** A call on [v.iter_mut().find(p)], when there is one. *)
Fixpoint on_first {X A} (p : X -> bool) (m : M X A) : M (list X) (option A) := fun l =>
  match l with
  | [] => Some ([], Ok None)
  | x :: l =>
      if p x then
        match m x with
        | None => None
        | Some (x', Err e) => Some (x' :: l, Err e)
        | Some (x', Ok a) => Some (x' :: l, Ok (Some a))
        end
      else
        match on_first p m l with
        | None => None
        | Some (l', r) => Some (x :: l', r)
        end
  end.

(** [Vec::remove]: panics out of range. *)
Definition vec_remove {X} (i : nat) (l : list X) : option (X * list X) :=
  x ← l !! i; Some (x, delete i l).

(** The index of the first element that satisfies [p]. *)
Definition position_of {X} (p : X -> bool) (l : list X) : option nat := fst <$> list_find (fun x => p x = true) l.

(** [for i in tmp_buffer.drain(..) { v.remove(i) }]: the removed elements. *)
Fixpoint remove_indices {X} (idxs : list nat) (l : list X) : option (list X * list X) :=
  match idxs with
  | [] => Some ([], l)
  | i :: idxs =>
      '(x, l) ← vec_remove i l;
      '(xs, l) ← remove_indices idxs l;
      Some (x :: xs, l)
  end.

(** The indices whose flag is set. *)
Definition flagged (flags : list bool) : list nat :=
  filter (fun i => flags !! i = Some true) (seq 0 (length flags)).

Section operations.
Context `{BP : BuildProfile, BO : ByteOrder, SM : SmallMap}.

Section zooms.
Context {A : Type}.
Definition on_pc : M Pickleback A -> M PendingClient A := st_zoom pc_pickleback set_pc_pickleback.
Definition on_cc : M Pickleback A -> M ConnectedClient A := st_zoom cc_pickleback set_cc_pickleback.
Definition on_pending : M (list PendingClient) A -> M PicklebackServer A := st_zoom pending_clients set_pending_clients.
Definition on_connected : M (list ConnectedClient) A -> M PicklebackServer A :=
  st_zoom connected_clients set_connected_clients.
Definition on_s_pool : M BufPool A -> M PicklebackServer A := st_zoom s_pool set_s_pool.
End zooms.

Definition push_event (e : ServerEvent) : M PicklebackServer unit :=
  st_modify (fun s => set_server_events (server_events s ++ [e]) s).

(** The methods of [ConnectedClient]. *)
Definition cc_send_message (channel : Z) (payload : list Z) : M ConnectedClient MessageId :=
  on_cc (send_message channel payload).
Definition drain_acks (channel : Z) : M ConnectedClient (list MessageId) := on_cc (drain_message_acks channel).
Definition get_messages (channel : Z) : M ConnectedClient ReceivedMessagesContainer :=
  on_cc (drain_received_messages channel).

Definition PicklebackServer_new (time : f64) (config : PicklebackConfig) : PicklebackServer := {|
  s_time := time; pending_clients := []; connected_clients := []; s_config := config;
  s_pool := BufPool_full_packets_only; s_outbox := []; server_events := [];
|}.

Definition has_salt (xor_salt : Z) (cc : ConnectedClient) : bool := cc_xor_salt cc =? xor_salt.
Definition is_client (xor_salt : Z) (addr : SocketAddr) (cc : ConnectedClient) : bool :=
  (cc_xor_salt cc =? xor_salt) && bool_decide (cc_socket_addr cc = addr).
Definition is_pending (salt : Z) (addr : SocketAddr) (pc : PendingClient) : bool :=
  (pc_client_salt pc =? salt) && bool_decide (pc_socket_addr pc = addr).
Definition is_challenged (xor_salt : Z) (addr : SocketAddr) (pc : PendingClient) : bool :=
  (Z.lxor (pc_client_salt pc) (pc_server_salt pc) =? xor_salt) && bool_decide (pc_socket_addr pc = addr).

Definition disconnect_client (xor_salt : Z) : M PicklebackServer unit :=
  found ← on_connected (on_first (has_salt xor_salt)
    (on_cc (header ← st_try (next_packet_header TDisconnect);
            match header with
            | Ok header =>
                st_try (send_packet (Disconnect {| dp_header := header; dp_xor_salt := xor_salt |}));; mret tt
            | Err _ => mret tt
            end)));
  match found with
  | None => mret tt
  | Some _ => on_connected (st_modify (List.filter (fun cc => negb (has_salt xor_salt cc))))
  end.

Definition server_send_message (client_id channel : Z) (payload : list Z) : M PicklebackServer MessageId :=
  sent ← on_connected (on_first (has_salt client_id) (cc_send_message channel payload));
  match sent with
  | Some id => mret id
  | None => st_throw NoSuchClient
  end.

Definition broadcast_message (channel : Z) (payload : list Z) : M PicklebackServer unit :=
  on_connected (for_each (st_try (cc_send_message channel payload);; mret tt));; mret tt.

(** *** Time *)

(** [let header = match next_packet_header(t) {..}; match send_packet(..) {..}]
    with every error logged and dropped. *)
Definition send_quietly (t : PacketType) (packet : ProtocolPacketHeader -> ProtocolPacket) : M Pickleback unit :=
  header ← st_try (next_packet_header t);
  match header with
  | Ok header => st_try (send_packet (packet header));; mret tt
  | Err _ => mret tt
  end.

(** One pending client: whether it timed out. *)
Definition process_pending_client (time dt : f64) : M PendingClient bool :=
  on_pc (update dt);;
  pc ← st_get;
  if f_gt (f64_sub time (first_requested_time pc)) CONNECTION_TIMEOUT then mret true
  else if f_lt (last_challenged_at pc) (f64_sub time HANDSHAKE_RESEND_INTERVAL) then
    st_modify (set_last_challenged_at time);;
    on_pc (send_quietly TConnectionChallenge (fun header => ConnectionChallenge
      {| cch_header := header; cch_client_salt := pc_client_salt pc; cch_server_salt := pc_server_salt pc |}));;
    mret false
  else mret false.

Definition process_pending_clients (dt : f64) : M PicklebackServer unit :=
  s ← st_get;
  timed_out ← on_pending (for_each (process_pending_client (s_time s) dt));
  s ← st_get;
  '(_, rest) ← st_lift (remove_indices (flagged timed_out) (pending_clients s));
  st_modify (set_pending_clients rest).

Definition is_awol (time : f64) (cc : ConnectedClient) : bool :=
  f_gt (f64_sub time (last_received_time cc)) CONNECTION_TIMEOUT.

(** One connected client after the timeouts. *)
Definition process_connected_client (time dt : f64) : M ConnectedClient unit :=
  on_cc (update dt);;
  cc ← st_get;
  let time_since_last_send := f64_sub time (last_sent_time cc) in
  if (negb (confirmed cc) && (0 <? num_packets_to_send (cc_pickleback cc)))
     || f_gt time_since_last_send KEEPALIVE_INTERVAL
  then on_cc (send_quietly TKeepAlive (fun header => KeepAlive
         {| ka_header := header; ka_xor_salt := cc_xor_salt cc; ka_client_index := default 0 (client_index cc) |}))
  else mret tt.

Definition process_connected_clients (dt : f64) : M PicklebackServer unit :=
  s ← st_get;
  '(removed, rest) ← st_lift
    (remove_indices (flagged (is_awol (s_time s) <$> connected_clients s)) (connected_clients s));
  st_modify (set_connected_clients rest);;
  st_for removed (fun cc => push_event (ClientDisconnected (cc_xor_salt cc) TimedOut));;
  on_connected (for_each (process_connected_client (s_time s) dt));;
  mret tt.

Definition server_update (dt : f64) : M PicklebackServer unit :=
  st_modify (fun s => set_s_time (f64_add (s_time s) dt) s);;
  process_pending_clients dt;;
  process_connected_clients dt.

(** *** Sending *)
Definition visit_client (time : f64) : M ConnectedClient (list (SocketAddr * list Z)) :=
  cc ← st_get;
  packets ← on_cc visit_packets_to_send;
  (match packets with [] => mret tt | _ => st_modify (set_last_sent_time time) end);;
  mret ((fun p => (cc_socket_addr cc, p)) <$> packets).

Definition visit_pending : M PendingClient (list (SocketAddr * list Z)) :=
  pc ← st_get;
  packets ← on_pc visit_packets_to_send;
  mret ((fun p => (pc_socket_addr pc, p)) <$> packets).

Definition server_visit_packets_to_send : M PicklebackServer (list (SocketAddr * list Z)) :=
  s ← st_get;
  st_modify (set_s_outbox []);;
  pending ← on_pending (for_each visit_pending);
  connected ← on_connected (for_each (visit_client (s_time s)));
  mret (((fun p => (ap_address p, vdata (ap_packet p))) <$> s_outbox s) ++ concat pending ++ concat connected).

Definition drain_server_events : M PicklebackServer (list ServerEvent) :=
  s ← st_get;
  st_put (set_server_events [] s);;
  mret (server_events s).

(** *** Receiving *)

(** [process_incoming_packet(&header, &mut cur)]. *)
Definition process (cur : Cursor) (header : ProtocolPacketHeader) : M Pickleback unit :=
  '(_, _) ← st_with cur (process_incoming_packet header); mret tt.

Definition take_pending_by_xor_salt (xor_salt : Z) (addr : SocketAddr) : M PicklebackServer (option PendingClient) :=
  s ← st_get;
  match position_of (is_challenged xor_salt addr) (pending_clients s) with
  | None => mret None
  | Some i =>
      '(pc, rest) ← st_lift (vec_remove i (pending_clients s));
      st_modify (set_pending_clients rest);;
      mret (Some pc)
  end.

Definition remove_connected_client (xor_salt : Z) (addr : SocketAddr) : M PicklebackServer (option ConnectedClient) :=
  s ← st_get;
  match position_of (is_client xor_salt addr) (connected_clients s) with
  | None => mret None
  | Some i =>
      '(cc, rest) ← st_lift (vec_remove i (connected_clients s));
      st_modify (set_connected_clients rest);;
      push_event (ClientDisconnected (cc_xor_salt cc) Normal);;
      mret (Some cc)
  end.

(** A [ConnectionDenied] packet for an address without a client. *)
Definition deny (reason : DisconnectReason) (addr : SocketAddr) : M PicklebackServer unit :=
  s ← st_get;
  r ← st_lift (ProtocolPacketHeader_new 0 [] 0 TConnectionDenied);
  header ← st_result r;
  denied ← on_s_pool (write_packet (s_config s) (ConnectionDenied {| cd_header := header; reason := reason |}));
  st_modify (fun s => set_s_outbox (s_outbox s ++
    [{| ap_address := addr; ap_packet := PooledBuffer_clone denied |}]) s);;
  on_s_pool (return_buffer denied).

(** A request: [server_salt] is the server's [rand::random::<u64>()]. *)
Definition receive_request (server_salt : Z) (p : ConnectionRequestPacket) (cur : Cursor) (addr : SocketAddr)
  : M PicklebackServer unit :=
  if negb (protocol_version p =? PROTOCOL_VERSION) then deny ProtocolMismatch addr
  else
    found ← on_pending (on_first (is_pending (crq_client_salt p) addr) (on_pc (process cur (crq_header p))));
    match found with
    | Some _ => mret tt
    | None =>
        s ← st_get;
        pickleback ← st_lift (Pickleback_new PicklebackConfig_default (s_time s));
        '(pc, _) ← st_local
          {| pc_client_salt := crq_client_salt p; pc_server_salt := server_salt; last_challenged_at := zero;
             pc_socket_addr := addr; first_requested_time := s_time s; pc_pickleback := pickleback |}
          (on_pc (process cur (crq_header p)));
        on_pending (st_modify (fun l => l ++ [pc]))
    end.

Definition receive_response (p : ConnectionChallengeResponsePacket) (cur : Cursor) (addr : SocketAddr)
  : M PicklebackServer unit :=
  let xor_salt := ccr_xor_salt p in
  pending ← take_pending_by_xor_salt xor_salt addr;
  match pending with
  | Some pending =>
      if negb (xor_salt =? Z.lxor (pc_client_salt pending) (pc_server_salt pending)) then st_throw InvalidPacket
      else
        '(pickleback, _) ← st_local (set_xor_salt (Some xor_salt) (pc_pickleback pending)) (process cur (ccr_header p));
        s ← st_get;
        '(cc, _) ← st_local
          {| confirmed := false; client_index := None; cc_xor_salt := xor_salt; last_received_time := s_time s;
             last_sent_time := s_time s; cc_socket_addr := addr; cc_pickleback := pickleback |}
          (on_cc (header ← next_packet_header TKeepAlive;
                  send_packet (KeepAlive {| ka_header := header; ka_xor_salt := xor_salt; ka_client_index := 0 |})));
        push_event (ClientConnected (cc_xor_salt cc));;
        on_connected (st_modify (fun l => l ++ [cc]))
  | None =>
      found ← on_connected (on_first (has_salt xor_salt) (on_cc (process cur (ccr_header p))));
      match found with
      | Some _ => mret tt
      | None => deny HandshakeTimeout addr
      end
  end.

(** A packet of a connected client: it confirms the client. *)
Definition receive_from_client (xor_salt : Z) (header : ProtocolPacketHeader) (cur : Cursor) (addr : SocketAddr)
  : M PicklebackServer unit :=
  s ← st_get;
  on_connected (on_first (is_client xor_salt addr)
    (st_modify (set_confirmed true);;
     st_modify (set_last_received_time (s_time s));;
     on_cc (process cur header)));;
  mret tt.

Definition server_receive (server_salt : Z) (packet : list Z) (addr : SocketAddr) : M PicklebackServer unit :=
  '(cur, packet) ← st_local (Cursor_new packet) read_packet;
  match packet with
  | ConnectionRequest p => receive_request server_salt p cur addr
  | ConnectionChallengeResponse p => receive_response p cur addr
  | Disconnect p => remove_connected_client (dp_xor_salt p) addr;; mret tt
  | KeepAlive p => receive_from_client (ka_xor_salt p) (ka_header p) cur addr
  | Messages p => receive_from_client (mp_xor_salt p) (mp_header p) cur addr
  | _ => mret tt
  end.
End operations.
