(* ===== verification/Session.v ===== *)
(** * Connections: proofs about [client.rs] and [server.rs] *)

From S2P Require Import Prelude Floats Types SequenceBuffer Cursor BufferPool AckHeader Message Packets Reassembler Channel Dispatcher Endpoint Compose Acks Incoming Control Client ClientFacts Server.

(** What identifies a connected client. *)
Definition identity (cc : ConnectedClient) : Z * SocketAddr := (cc_xor_salt cc, cc_socket_addr cc).

(** ** Vectors of clients *)
Section vectors.
Context {X : Type}.

Lemma flagged_all (flags : list bool) : Forall (fun b => b = true) flags -> flagged flags = seq 0 (length flags).
Proof.
  intros Hall. unfold flagged.
  assert (Hin : Forall (fun i => flags !! i = Some true) (seq 0 (length flags))).
  { apply Forall_forall. intros i [_ Hi]%elem_of_seq. destruct (lookup_lt_is_Some_2 flags i Hi) as [b Hb].
    rewrite Hb. f_equal. exact (Forall_lookup_1 _ _ _ _ Hall Hb). }
  induction Hin as [|i l Hi _ IH]; [done|]. by rewrite filter_cons_True, IH.
Qed.

(** Removing [i, i+1, ..] one after the other skips every other element, and
    runs off the end when they reach it. *)
Lemma remove_indices_off i n (l : list X) : (2 <= n)%nat -> (length l <= i + n)%nat ->
  remove_indices (seq i n) l = None.
Proof.
  revert i l. induction n as [|n IH]; intros i l Hn Hlen; [lia|].
  cbn [seq remove_indices]. unfold vec_remove. destruct (l !! i) as [x|] eqn:Hx; [|done]. cbn [mbind option_bind].
  pose proof (lookup_lt_Some _ _ _ Hx) as Hi.
  assert (Hd : length (delete i l) = (length l - 1)%nat) by (apply length_delete; by exists x).
  destruct (decide (n = 1)%nat) as [->|Hne].
  - cbn [seq remove_indices]. unfold vec_remove. rewrite (lookup_ge_None_2 (delete i l) (S i)) by lia. done.
  - rewrite IH; [done|lia..].
Qed.
End vectors.

(** C32. Several clients timing out at once bring the server down: the
    indices of the timed-out clients are removed in ascending order, each
    removal shifting the ones after it, so when all clients (two at least) have
    been silent for longer than the timeout, [update] panics in
    [Vec::remove]. *)
Theorem simultaneous_timeouts_panic `{BP : BuildProfile, BO : ByteOrder} dt s :
  (2 <= length (connected_clients s))%nat ->
  Forall (fun cc => is_awol (s_time s) cc = true) (connected_clients s) ->
  process_connected_clients dt s = None.
Proof.
  intros Hlen Hall. unfold process_connected_clients. rewrite run_get.
  rewrite flagged_all by (by apply Forall_fmap). rewrite length_fmap.
  unfold mbind, ST_bind, st_lift, st_asks. rewrite remove_indices_off by lia. done.
Qed.

Definition example_client (salt : Z) (addr : SocketAddr) : ConnectedClient :=
  MkConnected salt addr true None zero zero example_endpoint.

(** Ten seconds after two clients fell silent. *)
Definition example_silent_server : PicklebackServer :=
  set_connected_clients [example_client 5 (V4 1 7000); example_client 6 (V4 2 7000)]
    (PicklebackServer_new (f64_lit 10 1) PicklebackConfig_default).

Lemma simultaneous_timeouts_panic_witness :
  @process_connected_clients debug_build big_endian (f64_lit 1 10) example_silent_server = None.
Proof.
  apply (simultaneous_timeouts_panic (BP:=debug_build) (BO:=big_endian) (f64_lit 1 10) example_silent_server).
  - simpl. lia.
  - repeat constructor.
Defined.

(** ** One client times out *)
Section timeout.
Context `{BP : BuildProfile, BO : ByteOrder, BL : !ByteOrderLaws BO, SM : SmallMap, SL : !SmallMapLaws SM}.

Lemma filter_none {X} (P : X -> Prop) `{!forall x, Decision (P x)} l : Forall (fun x => ~ P x) l -> filter P l = [].
Proof. induction 1 as [|x l Hx _ IH]; [done|]. by rewrite filter_cons_False. Qed.

Lemma flagged_at (a b : list bool) (o : option unit) : Forall (fun f => f = false) (a ++ b) ->
  flagged (a ++ option_list ((fun _ => true) <$> o) ++ b) = option_list ((fun _ => length a) <$> o).
Proof.
  intros Hall. pose proof Hall as [Ha Hb]%Forall_app. unfold flagged.
  destruct o as [u|]; cbn [fmap option_fmap option_map option_list app].
  - change (option_list (Some ?x)) with [x]. cbn [app].
    rewrite length_app, seq_app, filter_app. cbn [length seq]. rewrite Nat.add_0_l.
    rewrite filter_none, filter_cons_True, filter_none; [done| | |].
    + apply Forall_forall. intros i [Hi Hi']%elem_of_seq. rewrite lookup_app_r by lia.
      destruct (i - length a)%nat as [|k] eqn:Hk; [lia|]. cbn. intros Hf.
      rewrite Forall_lookup in Hb. by apply Hb in Hf.
    + by rewrite lookup_app_r, Nat.sub_diag by lia.
    + apply Forall_forall. intros i [_ Hi]%elem_of_seq. rewrite lookup_app_l by lia. intros Hf.
      rewrite Forall_lookup in Ha. by apply Ha in Hf.
  - apply filter_none, Forall_forall. intros i _ Hf. rewrite Forall_lookup in Hall. by apply Hall in Hf.
Qed.

(** At most one element is flagged, and it is the one removed. *)
Lemma remove_flagged {X} (flag : X -> bool) l1 gone l2 :
  Forall (fun x => flag x = true) (option_list gone) -> Forall (fun x => flag x = false) (l1 ++ l2) ->
  remove_indices (flagged (flag <$> l1 ++ option_list gone ++ l2)) (l1 ++ option_list gone ++ l2) =
    Some (option_list gone, l1 ++ l2).
Proof.
  intros Hgone Hkeep. apply (Forall_fmap flag (fun f => f = false)) in Hkeep. rewrite fmap_app in Hkeep.
  pose proof (flagged_at (flag <$> l1) (flag <$> l2) ((fun _ => tt) <$> gone) Hkeep) as Hf. rewrite length_fmap in Hf.
  rewrite !fmap_app. destruct gone as [x|]; cbn in *; [|by rewrite Hf].
  rewrite (Forall_inv Hgone), Hf. cbn. unfold vec_remove. rewrite lookup_app_r, Nat.sub_diag by lia. cbn. by rewrite delete_middle.
Qed.

(** A call on every element, when each returns. *)
Lemma for_each_total {X A} (P : X -> Prop) (R : X -> X -> Prop) (body : M X A) (f : X -> A) l :
  (forall x, P x -> exists x', body x = Some (x', Ok (f x)) /\ R x x') -> Forall P l ->
  exists l', for_each body l = Some (l', Ok (f <$> l)) /\ Forall2 R l l'.
Proof.
  intros Hbody. induction 1 as [|x l Hx _ (l' & Hrun & HR)]; [by exists []|].
  destruct (Hbody x Hx) as (x' & Hx' & HRx). exists (x' :: l'). cbn [for_each]. rewrite Hx', Hrun.
  split; [done|by constructor].
Qed.

(** An endpoint whose next control packet can be tried. *)
Definition sound (p : Pickleback) : Prop := ep_ok p /\ 0 <= max_packet_size (config p).

Lemma send_quietly_total t packet p : sound p ->
  (forall h, wf_header h -> packet_type h = t -> wf_packet (packet h) /\ PacketType_from (packet h) <> TMessages) ->
  exists p', send_quietly t packet p = Some (p', Ok tt) /\ sound p'.
Proof.
  intros [Hok Hsize] Hpk. unfold send_quietly.
  pose proof (next_packet_header_run t p (eo_received _ Hok)) as Hnext. set (p1 := set_sequence_id (next_id p) p) in *.
  assert (Hok1 : ep_ok p1) by (destruct Hok; split; try done; apply wrap16_range).
  unfold MAX_UNACKED_PACKETS, MAX_ACK_BYTES in Hnext. destruct (Z.ltb_spec (7 * 50) (received_unacked_packets p)).
  - exists p1. erewrite run_bind_ok by (unfold st_try; rewrite Hnext; done). done.
  - erewrite run_bind_ok by (unfold st_try; rewrite Hnext; done). cbn beta iota.
    destruct (Hpk (next_header t p)) as [Hp Ht]; [by apply next_header_wf; [apply Hok|]|done|].
    destruct (send_packet_total (packet (next_header t p)) p1 Hok1 Hp Ht Hsize) as (p2 & r & Hrun & Hok2).
    exists p2. erewrite run_bind_ok by (unfold st_try; rewrite Hrun; done). split; [done|]. split; [done|].
    apply send_packet_fixed in Hrun. injection Hrun as _ Hc. by rewrite Hc.
Qed.

(** A client the server can go on serving. *)
Record healthy (cc : ConnectedClient) : Prop := {
  hl_sound : sound (cc_pickleback cc);
  hl_salt : u64 (cc_xor_salt cc);
  hl_index : u32 (default 0 (client_index cc));
}.

(** What [update] leaves of a client. *)
Definition served (cc cc' : ConnectedClient) : Prop :=
  healthy cc' /\ cc_xor_salt cc' = cc_xor_salt cc /\ cc_socket_addr cc' = cc_socket_addr cc /\
  confirmed cc' = confirmed cc /\ last_received_time cc' = last_received_time cc.

Lemma process_connected_client_total time dt cc : healthy cc ->
  exists cc', process_connected_client time dt cc = Some (cc', Ok tt) /\ served cc cc'.
Proof.
  intros [[Hok Hsize] Hsalt Hidx]. unfold process_connected_client.
  destruct (update_ok dt (cc_pickleback cc) Hok) as (p & Hup & Hokp & Heq & _).
  erewrite run_bind_ok by (unfold on_cc, st_zoom; rewrite Hup; done). cbn beta. rewrite run_get. cbn zeta.
  assert (Hp : sound p) by (split; [done|by rewrite Heq]).
  destruct (_ || _).
  - set (cc1 := set_cc_pickleback p cc).
    destruct (send_quietly_total TKeepAlive (fun header => KeepAlive {| ka_header := header; ka_xor_salt := cc_xor_salt cc1;
      ka_client_index := default 0 (client_index cc1) |}) p Hp) as (p2 & Hrun & Hp2).
    { intros h Hh Ht. by split. }
    eexists _. split; [unfold on_cc, st_zoom; cbn [cc_pickleback cc1 set_cc_pickleback]; rewrite Hrun; done|]. by split.
  - eexists _. split; [done|]. by split.
Qed.

(** A pending client that never answered its challenge in time. *)
Definition is_late (time : f64) (pc : PendingClient) : bool :=
  f_gt (f64_sub time (first_requested_time pc)) CONNECTION_TIMEOUT.

(** A pending client the server can go on challenging. *)
Record patient (pc : PendingClient) : Prop := {
  pt_sound : sound (pc_pickleback pc);
  pt_client_salt : u64 (pc_client_salt pc);
  pt_server_salt : u64 (pc_server_salt pc);
}.

(** What [update] leaves of a pending client. *)
Definition challenged (pc pc' : PendingClient) : Prop :=
  patient pc' /\ pc_client_salt pc' = pc_client_salt pc /\ pc_server_salt pc' = pc_server_salt pc /\
  pc_socket_addr pc' = pc_socket_addr pc /\ first_requested_time pc' = first_requested_time pc.

Lemma process_pending_client_total time dt pc : patient pc ->
  exists pc', process_pending_client time dt pc = Some (pc', Ok (is_late time pc)) /\ challenged pc pc'.
Proof.
  intros [[Hok Hsize] Ha Hb]. unfold process_pending_client.
  destruct (update_ok dt (pc_pickleback pc) Hok) as (p & Hup & Hokp & Heq & _).
  erewrite run_bind_ok by (unfold on_pc, st_zoom; rewrite Hup; done). cbn beta. rewrite run_get. cbn zeta.
  assert (Hp : sound p) by (split; [done|by rewrite Heq]).
  cbn [first_requested_time set_pc_pickleback last_challenged_at]. unfold is_late.
  destruct (f_gt _ _); [eexists _; split; [done|]; by split|].
  destruct (f_lt _ _); [|eexists _; split; [done|]; by split].
  destruct (send_quietly_total TConnectionChallenge (fun header => ConnectionChallenge {| cch_header := header;
    cch_client_salt := pc_client_salt pc; cch_server_salt := pc_server_salt pc |}) p Hp) as (p2 & Hrun & Hp2).
  { intros h Hh Ht. by split. }
  exists (set_pc_pickleback p2 (set_last_challenged_at time pc)). split; [|by split].
  run_done. by erewrite run_bind_ok by (unfold on_pc, st_zoom; cbn; rewrite Hrun; done).
Qed.

Lemma process_pending_clients_total dt s p1 lost p2 :
  pending_clients s = p1 ++ option_list lost ++ p2 -> Forall patient (pending_clients s) ->
  Forall (fun pc => is_late (s_time s) pc = true) (option_list lost) ->
  Forall (fun pc => is_late (s_time s) pc = false) (p1 ++ p2) ->
  exists rest, process_pending_clients dt s = Some (set_pending_clients rest s, Ok tt) /\ Forall2 challenged (p1 ++ p2) rest.
Proof.
  intros Hs Hall Hlost Hkeep.
  destruct (for_each_total patient challenged (process_pending_client (s_time s) dt) (is_late (s_time s)) (pending_clients s))
    as (l' & Hrun & HR); [by intros pc; apply process_pending_client_total|done|].
  assert (Hlate : forall l m, Forall2 challenged l m -> (is_late (s_time s) <$> m) = (is_late (s_time s) <$> l)).
  { induction 1 as [|x y l m (_ & _ & _ & _ & Hxy) _ IH]; [done|]. rewrite !fmap_cons, IH. unfold is_late. by rewrite Hxy. }
  rewrite Hs in HR. apply Forall2_app_inv_l in HR as (q1 & r & H1 & (o & q2 & Ho & H2 & ->)%Forall2_app_inv_l & ->).
  assert (exists lost', o = option_list lost') as [lost' ->].
  { destruct lost as [x|]; [|exists None; by inversion Ho]. inversion Ho as [|? y ? t ? Hn]; subst. inversion Hn; subst. by exists (Some y). }
  exists (q1 ++ q2). split; [|by apply Forall2_app].
  unfold process_pending_clients. rewrite run_get. erewrite run_bind_ok by (unfold on_pending, st_zoom; rewrite Hrun; done).
  cbn beta. rewrite run_get. cbn [pending_clients set_pending_clients]. unfold st_lift at 1, st_asks at 1.
  assert (Hsame : (is_late (s_time s) <$> pending_clients s) = (is_late (s_time s) <$> q1 ++ option_list lost' ++ q2)).
  { rewrite Hs. symmetry. apply Hlate. by repeat apply Forall2_app. }
  rewrite Hsame, (remove_flagged (is_late (s_time s))); [by destruct s| |].
  - apply (Forall_fmap (is_late (s_time s)) (fun f => f = true)). rewrite (Hlate _ _ Ho). by apply Forall_fmap.
  - apply (Forall_fmap (is_late (s_time s)) (fun f => f = false)). rewrite (Hlate (p1 ++ p2)) by (by apply Forall2_app). by apply Forall_fmap.
Qed.

Lemma process_connected_clients_total dt s l1 gone l2 :
  connected_clients s = l1 ++ option_list gone ++ l2 ->
  Forall (fun cc => is_awol (s_time s) cc = true) (option_list gone) ->
  Forall (fun cc => is_awol (s_time s) cc = false) (l1 ++ l2) -> Forall healthy (l1 ++ l2) ->
  exists rest, process_connected_clients dt s =
    Some (set_connected_clients rest (set_server_events (server_events s ++
      option_list ((fun cc => ClientDisconnected (cc_xor_salt cc) TimedOut) <$> gone)) s), Ok tt) /\
    Forall2 served (l1 ++ l2) rest.
Proof.
  intros Hs Hgone Hkeep Hall.
  destruct (for_each_total healthy served (process_connected_client (s_time s) dt) (fun _ => tt) (l1 ++ l2))
    as (l' & Hrun & Hserved); [by intros cc; apply process_connected_client_total|done|].
  exists l'. split; [|done].
  unfold process_connected_clients. rewrite run_get. unfold st_lift at 1, st_asks at 1. rewrite Hs, remove_flagged by done.
  erewrite run_bind_ok by done. cbn beta iota. erewrite run_bind_ok by done. cbn beta.
  destruct gone as [cc|]; cbn [option_list st_for fmap option_fmap option_map].
  - erewrite run_bind_ok by done. cbn beta.
    erewrite run_bind_ok by (unfold on_connected, st_zoom; cbn [connected_clients set_connected_clients set_server_events]; rewrite Hrun; done). done.
  - erewrite run_bind_ok by done. cbn beta.
    erewrite run_bind_ok by (unfold on_connected, st_zoom; cbn [connected_clients set_connected_clients]; rewrite Hrun; done).
    rewrite app_nil_r. by destruct s.
Qed.
End timeout.

(** C30. Timeouts, one at a time.  Suppose that, at the time [update] moves
    the server to, at most one connected client has been silent for longer
    than the timeout and at most one pending client asked to connect longer
    ago than that, and that the clients to be kept and the pending ones are
    in order: endpoints that satisfy the endpoint invariant, with 64-bit salts
    and 32-bit client indexes.  Then [update] returns.  It
    disconnects exactly the silent client, with the event that says so, drops
    exactly the late pending client, without an event, and keeps every other
    one, with its salt, its address and the time it was last heard of or first
    asked.  (Two at once, of either kind, are another matter.) *)
Theorem single_timeout_disconnects `{BP : BuildProfile, BO : ByteOrder, BL : !ByteOrderLaws BO, SM : SmallMap, SL : !SmallMapLaws SM}
    dt s p1 lost p2 l1 gone l2 :
  let t := f64_add (s_time s) dt in
  pending_clients s = p1 ++ option_list lost ++ p2 -> Forall patient (pending_clients s) ->
  Forall (fun pc => is_late t pc = true) (option_list lost) -> Forall (fun pc => is_late t pc = false) (p1 ++ p2) ->
  connected_clients s = l1 ++ option_list gone ++ l2 -> Forall healthy (l1 ++ l2) ->
  Forall (fun cc => is_awol t cc = true) (option_list gone) -> Forall (fun cc => is_awol t cc = false) (l1 ++ l2) ->
  exists s', server_update dt s = Some (s', Ok tt) /\ s_time s' = t /\
    Forall2 challenged (p1 ++ p2) (pending_clients s') /\ Forall2 served (l1 ++ l2) (connected_clients s') /\
    server_events s' = server_events s ++ option_list ((fun cc => ClientDisconnected (cc_xor_salt cc) TimedOut) <$> gone) /\
    s_outbox s' = s_outbox s.
Proof.
  intros t Hpend Hpatient Hlost Htimely Hconn Hhealthy Hgone Hheard.
  destruct (process_pending_clients_total dt (set_s_time t s) p1 lost p2) as (pcs & Hp & Hch); [done..|].
  destruct (process_connected_clients_total dt (set_pending_clients pcs (set_s_time t s)) l1 gone l2) as (ccs & Hc & Hsv); [done..|].
  eexists. split; [unfold server_update; run_done; fold t; erewrite run_bind_ok by exact Hp; exact Hc|].
  by repeat split.
Qed.

Definition example_pending (since : f64) (salt : Z) (addr : SocketAddr) : PendingClient :=
  MkPending salt 9 since since addr example_endpoint.

(** Two clients, the second of which fell silent, and two pending ones, the
    first of which never answered. *)
Definition example_mixed_server : PicklebackServer :=
  set_pending_clients [example_pending zero 7 (V4 3 7000); example_pending (f64_lit 9 1) 8 (V4 4 7000)]
  (set_connected_clients [set_last_received_time (f64_lit 9 1) (example_client 5 (V4 1 7000)); example_client 6 (V4 2 7000)]
    (PicklebackServer_new (f64_lit 10 1) PicklebackConfig_default)).

Lemma example_endpoint_sound : @sound debug_build big_endian example_endpoint.
Proof. split; [apply (cc_ok _ _ example_can_compose)|vm_compute; discriminate]. Qed.

Lemma example_pending_patient since salt addr : u64 salt -> @patient debug_build big_endian (example_pending since salt addr).
Proof. split; [apply example_endpoint_sound|done|cbn; lia]. Qed.

Lemma single_timeout_disconnects_witness :
  let s := example_mixed_server in
  exists s', @server_update debug_build big_endian (f64_lit 1 10) s = Some (s', Ok tt) /\
    identity <$> connected_clients s' = [(5, V4 1 7000)] /\ server_events s' = [ClientDisconnected 6 TimedOut] /\
    pc_client_salt <$> pending_clients s' = [8].
Proof.
  intros s.
  destruct (single_timeout_disconnects (BP := debug_build) (BO := big_endian) (BL := big_endian_laws) (SM := elements_order)
    (SL := elements_order_laws) (f64_lit 1 10) s
    [] (Some (example_pending zero 7 (V4 3 7000))) [example_pending (f64_lit 9 1) 8 (V4 4 7000)]
    [set_last_received_time (f64_lit 9 1) (example_client 5 (V4 1 7000))] (Some (example_client 6 (V4 2 7000))) [])
    as (s' & Hrun & _ & Hch & Hserved & Hev & _).
  - reflexivity.
  - constructor; [|constructor; [|constructor]]; apply example_pending_patient; lia.
  - repeat constructor.
  - repeat constructor.
  - reflexivity.
  - constructor; [|constructor]. split; [apply example_endpoint_sound|cbn; lia|cbn; lia].
  - repeat constructor.
  - repeat constructor.
  - exists s'. split; [exact Hrun|]. repeat split; [|exact Hev|].
    + inversion Hserved as [|? cc' ? l' (_ & Hx & Ha & _) Hnil Heq1 Heq2]; subst. inversion Hnil; subst.
      unfold identity. cbn in Hx, Ha |- *. rewrite Hx, Ha. reflexivity.
    + inversion Hch as [|? pc' ? l' (_ & Hx & _) Hnil Heq1 Heq2]; subst. inversion Hnil; subst. cbn in Hx |- *. by rewrite Hx.
Defined.

(** ** One packet, one connection *)
Section first.
Context {X A : Type}.

(** A call on the first match changes that element only. *)
Lemma on_first_change (p : X -> bool) (m : M X A) l l' r : on_first p m l = Some (l', r) ->
  (l' = l /\ r = Ok None /\ Forall (fun x => p x = false) l) \/
  exists l1 x x' l2 r', l = l1 ++ x :: l2 /\ l' = l1 ++ x' :: l2 /\ p x = true /\ m x = Some (x', r') /\
    r = match r' with Ok a => Ok (Some a) | Err e => Err e end.
Proof.
  revert l' r. induction l as [|x l IH]; intros l' r; simpl.
  - intros [= <- <-]. left. done.
  - destruct (p x) eqn:Hp.
    + destruct (m x) as [[x' [a|e]]|] eqn:Hm; [| |done]; intros [= <- <-]; right; exists [], x, x', l; eauto 10.
    + destruct (on_first p m l) as [[l1 r1]|] eqn:Hl; [|done]. intros [= <- <-].
      destruct (IH l1 r1 eq_refl) as [(-> & -> & Hall)|(l2 & y & y' & l3 & r' & -> & -> & Hy & Hm & ->)].
      * left. split; [done|]. split; [done|]. by constructor.
      * right. exists (x :: l2), y, y', l3, r'. done.
Qed.
End first.

(** Computations on a client that keep its identity. *)
Definition keeps_identity {A} (m : M ConnectedClient A) : Prop :=
  forall c c' r, m c = Some (c', r) -> identity c' = identity c.

Lemma on_cc_identity {A} (m : M Pickleback A) : keeps_identity (on_cc m).
Proof. intros c c' r. unfold on_cc, st_zoom. destruct (m (cc_pickleback c)) as [[p x]|]; [|done]. by intros [= <- _]. Qed.

Lemma bind_identity {A B} (m : M ConnectedClient A) (k : A -> M ConnectedClient B) :
  keeps_identity m -> (forall a, keeps_identity (k a)) -> keeps_identity (m ≫= k).
Proof.
  intros Hm Hk c c' r. unfold mbind, ST_bind. destruct (m c) as [[c1 [a|e]]|] eqn:Hc; [| |done].
  - intros H. rewrite (Hk a c1 c' r H). by eapply Hm.
  - intros [= <- _]. by eapply Hm.
Qed.

Lemma modify_identity f : (forall c, identity (f c) = identity c) -> keeps_identity (st_modify f).
Proof. intros Hf c c' r [= <- _]. apply Hf. Qed.

Lemma on_first_identity {A} p (m : M ConnectedClient A) l l' r : keeps_identity m -> on_first p m l = Some (l', r) ->
  identity <$> l' = identity <$> l.
Proof.
  intros Hm [(-> & _)|(l1 & x & x' & l2 & r' & -> & -> & _ & Hx & _)]%on_first_change; [done|].
  by rewrite !fmap_app, !fmap_cons, (Hm x x' r' Hx).
Qed.

(** The clients with a given salt, when another salt's client changed. *)
Lemma on_first_other {A} q (p : ConnectedClient -> bool) (m : M ConnectedClient A) l l' r :
  keeps_identity m -> on_first p m l = Some (l', r) -> (forall x, p x = true -> has_salt q x = false) ->
  List.filter (has_salt q) l' = List.filter (has_salt q) l.
Proof.
  intros Hm [(-> & _)|(l1 & x & x' & l2 & r' & -> & -> & Hp & Hx & _)]%on_first_change Hq; [done|].
  assert (Hi : identity x' = identity x) by exact (Hm x x' r' Hx). injection Hi as Hs _.
  rewrite !List.filter_app. simpl. unfold has_salt in *. rewrite Hs. by rewrite (Hq x Hp).
Qed.

Section receive.
Context `{BP : BuildProfile, BO : ByteOrder}.

Lemma deny_keeps reason addr {X} (f : PicklebackServer -> X) :
  (forall v s, f (set_s_pool v s) = f s) -> (forall v s, f (set_s_outbox v s) = f s) -> keeps f (deny reason addr).
Proof.
  intros Hp Ho. unfold deny, on_s_pool. keeps_tac; [by apply keeps_zoom|apply keeps_modify; intros s; apply Ho|by apply keeps_zoom].
Qed.

(** The salt a packet belongs to. *)
Definition packet_salt (p : ProtocolPacket) : option Z :=
  match p with
  | ConnectionChallengeResponse p => Some (ccr_xor_salt p)
  | Disconnect p => Some (dp_xor_salt p)
  | KeepAlive p => Some (ka_xor_salt p)
  | Messages p => Some (mp_xor_salt p)
  | _ => None
  end.

(** What receiving [p] from [addr] may do to the connected clients: a client
    is only added for a pending client that answers its challenge, and the
    clients with another salt than the packet's are left alone. *)
Record gated (p : ProtocolPacket) (addr : SocketAddr) (s s' : PicklebackServer) : Prop := {
  ga_new : forall i, i ∈ identity <$> connected_clients s' -> i ∈ identity <$> connected_clients s \/
    exists r pc, p = ConnectionChallengeResponse r /\ pc ∈ pending_clients s /\ pc_socket_addr pc = addr /\
      Z.lxor (pc_client_salt pc) (pc_server_salt pc) = ccr_xor_salt r /\ i = (ccr_xor_salt r, addr);
  ga_other : forall q, packet_salt p <> Some q ->
    List.filter (has_salt q) (connected_clients s') = List.filter (has_salt q) (connected_clients s);
}.

Lemma gated_same p addr s s' : connected_clients s' = connected_clients s -> gated p addr s s'.
Proof. intros H. split; rewrite H; auto. Qed.

(** A call on the first client with the packet's salt. *)
Lemma gated_on_first {A} p addr (sel : ConnectedClient -> bool) (m : M ConnectedClient A) salt s s' r :
  packet_salt p = Some salt -> keeps_identity m -> (forall x, sel x = true -> cc_xor_salt x = salt) ->
  on_connected (on_first sel m) s = Some (s', r) -> gated p addr s s'.
Proof.
  intros Hp Hm Hsel. unfold on_connected, st_zoom.
  destruct (on_first sel m (connected_clients s)) as [[l x]|] eqn:Hf; [|done]. intros [= <- <-].
  split; cbn [connected_clients set_connected_clients].
  - intros i. rewrite (on_first_identity _ _ _ _ _ Hm Hf). by left.
  - intros q Hq. eapply on_first_other; [exact Hm|exact Hf|]. intros y Hy. unfold has_salt.
    apply Z.eqb_neq. rewrite (Hsel y Hy). congruence.
Qed.

Lemma receive_from_client_gated p addr salt header cur s s' r : packet_salt p = Some salt ->
  receive_from_client salt header cur addr s = Some (s', r) -> gated p addr s s'.
Proof.
  intros Hp. unfold receive_from_client. rewrite run_get.
  intros [(s1 & o & Hrun & [= <- _])|(e & Hrun & _)]%run_bind_inv;
    (eapply gated_on_first; [exact Hp| | |exact Hrun];
     [repeat (apply bind_identity; [by apply modify_identity|intros ?]); apply on_cc_identity|
      intros x [Hx _]%andb_prop; by apply Z.eqb_eq]).
Qed.

Lemma remove_client_gated p addr salt s s' r : packet_salt p = Some salt ->
  remove_connected_client salt addr s = Some (s', r) -> gated p addr s s'.
Proof.
  intros Hp. unfold remove_connected_client, position_of. rewrite run_get.
  destruct (list_find _ (connected_clients s)) as [[i x]|] eqn:Hf; cbn [fmap option_fmap option_map fst].
  2: { intros [= <- _]. by apply gated_same. }
  apply list_find_Some in Hf as (Hi & Hx & _). unfold vec_remove. rewrite Hi. intros [= <- _].
  split; cbn [connected_clients set_connected_clients set_server_events].
  - intros j (c & -> & Hc)%list_elem_of_fmap. left. apply list_elem_of_fmap. exists c. split; [done|].
    apply list_elem_of_lookup in Hc as [k Hk]. apply list_elem_of_lookup.
    destruct (decide (k < i)%nat); [rewrite list_lookup_delete_lt in Hk by done|rewrite list_lookup_delete_ge in Hk by lia]; eauto.
  - intros q Hq. pose proof (take_drop_middle _ _ _ Hi) as Hl. rewrite delete_take_drop. rewrite <- Hl at 3.
    rewrite !List.filter_app. apply andb_prop in Hx as [Hx%Z.eqb_eq _].
    assert (Hq' : has_salt q x = false) by (apply Z.eqb_neq; congruence). simpl. by rewrite Hq'.
Qed.

Lemma receive_request_keeps server_salt p cur addr : keeps connected_clients (receive_request server_salt p cur addr).
Proof.
  unfold receive_request, on_pending. destruct (negb _); [by apply deny_keeps|].
  keeps_tac; by apply keeps_zoom.
Qed.

Lemma st_local_inv {S W A} (w : W) (m : M W A) (s s' : S) x : st_local w m s = Some (s', Ok x) ->
  s' = s /\ m w = Some (x.1, Ok x.2).
Proof. unfold st_local. destruct (m w) as [[w' [a|e]]|]; try done. by intros [= <- <-]. Qed.

(** The end of the handshake, for a pending client that was found. *)
Lemma connect_pending_gated p cur addr pc s0 s s' r :
  connected_clients s = connected_clients s0 -> pc ∈ pending_clients s0 -> pc_socket_addr pc = addr ->
  Z.lxor (pc_client_salt pc) (pc_server_salt pc) = ccr_xor_salt p ->
  ('(pickleback, _) ← st_local (set_xor_salt (Some (ccr_xor_salt p)) (pc_pickleback pc)) (process cur (ccr_header p));
   s ← st_get;
   '(cc, _) ← st_local
     {| confirmed := false; client_index := None; cc_xor_salt := ccr_xor_salt p; last_received_time := s_time s;
        last_sent_time := s_time s; cc_socket_addr := addr; cc_pickleback := pickleback |}
     (on_cc (header ← next_packet_header TKeepAlive;
             send_packet (KeepAlive {| ka_header := header; ka_xor_salt := ccr_xor_salt p; ka_client_index := 0 |})));
   push_event (ClientConnected (cc_xor_salt cc));;
   on_connected (st_modify (fun l => l ++ [cc]))) s = Some (s', r) ->
  gated (ConnectionChallengeResponse p) addr s0 s'.
Proof.
  intros Hs Hpc Haddr Hsalt.
  intros [(s1 & [pb []] & [-> _]%st_local_inv & H)|(e & H & _)]%run_bind_inv.
  2: { apply gated_same. rewrite <- Hs. by eapply (keeps_local connected_clients) in H. }
  cbn beta iota in H. rewrite run_get in H.
  apply run_bind_inv in H as [(s1 & [cc []] & [-> Hcc]%st_local_inv & H)|(e & H & _)].
  2: { apply gated_same. rewrite <- Hs. by eapply (keeps_local connected_clients) in H. }
  apply on_cc_identity in Hcc. cbn [fst] in Hcc. injection Hcc as Hcs Hca. cbn in Hcs, Hca.
  injection H as <- _. split; cbn [connected_clients set_connected_clients set_server_events push_event].
  - intros i. rewrite Hs, fmap_app. intros [Hi|Hi%list_elem_of_singleton]%elem_of_app; [by left|].
    right. exists p, pc. split_and!; try done. rewrite Hi. unfold identity. by rewrite Hcs, Hca.
  - intros q Hq. rewrite Hs, List.filter_app. cbn [List.filter].
    assert (Hn : has_salt q cc = false) by (apply Z.eqb_neq; rewrite Hcs; cbn in Hq; congruence).
    by rewrite Hn, app_nil_r.
Qed.

Lemma receive_response_gated p cur addr s s' r : receive_response p cur addr s = Some (s', r) ->
  gated (ConnectionChallengeResponse p) addr s s'.
Proof.
  unfold receive_response, take_pending_by_xor_salt, position_of. rewrite run_assoc, run_get.
  destruct (list_find _ (pending_clients s)) as [[i pc]|] eqn:Hf; cbn [fmap option_fmap option_map fst].
  - apply list_find_Some in Hf as (Hi & Hx & _). unfold vec_remove. rewrite Hi. cbn [mbind option_bind].
    apply andb_prop in Hx as [Hx%Z.eqb_eq Ha%bool_decide_eq_true].
    rewrite run_assoc. erewrite run_bind_ok by done. cbn beta iota.
    rewrite run_assoc. erewrite run_bind_ok by done. cbn beta iota. erewrite run_bind_ok by done. cbn beta iota.
    rewrite Hx, Z.eqb_refl. cbn [negb].
    apply (connect_pending_gated p cur addr pc s (set_pending_clients (delete i (pending_clients s)) s)); try done.
    by eapply list_elem_of_lookup_2.
  - erewrite run_bind_ok by done. cbn beta iota.
    intros [(s1 & o & Hrun & H)|(e & Hrun & _)]%run_bind_inv.
    + assert (Hg : gated (ConnectionChallengeResponse p) addr s s1).
      { eapply gated_on_first; [reflexivity|apply on_cc_identity| |exact Hrun]. intros x Hx. by apply Z.eqb_eq. }
      destruct o; [by injection H as <- _|].
      apply (deny_keeps _ _ connected_clients) in H; [|done..]. destruct Hg as [H1 H2]. split; rewrite H; auto.
    + eapply gated_on_first; [reflexivity|apply on_cc_identity| |exact Hrun]. intros x Hx. by apply Z.eqb_eq.
Qed.
End receive.

(** One packet received. *)
Lemma server_receive_gated `{BP : BuildProfile, BO : ByteOrder} server_salt bytes addr s s' r :
  server_receive server_salt bytes addr s = Some (s', r) ->
  match read_packet (Cursor_new bytes) with
  | Some (_, Ok p) => gated p addr s s'
  | _ => s' = s
  end.
Proof.
  unfold server_receive. intros [(s1 & [cur p] & [-> Hread]%st_local_inv & H)|(e & H & _)]%run_bind_inv.
  - cbn [fst snd] in Hread. rewrite Hread. cbn beta iota in H. destruct p.
    2, 4: injection H as <- _; by apply gated_same.
    + apply gated_same. by eapply receive_request_keeps.
    + by eapply receive_response_gated.
    + by eapply receive_from_client_gated.
    + apply run_bind_inv in H as [(s1 & o & H & [= <- _])|(e & H & _)]; by eapply remove_client_gated.
    + by eapply receive_from_client_gated.
  - unfold st_local in H. destruct (read_packet (Cursor_new bytes)) as [[c [p|e']]|]; [done| |done]. by injection H.
Qed.

(** C17. The server's gate: whatever bytes arrive from whatever address, a
    client is only connected when the packet answers the challenge of a client
    pending at that very address, with the exclusive or of both salts; and the
    connections of all salts but the one the packet carries are left exactly as
    they were.  Bytes that are no packet change nothing. *)
Theorem server_gate `{BP : BuildProfile, BO : ByteOrder} server_salt bytes addr s s' r :
  server_receive server_salt bytes addr s = Some (s', r) ->
  match read_packet (Cursor_new bytes) with
  | Some (_, Ok p) => gated p addr s s'
  | _ => s' = s
  end.
Proof. apply server_receive_gated. Qed.

(** The first of the two clients says goodbye. *)
Definition example_goodbye : ProtocolPacket :=
  Disconnect {| dp_header := {| packet_type := TDisconnect; h_id := 3; ack_header := None |}; dp_xor_salt := 5 |}.

Lemma server_gate_witness :
  exists s' r, @server_receive debug_build big_endian 1 (@packet_bytes big_endian example_goodbye) (V4 1 7000)
      example_silent_server = Some (s', r) /\
    connected_clients s' = [example_client 6 (V4 2 7000)] /\
    gated example_goodbye (V4 1 7000) example_silent_server s'.
Proof.
  eexists (set_server_events [ClientDisconnected 5 Normal]
    (set_connected_clients [example_client 6 (V4 2 7000)] example_silent_server)), (Ok tt).
  assert (Hrun : @server_receive debug_build big_endian 1 (@packet_bytes big_endian example_goodbye) (V4 1 7000)
    example_silent_server = Some (set_server_events [ClientDisconnected 5 Normal]
    (set_connected_clients [example_client 6 (V4 2 7000)] example_silent_server), Ok tt)) by reflexivity.
  split; [exact Hrun|]. split; [reflexivity|].
  exact (server_gate (BP:=debug_build) (BO:=big_endian) _ _ _ _ _ _ Hrun).
Defined.
