(* ===== verification/Handshake.v ===== *)
(** * The handshake, step by step: proofs about [client.rs] and [server.rs]

    What one call on either end does to its state during the handshake, and
    which packets it hands out, byte for byte. *)

From S2P Require Import Prelude Floats Types SequenceBuffer Cursor BufferPool AckHeader Message Packets Reassembler Channel Dispatcher Endpoint Compose Acks Incoming Control Pieces Reports Lifetime Calm Client Server.

Section packets.
Definition request_of (a : Z) (h : ProtocolPacketHeader) : ProtocolPacket :=
  ConnectionRequest {| crq_header := h; crq_client_salt := a; protocol_version := PROTOCOL_VERSION |}.
Definition challenge_of (a b : Z) (h : ProtocolPacketHeader) : ProtocolPacket :=
  ConnectionChallenge {| cch_header := h; cch_client_salt := a; cch_server_salt := b |}.
Definition response_of (x : Z) (h : ProtocolPacketHeader) : ProtocolPacket :=
  ConnectionChallengeResponse {| ccr_header := h; ccr_xor_salt := x |}.
Definition keepalive_of (x : Z) (h : ProtocolPacketHeader) : ProtocolPacket :=
  KeepAlive {| ka_header := h; ka_xor_salt := x; ka_client_index := 0 |}.
End packets.

(** The session's salt fits its eight bytes. *)
Lemma lxor_u64 a b : u64 a -> u64 b -> u64 (Z.lxor a b).
Proof.
  intros Ha Hb. assert (Hn : 0 <= Z.lxor a b) by (apply Z.lxor_nonneg; lia). split; [done|].
  destruct (decide (Z.lxor a b = 0)) as [->|Hne]; [lia|]. change 18446744073709551616 with (2 ^ 64).
  apply Z.log2_lt_pow2; [lia|]. pose proof (Z.log2_lxor a b ltac:(lia) ltac:(lia)) as Hle.
  assert (Hlog : forall z, u64 z -> Z.log2 z < 64).
  { intros z Hz. destruct (decide (z = 0)) as [->|]; [cbn; lia|]. apply Z.log2_lt_pow2; [lia|]. change (2 ^ 64) with 18446744073709551616. lia. }
  pose proof (Hlog a Ha). pose proof (Hlog b Hb). lia.
Qed.

(** ** The client *)
Section client.
Context `{BP : BuildProfile, BO : ByteOrder, BL : !ByteOrderLaws BO, SM : SmallMap, SL : !SmallMapLaws SM}.

Lemma on_pickleback_run {A} (m : M Pickleback A) c p r : m (pickleback c) = Some (p, r) ->
  on_pickleback m c = Some (set_pickleback p c, r).
Proof. intros Hm. unfold on_pickleback, st_zoom. by rewrite Hm. Qed.

(** A client whose endpoint is [calm] sends one packet. *)
Lemma send_with_header_calm n m salt t pk (packet : ProtocolPacketHeader -> ProtocolPacket) c :
  calm n m salt [] (pickleback c) -> n < 300 -> t <> TMessages ->
  (forall h, packet_header (packet h) = h /\ PacketType_from (packet h) = t /\
    (wf_header h -> packet_type h = t -> wf_packet (packet h))) ->
  (forall h p, pk h (set_pickleback p c) = Some (packet h)) ->
  exists h p, send_with_header t pk c = Some (set_last_send_time (c_time c) (set_pickleback p c), Ok true) /\
    wf_packet (packet h) /\ h_id h = n + 1 /\ calm (n + 1) m salt [packet_bytes (packet h)] p.
Proof.
  intros Hc Hn Ht Hpacket Hpk.
  destruct (calm_send n m salt [] t packet _ Hc Hn Ht Hpacket) as (h & p1 & p2 & Hnext & Hsend & _ & Hwf & Hid & Hc2).
  exists h, p2. split; [|done]. unfold send_with_header.
  erewrite run_bind_ok by (unfold st_try; rewrite (on_pickleback_run _ _ _ _ Hnext); done). cbn beta iota.
  rewrite run_get, Hpk. run_done. unfold client_send, mbind, ST_bind, st_try.
  erewrite on_pickleback_run by exact Hsend. done.
Qed.

(** The state of a client as its fields. *)
Implicit Types (t lp lr ls : f64) (sa : SocketAddr) (tr : list ClientState) (p : Pickleback).

Definition resend_due t lp : Prop := f_lt lp (f64_sub t HANDSHAKE_RESEND_INTERVAL) = true.

Lemma visit_request n m a t lp lr ls sa tr p : calm n m None [] p -> n < 300 -> u64 a -> resend_due t lp ->
  exists h p', client_visit_packets_to_send
      (MkClient t SendingConnectionRequest (Some a) None None lp lr ls p (Some sa) tr) =
    Some (MkClient t SendingConnectionRequest (Some a) None None t lr t p' (Some sa) tr, Ok [(sa, packet_bytes (request_of a h))]) /\
    wf_packet (request_of a h) /\ h_id h = n + 1 /\ calm (n + 1) m None [] p'.
Proof.
  intros Hc Hn Ha Hdue. set (c := MkClient _ _ _ _ _ _ _ _ _ _ _).
  destruct (send_with_header_calm n m None TConnectionRequest request_packet (request_of a) c Hc Hn)
    as (h & p1 & Hsend & Hwf & Hid & Hc1); [done| |done|].
  { intros h. split; [done|]. split; [done|]. intros Hh Ht. split; [done|]. split; [done|]. split; [done|]. by split. }
  destruct (calm_visit _ _ _ _ _ Hc1) as (p2 & Hvisit & Hc2). exists h, p2. split; [|done].
  unfold client_visit_packets_to_send. rewrite run_get. cbn [server_addr c].
  assert (Hprot : send_protocol_packets c = Some (set_proto_last_send t (set_last_send_time t (set_pickleback p1 c)), Ok false)).
  { unfold send_protocol_packets. rewrite run_get. cbn [state c proto_last_send c_time]. unfold resend_due in Hdue. rewrite Hdue.
    run_step Hsend. done. }
  run_step Hprot. erewrite run_bind_ok by (apply on_pickleback_run; exact Hvisit). cbn beta. done.
Qed.

Lemma visit_response n m a b x t lp lr ls sa tr p : calm n m (Some x) [] p -> n < 300 -> u64 x -> resend_due t lp ->
  exists h p', client_visit_packets_to_send
      (MkClient t SendingChallengeResponse (Some a) (Some b) (Some x) lp lr ls p (Some sa) tr) =
    Some (MkClient t SendingChallengeResponse (Some a) (Some b) (Some x) t lr t p' (Some sa) tr,
          Ok [(sa, packet_bytes (response_of x h))]) /\
    wf_packet (response_of x h) /\ h_id h = n + 1 /\ calm (n + 1) m (Some x) [] p'.
Proof.
  intros Hc Hn Hx Hdue. set (c := MkClient _ _ _ _ _ _ _ _ _ _ _).
  destruct (send_with_header_calm n m (Some x) TConnectionChallengeResponse response_packet (response_of x) c Hc Hn)
    as (h & p1 & Hsend & Hwf & Hid & Hc1); [done| |done|].
  { intros h. split; [done|]. split; [done|]. intros Hh Ht. split; [done|]. by split. }
  destruct (calm_visit _ _ _ _ _ Hc1) as (p2 & Hvisit & Hc2). exists h, p2. split; [|done].
  unfold client_visit_packets_to_send. rewrite run_get. cbn [server_addr c].
  assert (Hprot : send_protocol_packets c = Some (set_proto_last_send t (set_last_send_time t (set_pickleback p1 c)), Ok false)).
  { unfold send_protocol_packets. rewrite run_get. cbn [state c proto_last_send c_time]. unfold resend_due in Hdue. rewrite Hdue.
    cbn [c_xor_salt is_some andb c]. run_step Hsend. done. }
  run_step Hprot. erewrite run_bind_ok by (apply on_pickleback_run; exact Hvisit). cbn beta. done.
Qed.

(** A connected client with nothing to say keeps the connection alive. *)
Lemma visit_keepalive n m a b x t lp lr ls sa tr p : calm n m (Some x) [] p -> n < 300 -> u64 x ->
  f_ge (f64_sub t ls) KEEPALIVE_INTERVAL = true ->
  exists h p', client_visit_packets_to_send (MkClient t Connected (Some a) (Some b) (Some x) lp lr ls p (Some sa) tr) =
    Some (MkClient t Connected (Some a) (Some b) (Some x) lp lr t p' (Some sa) tr, Ok [(sa, packet_bytes (keepalive_of x h))]) /\
    wf_packet (keepalive_of x h) /\ h_id h = n + 1 /\ calm (n + 1) m (Some x) [] p'.
Proof.
  intros Hc Hn Hx Hdue. set (c := MkClient _ _ _ _ _ _ _ _ _ _ _).
  destruct (calm_visit _ _ _ _ _ Hc) as (p1 & Hvisit1 & Hc1). set (c1 := set_pickleback p1 c).
  destruct (send_with_header_calm n m (Some x) TKeepAlive keepalive_packet (keepalive_of x) c1 Hc1 Hn)
    as (h & p2 & Hsend & Hwf & Hid & Hc2); [done| |done|].
  { intros h. split; [done|]. split; [done|]. intros Hh Ht. split; [done|]. split; [done|]. split; [done|]. by split. }
  destruct (calm_visit _ _ _ _ _ Hc2) as (p3 & Hvisit3 & Hc3). exists h, p3. split; [|done].
  unfold client_visit_packets_to_send. rewrite run_get. cbn [server_addr c].
  assert (Hprot : send_protocol_packets c = Some (c, Ok true)).
  { unfold send_protocol_packets. rewrite run_get. cbn [state c last_send_time c_time]. by rewrite Hdue. }
  run_step Hprot. erewrite run_bind_ok by (apply on_pickleback_run; exact Hvisit1). cbn beta iota. cbn [length Nat.eqb andb].
  fold c1. run_step Hsend. erewrite run_bind_ok by (apply on_pickleback_run; exact Hvisit3). cbn beta. done.
Qed.

(** *** Receiving *)
Lemma client_receive_read t st a s x lp lr ls sa tr p pkt : wf_packet pkt -> exists cur,
  client_receive (packet_bytes pkt) sa (MkClient t st a s x lp lr ls p (Some sa) tr) =
  ('(_, new_state) ← st_with cur (handle_packet (normal_packet pkt));
   match new_state with Some new_state => state_transition new_state | None => mret tt end)
   (MkClient t st a s x lp t ls p (Some sa) tr).
Proof.
  intros Hp. destruct (read_control pkt Hp) as [cur Hread]. exists cur.
  unfold client_receive. rewrite run_get. cbn [server_addr]. rewrite bool_decide_true by done. cbn [negb].
  unfold mbind, ST_bind, st_with. unfold st_snd at 1, st_zoom at 1. cbn [snd]. rewrite Hread. done.
Qed.

Lemma client_process_calm n m salt obs h cur c : calm n m salt obs (pickleback c) -> wf_header h ->
  packet_type h <> TMessages -> m < h_id h <= 300 ->
  exists p', client_process h (c, cur) = Some ((set_pickleback p' c, cur), Ok tt) /\ calm n (h_id h) salt obs p'.
Proof.
  intros Hc Hh Ht Hn. destruct (calm_receive n m salt obs h cur _ Hc Hh Ht Hn) as (p' & Hrun & Hc').
  exists p'. split; [|done]. unfold client_process, st_zoom. by rewrite Hrun.
Qed.

Lemma receive_challenge n m a b t lp lr ls sa tr p h : calm n m None [] p -> wf_packet (challenge_of a b h) ->
  m < h_id h <= 300 ->
  exists p', client_receive (packet_bytes (challenge_of a b h)) sa
      (MkClient t SendingConnectionRequest (Some a) None None lp lr ls p (Some sa) tr) =
    Some (MkClient t SendingChallengeResponse (Some a) (Some b) (Some (Z.lxor b a)) zero t ls p' (Some sa)
            (tr ++ [SendingChallengeResponse]), Ok tt) /\
    calm n (h_id h) (Some (Z.lxor b a)) [] p'.
Proof.
  intros Hc Hwf Hn. destruct (client_receive_read t SendingConnectionRequest (Some a) None None lp lr ls sa tr p _ Hwf) as [cur ->].
  set (c := MkClient t _ _ _ _ _ _ _ _ _ _).
  destruct (client_process_calm n m None [] (normal_header h) cur
    (set_c_xor_salt (Some (Z.lxor b a)) (set_server_salt (Some b) c)) Hc) as (p1 & Hproc & Hc1).
  { by apply normal_header_wf, Hwf. } { destruct Hwf as (_ & Ht & _). cbn in *. congruence. } { done. }
  exists (set_xor_salt (Some (Z.lxor b a)) p1). split; [|by eapply calm_set_salt].
  assert (Hh : handle_packet (normal_packet (challenge_of a b h)) (c, cur) =
    Some ((set_pickleback p1 (set_c_xor_salt (Some (Z.lxor b a)) (set_server_salt (Some b) c)), cur), Ok (Some SendingChallengeResponse))).
  { unfold handle_packet, challenge_of. cbn [normal_packet]. rewrite run_get. cbn [state client_salt c cch_client_salt cch_server_salt cch_header].
    rewrite Z.eqb_refl. cbn [negb]. do 2 run_done. by run_step Hproc. }
  erewrite run_bind_ok by (unfold st_with; rewrite Hh; done). done.
Qed.

Lemma receive_keepalive n m a b x st t lp lr ls sa tr p h : st = SendingChallengeResponse \/ st = Connected ->
  calm n m (Some x) [] p -> wf_packet (keepalive_of x h) -> m < h_id h <= 300 ->
  exists lp' p', client_receive (packet_bytes (keepalive_of x h)) sa
      (MkClient t st (Some a) (Some b) (Some x) lp lr ls p (Some sa) tr) =
    Some (MkClient t Connected (Some a) (Some b) (Some x) lp' t ls p' (Some sa)
            (tr ++ match st with Connected => [] | _ => [Connected] end), Ok tt) /\
    calm n (h_id h) (Some x) [] p'.
Proof.
  intros Hst Hc Hwf Hn. destruct (client_receive_read t st (Some a) (Some b) (Some x) lp lr ls sa tr p _ Hwf) as [cur ->].
  set (c := MkClient t _ _ _ _ _ _ _ _ _ _).
  destruct (client_process_calm n m (Some x) [] (normal_header h) cur c Hc) as (p1 & Hproc & Hc1).
  { by apply normal_header_wf, Hwf. } { destruct Hwf as (_ & Ht & _). cbn in *. congruence. } { done. }
  assert (Hh : handle_packet (normal_packet (keepalive_of x h)) (c, cur) =
    Some ((set_pickleback p1 c, cur), Ok (match st with Connected => None | _ => Some Connected end))).
  { unfold handle_packet, keepalive_of. cbn [normal_packet]. rewrite run_get. cbn [state c ka_xor_salt ka_header].
    destruct Hst as [-> | ->]; cbn [c_xor_salt]; rewrite bool_decide_true by done; run_done; run_step Hproc; done. }
  erewrite run_bind_ok by (unfold st_with; rewrite Hh; done).
  destruct Hst as [-> | ->].
  - exists zero, (set_xor_salt (Some x) p1). split; [done|]. by eapply calm_set_salt.
  - exists lp, p1. split; [|done]. cbn. by rewrite app_nil_r.
Qed.

(** *** Time *)
Definition timely t lr : Prop := f_gt (f64_sub t lr) CONNECTION_TIMEOUT = false.

Lemma client_update_calm n m salt obs dt t st a s x lp lr ls p oa tr : calm n m salt obs p -> timely (f64_add t dt) lr ->
  exists p', client_update dt (MkClient t st a s x lp lr ls p oa tr) =
    Some (MkClient (f64_add t dt) st a s x lp lr ls p' oa tr, Ok tt) /\ calm n m salt obs p'.
Proof.
  intros Hc Ht. destruct (calm_update n m salt obs dt p Hc) as (p' & Hrun & Hc'). exists p'. split; [|done].
  unfold client_update. run_done. erewrite run_bind_ok by (apply on_pickleback_run; exact Hrun). cbn beta. rewrite run_get.
  cbn [c_time last_receive_time set_c_time set_pickleback]. unfold timely in Ht. rewrite Ht. by rewrite andb_false_r.
Qed.
End client.

(** A client whose clock is past the connection timeout cannot connect:
    [connect] leaves the time of the last packet received at zero, where [new]
    and [reset] put it, so the first [update] after it times out, whatever the
    time that went by since [connect]. *)
Theorem late_connect_times_out `{BP : BuildProfile, BO : ByteOrder, SM : SmallMap} cfg time salt addr dt :
  good_config cfg -> 600 <= max_packet_size cfg -> f_gt (f64_sub (f64_add time dt) zero) CONNECTION_TIMEOUT = true ->
  exists c0 c1 c2, PicklebackClient_new time cfg = Some c0 /\
    connect salt addr c0 = Some (c1, Ok tt) /\ state c1 = SendingConnectionRequest /\
    client_update dt c1 = Some (c2, Ok tt) /\ state c2 = Disconnected TimedOut /\ server_addr c2 = None.
Proof.
  intros Hcfg Hsize Hlate. unfold PicklebackClient_new. rewrite Pickleback_new_run.
  destruct (update_idle dt _ (set_salt_idle None _ (fresh_idle cfg zero Hcfg Hsize))) as (p & Hrun & _).
  eexists _, _, _. split; [done|]. split; [reflexivity|]. split; [reflexivity|].
  unfold client_update. run_done.
  erewrite run_bind_ok by (apply on_pickleback_run; exact Hrun).
  rewrite run_get. cbn. rewrite Hlate.
  unfold state_transition. do 2 run_done. rewrite run_get. run_done. cbn [is_disconnected].
  unfold client_reset. rewrite run_assoc, run_get. rewrite Pickleback_new_run. split; [reflexivity|split; reflexivity].
Qed.

Lemma late_connect_times_out_witness : exists c0 c1 c2,
  @PicklebackClient_new debug_build big_endian (f64_lit 6 1) PicklebackConfig_default = Some c0 /\
  @connect debug_build big_endian 5 (V4 1 6000) c0 = Some (c1, Ok tt) /\ state c1 = SendingConnectionRequest /\
  @client_update debug_build big_endian (f64_lit 16 1000) c1 = Some (c2, Ok tt) /\ state c2 = Disconnected TimedOut /\ server_addr c2 = None.
Proof.
  apply (late_connect_times_out (BP := debug_build) (BO := big_endian) (SM := elements_order)
    PicklebackConfig_default (f64_lit 6 1) 5 (V4 1 6000) (f64_lit 16 1000)).
  - apply default_good_config.
  - vm_compute. discriminate.
  - vm_compute. reflexivity.
Defined.

(** ** The server *)
Section vectors.
Context {X A : Type}.

Lemma on_first_none (f : X -> bool) (m : M X A) l : Forall (fun x => f x = false) l -> on_first f m l = Some (l, Ok None).
Proof. induction 1 as [|x l Hx _ IH]; [done|]. cbn [on_first]. by rewrite Hx, IH. Qed.

Lemma on_first_head (f : X -> bool) (m : M X A) x x' a l : f x = true -> m x = Some (x', Ok a) ->
  on_first f m (x :: l) = Some (x' :: l, Ok (Some a)).
Proof. intros Hx Hm. cbn [on_first]. by rewrite Hx, Hm. Qed.
End vectors.

Section server.
Context `{BP : BuildProfile, BO : ByteOrder, BL : !ByteOrderLaws BO, SM : SmallMap, SL : !SmallMapLaws SM}.
Implicit Types (t ft lc lr ls : f64) (addr : SocketAddr) (p : Pickleback) (pend : list PendingClient)
  (conn : list ConnectedClient) (cfg : PicklebackConfig) (bp : BufPool) (ev : list ServerEvent).

Lemma process_calm n m salt obs h cur p : calm n m salt obs p -> wf_header h -> packet_type h <> TMessages ->
  m < h_id h <= 300 -> exists p', process cur h p = Some (p', Ok tt) /\ calm n (h_id h) salt obs p'.
Proof.
  intros Hc Hh Ht Hn. destruct (calm_receive n m salt obs h cur p Hc Hh Ht Hn) as (p' & Hrun & Hc').
  exists p'. split; [|done]. unfold process. erewrite run_bind_ok by (unfold st_with; rewrite Hrun; done). done.
Qed.

Lemma send_quietly_calm n m salt obs ty (packet : ProtocolPacketHeader -> ProtocolPacket) p : calm n m salt obs p ->
  n < 300 -> ty <> TMessages ->
  (forall h, packet_header (packet h) = h /\ PacketType_from (packet h) = ty /\
    (wf_header h -> packet_type h = ty -> wf_packet (packet h))) ->
  exists h p', send_quietly ty packet p = Some (p', Ok tt) /\ wf_packet (packet h) /\ h_id h = n + 1 /\
    calm (n + 1) m salt (obs ++ [packet_bytes (packet h)]) p'.
Proof.
  intros Hc Hn Ht Hpk.
  destruct (calm_send n m salt obs ty packet p Hc Hn Ht Hpk) as (h & p1 & p2 & Hnext & Hsend & _ & Hwf & Hid & Hc2).
  exists h, p2. split; [|done]. unfold send_quietly.
  erewrite run_bind_ok by (unfold st_try; rewrite Hnext; done). cbn beta iota.
  erewrite run_bind_ok by (unfold st_try; rewrite Hsend; done). done.
Qed.

Lemma on_pc_run {A} (m : M Pickleback A) pc p r : m (pc_pickleback pc) = Some (p, r) -> on_pc m pc = Some (set_pc_pickleback p pc, r).
Proof. intros Hm. unfold on_pc, st_zoom. by rewrite Hm. Qed.

Lemma on_cc_run {A} (m : M Pickleback A) cc p r : m (cc_pickleback cc) = Some (p, r) -> on_cc m cc = Some (set_cc_pickleback p cc, r).
Proof. intros Hm. unfold on_cc, st_zoom. by rewrite Hm. Qed.

Lemma server_receive_read b addr pkt s : wf_packet pkt -> exists cur,
  server_receive b (packet_bytes pkt) addr s =
  match normal_packet pkt with
  | ConnectionRequest p => receive_request b p cur addr
  | ConnectionChallengeResponse p => receive_response p cur addr
  | Disconnect p => remove_connected_client (dp_xor_salt p) addr;; mret tt
  | KeepAlive p => receive_from_client (ka_xor_salt p) (ka_header p) cur addr
  | Messages p => receive_from_client (mp_xor_salt p) (mp_header p) cur addr
  | _ => mret tt
  end s.
Proof.
  intros Hp. destruct (read_control pkt Hp) as [cur Hread]. exists cur. unfold server_receive.
  by erewrite run_bind_ok by (unfold st_local; rewrite Hread; done).
Qed.

Lemma default_calm t : calm 0 0 None [] (fresh_endpoint PicklebackConfig_default t).
Proof. apply calm_fresh; [apply default_good_config|vm_compute; discriminate|reflexivity]. Qed.

Lemma receive_request_fresh a b h addr t pend conn cfg bp ob ev :
  Forall (fun pc => is_pending a addr pc = false) pend -> wf_packet (request_of a h) -> 0 < h_id h <= 300 ->
  exists p', server_receive b (packet_bytes (request_of a h)) addr (MkServer t pend conn cfg bp ob ev) =
    Some (MkServer t (pend ++ [MkPending a b t zero addr p']) conn cfg bp ob ev, Ok tt) /\ calm 0 (h_id h) None [] p'.
Proof.
  intros Hnone Hwf Hn. set (s := MkServer _ _ _ _ _ _ _).
  destruct (server_receive_read b addr (request_of a h) s Hwf) as [cur ->]. cbn [normal_packet request_of].
  destruct (process_calm 0 0 None [] (normal_header h) cur _ (default_calm t)) as (p' & Hproc & Hc).
  { by apply normal_header_wf, Hwf. } { destruct Hwf as (_ & Ht & _). cbn in *. congruence. } { done. }
  exists p'. split; [|done]. unfold receive_request. cbn [protocol_version crq_client_salt crq_header]. rewrite Z.eqb_refl. cbn [negb].
  erewrite run_bind_ok by (unfold on_pending, st_zoom; cbn [pending_clients s]; rewrite on_first_none by done; done).
  cbn beta iota. rewrite run_get. rewrite Pickleback_new_run. run_done. cbn [s_time s set_pending_clients].
  erewrite run_bind_ok by (unfold st_local, on_pc, st_zoom; cbn [pc_pickleback]; rewrite Hproc; done). done.
Qed.

(** A server with one pending client challenges it. *)
Lemma update_challenges n m a b ft lc addr p t dt cfg bp ob ev : calm n m None [] p -> n < 300 -> u64 a -> u64 b ->
  timely (f64_add t dt) ft -> resend_due (f64_add t dt) lc ->
  exists h p', server_update dt (MkServer t [MkPending a b ft lc addr p] [] cfg bp ob ev) =
    Some (MkServer (f64_add t dt) [MkPending a b ft (f64_add t dt) addr p'] [] cfg bp ob ev, Ok tt) /\
    wf_packet (challenge_of a b h) /\ h_id h = n + 1 /\ calm (n + 1) m None [packet_bytes (challenge_of a b h)] p'.
Proof.
  intros Hc Hn Ha Hb Ht Hdue. set (t' := f64_add t dt) in *.
  destruct (calm_update n m None [] dt p Hc) as (p1 & Hup & Hc1).
  destruct (send_quietly_calm n m None [] TConnectionChallenge (challenge_of a b) p1 Hc1 Hn) as (h & p3 & Hsend & Hwf & Hid & Hc3).
  { done. } { intros h. split; [done|]. split; [done|]. intros Hh Hty. split; [done|]. by split. }
  exists h, p3. split; [|done].
  assert (Hone : process_pending_client t' dt (MkPending a b ft lc addr p) = Some (MkPending a b ft t' addr p3, Ok false)).
  { unfold process_pending_client. erewrite run_bind_ok by (apply on_pc_run; exact Hup).
    cbn beta. rewrite run_get. cbn [first_requested_time set_pc_pickleback last_challenged_at]. unfold timely in Ht. rewrite Ht.
    unfold resend_due in Hdue. rewrite Hdue. run_done. by erewrite run_bind_ok by (apply on_pc_run; exact Hsend). }
  unfold server_update. run_done. unfold process_pending_clients. rewrite run_assoc, run_get. cbn [s_time set_s_time].
  fold t'. rewrite run_assoc.
  erewrite run_bind_ok by (unfold on_pending, st_zoom; cbn [pending_clients set_s_time for_each]; rewrite Hone; done). done.
Qed.

Lemma visit_calm_pending n m obs a b ft lc addr p t cfg bp ev : calm n m None obs p ->
  exists p', server_visit_packets_to_send (MkServer t [MkPending a b ft lc addr p] [] cfg bp [] ev) =
    Some (MkServer t [MkPending a b ft lc addr p'] [] cfg bp [] ev, Ok ((fun o => (addr, o)) <$> obs)) /\ calm n m None [] p'.
Proof.
  intros Hc. destruct (calm_visit _ _ _ _ _ Hc) as (p' & Hrun & Hc'). exists p'. split; [|done].
  assert (Hone : visit_pending (MkPending a b ft lc addr p) = Some (MkPending a b ft lc addr p', Ok ((fun o => (addr, o)) <$> obs))).
  { unfold visit_pending. rewrite run_get. by erewrite run_bind_ok by (apply on_pc_run; exact Hrun). }
  unfold server_visit_packets_to_send. rewrite run_get. run_done.
  erewrite run_bind_ok by (unfold on_pending, st_zoom; cbn [pending_clients set_s_outbox for_each]; rewrite Hone; done).
  cbn beta. run_done. cbn. by rewrite !app_nil_r.
Qed.

(** The answer to its challenge connects the pending client. *)
Lemma receive_response_connects n m a b h addr b' ft lc p t cfg bp ob ev : calm n m None [] p -> n < 300 ->
  u64 (Z.lxor a b) -> wf_packet (response_of (Z.lxor a b) h) -> m < h_id h <= 300 ->
  exists h' p', server_receive b' (packet_bytes (response_of (Z.lxor a b) h)) addr
      (MkServer t [MkPending a b ft lc addr p] [] cfg bp ob ev) =
    Some (MkServer t [] [MkConnected (Z.lxor a b) addr false None t t p'] cfg bp ob (ev ++ [ClientConnected (Z.lxor a b)]), Ok tt) /\
    wf_packet (keepalive_of (Z.lxor a b) h') /\ h_id h' = n + 1 /\
    calm (n + 1) (h_id h) (Some (Z.lxor a b)) [packet_bytes (keepalive_of (Z.lxor a b) h')] p'.
Proof.
  intros Hc Hn Hx Hwf Hid. set (x := Z.lxor a b) in *. set (s := MkServer _ _ _ _ _ _ _).
  destruct (server_receive_read b' addr (response_of x h) s Hwf) as [cur ->]. cbn [normal_packet response_of].
  destruct (process_calm n m (Some x) [] (normal_header h) cur (set_xor_salt (Some x) p)) as (p1 & Hproc & Hc1).
  { by eapply calm_set_salt. } { by apply normal_header_wf, Hwf. } { destruct Hwf as (_ & Ht & _). cbn in *. congruence. } { done. }
  destruct (calm_send n (h_id h) (Some x) [] TKeepAlive (keepalive_of x) p1 Hc1 Hn) as (h' & p2 & p3 & Hnext & Hsend & _ & Hwf' & Hid' & Hc3).
  { done. } { intros h'. split; [done|]. split; [done|]. intros Hh Ht. split; [done|]. split; [done|]. split; [done|]. by split. }
  exists h', p3. split; [|done]. unfold receive_response. cbn [ccr_xor_salt ccr_header].
  assert (Htake : take_pending_by_xor_salt x addr s = Some (MkServer t [] [] cfg bp ob ev, Ok (Some (MkPending a b ft lc addr p)))).
  { unfold take_pending_by_xor_salt. rewrite run_get. unfold position_of. cbn [pending_clients s].
    assert (Hch : is_challenged x addr (MkPending a b ft lc addr p) = true).
    { unfold is_challenged. cbn. fold x. rewrite Z.eqb_refl. by rewrite bool_decide_true. }
    cbn [list_find]. rewrite decide_True by done. done. }
  run_step Htake. cbn [pc_client_salt pc_server_salt pc_pickleback]. fold x. rewrite Z.eqb_refl. cbn [negb].
  erewrite run_bind_ok by (unfold st_local; rewrite Hproc; done). cbn beta iota. rewrite run_get. cbn [s_time].
  erewrite run_bind_ok by (unfold st_local;
    erewrite on_cc_run by (cbn [cc_pickleback]; erewrite run_bind_ok by exact Hnext; exact Hsend); done).
  done.
Qed.

(** Until the client is heard of again, a keep-alive goes in front of what
    is waiting. *)
Lemma update_unconfirmed n m x lr ls addr p t dt o cfg bp ob ev : calm n m (Some x) [o] p -> n < 300 -> u64 x ->
  timely (f64_add t dt) lr ->
  exists h p', server_update dt (MkServer t [] [MkConnected x addr false None lr ls p] cfg bp ob ev) =
    Some (MkServer (f64_add t dt) [] [MkConnected x addr false None lr ls p'] cfg bp ob ev, Ok tt) /\
    wf_packet (keepalive_of x h) /\ h_id h = n + 1 /\ calm (n + 1) m (Some x) [o; packet_bytes (keepalive_of x h)] p'.
Proof.
  intros Hc Hn Hx Ht. set (t' := f64_add t dt) in *.
  destruct (calm_update n m (Some x) [o] dt p Hc) as (p1 & Hup & Hc1).
  destruct (send_quietly_calm n m (Some x) [o] TKeepAlive (keepalive_of x) p1 Hc1 Hn) as (h & p2 & Hsend & Hwf & Hid & Hc2).
  { done. } { intros h. split; [done|]. split; [done|]. intros Hh Hty. split; [done|]. split; [done|]. split; [done|]. by split. }
  exists h, p2. split; [|done].
  assert (Hsome : (0 <? num_packets_to_send p1) = true).
  { unfold num_packets_to_send. rewrite <- (length_fmap vdata), (cm_outbox _ _ _ _ _ Hc1). done. }
  assert (Hone : process_connected_client t' dt (MkConnected x addr false None lr ls p) =
    Some (MkConnected x addr false None lr ls p2, Ok tt)).
  { unfold process_connected_client. erewrite run_bind_ok by (apply on_cc_run; exact Hup).
    cbn beta. rewrite run_get. cbn [confirmed set_cc_pickleback cc_pickleback]. rewrite Hsome. cbn [negb andb orb].
    apply on_cc_run. exact Hsend. }
  unfold server_update. run_done. unfold process_pending_clients. rewrite run_assoc, run_get. cbn [s_time set_s_time].
  fold t'. rewrite run_assoc. run_done. rewrite run_assoc, run_get. rewrite run_assoc. run_done. run_done.
  unfold process_connected_clients. rewrite run_get.
  cbn [connected_clients set_pending_clients set_s_time s_time pending_clients]. unfold is_awol.
  cbn [fmap list_fmap last_received_time]. unfold timely in Ht. fold t'. rewrite Ht.
  run_done. run_done. run_done.
  by erewrite run_bind_ok by (unfold on_connected, st_zoom; cbn [connected_clients set_connected_clients set_pending_clients set_s_time s_time for_each];
    rewrite Hone; done).
Qed.

Lemma visit_calm_connected n m obs x lr ls addr cf p t cfg bp ev : calm n m (Some x) obs p -> obs <> [] ->
  exists p', server_visit_packets_to_send (MkServer t [] [MkConnected x addr cf None lr ls p] cfg bp [] ev) =
    Some (MkServer t [] [MkConnected x addr cf None lr t p'] cfg bp [] ev, Ok ((fun o => (addr, o)) <$> obs)) /\
    calm n m (Some x) [] p'.
Proof.
  intros Hc Hobs. destruct (calm_visit _ _ _ _ _ Hc) as (p' & Hrun & Hc'). exists p'. split; [|done].
  assert (Hone : visit_client t (MkConnected x addr cf None lr ls p) =
    Some (MkConnected x addr cf None lr t p', Ok ((fun o => (addr, o)) <$> obs))).
  { unfold visit_client. rewrite run_get. erewrite run_bind_ok by (apply on_cc_run; exact Hrun). by destruct obs. }
  unfold server_visit_packets_to_send. rewrite run_get. run_done. run_done.
  erewrite run_bind_ok by (unfold on_connected, st_zoom; cbn [connected_clients set_s_outbox set_pending_clients for_each s_time]; rewrite Hone; done).
  cbn. by rewrite !app_nil_r.
Qed.

Lemma receive_keepalive_confirms n m x h addr b' cf lr ls p t cfg bp ob ev : calm n m (Some x) [] p ->
  wf_packet (keepalive_of x h) -> m < h_id h <= 300 ->
  exists p', server_receive b' (packet_bytes (keepalive_of x h)) addr
      (MkServer t [] [MkConnected x addr cf None lr ls p] cfg bp ob ev) =
    Some (MkServer t [] [MkConnected x addr true None t ls p'] cfg bp ob ev, Ok tt) /\ calm n (h_id h) (Some x) [] p'.
Proof.
  intros Hc Hwf Hid. set (s := MkServer _ _ _ _ _ _ _).
  destruct (server_receive_read b' addr (keepalive_of x h) s Hwf) as [cur ->]. cbn [normal_packet keepalive_of].
  destruct (process_calm n m (Some x) [] (normal_header h) cur p Hc) as (p1 & Hproc & Hc1).
  { by apply normal_header_wf, Hwf. } { destruct Hwf as (_ & Ht & _). cbn in *. congruence. } { done. }
  exists p1. split; [|done]. unfold receive_from_client. cbn [ka_xor_salt ka_header]. rewrite run_get. cbn [s_time s].
  erewrite run_bind_ok; [done|]. unfold on_connected, st_zoom. cbn [connected_clients s].
  rewrite (on_first_head _ _ _ (MkConnected x addr true None t ls p1) tt []); [done| |].
  - unfold is_client. cbn. by rewrite Z.eqb_refl, bool_decide_true.
  - run_done. run_done. apply on_cc_run. exact Hproc.
Qed.
End server.
