(* ===== verification/TestUtils.v ===== *)
(** * Two ends and two jitter pipes ([test_utils.rs])

    The harnesses of the crate's tests and benchmarks: two endpoints, or a
    server and a client, whose packets travel through jitter pipes. *)

From S2P Require Import Prelude BinaryHeap Floats Types JitterPipe SequenceBuffer Cursor BufferPool AckHeader Message Packets Reassembler Channel Dispatcher Endpoint Client Server.

Record TransmissionStats := MkTransmission {
  server_sent : Z;
  server_received : Z;
  client_sent : Z;
  client_received : Z;
}.

Definition TransmissionStats_default : TransmissionStats := MkTransmission 0 0 0 0.

Record MessageTestHarness := MkMessageHarness {
  mh_server : Pickleback;
  mh_client : Pickleback;
  mh_server_pipe : JitterPipe (list Z);
  mh_client_pipe : JitterPipe (list Z);
  mh_drop_indices : option (list Z);
  mh_stats : TransmissionStats;
  mh_pool : BufPool;
}.

Record ProtocolTestHarness := MkProtocolHarness {
  ph_server : PicklebackServer;
  ph_client : PicklebackClient;
  ph_server_pipe : JitterPipe AddressedPacket;
  ph_client_pipe : JitterPipe AddressedPacket;
  ph_drop_indices : option (list Z);
  ph_stats : TransmissionStats;
}.

(** The random numbers of one tick: the draws of each insertion into either
    pipe, and the salts the server draws for the packets it receives. *)
Record TickRandom := MkTick {
  server_draws : nat -> Draws;
  client_draws : nat -> Draws;
  tick_salts : nat -> Z;
}.

(** Writes to one field. *)
Definition set_mh_server v h := MkMessageHarness v (mh_client h) (mh_server_pipe h) (mh_client_pipe h) (mh_drop_indices h)
  (mh_stats h) (mh_pool h).
Definition set_mh_client v h := MkMessageHarness (mh_server h) v (mh_server_pipe h) (mh_client_pipe h) (mh_drop_indices h)
  (mh_stats h) (mh_pool h).
Definition set_mh_server_pipe v h := MkMessageHarness (mh_server h) (mh_client h) v (mh_client_pipe h) (mh_drop_indices h)
  (mh_stats h) (mh_pool h).
Definition set_mh_client_pipe v h := MkMessageHarness (mh_server h) (mh_client h) (mh_server_pipe h) v (mh_drop_indices h)
  (mh_stats h) (mh_pool h).
Definition set_mh_drop_indices v h := MkMessageHarness (mh_server h) (mh_client h) (mh_server_pipe h) (mh_client_pipe h) v
  (mh_stats h) (mh_pool h).
Definition set_mh_stats v h := MkMessageHarness (mh_server h) (mh_client h) (mh_server_pipe h) (mh_client_pipe h)
  (mh_drop_indices h) v (mh_pool h).
Definition set_ph_server v h := MkProtocolHarness v (ph_client h) (ph_server_pipe h) (ph_client_pipe h) (ph_drop_indices h) (ph_stats h).
Definition set_ph_client v h := MkProtocolHarness (ph_server h) v (ph_server_pipe h) (ph_client_pipe h) (ph_drop_indices h) (ph_stats h).
Definition set_ph_server_pipe v h := MkProtocolHarness (ph_server h) (ph_client h) v (ph_client_pipe h) (ph_drop_indices h) (ph_stats h).
Definition set_ph_client_pipe v h := MkProtocolHarness (ph_server h) (ph_client h) (ph_server_pipe h) v (ph_drop_indices h) (ph_stats h).
Definition set_ph_drop_indices v h := MkProtocolHarness (ph_server h) (ph_client h) (ph_server_pipe h) (ph_client_pipe h) v (ph_stats h).
Definition set_ph_stats v h := MkProtocolHarness (ph_server h) (ph_client h) (ph_server_pipe h) (ph_client_pipe h) (ph_drop_indices h) v.

(** ** Payloads

    [draws] are the results of [rand::random]. *)
Definition random_payload (size : Z) (draws : nat -> Z) : list Z := draws <$> seq 0 (Z.to_nat size).

(** The first draw is the size's. *)
Definition random_payload_max_frags `{BuildProfile} (max_fragments : Z) (draws : nat -> Z) : option (list Z) :=
  most ← arith32 (1024 * max_fragments);
  most ← arith32 (most - 1);
  if most =? 0 then None
  else
    size ← arith32 (1 + draws 0%nat mod most);
    Some (random_payload size (fun i => draws (S i))).

(** It has at least a byte, and as few fragments as it says. *)
Lemma random_payload_fits `{BuildProfile} max_fragments draws : 1 <= max_fragments <= MAX_FRAGMENTS ->
  exists payload, random_payload_max_frags max_fragments draws = Some payload /\
    0 < Z.of_nat (length payload) < 1024 * max_fragments.
Proof.
  unfold MAX_FRAGMENTS. intros Hmax. unfold random_payload_max_frags.
  rewrite (arith32_in_range (1024 * max_fragments)) by lia. cbn [mbind option_bind].
  rewrite arith32_in_range by lia. cbn [mbind option_bind]. destruct (Z.eqb_spec (1024 * max_fragments - 1) 0) as [|_]; [lia|].
  pose proof (Z.mod_pos_bound (draws 0%nat) (1024 * max_fragments - 1)) as Hd.
  rewrite arith32_in_range by lia. eexists. split; [done|]. unfold random_payload. rewrite length_fmap, length_seq. lia.
Qed.

Section operations.
Context `{BP : BuildProfile, BO : ByteOrder, SM : SmallMap}.

Section zooms.
Context {A : Type}.
Definition on_mh_server : M Pickleback A -> M MessageTestHarness A := st_zoom mh_server set_mh_server.
Definition on_mh_client : M Pickleback A -> M MessageTestHarness A := st_zoom mh_client set_mh_client.
Definition on_mh_server_pipe : M (JitterPipe (list Z)) A -> M MessageTestHarness A := st_zoom mh_server_pipe set_mh_server_pipe.
Definition on_mh_client_pipe : M (JitterPipe (list Z)) A -> M MessageTestHarness A := st_zoom mh_client_pipe set_mh_client_pipe.
Definition on_ph_server : M PicklebackServer A -> M ProtocolTestHarness A := st_zoom ph_server set_ph_server.
Definition on_ph_client : M PicklebackClient A -> M ProtocolTestHarness A := st_zoom ph_client set_ph_client.
Definition on_ph_server_pipe : M (JitterPipe AddressedPacket) A -> M ProtocolTestHarness A :=
  st_zoom ph_server_pipe set_ph_server_pipe.
Definition on_ph_client_pipe : M (JitterPipe AddressedPacket) A -> M ProtocolTestHarness A :=
  st_zoom ph_client_pipe set_ph_client_pipe.
End zooms.

(** The body of a [send_fn]: the packets that [keep] selects by the counter
    go into the pipe, and every packet counts. *)
Fixpoint insert_all {H T} (insert : Draws -> T -> M H unit) (draws : nat -> Draws) (keep : Z -> bool) (i : nat) (sent : Z)
    (packets : list T) : M H Z :=
  match packets with
  | [] => mret sent
  | p :: packets =>
      (if keep sent then insert (draws i) p else mret tt);;
      sent ← st_lift (arith32 (sent + 1));
      insert_all insert draws keep (S i) sent packets
  end.

(** [while let Some(p) = pipe.take_next()]: every round empties the pipe by
    one, so its size is fuel enough; the bodies are numbered. *)
Fixpoint take_all {H T} (fuel : nat) (take : M H (option T)) (body : nat -> T -> M H unit) (i : nat) (received : Z) : M H Z :=
  match fuel with
  | O => st_panic
  | S fuel =>
      o ← take;
      match o with
      | None => mret received
      | Some p =>
          received ← st_lift (arith32 (received + 1));
          body i p;;
          take_all fuel take body (S i) received
      end
  end.

Definition not_dropped (drop_indices : option (list Z)) (sent : Z) : bool :=
  negb (existsb (Z.eqb sent) (default [] drop_indices)).

(** The counters of [TransmissionStats], with [+=] on [u32]. *)
Definition add_stats (ss sr cs cr : Z) (s : TransmissionStats) : option TransmissionStats :=
  sr ← arith32 (server_received s + sr);
  ss ← arith32 (server_sent s + ss);
  cr ← arith32 (client_received s + cr);
  cs ← arith32 (client_sent s + cs);
  Some (MkTransmission ss sr cs cr).

(** ** Two endpoints *)
Definition MessageTestHarness_new (config : JitterPipeConfig) : option MessageTestHarness :=
  server ← Pickleback_default;
  client ← Pickleback_default;
  Some (MkMessageHarness (set_xor_salt (Some 0) server) (set_xor_salt (Some 0) client)
    (JitterPipe_new config) (JitterPipe_new config) None TransmissionStats_default BufPool_default).

Definition collect_client_acks (channel : Z) : M MessageTestHarness (list MessageId) := on_mh_client (drain_message_acks channel).
Definition collect_server_acks (channel : Z) : M MessageTestHarness (list MessageId) := on_mh_server (drain_message_acks channel).
Definition drain_client_messages (channel : Z) : M MessageTestHarness ReceivedMessagesContainer :=
  on_mh_client (drain_received_messages channel).
Definition drain_server_messages (channel : Z) : M MessageTestHarness ReceivedMessagesContainer :=
  on_mh_server (drain_received_messages channel).

(** A packet from a pipe: it must parse as a packet of messages; what
    processing it returns is dropped. *)
Definition endpoint_receive (packet : list Z) : M Pickleback unit := fun self =>
  match read_packet (Cursor_new packet) with
  | Some (reader, Ok (Messages m)) =>
      match process_incoming_packet (mp_header m) (self, reader) with
      | Some ((self', _), _) => Some (self', Ok tt)
      | None => None
      end
  | _ => None
  end.

Definition message_advance (r : TickRandom) (dt : f64) : M MessageTestHarness unit :=
  on_mh_server (update dt);;
  on_mh_client (update dt);;
  h ← st_get;
  packets ← on_mh_server visit_packets_to_send;
  server_sent ← insert_all (fun d p => on_mh_server_pipe (pipe_insert d p)) (server_draws r)
    (not_dropped (mh_drop_indices h)) 0 0 packets;
  h ← st_get;
  client_received ← take_all (S (length (heap (mh_server_pipe h)))) (on_mh_server_pipe take_next)
    (fun _ p => on_mh_client (endpoint_receive p)) 0 0;
  packets ← on_mh_client visit_packets_to_send;
  client_sent ← insert_all (fun d p => on_mh_client_pipe (pipe_insert d p)) (client_draws r) (fun _ => true) 0 0 packets;
  h ← st_get;
  server_received ← take_all (S (length (heap (mh_client_pipe h)))) (on_mh_client_pipe take_next)
    (fun _ p => on_mh_server (endpoint_receive p)) 0 0;
  h ← st_get;
  s ← st_lift (add_stats server_sent server_received client_sent client_received (mh_stats h));
  st_modify (set_mh_stats s).

Definition message_advance_with_drops (r : TickRandom) (dt : f64) (drop_indices : list Z) : M MessageTestHarness unit :=
  st_modify (set_mh_drop_indices (Some drop_indices));;
  message_advance r dt;;
  st_modify (set_mh_drop_indices None).

(** ** A server and a client *)

(** [127.0.0.1:0]. *)
Definition harness_addr : SocketAddr := V4 2130706433 0.

(** [client_salt] is what the client's [connect] draws. *)
Definition ProtocolTestHarness_new (client_salt : Z) (jitter_config : JitterPipeConfig) : option ProtocolTestHarness :=
  let time := zero in
  client ← PicklebackClient_new time PicklebackConfig_default;
  match connect client_salt harness_addr client with
  | Some (client, Ok _) =>
      Some (MkProtocolHarness (PicklebackServer_new time PicklebackConfig_default) client
        (JitterPipe_new jitter_config) (JitterPipe_new jitter_config) None TransmissionStats_default)
  | _ => None
  end.

(** [AddressedPacket { address, packet: packet.to_vec() }]. *)
Definition addressed (p : SocketAddr * list Z) : AddressedPacket :=
  {| ap_address := p.1; ap_packet := MkVec p.2 (Z.of_nat (length p.2)) |}.

(** In the client's [send_fn] it is [server_sent] that counts, as in the
    source; [client_sent] stays 0. *)
Definition protocol_advance (r : TickRandom) (dt : f64) : M ProtocolTestHarness unit :=
  on_ph_server (server_update dt);;
  on_ph_client (client_update dt);;
  h ← st_get;
  packets ← on_ph_server server_visit_packets_to_send;
  server_sent ← insert_all (fun d p => on_ph_server_pipe (pipe_insert d p)) (server_draws r)
    (not_dropped (ph_drop_indices h)) 0 0 (addressed <$> packets);
  h ← st_get;
  client_received ← take_all (S (length (heap (ph_server_pipe h)))) (on_ph_server_pipe take_next)
    (fun _ p => st_try (on_ph_client (client_receive (vdata (ap_packet p)) (ap_address p)));; mret tt) 0 0;
  packets ← on_ph_client client_visit_packets_to_send;
  server_sent ← insert_all (fun d p => on_ph_client_pipe (pipe_insert d p)) (client_draws r) (fun _ => true) 0 server_sent
    (addressed <$> packets);
  h ← st_get;
  server_received ← take_all (S (length (heap (ph_client_pipe h)))) (on_ph_client_pipe take_next)
    (fun i p => st_try (on_ph_server (server_receive (tick_salts r i) (vdata (ap_packet p)) (ap_address p)));; mret tt) 0 0;
  h ← st_get;
  s ← st_lift (add_stats server_sent server_received 0 client_received (ph_stats h));
  st_modify (set_ph_stats s).

Definition protocol_advance_with_drops (r : TickRandom) (dt : f64) (drop_indices : list Z) : M ProtocolTestHarness unit :=
  st_modify (set_ph_drop_indices (Some drop_indices));;
  protocol_advance r dt;;
  st_modify (set_ph_drop_indices None).
End operations.
