(* ===== verification/Agreement.v ===== *)
(** * Agreement: a connected client was accepted by the server

    A server, a client and a hostile network between them: the network loses,
    repeats, delays and reorders what the server sends, and gives the server
    any bytes from any address; what it cannot do is make up packets of the
    server. *)

From S2P Require Import Prelude Floats Types SequenceBuffer Cursor BufferPool AckHeader Message Packets Reassembler Channel Dispatcher Endpoint Compose Acks Incoming Control Client ClientFacts Server Session.

(** A serialiser that succeeded has appended its bytes. *)
Lemma emits_run {W A} `{Appends W} (m : M W A) bs a w w' x : emits m bs a -> ap_ok w -> m w = Some (w', Ok x) ->
  ap_ok w' /\ ap_out w' = ap_out w ++ bs.
Proof.
  intros Hm Hw Hrun. destruct (Hm w Hw) as (w1 & r & Hrun' & Hok & Hr). rewrite Hrun in Hrun'. injection Hrun' as <- <-.
  split; [done|]. destruct (decide _); [by destruct Hr as (_ & -> & _)|done].
Qed.

Lemma get_buffer_empty n bp bp' b : get_buffer n bp = Some (bp', Ok b) -> vdata b = [].
Proof.
  intros Hget. destruct (decide (pools bp = [])) as [Hnone|Hpool].
  - unfold get_buffer in Hget. by rewrite Hnone in Hget.
  - destruct (get_buffer_run n bp Hpool) as (bp1 & b1 & Hget' & _ & Hb). by simplify_eq.
Qed.

(** ** Packets that vouch for nothing new

    [A] holds of the salts of the sessions that the server has accepted: a
    packet of the server that a client takes for a keep-alive carries such a
    salt. *)
Section endpoint.
Context `{BP : BuildProfile, BO : ByteOrder, BL : !ByteOrderLaws BO, SM : SmallMap, SL : !SmallMapLaws SM} (A : Z -> Prop).

Definition vouched (bytes : list Z) : Prop := forall c k,
  read_packet (Cursor_new bytes) = Some (c, Ok (KeepAlive k)) -> A (ka_xor_salt k).

Lemma vouched_packet p : wf_packet p -> (forall k, p = KeepAlive k -> A (ka_xor_salt k)) -> vouched (packet_bytes p).
Proof.
  intros Hp HA c k Hread. destruct (read_control p Hp) as (c1 & Hread'). rewrite Hread in Hread'.
  injection Hread' as _ Hk. destruct p; try done. injection Hk as ->. by apply (HA _ eq_refl).
Qed.

(** The first byte of a packet of messages. *)
Definition messages_byte (b : Z) : Prop := PacketType_try_from (Z.land b 127) = Ok TMessages.

Lemma vouched_messages b rest : messages_byte b -> vouched (b :: rest).
Proof.
  unfold messages_byte. intros Hb c k. unfold read_packet, ProtocolPacketHeader_parse. rewrite run_assoc.
  destruct (read_u8_reads b (Cursor_new (b :: rest)) rest) as (c1 & Hrun & _); [done|by rewrite remaining_slice_new|].
  run_step Hrun. rewrite Hb. rewrite run_assoc.
  intros [(c2 & id & _ & H)|(e & _ & [=])]%run_bind_inv. rewrite run_assoc in H.
  apply run_bind_inv in H as [(c3 & a & _ & H)|(e & _ & [=])]. erewrite run_bind_ok in H by done. cbn beta iota delta [packet_type] in H.
  by apply run_bind_inv in H as [(c4 & x & _ & [=])|(e & _ & [=])].
Qed.

Record ep_vouched (self : Pickleback) : Prop := {
  ev_received : SeqBufFacts.wf (received_buffer self);
  ev_outbox : Forall (fun b => vouched (vdata b)) (outbox self);
  ev_size : 0 <= max_packet_size (config self);
}.

(** What [ep_vouched] depends on. *)
Definition wires (p : Pickleback) := (received_buffer p, outbox p, config p).

Lemma wires_vouched p p' : wires p' = wires p -> ep_vouched p -> ep_vouched p'.
Proof. intros [= Hr Ho Hc] []. split; by rewrite ?Hr, ?Ho, ?Hc. Qed.

Lemma keeps_vouched {X} (m : M Pickleback X) : keeps wires m -> preserves ep_vouched m.
Proof. apply preserves_keeps, wires_vouched. Qed.

Ltac wires_tac := repeat first [progress keeps_tac | apply keeps_fst | apply keeps_with].

Lemma next_packet_header_wires t : keeps wires (next_packet_header t).
Proof. unfold next_packet_header. wires_tac. Qed.
Hint Resolve next_packet_header_wires : keeps.

Lemma next_packet_header_ok t p p' h : ep_vouched p -> next_packet_header t p = Some (p', Ok h) ->
  wf_header h /\ packet_type h = t.
Proof.
  intros [Hr _ _]. rewrite (next_packet_header_run t p Hr). unfold MAX_UNACKED_PACKETS, MAX_ACK_BYTES.
  destruct (Z.ltb_spec (7 * 50) (received_unacked_packets p)); intros [= _ <-]. split; [|done]. by apply next_header_wf.
Qed.

Lemma write_packet_header_wires `{Write W} : keeps (fun p : Pickleback * W => wires p.1) write_packet_header.
Proof. unfold write_packet_header, st_snd. wires_tac. Qed.
Hint Resolve write_packet_header_wires : keeps.

Lemma send_message_wires ch payload : keeps wires (send_message ch payload).
Proof. unfold send_message, modify_stats. wires_tac. apply keeps_zoom. by intros [? [? ?]] ?. Qed.

Lemma update_wires dt : keeps wires (update dt).
Proof. unfold update. wires_tac. Qed.

Lemma process_ack_wires t a : keeps wires (process_ack t a).
Proof.
  unfold process_ack, on_sent_buffer, modify_stats, on_dispatcher_channels, on_pool_field. destruct a as [k b].
  wires_tac; apply keeps_zoom; intros [] ?; reflexivity.
Qed.
Hint Resolve process_ack_wires : keeps.

Lemma update_packet_loss_wires : keeps wires update_packet_loss_calculation.
Proof.
  intros s s' r. unfold update_packet_loss_calculation. rewrite run_get. unfold mbind, ST_bind, st_lift, st_asks.
  destruct (sample_loss _ _ _ _ _ _) as [[na ns]|]; [|done]. destruct (ns =? 0); by intros [= <- _].
Qed.
Hint Resolve update_packet_loss_wires : keeps.

Lemma process_packet_acks_wires h : keeps wires (process_packet_acks_and_rtt h).
Proof. unfold process_packet_acks_and_rtt. wires_tac. Qed.

Lemma deliver_message_wires m : keeps wires (deliver_message m).
Proof. unfold deliver_message, on_dispatcher. wires_tac. Qed.
Hint Resolve deliver_message_wires : keeps.

Lemma read_messages_wires fuel : keeps (fun p : Pickleback * Cursor => wires p.1) (read_messages fuel).
Proof.
  induction fuel as [|fuel IH]; cbn [read_messages]; unfold modify_stats; wires_tac;
    apply keeps_zoom; intros [] []; reflexivity.
Qed.

Lemma drain_acks_wires ch : keeps wires (drain_message_acks ch).
Proof. unfold drain_message_acks, on_dispatcher. wires_tac. Qed.

Lemma drain_messages_wires ch : keeps wires (drain_received_messages ch).
Proof. unfold drain_received_messages, on_dispatcher. wires_tac. Qed.

(** *** Receiving *)
Lemma insert_vouched k v : u16 k -> preserves ep_vouched (on_received_buffer (SeqBuf.insert k v)).
Proof.
  intros Hk p p' r [Hr Ho Hs]. unfold on_received_buffer, st_zoom. rewrite SeqBufFacts.insert_run by done.
  destruct (SeqBufFacts.too_old _ _); intros [= <- _]; split; try done.
  by apply SeqBufFacts.fill_slot_wf, Hk; apply SeqBufFacts.advance_wf.
Qed.

Lemma preserves_fst {S T X} (P : S -> Prop) (m : M S X) : preserves P m -> preserves (fun p : S * T => P p.1) (st_fst m).
Proof. intros Hm. by eapply preserves_zoom; [exact Hm|..]. Qed.

Lemma count_vouched {T} f : preserves (fun p : Pickleback * T => ep_vouched p.1) (st_fst (modify_stats f)).
Proof. apply preserves_fst, keeps_vouched. unfold modify_stats. wires_tac. Qed.

Lemma process_vouched h : u16 (h_id h) ->
  preserves (fun p : Pickleback * Cursor => ep_vouched p.1) (process_incoming_packet h).
Proof.
  intros Hh. unfold process_incoming_packet.
  apply preserves_bind; [apply count_vouched|intros []]. apply preserves_bind; [apply preserves_get|intros [self c]].
  destruct (negb _); [apply preserves_bind; [apply count_vouched|intros []; apply preserves_throw]|].
  apply preserves_bind; [apply preserves_lift|intros []].
  - apply preserves_bind; [apply count_vouched|intros []; apply preserves_throw].
  - apply preserves_bind; [by apply preserves_fst, insert_vouched|intros []].
    apply preserves_bind; [apply preserves_fst, keeps_vouched, process_packet_acks_wires|intros []].
    destruct (packet_type h); try apply preserves_ret.
    apply preserves_bind; [apply preserves_get|intros [self' c']].
    eapply preserves_keeps; [|apply read_messages_wires]. intros ? ?. apply wires_vouched.
Qed.

Lemma process_cur_vouched cur h : u16 (h_id h) -> preserves ep_vouched (process cur h).
Proof.
  intros Hh p p' r Hp. unfold process. intros [(p1 & [c u] & H & [= <- _])|(e & H & _)]%run_bind_inv;
    unfold st_with in H; destruct (process_incoming_packet h (p, cur)) as [[[p2 c2] [x|e']]|] eqn:Hrun; try done;
    injection H; intros; subst; exact (process_vouched h Hh (p, cur) _ _ Hp Hrun).
Qed.

(** *** Sending *)
Lemma send_raw_vouched b : vouched (vdata b) -> preserves ep_vouched (send_raw_packet b).
Proof.
  intros Hb. unfold send_raw_packet. apply preserves_bind_get. intros self _.
  apply preserves_bind; [apply keeps_vouched; unfold on_sent_buffer; wires_tac|intros []].
  apply preserves_bind; [|intros []; apply keeps_vouched; unfold modify_stats; wires_tac].
  apply preserves_modify. intros p [Hr Ho Hs]. split; try done. apply Forall_app. split; [done|]. by constructor.
Qed.

(** A control packet of the server. *)
Definition vouches (p : ProtocolPacket) : Prop :=
  wf_packet p /\ PacketType_from p <> TMessages /\ forall k, p = KeepAlive k -> A (ka_xor_salt k).

Lemma write_packet_vouched cfg p bp bp' b : 0 <= max_packet_size cfg -> vouches p ->
  write_packet cfg p bp = Some (bp', Ok b) -> vouched (vdata b).
Proof.
  intros Hmax (Hp & Ht & HA). unfold write_packet.
  intros [(bp1 & b0 & Hget & H)|(e & _ & [=])]%run_bind_inv. apply get_buffer_empty in Hget.
  unfold mbind, ST_bind, st_local in H.
  destruct (write_packet_body p _) as [[w [[]|e]]|] eqn:Hw; [|done..]. injection H as _ <-.
  destruct (WriteLimiter_new_ok b0 (max_packet_size cfg) Hget Hmax) as (Hok & _ & Hempty).
  destruct (emits_run _ _ _ _ _ _ (write_packet_body_emits p Hp Ht) Hok Hw) as [_ Hout].
  change (vdata (vc_vec (wl_writer w)) = written (WriteLimiter_new (VecCursor_new b0) (max_packet_size cfg)) ++ packet_bytes p) in Hout.
  rewrite Hout, Hempty. by apply vouched_packet.
Qed.

Lemma send_packet_vouched p : vouches p -> preserves ep_vouched (send_packet p).
Proof.
  intros Hp self self' r Hs. unfold send_packet. rewrite run_get.
  intros [(p1 & b & H1 & H2)|(e & H & _)]%run_bind_inv.
  2: { revert H. apply keeps_vouched; [unfold on_pool_field; wires_tac|done]. }
  assert (Hb : vouched (vdata b)).
  { unfold on_pool_field, st_zoom in H1. destruct (write_packet _ _ _) as [[bp [b'|e]]|] eqn:Hw; try done.
    injection H1 as _ ->. eapply write_packet_vouched; [apply Hs|exact Hp|exact Hw]. }
  apply (send_raw_vouched b Hb _ _ _) in H2; [done|]. revert H1.
  apply keeps_vouched; [unfold on_pool_field; wires_tac|done].
Qed.

Lemma send_with_next_vouched t (packet : ProtocolPacketHeader -> ProtocolPacket) :
  (forall h, wf_header h -> packet_type h = t -> vouches (packet h)) ->
  preserves ep_vouched (header ← next_packet_header t; send_packet (packet header)) /\
  preserves ep_vouched (send_quietly t packet).
Proof.
  intros Hpk. assert (Hsend : forall p p1 h, ep_vouched p -> next_packet_header t p = Some (p1, Ok h) ->
    ep_vouched p1 /\ preserves ep_vouched (send_packet (packet h))).
  { intros p p1 h Hp Hnext. destruct (next_packet_header_ok t p p1 h Hp Hnext) as [Hh Ht].
    split; [|by apply send_packet_vouched, Hpk]. revert Hnext. by apply keeps_vouched; [apply next_packet_header_wires|]. }
  split; intros p p' r Hp.
  - intros [(p1 & h & H1 & H2)|(e & H & _)]%run_bind_inv.
    + destruct (Hsend p p1 h Hp H1) as [Hp1 Hs]. by eapply Hs.
    + revert H. by apply keeps_vouched; [apply next_packet_header_wires|].
  - unfold send_quietly. intros [(p1 & [h|e] & H1 & H2)|(e & H & _)]%run_bind_inv.
    + unfold st_try in H1. destruct (next_packet_header t p) as [[p2 x]|] eqn:Hnext; [|done]. injection H1 as -> ->.
      destruct (Hsend p p1 h Hp Hnext) as [Hp1 Hs]. revert H2.
      apply preserves_bind; [by apply preserves_try|intros ?; apply preserves_ret|done].
    + injection H2 as <- _. revert H1. by apply keeps_vouched; [apply keeps_try, next_packet_header_wires|].
    + revert H. by apply keeps_vouched; [apply keeps_try, next_packet_header_wires|].
Qed.

(** *** Composing packets of messages *)

(** A packet of messages that is being written. *)
Definition writing (l : Locals) : Prop := forall w, l_writer l = Some w ->
  writer_ok w /\ exists b rest, written w = b :: rest /\ messages_byte b.

(** A part of [compose_packets]; after an error the packet being written is
    gone. *)
Definition composes {X} (m : M (Pickleback * Locals) X) : Prop := forall s s' r,
  ep_vouched s.1 -> writing s.2 -> m s = Some (s', r) -> ep_vouched s'.1 /\ forall x, r = Ok x -> writing s'.2.

Lemma composes_bind {X Y} (m : M (Pickleback * Locals) X) (k : X -> M (Pickleback * Locals) Y) :
  composes m -> (forall x, composes (k x)) -> composes (m ≫= k).
Proof.
  intros Hm Hk s s' r Hs Hl [(s1 & x & H1 & H2)|(e & H & ->)]%run_bind_inv.
  - destruct (Hm _ _ _ Hs Hl H1) as [Hs1 Hl1]. by eapply Hk; [..|exact H2]; [|by eapply Hl1].
  - by destruct (Hm _ _ _ Hs Hl H).
Qed.

Lemma composes_get {X} (k : Pickleback * Locals -> M (Pickleback * Locals) X) :
  (forall s, writing s.2 -> composes (k s)) -> composes (st_get ≫= k).
Proof. intros Hk s s' r Hs Hl. rewrite run_get. by apply Hk. Qed.

Lemma composes_ret {X} (x : X) : composes (mret x).
Proof. by intros s s' r Hs Hl [= <- _]. Qed.

Lemma composes_throw {X} e : composes (X:=X) (st_throw e).
Proof. by intros s s' r Hs Hl [= <- <-]. Qed.

Lemma composes_panic {X} : composes (X:=X) st_panic.
Proof. by intros s s' r Hs Hl. Qed.

Lemma composes_lift {X} (o : option X) : composes (st_lift o).
Proof. intros s s' r Hs Hl. unfold st_lift, st_asks. destruct o; [|done]. by intros [= <- _]. Qed.

Lemma composes_bind_lift {X Y} (o : option X) (k : X -> M (Pickleback * Locals) Y) :
  (forall x, o = Some x -> composes (k x)) -> composes (st_lift o ≫= k).
Proof.
  intros Hk s s' r Hs Hl. unfold mbind, ST_bind, st_lift, st_asks. destruct o as [x|]; [|done]. by apply (Hk x eq_refl).
Qed.

Lemma composes_fst {X} (m : M Pickleback X) : preserves ep_vouched m -> composes (st_fst m).
Proof.
  intros Hm [p l] s' r Hs Hl. unfold st_fst, st_zoom. cbn [fst snd].
  destruct (m p) as [[p1 x]|] eqn:Hrun; [|done]. intros [= <- _]. split; [by eapply Hm|done].
Qed.

Lemma composes_put l : writing l -> composes (st_snd (st_put l)).
Proof. by intros Hl s s' r Hs _ [= <- _]. Qed.

Lemma write_all_extends bs (w w' : BufferLimitedWriter) x : writer_ok w -> write_all bs w = Some (w', Ok x) ->
  writer_ok w' /\ written w' = written w ++ bs.
Proof. intros Hw Hrun. exact (emits_run _ _ _ _ _ _ (emits_write_all (W:=BufferLimitedWriter) bs) Hw Hrun). Qed.

Lemma write_channel_messages_extends fuel n p p' k : writer_ok (pk_cursor p) ->
  write_channel_messages fuel n p = Some (p', Ok k) ->
  writer_ok (pk_cursor p') /\ exists bs, written (pk_cursor p') = written (pk_cursor p) ++ bs.
Proof.
  revert n p. induction fuel as [|fuel IH]; intros n p Hp; cbn [write_channel_messages]; [done|]. rewrite run_get.
  intros [(p1 & msg & H1 & H2)|(e & _ & [=])]%run_bind_inv.
  assert (Hc1 : pk_cursor p1 = pk_cursor p).
  { unfold on_pk_channel, st_zoom in H1. destruct (get_message_to_write_to_a_packet _ _) as [[c x]|]; [|done].
    by injection H1 as <- _. }
  destruct msg as [msg|]; [|injection H2 as <- _; rewrite Hc1; split; [done|]; exists []; by rewrite app_nil_r].
  apply run_bind_inv in H2 as [(p2 & [] & H2 & H3)|(e & _ & [=])].
  unfold on_pk_cursor, st_zoom in H2. destruct (write_all _ (pk_cursor p1)) as [[w x]|] eqn:Hw; [|done].
  injection H2 as <- ->. rewrite Hc1 in Hw. apply write_all_extends in Hw as [Hok Hout]; [|done].
  erewrite run_bind_ok in H3 by done. apply run_bind_inv in H3 as [(p3 & [] & H3 & H4)|(e & _ & [=])].
  unfold on_pk_pool, st_zoom in H3. destruct (return_buffer _ _) as [[bp x]|]; [|done]. injection H3 as <- ->.
  rewrite run_get in H4. cbn [pk_cursor] in H4. destruct (_ <? 3).
  - injection H4 as <- _. cbn. split; [done|]. by eexists.
  - apply IH in H4 as (Hok4 & bs & Hbs); [|done]. split; [done|]. cbn in Hbs. rewrite Hbs, Hout, <- app_assoc. by eexists.
Qed.

Lemma pack_channel_composes id : composes (pack_channel id).
Proof.
  intros [p l] s' r Hs Hl. unfold pack_channel. destruct (ChannelList_get _ _) as [ch|]; [|done].
  destruct (l_writer l) as [w|] eqn:Hw; [|done].
  destruct (write_channel_messages_to_packet _) as [[pk x]|] eqn:Hrun; [|done]. intros [= <- ->].
  split; [by eapply wires_vouched; [|exact Hs]|]. intros k ->. intros w' [= <-]. cbn [snd] in Hl.
  destruct (Hl w Hw) as (Hok & b & rest & Hb & Hbyte).
  apply write_channel_messages_extends in Hrun as (Hok' & bs & Hbs); [|done].
  split; [done|]. exists b, (rest ++ bs). split; [|done]. rewrite Hbs. cbn [pk_cursor]. by rewrite Hb.
Qed.

Lemma fill_packet_composes fuel : composes (fill_packet fuel).
Proof.
  induction fuel as [|fuel IH]; cbn [fill_packet]; [apply composes_panic|].
  apply composes_get. intros [p l] _. destruct (ChannelList_first_non_empty _) as [id|]; [|apply composes_ret].
  apply composes_bind; [apply pack_channel_composes|intros n]. destruct (n =? 0); [apply composes_ret|].
  apply composes_bind; [apply composes_fst, keeps_vouched; unfold modify_stats; wires_tac|intros []].
  apply composes_get. intros [p' l'] _. apply composes_bind; [apply composes_lift|intros w].
  destruct (_ <? 3); [apply composes_ret|apply IH].
Qed.

Lemma messages_header_byte h : packet_type h = TMessages -> exists b rest, packet_header_bytes h = b :: rest /\ messages_byte b.
Proof.
  intros Ht. eexists _, _. split; [reflexivity|]. unfold messages_byte. rewrite Ht.
  destruct (header_prefix TMessages (bool_decide (is_Some (ack_header h)))) as [_ Hb]. by destruct (ack_header h).
Qed.

Lemma write_packet_header_writes (p p' : Pickleback) (w w' : BufferLimitedWriter) n : ep_vouched p -> writer_ok w -> written w = [] ->
  write_packet_header (p, w) = Some ((p', w'), Ok n) -> writing (MkLocals (Some w') [] false).
Proof.
  intros Hp Hw Hempty. unfold write_packet_header.
  intros [([p1 w1] & h & H1 & H2)|(e & _ & [=])]%run_bind_inv.
  unfold st_fst, st_zoom in H1. cbn [fst snd] in H1. destruct (next_packet_header TMessages p) as [[p2 [h'|e]]|] eqn:Hnext; [|done..].
  injection H1 as <- <- ->. destruct (next_packet_header_ok _ _ _ _ Hp Hnext) as [Hh Ht].
  apply run_bind_inv in H2 as [([p3 w3] & [] & H2 & H3)|(e & _ & [=])].
  unfold st_snd, st_zoom in H2. cbn [fst snd] in H2. destruct (ProtocolPacketHeader_write h w) as [[w4 x]|] eqn:Hwr; [|done].
  injection H2 as <- <- ->. destruct (emits_run _ _ _ _ _ _ (ProtocolPacketHeader_write_emits h Hh) Hw Hwr) as [Hw4 Hout].
  rewrite run_get in H3. apply run_bind_inv in H3 as [([p5 w5] & salt & H3 & H4)|(e & _ & [=])].
  unfold st_lift, st_asks in H3. destruct (xor_salt _); [|done]. injection H3 as <- <- ->.
  apply run_bind_inv in H4 as [([p6 w6] & [] & H4 & H5)|(e & _ & [=])]. injection H5 as <- <- _.
  unfold st_snd, st_zoom in H4. cbn [fst snd] in H4. destruct (write_u64 salt w4) as [[w7 x]|] eqn:Hsalt; [|done].
  injection H4 as <- <- ->. destruct (emits_run _ _ _ _ _ _ (write_u64_emits salt) Hw4 Hsalt) as [Hw7 Hout7].
  intros w8 [= <-]. split; [done|]. change (written w7 = written w4 ++ be_put 8 salt) in Hout7.
  change (written w4 = written w ++ packet_header_bytes h) in Hout.
  destruct (messages_header_byte h Ht) as (b & rest & Hb & Hbyte). exists b, (rest ++ be_put 8 salt). split; [|done].
  by rewrite Hout7, Hout, Hempty, Hb.
Qed.

Lemma start_packet_wires : keeps (fun p : Pickleback * Locals => wires p.1) start_packet.
Proof. unfold start_packet, on_pool_field, st_snd. wires_tac. Qed.

Lemma start_packet_composes : composes start_packet.
Proof.
  intros [p l] [p' l'] r Hp Hl Hrun. split.
  { eapply wires_vouched; [|exact Hp]. by apply start_packet_wires in Hrun. }
  intros [] ->. unfold start_packet in Hrun. rewrite run_get in Hrun. cbn beta iota in Hrun. cbn [snd] in *.
  destruct (l_writer l) eqn:Hw; [by injection Hrun as <- <-|]. destruct (_ <=? _); [done|].
  apply run_bind_inv in Hrun as [([p1 l1] & b & H1 & H2)|(e & _ & [=])].
  unfold st_fst, st_zoom, on_pool_field, st_zoom in H1. cbn [fst snd] in H1.
  destruct (get_buffer _ _) as [[bp [b'|e]]|] eqn:Hget; [|done..]. injection H1 as <- <- ->. apply get_buffer_empty in Hget.
  apply run_bind_inv in H2 as [([p2 l2] & [w n] & H2 & H3)|(e & _ & [=])].
  injection H3 as <- <-. unfold st_fst, st_zoom, st_with in H2. cbn [fst snd] in H2.
  destruct (write_packet_header _) as [[[p3 w3] [n'|e]]|] eqn:Hhdr; [|done..]. injection H2 as <- <- -> ->.
  destruct (WriteLimiter_new_ok b (max_packet_size (config p)) Hget ltac:(apply Hp)) as (Hok & _ & Hempty).
  apply write_packet_header_writes in Hhdr; [|by eapply wires_vouched; [|exact Hp]|done..]. exact Hhdr.
Qed.

Lemma finish_packet_composes : composes finish_packet.
Proof.
  unfold finish_packet. apply composes_get. intros [p l] Hl. cbn [snd] in Hl.
  apply composes_bind_lift. intros w Hw. destruct (Hl w Hw) as (_ & b & rest & Hb & Hbyte).
  destruct (negb _); [|apply composes_ret]. apply composes_bind; [by apply composes_put|intros []].
  apply composes_bind; [|intros []].
  { apply composes_fst, send_raw_vouched. change (vouched (written w)). rewrite Hb. by apply vouched_messages. }
  apply composes_get. intros [p1 l1] Hl1.
  apply composes_bind; [by apply composes_put|intros []]. apply composes_fst, keeps_vouched. unfold on_dispatcher. wires_tac.
Qed.

Lemma compose_loop_composes fuel : composes (compose_loop fuel).
Proof.
  induction fuel as [|fuel IH]; cbn [compose_loop]; apply composes_get; intros [p l] _;
    (destruct (negb _); [apply composes_ret|]); [apply composes_panic|].
  apply composes_bind; [apply start_packet_composes|intros []]. apply composes_get. intros [p1 l1] _.
  apply composes_bind; [apply fill_packet_composes|intros []].
  apply composes_bind; [apply finish_packet_composes|intros []]. exact IH.
Qed.

Lemma compose_packets_vouched : preserves ep_vouched compose_packets.
Proof.
  unfold compose_packets. apply preserves_bind_get. intros self _. destruct (_ <=? _); [apply preserves_throw|].
  apply preserves_bind; [|intros []; apply preserves_ret].
  intros p p' r Hp. unfold st_with. destruct (compose_loop _ _) as [[[p1 l1] x]|] eqn:Hrun; [|done].
  apply compose_loop_composes in Hrun as [Hp1 _]; [|done|done]. destruct x; by intros [= <- _].
Qed.

(** What an endpoint hands out. *)
Lemma visit_vouched p p' r : ep_vouched p -> visit_packets_to_send p = Some (p', r) ->
  ep_vouched p' /\ forall ps, r = Ok ps -> Forall vouched ps.
Proof.
  intros Hp. unfold visit_packets_to_send.
  intros [(p1 & x & H1 & H2)|(e & H & ->)]%run_bind_inv.
  2: { split; [|done]. revert H. by apply preserves_try; [apply compose_packets_vouched|]. }
  assert (Hp1 : ep_vouched p1) by (revert H1; by apply preserves_try; [apply compose_packets_vouched|]).
  assert (Hrest : (self ← st_get; let packets := outbox self in st_modify (set_outbox []);;
    st_for packets (fun packet => on_pool_field (return_buffer packet));; mret (vdata <$> packets)) p1 = Some (p', r) ->
    ep_vouched p' /\ forall ps, r = Ok ps -> Forall vouched ps).
  { rewrite run_get. cbn zeta. intros H.
    assert (Hk : keeps wires (st_for (outbox p1) (fun packet => on_pool_field (return_buffer packet)))).
    { unfold on_pool_field. wires_tac. }
    erewrite run_bind_ok in H by done. cbn beta in H.
    assert (Hp2 : ep_vouched (set_outbox [] p1)) by (destruct Hp1; by split).
    apply run_bind_inv in H as [(p2 & [] & H & [= <- <-])|(e & H & ->)]; apply Hk in H.
    - split; [by eapply wires_vouched|]. intros ps [= <-]. apply Forall_fmap. apply Hp1.
    - split; [by eapply wires_vouched|done]. }
  destruct x as [u|[]]; try done; by apply Hrest.
Qed.
End endpoint.

(** ** The server's endpoints *)

Section vectors.
Context {X A : Type} (P : X -> Prop).

Lemma for_each_all (body : M X A) (Q : A -> Prop) : 
  (forall x x' r, P x -> body x = Some (x', r) -> P x' /\ forall a, r = Ok a -> Q a) ->
  forall l l' r, Forall P l -> for_each body l = Some (l', r) -> Forall P l' /\ forall l, r = Ok l -> Forall Q l.
Proof.
  intros Hbody. induction l as [|x l IH]; intros l' r Hl; cbn [for_each].
  { intros [= <- <-]. split; [done|]. by intros ? [= <-]. }
  apply Forall_cons in Hl as [Hx Hl].
  destruct (body x) as [[x' [a|e]]|] eqn:Hx'; [| |done]; destruct (Hbody _ _ _ Hx Hx') as [HP HQ].
  - destruct (for_each body l) as [[l1 [as_|e]]|] eqn:Hrun; [| |done]; intros [= <- <-];
      destruct (IH _ _ Hl eq_refl) as [Hl1 Has]; split; try done; [by constructor| |by constructor].
    intros ? [= <-]. constructor; auto.
  - intros [= <- <-]. split; [by constructor|done].
Qed.

Lemma for_each_preserves (body : M X A) : preserves P body -> preserves (Forall P) (for_each body).
Proof.
  intros Hbody l l' r Hl Hrun. eapply (for_each_all body (fun _ => True)); [|exact Hl|exact Hrun].
  intros x x' r' Hx Hx'. split; [by eapply Hbody|done].
Qed.

Lemma on_first_preserves f (m : M X A) : preserves P m -> preserves (Forall P) (on_first f m).
Proof.
  intros Hm l. induction l as [|x l IH]; intros l' r Hl; cbn [on_first]; [by intros [= <- _]|].
  apply Forall_cons in Hl as [Hx Hl]. destruct (f x).
  - destruct (m x) as [[x' [a|e]]|] eqn:Hx'; [| |done]; intros [= <- _]; constructor; try done; by eapply Hm.
  - destruct (on_first f m l) as [[l1 r1]|] eqn:Hrun; [|done]. intros [= <- _]. constructor; [done|by eapply IH].
Qed.

Lemma remove_indices_all idxs (l xs l' : list X) : Forall P l -> remove_indices idxs l = Some (xs, l') -> Forall P l'.
Proof.
  revert l xs. induction idxs as [|i idxs IH]; intros l xs Hl; cbn [remove_indices]; [by intros [= _ <-]|].
  unfold vec_remove. destruct (l !! i) as [x|] eqn:Hi; [|done]. cbn [mbind option_bind].
  destruct (remove_indices idxs (delete i l)) as [[xs1 l1]|] eqn:Hrun; [|done]. intros [= _ <-].
  eapply IH; [|exact Hrun]. by apply Forall_delete.
Qed.
End vectors.

Section server.
Context `{BP : BuildProfile, BO : ByteOrder, BL : !ByteOrderLaws BO, SM : SmallMap, SL : !SmallMapLaws SM}.

Lemma vouched_mono (A B : Z -> Prop) bytes : (forall x, A x -> B x) -> vouched A bytes -> vouched B bytes.
Proof. intros HAB Hv c k Hread. by eapply HAB, Hv. Qed.

Lemma ep_vouched_mono (A B : Z -> Prop) p : (forall x, A x -> B x) -> ep_vouched A p -> ep_vouched B p.
Proof. intros HAB []. split; try done. eapply Forall_impl; [done|]. intros b. by apply vouched_mono. Qed.

Lemma fresh_vouched A cfg t : good_config cfg -> ep_vouched A (fresh_endpoint cfg t).
Proof.
  intros Hcfg. pose proof (cc_ok _ _ (fresh_can_compose cfg t 0 Hcfg)) as []. split; [done|constructor|]. destruct Hcfg. cbn. lia.
Qed.

Lemma set_salt_vouched A salt p : ep_vouched A p -> ep_vouched A (set_xor_salt salt p).
Proof. by intros []. Qed.

Section accepted.
Context (A : Z -> Prop).

Definition pc_vouched (pc : PendingClient) : Prop :=
  u64 (pc_client_salt pc) /\ u64 (pc_server_salt pc) /\ ep_vouched A (pc_pickleback pc).
Definition cc_vouched (cc : ConnectedClient) : Prop :=
  u64 (cc_xor_salt cc) /\ A (cc_xor_salt cc) /\ u32 (default 0 (client_index cc)) /\ ep_vouched A (cc_pickleback cc).

Record server_vouched (s : PicklebackServer) : Prop := {
  sv_pending : Forall pc_vouched (pending_clients s);
  sv_connected : Forall cc_vouched (connected_clients s);
  sv_outbox : Forall (fun p => vouched A (vdata (ap_packet p))) (s_outbox s);
  sv_size : 0 <= max_packet_size (s_config s);
}.

Lemma on_pc_vouched {X} (m : M Pickleback X) : preserves (ep_vouched A) m -> preserves pc_vouched (on_pc m).
Proof. intros Hm. eapply preserves_zoom; [exact Hm|by intros s (_ & _ & ?)|]. by intros t s (? & ? & _) Ht. Qed.

Lemma on_cc_vouched {X} (m : M Pickleback X) : preserves (ep_vouched A) m -> preserves cc_vouched (on_cc m).
Proof. intros Hm. eapply preserves_zoom; [exact Hm|by intros s (_ & _ & _ & ?)|]. by intros t s (? & ? & ? & _) Ht. Qed.

Lemma on_pending_vouched {X} (m : M (list PendingClient) X) :
  preserves (Forall pc_vouched) m -> preserves server_vouched (on_pending m).
Proof. intros Hm. eapply preserves_zoom; [exact Hm|by intros s []|]. intros t s [] Ht. by split. Qed.

Lemma on_connected_vouched {X} (m : M (list ConnectedClient) X) :
  preserves (Forall cc_vouched) m -> preserves server_vouched (on_connected m).
Proof. intros Hm. eapply preserves_zoom; [exact Hm|by intros s []|]. intros t s [] Ht. by split. Qed.

(** [sel]'s client, if any, runs [m]. *)
Lemma on_client_vouched {X} sel (m : M Pickleback X) : preserves (ep_vouched A) m ->
  preserves server_vouched (on_connected (on_first sel (on_cc m))).
Proof. intros Hm. apply on_connected_vouched, on_first_preserves. by apply on_cc_vouched. Qed.

Lemma push_event_vouched e : preserves server_vouched (push_event e).
Proof. apply preserves_modify. intros s []. by split. Qed.

Lemma keeps_server_vouched {X} (m : M PicklebackServer X) :
  keeps (fun s => (pending_clients s, connected_clients s, s_outbox s, s_config s)) m -> preserves server_vouched m.
Proof. apply preserves_keeps. intros s s' [= Hp Hc Ho Hf] []. split; by rewrite ?Hp, ?Hc, ?Ho, ?Hf. Qed.

(** *** Time *)
Lemma pending_client_vouched time dt : preserves pc_vouched (process_pending_client time dt).
Proof.
  unfold process_pending_client. apply preserves_bind; [apply on_pc_vouched, keeps_vouched, update_wires|intros []].
  apply preserves_bind_get. intros pc (Hc & Hs & _). destruct (f_gt _ _); [apply preserves_ret|].
  destruct (f_lt _ _); [|apply preserves_ret].
  apply preserves_bind; [by apply preserves_modify|intros []]. apply preserves_bind; [|intros []; apply preserves_ret].
  apply on_pc_vouched, send_with_next_vouched. intros h Hh Ht. split; [|done]. split; [done|]. by split.
Qed.

Lemma connected_client_vouched time dt : preserves cc_vouched (process_connected_client time dt).
Proof.
  unfold process_connected_client. apply preserves_bind; [apply on_cc_vouched, keeps_vouched, update_wires|intros []].
  apply preserves_bind_get. intros cc (Hx & HA & Hi & _). cbn zeta. destruct (_ || _); [|apply preserves_ret].
  apply on_cc_vouched, send_with_next_vouched. intros h Hh Ht. split; [split; [done|by split]|]. split; [done|].
  by intros k [= <-].
Qed.

Lemma server_update_vouched dt : preserves server_vouched (server_update dt).
Proof.
  unfold server_update. apply preserves_bind; [by apply preserves_modify; intros s []; split|intros []].
  apply preserves_bind; [|intros []].
  - unfold process_pending_clients. apply preserves_bind_get. intros s _.
    apply preserves_bind; [apply on_pending_vouched, for_each_preserves, pending_client_vouched|intros flags].
    intros s1 s' r Hs1. rewrite run_get. unfold mbind, ST_bind, st_lift, st_asks.
    destruct (remove_indices _ _) as [[xs rest]|] eqn:Hrem; [|done]. intros [= <- _]. destruct Hs1. split; try done.
    by eapply remove_indices_all.
  - unfold process_connected_clients. intros s s' r Hs. rewrite run_get. unfold st_lift at 1, st_asks at 1.
    destruct (remove_indices _ _) as [[xs rest]|] eqn:Hrem; [|done]. erewrite run_bind_ok by done. cbn beta iota.
    assert (Hs1 : server_vouched (set_connected_clients rest s)).
    { destruct Hs. split; try done. by eapply remove_indices_all. }
    erewrite run_bind_ok by done. cbn beta. revert Hs1. apply preserves_bind; [|intros []].
    { apply preserves_for. intros cc. apply push_event_vouched. }
    apply preserves_bind; [|intros ?; apply preserves_ret].
    apply on_connected_vouched, for_each_preserves, connected_client_vouched.
Qed.

(** *** Sending *)
Lemma fmap_vouched (addr : SocketAddr) ps : Forall (vouched A) ps -> Forall (fun p => vouched A p.2) ((fun p => (addr, p)) <$> ps).
Proof. intros Hps. by apply Forall_fmap. Qed.

Lemma visit_pending_vouched pc pc' r : pc_vouched pc -> visit_pending pc = Some (pc', r) ->
  pc_vouched pc' /\ forall ps, r = Ok ps -> Forall (fun p => vouched A p.2) ps.
Proof.
  intros (Hc & Hs & Hp). unfold visit_pending. rewrite run_get. unfold mbind, ST_bind, on_pc, st_zoom.
  destruct (visit_packets_to_send _) as [[p x]|] eqn:Hv; [|done]. apply (visit_vouched A) in Hv as [Hp' Hps]; [|done].
  destruct x as [ps|e]; intros [= <- <-]; (split; [done|]); [|done]. intros ps' [= <-]. by apply fmap_vouched, Hps.
Qed.

Lemma visit_client_vouched time cc cc' r : cc_vouched cc -> visit_client time cc = Some (cc', r) ->
  cc_vouched cc' /\ forall ps, r = Ok ps -> Forall (fun p => vouched A p.2) ps.
Proof.
  intros (Hx & HA & Hi & Hp). unfold visit_client. rewrite run_get. unfold mbind, ST_bind, on_cc, st_zoom.
  destruct (visit_packets_to_send _) as [[p x]|] eqn:Hv; [|done]. apply (visit_vouched A) in Hv as [Hp' Hps]; [|done].
  destruct x as [ps|e]; [|by intros [= <- <-]].
  destruct ps; intros [= <- <-]; (split; [done|]); intros ps' [= <-]; [constructor|].
  apply (fmap_vouched (cc_socket_addr cc) (l :: ps)). by apply Hps.
Qed.

Lemma server_visit_vouched s s' r : server_vouched s -> server_visit_packets_to_send s = Some (s', r) ->
  server_vouched s' /\ forall ps, r = Ok ps -> Forall (fun p => vouched A p.2) ps.
Proof.
  intros Hs. unfold server_visit_packets_to_send. rewrite run_get. erewrite run_bind_ok by done. cbn beta.
  unfold mbind, ST_bind, on_pending, on_connected, st_zoom. destruct Hs.
  cbn [pending_clients set_s_outbox].
  destruct (for_each visit_pending (pending_clients s)) as [[l1 r1]|] eqn:H1; [|done].
  apply (for_each_all pc_vouched _ (Forall (fun p => vouched A p.2)) visit_pending_vouched) in H1 as [Hl1 Hr1]; [|done].
  destruct r1 as [ps1|e]; [|intros [= <- <-]; split; [by split|done]].
  cbn [connected_clients set_pending_clients set_s_outbox].
  destruct (for_each (visit_client _) (connected_clients s)) as [[l2 r2]|] eqn:H2; [|done].
  apply (for_each_all cc_vouched _ (Forall (fun p => vouched A p.2)) (visit_client_vouched (s_time s))) in H2 as [Hl2 Hr2]; [|done].
  destruct r2 as [ps2|e]; intros [= <- <-]; (split; [by split|]); [|done].
  intros ps [= <-]. apply Forall_app. split; [by apply Forall_fmap|]. apply Forall_app.
  split; apply Forall_concat; auto.
Qed.

(** *** Receiving *)
Lemma deny_vouched reason addr : preserves server_vouched (deny reason addr).
Proof.
  unfold deny. apply preserves_bind_get. intros s Hs.
  change (ProtocolPacketHeader_new 0 [] 0 TConnectionDenied) with
    (Some (Ok (E:=PicklebackError) {| packet_type := TConnectionDenied; h_id := 0; ack_header := None |})).
  set (h := {| packet_type := TConnectionDenied; h_id := 0; ack_header := None |}).
  intros s0 s' r Hs0. do 2 run_done. intros [(s1 & denied & H1 & H2)|(e & H & _)]%run_bind_inv.
  2: { revert H. apply keeps_server_vouched; [|done]. by apply keeps_zoom. }
  assert (Hv : vouched A (vdata denied)).
  { unfold on_s_pool, st_zoom in H1. destruct (write_packet _ _ _) as [[bp [b|e]]|] eqn:Hw; [|done..].
    injection H1 as _ ->. eapply write_packet_vouched; [apply (sv_size _ Hs)| |exact Hw].
    split; [split; [by split|done]|]. by split. }
  apply keeps_server_vouched in H1; [|by apply keeps_zoom|done]. revert H2. apply preserves_bind; [| |done].
  - apply preserves_modify. intros s2 []. split; try done. apply Forall_app. split; [done|]. by constructor.
  - intros []. apply keeps_server_vouched. by apply keeps_zoom.
Qed.

Lemma receive_request_vouched salt p cur addr : u64 salt -> u16 (h_id (crq_header p)) -> u64 (crq_client_salt p) ->
  preserves server_vouched (receive_request salt p cur addr).
Proof.
  intros Hsalt Hid Hc. unfold receive_request. destruct (negb _); [apply deny_vouched|].
  apply preserves_bind; [apply on_pending_vouched, on_first_preserves, on_pc_vouched; by apply process_cur_vouched|].
  intros [u|]; [apply preserves_ret|]. apply preserves_bind_get. intros s0 _. rewrite Pickleback_new_run.
  intros s s' r Hs. run_done. intros [(s1 & [pc []] & H1 & H2)|(e & H & _)]%run_bind_inv.
  2: { by revert H; apply preserves_local. }
  apply preserves_local with (P := server_vouched) in H1 as Hs1; [|done].
  assert (Hpc : pc_vouched pc).
  { unfold st_local in H1. destruct (on_pc _ _) as [[pc' [[]|e]]|] eqn:Hrun; [|done..]. injection H1 as _ ->.
    revert Hrun. apply on_pc_vouched; [by apply process_cur_vouched|]. split; [done|]. split; [done|].
    apply fresh_vouched, default_good_config. }
  revert H2. apply on_pending_vouched; [|done]. apply preserves_modify. intros l Hl. apply Forall_app. split; [done|]. by constructor.
Qed.

Lemma remove_client_vouched salt addr : preserves server_vouched (remove_connected_client salt addr).
Proof.
  intros s s' r Hs. unfold remove_connected_client. rewrite run_get.
  destruct (position_of _ _) as [i|]; [|by intros [= <- _]]. unfold vec_remove.
  destruct (connected_clients s !! i) as [cc|]; [|done]. intros [= <- _]. destruct Hs. split; try done. by apply Forall_delete.
Qed.

Lemma receive_from_client_vouched salt h cur addr : u16 (h_id h) ->
  preserves server_vouched (receive_from_client salt h cur addr).
Proof.
  intros Hh. unfold receive_from_client. apply preserves_bind_get. intros s _.
  apply preserves_bind; [|intros ?; apply preserves_ret]. apply on_connected_vouched, on_first_preserves.
  apply preserves_bind; [by apply preserves_modify|intros []]. apply preserves_bind; [by apply preserves_modify|intros []].
  apply on_cc_vouched. by apply process_cur_vouched.
Qed.
End accepted.

Lemma server_vouched_mono (A B : Z -> Prop) s : (forall x, A x -> B x) -> server_vouched A s -> server_vouched B s.
Proof.
  intros HAB []. split; try done; (eapply Forall_impl; [done|]).
  - intros pc (? & ? & ?). split; [done|]. split; [done|]. by eapply ep_vouched_mono.
  - intros cc (? & ? & ? & ?). split; [done|]. split; [by apply HAB|]. split; [done|]. by eapply ep_vouched_mono.
  - intros p. by apply vouched_mono.
Qed.

(** *** Events are only added *)
Definition logged (e : ServerEvent) (s : PicklebackServer) : Prop := e ∈ server_events s.

Lemma logged_keeps e {X} (m : M PicklebackServer X) : keeps server_events m -> preserves (logged e) m.
Proof. apply preserves_keeps. unfold logged. by intros s s' ->. Qed.

Lemma logged_push e e' : preserves (logged e) (push_event e').
Proof. apply preserves_modify. intros s Hs. apply elem_of_app. by left. Qed.
Hint Resolve logged_push : preserves.

Lemma logged_zoom {T X} e (get : PicklebackServer -> T) set (m : M T X) :
  (forall t s, server_events (set t s) = server_events s) -> preserves (logged e) (st_zoom get set m).
Proof. intros Hset. apply logged_keeps. by apply keeps_zoom. Qed.

Lemma logged_modify e f : (forall s, server_events (f s) = server_events s) -> preserves (logged e) (st_modify f : M PicklebackServer unit).
Proof. intros Hf. apply logged_keeps. by apply keeps_modify. Qed.

Ltac logged_tac :=
  unfold on_pending, on_connected, on_s_pool;
  repeat first [progress preserves_tac | apply logged_zoom; done | apply logged_modify; done].

Lemma deny_logged e reason addr : preserves (logged e) (deny reason addr).
Proof. unfold deny. logged_tac. Qed.
Hint Resolve deny_logged : preserves.

(** *** The answer to a challenge *)

(** The sessions accepted before, and those [s] reports. *)
Definition or_logged (A : Z -> Prop) (s : PicklebackServer) (x : Z) : Prop := A x \/ ClientConnected x ∈ server_events s.

Lemma connect_pending_vouched A p cur addr pc : u16 (h_id (ccr_header p)) -> u64 (ccr_xor_salt p) -> pc_vouched A pc ->
  forall s s' r, server_vouched A s ->
  ('(pickleback, _) ← st_local (set_xor_salt (Some (ccr_xor_salt p)) (pc_pickleback pc)) (process cur (ccr_header p));
   s ← st_get;
   '(cc, _) ← st_local
     {| confirmed := false; client_index := None; cc_xor_salt := ccr_xor_salt p; last_received_time := s_time s;
        last_sent_time := s_time s; cc_socket_addr := addr; cc_pickleback := pickleback |}
     (on_cc (header ← next_packet_header TKeepAlive;
             send_packet (KeepAlive {| ka_header := header; ka_xor_salt := ccr_xor_salt p; ka_client_index := 0 |})));
   push_event (ClientConnected (cc_xor_salt cc));;
   on_connected (st_modify (fun l => l ++ [cc]))) s = Some (s', r) ->
  server_vouched (or_logged A s') s'.
Proof.
  intros Hid Hx (_ & _ & Hpc) s s' r Hs.
  assert (Hold : server_vouched (or_logged A s) s) by (eapply server_vouched_mono; [|exact Hs]; by left).
  intros [(s1 & [pb []] & H1 & H2)|(e & H & _)]%run_bind_inv.
  2: { unfold st_local in H. destruct (process _ _ _) as [[? [?|?]]|]; try done. by injection H as <- _. }
  unfold st_local in H1. destruct (process cur _ _) as [[pb' [[]|e]]|] eqn:Hrun; [|done..]. injection H1 as <- ->.
  apply (process_cur_vouched A cur (ccr_header p) Hid) in Hrun; [|by apply set_salt_vouched]. rewrite run_get in H2.
  set (B := fun x => A x \/ x = ccr_xor_salt p).
  apply run_bind_inv in H2 as [(s2 & [cc []] & H2 & H3)|(e & H & _)].
  2: { unfold st_local in H. destruct (on_cc _ _) as [[? [?|?]]|]; try done. by injection H as <- _. }
  unfold st_local in H2. destruct (on_cc _ _) as [[cc' [[]|e]]|] eqn:Hcc; [|done..]. injection H2 as <- ->.
  assert (Hsalt : cc_xor_salt cc = ccr_xor_salt p).
  { apply on_cc_identity in Hcc. by injection Hcc. }
  apply (on_cc_vouched B) in Hcc.
  3: { split; [done|]. split; [by right|]. split; [done|]. eapply ep_vouched_mono; [|exact Hrun]. by left. }
  2: { apply (send_with_next_vouched B TKeepAlive (fun header => KeepAlive
         {| ka_header := header; ka_xor_salt := ccr_xor_salt p; ka_client_index := 0 |})).
       intros h Hh Ht. split; [split; [done|by split]|]. split; [done|]. intros k [= <-]. by right. }
  injection H3 as <- _. rewrite Hsalt.
  assert (HB : forall x, B x -> or_logged A (set_connected_clients (connected_clients s ++ [cc])
    (set_server_events (server_events s ++ [ClientConnected (ccr_xor_salt p)]) s)) x).
  { intros x [HA| ->]; [by left|]. right. apply elem_of_app. right. by apply list_elem_of_singleton. }
  eapply server_vouched_mono; [exact HB|]. apply (server_vouched_mono A B) in Hs as []; [|by left].
  split; try done. apply Forall_app. split; [done|]. by constructor.
Qed.

Lemma receive_response_vouched A p cur addr s s' r : u16 (h_id (ccr_header p)) -> u64 (ccr_xor_salt p) ->
  server_vouched A s -> receive_response p cur addr s = Some (s', r) -> server_vouched (or_logged A s') s'.
Proof.
  intros Hid Hx Hs. unfold receive_response, take_pending_by_xor_salt. rewrite run_assoc, run_get.
  assert (Hmono : forall s1, server_vouched A s1 -> server_vouched (or_logged A s1) s1).
  { intros s1. apply server_vouched_mono. by left. }
  destruct (position_of _ _) as [i|].
  - unfold vec_remove. destruct (pending_clients s !! i) as [pc|] eqn:Hi; [|done]. cbn [mbind option_bind].
    rewrite run_assoc. erewrite run_bind_ok by done. cbn beta iota.
    rewrite run_assoc. erewrite run_bind_ok by done. cbn beta iota. erewrite run_bind_ok by done. cbn beta iota.
    assert (Hs1 : server_vouched A (set_pending_clients (delete i (pending_clients s)) s)).
    { destruct Hs. split; try done. by apply Forall_delete. }
    destruct (negb _); [intros [= <- _]; by apply Hmono|].
    intros H. apply (connect_pending_vouched A p cur addr pc) in H; [done..| |done].
    pose proof (sv_pending _ _ Hs) as Hall. rewrite Forall_lookup in Hall. by eapply Hall.
  - erewrite run_bind_ok by done. cbn beta iota. intros H. apply Hmono. revert H. apply preserves_bind; [| |done].
    + apply on_client_vouched. by apply process_cur_vouched.
    + intros [u|]; [apply preserves_ret|apply deny_vouched].
Qed.

Lemma server_receive_vouched A salt bytes addr s s' r : is_bytes bytes -> u64 salt -> server_vouched A s ->
  server_receive salt bytes addr s = Some (s', r) -> server_vouched (or_logged A s') s'.
Proof.
  intros Hbytes Hsalt Hs. unfold server_receive.
  assert (Hmono : forall s1, server_vouched A s1 -> server_vouched (or_logged A s1) s1).
  { intros s1. apply server_vouched_mono. by left. }
  intros [(s1 & [cur p] & H1 & H)|(e & H & _)]%run_bind_inv; unfold st_local in *;
    destruct (read_packet (Cursor_new bytes)) as [[c [p'|e']]|] eqn:Hread; try done.
  2: { injection H as <- _. by apply Hmono. }
  injection H1 as <- -> ->. apply read_packet_parses in Hread as (_ & ((Hid & _) & _ & Hf) & _); [|done].
  destruct p; cbn [packet_header] in Hid.
  2, 4: injection H as <- _; by apply Hmono.
  - apply Hmono. revert H. destruct Hf. by apply receive_request_vouched.
  - revert H. by apply receive_response_vouched.
  - apply Hmono. revert H. by apply receive_from_client_vouched.
  - apply Hmono. revert H. apply preserves_bind; [apply remove_client_vouched|intros ?; apply preserves_ret|done].
  - apply Hmono. revert H. by apply receive_from_client_vouched.
Qed.
(** *** The server as its user sees it *)

(** The calls of the server's user, but for sending packets and draining
    events. *)
Inductive server_call :=
| ServerUpdate (dt : f64)
| ServerReceive (salt : Z) (bytes : list Z) (addr : SocketAddr)
| ServerDisconnect (id : Z)
| ServerSend (id channel : Z) (payload : list Z)
| ServerBroadcast (channel : Z) (payload : list Z)
| ServerDrainAcks (id channel : Z)
| ServerDrainMessages (id channel : Z).

Definition run_server (call : server_call) : M PicklebackServer unit :=
  match call with
  | ServerUpdate dt => server_update dt
  | ServerReceive salt bytes addr => server_receive salt bytes addr
  | ServerDisconnect id => disconnect_client id
  | ServerSend id ch payload => server_send_message id ch payload;; mret tt
  | ServerBroadcast ch payload => broadcast_message ch payload
  | ServerDrainAcks id ch => on_connected (on_first (has_salt id) (drain_acks ch));; mret tt
  | ServerDrainMessages id ch => on_connected (on_first (has_salt id) (get_messages ch));; mret tt
  end.

(** What a server can be given: bytes, and salts of 64 bits. *)
Definition possible (call : server_call) : bool :=
  match call with
  | ServerReceive salt bytes _ => bool_decide (u64 salt) && bool_decide (is_bytes bytes)
  | ServerDisconnect id => bool_decide (u64 id)
  | _ => true
  end.

Lemma run_server_logged e call : preserves (logged e) (run_server call).
Proof.
  destruct call; cbn [run_server].
  - unfold server_update, process_pending_clients, process_connected_clients. logged_tac.
  - unfold server_receive. preserves_tac; unfold receive_request, receive_response, receive_from_client,
      remove_connected_client, take_pending_by_xor_salt; logged_tac.
  - unfold disconnect_client. logged_tac.
  - unfold server_send_message. logged_tac.
  - unfold broadcast_message. logged_tac.
  - logged_tac.
  - logged_tac.
Qed.

Lemma server_visit_logged e : preserves (logged e) server_visit_packets_to_send.
Proof. unfold server_visit_packets_to_send. logged_tac. Qed.

Lemma disconnect_client_vouched A id : u64 id -> preserves (server_vouched A) (disconnect_client id).
Proof.
  intros Hid. unfold disconnect_client. apply preserves_bind.
  - apply on_client_vouched.
    apply (send_with_next_vouched A TDisconnect (fun header => Disconnect {| dp_header := header; dp_xor_salt := id |})).
    intros h Hh Ht. split; [by split|]. by split.
  - intros [u|]; [|apply preserves_ret]. apply on_connected_vouched, preserves_modify. intros l.
    rewrite !Forall_forall. intros Hl x Hx%list_elem_of_In. apply List.filter_In in Hx as [Hx _]. by apply Hl, list_elem_of_In.
Qed.

Lemma run_server_vouched A call s s' r : possible call = true -> server_vouched A s ->
  run_server call s = Some (s', r) -> server_vouched (or_logged A s') s'.
Proof.
  intros Hcall Hs Hrun. destruct call as [dt|salt bytes addr|id|id ch payload|ch payload|id ch|id ch]; cbn [run_server possible] in *.
  2: { apply andb_prop in Hcall as [Hsalt%bool_decide_eq_true Hbytes%bool_decide_eq_true]. by eapply server_receive_vouched. }
  all: apply (server_vouched_mono A); [by left|]; revert Hs Hrun.
  - apply server_update_vouched.
  - apply disconnect_client_vouched. by apply bool_decide_eq_true in Hcall.
  - apply preserves_bind; [|intros ?; apply preserves_ret]. apply preserves_bind; [apply on_client_vouched, keeps_vouched, send_message_wires|].
    intros [id'|]; [apply preserves_ret|apply preserves_throw].
  - apply preserves_bind; [|intros ?; apply preserves_ret]. apply on_connected_vouched, for_each_preserves.
    apply preserves_bind; [|intros ?; apply preserves_ret]. apply preserves_try, on_cc_vouched, keeps_vouched, send_message_wires.
  - apply preserves_bind; [|intros ?; apply preserves_ret]. apply on_client_vouched, keeps_vouched, drain_acks_wires.
  - apply preserves_bind; [|intros ?; apply preserves_ret]. apply on_client_vouched, keeps_vouched, drain_messages_wires.
Qed.
End server.

(** ** The network *)
Section network.
Context `{BP : BuildProfile, BO : ByteOrder, BL : !ByteOrderLaws BO, SM : SmallMap, SL : !SmallMapLaws SM}.

Record network := MkNetwork {
  n_server : PicklebackServer;
  n_client : PicklebackClient;
  n_wire : list (list Z);
  n_log : list ServerEvent;
}.

(** Anything that can happen.  [Deliver i] gives the client the [i]th packet
    the server ever handed out, for whatever address it was: in any order, any
    number of times, or never. *)
Inductive happening :=
| AtServer (call : server_call)
| ServerSends
| ServerDrains
| AtClient (call : client_call)
| Deliver (i : nat) (source : SocketAddr).

Definition happen (h : happening) (n : network) : option network :=
  match h with
  | AtServer call =>
      if possible call then
        '(s, _) ← run_server call (n_server n); Some (MkNetwork s (n_client n) (n_wire n) (n_log n))
      else None
  | ServerSends =>
      '(s, r) ← server_visit_packets_to_send (n_server n);
      match r with
      | Ok ps => Some (MkNetwork s (n_client n) (n_wire n ++ ps.*2) (n_log n))
      | Err _ => None
      end
  | ServerDrains =>
      '(s, r) ← drain_server_events (n_server n);
      match r with
      | Ok es => Some (MkNetwork s (n_client n) (n_wire n) (n_log n ++ es))
      | Err _ => None
      end
  | AtClient (CallReceive _ _) => None
  | AtClient call => '(c, _) ← run_client call (n_client n); Some (MkNetwork (n_server n) c (n_wire n) (n_log n))
  | Deliver i source =>
      bytes ← n_wire n !! i;
      '(c, _) ← run_client (CallReceive bytes source) (n_client n);
      Some (MkNetwork (n_server n) c (n_wire n) (n_log n))
  end.

Fixpoint history (hs : list happening) (n : network) : option network :=
  match hs with
  | [] => Some n
  | h :: hs => n ← happen h n; history hs n
  end.

(** A new server and a new client. *)
Definition network_new (server_time client_time : f64) (server_config client_config : PicklebackConfig) : option network :=
  client ← PicklebackClient_new client_time client_config;
  Some (MkNetwork (PicklebackServer_new server_time server_config) client [] []).

(** The events of the server, drained or not. *)
Definition events (n : network) : list ServerEvent := n_log n ++ server_events (n_server n).
Definition accepted (n : network) (x : Z) : Prop := ClientConnected x ∈ events n.

(** The invariant: the server's endpoints and the wire vouch for accepted
    sessions only, and a connected client's session is accepted. *)
Record agreed (n : network) : Prop := {
  ag_server : server_vouched (accepted n) (n_server n);
  ag_wire : Forall (vouched (accepted n)) (n_wire n);
  ag_client : client_ok (n_client n);
  ag_connected : state (n_client n) = Connected -> exists x, c_xor_salt (n_client n) = Some x /\ accepted n x;
}.

(** A step of the server that logs more. *)
Lemma agreed_server n s wire log : agreed n ->
  (forall x, accepted n x -> accepted (MkNetwork s (n_client n) wire log) x) ->
  server_vouched (accepted (MkNetwork s (n_client n) wire log)) s ->
  Forall (vouched (accepted (MkNetwork s (n_client n) wire log))) wire -> agreed (MkNetwork s (n_client n) wire log).
Proof.
  intros [] Hmore Hs Hw. split; try done. intros Hc. destruct (ag_connected0 Hc) as (x & Hx & HA). exists x. auto.
Qed.

(** A step of the client: to become connected it takes a keep-alive of its
    session. *)
Lemma agreed_client n call c r : agreed n -> run_client call (n_client n) = Some (c, r) ->
  (forall bytes source, call = CallReceive bytes source -> bytes ∈ n_wire n) ->
  agreed (MkNetwork (n_server n) c (n_wire n) (n_log n)).
Proof.
  intros [] Hrun Hbytes. destruct (run_client_steps call _ _ _ ag_client0 Hrun) as (Hok & Hlegal & Hsame).
  split; try done. cbn [n_client]. intros Hc. rewrite (Hsame Hc). destruct Hlegal as [Hst|Hl].
  { apply ag_connected0. congruence. }
  rewrite Hc in Hl. destruct call as [dt| |salt addr| |bytes source]; try done; [by destruct Hl as [?|[? _]]|by destruct Hl|].
  destruct Hl as (_ & cur & p & Hread & Hmoves). inversion Hmoves as [| |k Hst Hx]; subst. exists (ka_xor_salt k). split; [done|].
  rewrite Forall_forall in ag_wire0. by eapply ag_wire0; [eapply Hbytes|].
Qed.

Lemma happen_agreed h n n' : agreed n -> happen h n = Some n' -> agreed n'.
Proof.
  intros Hn. destruct h as [call| | |call|i source]; cbn [happen].
  - destruct (possible call) eqn:Hp; [|done]. destruct (run_server call (n_server n)) as [[s r]|] eqn:Hrun; [|done].
    intros [= <-].
    assert (Hmore : forall x, or_logged (accepted n) s x -> accepted (MkNetwork s (n_client n) (n_wire n) (n_log n)) x).
    { intros x [[Hx|Hx]%elem_of_app|Hx]; apply elem_of_app; [by left|right|by right].
      by eapply (run_server_logged (ClientConnected x) call). }
    apply agreed_server; [done|intros x Hx; apply Hmore; by left| |].
    + eapply server_vouched_mono; [exact Hmore|]. eapply run_server_vouched; [done|apply Hn|done].
    + eapply Forall_impl; [apply Hn|]. intros b. apply vouched_mono. intros x Hx. apply Hmore. by left.
  - destruct (server_visit_packets_to_send (n_server n)) as [[s [ps|e]]|] eqn:Hrun; [|done..]. intros [= <-].
    assert (Hmore : forall x, accepted n x -> accepted (MkNetwork s (n_client n) (n_wire n ++ ps.*2) (n_log n)) x).
    { intros x [Hx|Hx]%elem_of_app; apply elem_of_app; [by left|right]. cbn [n_server].
      by eapply (server_visit_logged (ClientConnected x)). }
    apply (server_visit_vouched (accepted n)) in Hrun as [Hs Hps]; [|apply Hn].
    apply agreed_server; [done|exact Hmore|by eapply server_vouched_mono|].
    apply Forall_app. split; [|apply Forall_fmap]; (eapply Forall_impl; [|intros b; by apply vouched_mono]); [apply Hn|].
    eapply Forall_impl; [by apply Hps|]. done.
  - intros [= <-].
    assert (Hmore : forall x, accepted n x -> accepted (MkNetwork (set_server_events [] (n_server n)) (n_client n) (n_wire n)
      (n_log n ++ server_events (n_server n))) x).
    { intros x Hx. unfold accepted, events. cbn [n_log n_server server_events set_server_events]. by rewrite app_nil_r. }
    apply agreed_server; [done|exact Hmore| |].
    + eapply server_vouched_mono; [exact Hmore|]. destruct (ag_server _ Hn). by split.
    + eapply Forall_impl; [apply Hn|]. intros b. by apply vouched_mono.
  - assert (Hcall : ('(c, _) ← run_client call (n_client n); Some (MkNetwork (n_server n) c (n_wire n) (n_log n))) = Some n' ->
      (forall bytes source, call = CallReceive bytes source -> bytes ∈ n_wire n) -> agreed n').
    { destruct (run_client call (n_client n)) as [[c r]|] eqn:Hrun; [|done]. intros [= <-]. by eapply agreed_client. }
    destruct call; try done; intros H; by apply Hcall.
  - destruct (n_wire n !! i) as [bytes|] eqn:Hi; [|done]. cbn [mbind option_bind].
    destruct (run_client _ (n_client n)) as [[c r]|] eqn:Hrun; [|done]. intros [= <-].
    eapply agreed_client; [done|exact Hrun|]. intros b s [= <- _]. by eapply list_elem_of_lookup_2.
Qed.

Lemma history_agreed hs n n' : agreed n -> history hs n = Some n' -> agreed n'.
Proof.
  revert n. induction hs as [|h hs IH]; intros n Hn; cbn [history]; [by intros [= <-]|].
  destruct (happen h n) as [n1|] eqn:Hh; [|done]. apply IH. by eapply happen_agreed.
Qed.

Lemma new_agreed ts tc scfg ccfg n : 0 <= max_packet_size scfg -> network_new ts tc scfg ccfg = Some n -> agreed n.
Proof.
  intros Hsize. unfold network_new. destruct (PicklebackClient_new tc ccfg) as [c|] eqn:Hc; [|done]. intros [= <-].
  assert (Hok : client_ok c) by (apply reachable_ok; by eapply reach_new).
  split; [by split|constructor|done|]. cbn [n_client]. intros Hst.
  unfold PicklebackClient_new in Hc. destruct (Pickleback_new _ _); [|done]. by injection Hc as <-.
Qed.
End network.

(** C10. Agreement: over a network that loses, repeats, delays, reorders and
    misdelivers the server's packets, and that hands the server arbitrary bytes
    from arbitrary addresses, whatever server and client do in whatever order, a
    client that considers itself connected does so with a session salt that
    the server has accepted: it reported [ClientConnected] with that salt. *)
Theorem connected_client_was_accepted `{BP : BuildProfile, BO : ByteOrder, BL : !ByteOrderLaws BO, SM : SmallMap, SL : !SmallMapLaws SM}
    server_time client_time server_config client_config n0 hs n :
  0 <= max_packet_size server_config ->
  network_new server_time client_time server_config client_config = Some n0 -> history hs n0 = Some n ->
  state (n_client n) = Connected ->
  exists x, c_xor_salt (n_client n) = Some x /\ ClientConnected x ∈ events n.
Proof.
  intros Hsize Hnew Hrun. apply ag_connected. eapply history_agreed; [|exact Hrun]. by eapply new_agreed.
Qed.

(** A client with salt 5 and a server with salt 9; a forged request is
    refused on the way, a packet is delivered twice. *)
Definition example_addr : SocketAddr := V4 1 6000.
Definition example_response : list Z := @packet_bytes big_endian (ConnectionChallengeResponse
  {| ccr_header := {| packet_type := TConnectionChallengeResponse; h_id := 2; ack_header := None |}; ccr_xor_salt := 12 |}).
Definition example_request : list Z := @packet_bytes big_endian (ConnectionRequest
  {| crq_header := {| packet_type := TConnectionRequest; h_id := 1; ack_header := None |}; crq_client_salt := 5;
     protocol_version := PROTOCOL_VERSION |}).
Definition example_history : list happening :=
  [AtClient (CallConnect 5 example_addr); AtClient CallVisit;
   AtServer (ServerReceive 9 example_request example_addr); AtServer (ServerReceive 1 [7; 1; 2] (V4 2 1));
   AtServer (ServerUpdate (f64_lit 1 5)); ServerSends; Deliver 0 example_addr; Deliver 0 example_addr;
   AtServer (ServerReceive 3 example_response example_addr); ServerDrains; ServerSends; Deliver 1 example_addr].

Definition example_start : option network :=
  @network_new debug_build big_endian zero zero PicklebackConfig_default PicklebackConfig_default.

Lemma connected_client_was_accepted_witness : exists n0 n, example_start = Some n0 /\
  @history debug_build big_endian elements_order example_history n0 = Some n /\
  state (n_client n) = Connected /\ exists x, c_xor_salt (n_client n) = Some x /\ ClientConnected x ∈ events n.
Proof.
  assert (Hrun : (fun n => state (n_client n)) <$> (example_start ≫= @history debug_build big_endian elements_order example_history) =
    Some Connected) by (vm_compute; reflexivity).
  apply fmap_Some in Hrun as (n & Hn & Hc). apply bind_Some in Hn as (n0 & Hstart & Hhist).
  exists n0, n. split; [exact Hstart|]. split; [exact Hhist|]. split; [exact (eq_sym Hc)|].
  refine (connected_client_was_accepted (BP := debug_build) (BO := big_endian) (BL := big_endian_laws) (SM := elements_order)
    (SL := elements_order_laws) zero zero PicklebackConfig_default PicklebackConfig_default n0 example_history n _ Hstart Hhist (eq_sym Hc)).
  vm_compute. discriminate.
Defined.
