(* ===== verification/Harness.v ===== *)
(** * Connections over a perfect network: proofs about [test_utils.rs]

    A tick of the harness with disabled jitter pipes is one synchronous
    exchange between the two ends, and three ticks complete the handshake. *)

From S2P Require Import Prelude BinaryHeap Floats Types JitterPipe SequenceBuffer Cursor BufferPool AckHeader Message Packets Reassembler Channel Dispatcher Endpoint Compose Acks Incoming Control Pieces Reports Lifetime Calm Client Server Handshake TestUtils.

(** The calls a list of packets makes, one after the other; the calls are
    numbered from [i]. *)
Fixpoint feed {S0 T} (step : nat -> T -> S0 -> option S0) (i : nat) (q : list T) (s : S0) : option S0 :=
  match q with
  | [] => Some s
  | x :: q => s ← step i x s; feed step (S i) q s
  end.

(** ** Packets through a disabled pipe inside a larger state *)
Section through.
Context {H T : Type} (get : H -> JitterPipe T) (set : JitterPipe T -> H -> H) `{BP : BuildProfile}.
Context (Hget : forall p h, get (set p h) = p) (Hset : forall p q h, set p (set q h) = set p h) (Hid : forall h, set (get h) h = h).

Lemma fifo_length n (q : list T) p : fifo n q p -> length (heap p) = length q.
Proof.
  intros [_ _ _ (ws & ks & Hperm & Hq & _)]. rewrite Hperm, <- Hq. by rewrite length_fmap.
Qed.

Lemma insert_all_run draws keep i sent l n q h : fifo n q (get h) -> (forall k, keep k = true) -> 0 <= n -> 0 <= sent ->
  n + Z.of_nat (length l) < 2 ^ 24 -> sent + Z.of_nat (length l) < 2 ^ 32 ->
  exists p', insert_all (fun d x => st_zoom get set (pipe_insert d x)) draws keep i sent l h =
      Some (set p' h, Ok (sent + Z.of_nat (length l))) /\
    fifo (n + Z.of_nat (length l)) (q ++ l) p'.
Proof.
  intros Hf Hkeep. revert i sent n q h Hf. induction l as [|x l IH]; intros i sent n q h Hf Hn Hs Hnl Hsl.
  - exists (get h). cbn [length Z.of_nat]. rewrite !Z.add_0_r, app_nil_r. split; [|done]. cbn. by rewrite Hid.
  - cbn [length] in *. destruct (fifo_insert n q (get h) (draws i) x Hf Hn) as (p1 & Hrun & Hf1); [lia|].
    destruct (IH (S i) (sent + 1) (n + 1) (q ++ [x]) (set p1 h)) as (p' & Hrun' & Hf'); [by rewrite Hget|lia..|].
    exists p'. rewrite Hset in Hrun'. replace (sent + 1 + Z.of_nat (length l)) with (sent + Z.of_nat (S (length l))) in Hrun' by lia.
    replace (n + 1 + Z.of_nat (length l)) with (n + Z.of_nat (S (length l))) in Hf' by lia.
    rewrite <- app_assoc in Hf'. split; [|done]. cbn [insert_all]. rewrite Hkeep.
    erewrite run_bind_ok by (unfold st_zoom; rewrite Hrun; done). cbn beta.
    rewrite arith32_in_range by lia. run_done. exact Hrun'.
Qed.

Lemma take_all_nil fuel body i received n h : fifo n [] (get h) ->
  exists p', take_all (S fuel) (st_zoom get set take_next) body i received h = Some (set p' h, Ok received) /\ fifo n [] p'.
Proof.
  intros Hf. destruct (fifo_take n [] (get h) Hf) as (p' & Hrun & Hf'). exists p'. split; [|done]. cbn [take_all].
  by erewrite run_bind_ok by (unfold st_zoom; rewrite Hrun; done).
Qed.

Lemma take_all_cons fuel body i received n x q h : fifo n (x :: q) (get h) -> 0 <= received < 2 ^ 32 - 1 ->
  exists p', take_all (S fuel) (st_zoom get set take_next) body i received h =
      (body i x;; take_all fuel (st_zoom get set take_next) body (S i) (received + 1)) (set p' h) /\ fifo n q p'.
Proof.
  intros Hf Hr. destruct (fifo_take n (x :: q) (get h) Hf) as (p' & Hrun & Hf'). exists p'. split; [|done]. cbn [take_all].
  erewrite run_bind_ok by (unfold st_zoom; rewrite Hrun; done). cbn beta iota.
  rewrite arith32_in_range by lia.
  cbn [head]. by run_done.
Qed.

(** The bodies run one after the other, on the rest of the state. *)
Context {S0 : Type} (view : H -> S0) (put : S0 -> H -> H) (step : nat -> T -> S0 -> option S0) (body : nat -> T -> M H unit).
Context (Hvp : forall s h, view (put s h) = s) (Hpp : forall s s' h, put s (put s' h) = put s h) (Hpv : forall h, put (view h) h = h)
  (Hgp : forall s h, get (put s h) = get h) (Hvs : forall p h, view (set p h) = view h)
  (Hsp : forall s p h, set p (put s h) = put s (set p h)).
Context (Hbody : forall i x h s', step i x (view h) = Some s' -> body i x h = Some (put s' h, Ok tt)).

Lemma take_all_run q fuel i received n h s' : fifo n q (get h) -> (length q < fuel)%nat -> 0 <= received ->
  received + Z.of_nat (length q) < 2 ^ 32 ->
  feed step i q (view h) = Some s' ->
  exists p', take_all fuel (st_zoom get set take_next) body i received h =
    Some (set p' (put s' h), Ok (received + Z.of_nat (length q))) /\ fifo n [] p'.
Proof.
  revert fuel i received n h s'. induction q as [|x q IH]; intros fuel i received n h s' Hf Hfuel Hr Hlen Hgo;
    (destruct fuel as [|fuel]; [simpl in Hfuel; lia|]).
  - injection Hgo as <-. destruct (take_all_nil fuel body i received n h Hf) as (p' & Hrun & Hf'). exists p'.
    rewrite Hpv, Z.add_0_r. done.
  - cbn [length feed] in *. destruct (take_all_cons fuel body i received n x q h Hf) as (p1 & Hrun & Hf1); [lia|].
    destruct (step i x (view h)) as [s1|] eqn:Hstep; [|done].
    assert (Hb : body i x (set p1 h) = Some (put s1 (set p1 h), Ok tt)) by (apply Hbody; by rewrite Hvs).
    destruct (IH fuel (S i) (received + 1) n (put s1 (set p1 h)) s') as (p' & Hrun' & Hf').
    { by rewrite Hgp, Hget. } { lia. } { lia. } { lia. } { by rewrite Hvp. }
    exists p'. split; [|done]. rewrite Hrun. run_step Hb. rewrite Hrun'.
    rewrite Hpp, (Hsp s' p'), <- Hsp, <- Hsp, Hset. do 3 f_equal. lia.
Qed.

(** Packets that go in all come out again. *)
Lemma carry_run draws keep sent l n h s' : fifo n [] (get h) -> (forall k, keep k = true) -> 0 <= n -> 0 <= sent ->
  n + Z.of_nat (length l) < 2 ^ 24 -> sent + Z.of_nat (length l) < 2 ^ 32 -> feed step 0 l (view h) = Some s' ->
  exists p1 p2, insert_all (fun d x => st_zoom get set (pipe_insert d x)) draws keep 0 sent l h =
      Some (set p1 h, Ok (sent + Z.of_nat (length l))) /\
    take_all (S (length (heap p1))) (st_zoom get set take_next) body 0 0 (set p1 h) =
      Some (set p2 (put s' h), Ok (Z.of_nat (length l))) /\
    fifo (n + Z.of_nat (length l)) [] p2.
Proof.
  intros Hf Hkeep Hn Hs Hnl Hsl Hfeed. destruct (insert_all_run draws keep 0 sent l n [] h Hf Hkeep Hn Hs Hnl Hsl) as (p1 & Hins & Hf1).
  cbn [app] in Hf1. destruct (take_all_run l (S (length (heap p1))) 0 0 (n + Z.of_nat (length l)) (set p1 h) s')
    as (p2 & Htake & Hf2); [by rewrite Hget|rewrite (fifo_length _ _ _ Hf1); lia|lia|lia|by rewrite Hvs|].
  exists p1, p2. split; [done|]. split; [|done]. rewrite Htake, <- Hsp, Hset. done.
Qed.
End through.

(** ** One tick is one exchange *)
Section tick.
Context `{BP : BuildProfile, BO : ByteOrder, SM : SmallMap}.

Definition client_step (i : nat) (p : AddressedPacket) (c : PicklebackClient) : option PicklebackClient :=
  fst <$> client_receive (vdata (ap_packet p)) (ap_address p) c.
Definition server_step (salts : nat -> Z) (i : nat) (p : AddressedPacket) (s : PicklebackServer) : option PicklebackServer :=
  fst <$> server_receive (salts i) (vdata (ap_packet p)) (ap_address p) s.

(** Both ends advance, the server's packets reach the client, and then the
    client's reach the server: the new states and the numbers of packets. *)
Definition exchange (salts : nat -> Z) (dt : f64) (s : PicklebackServer) (c : PicklebackClient)
  : option (PicklebackServer * PicklebackClient * nat * nat) :=
  match server_update dt s, client_update dt c with
  | Some (s, Ok _), Some (c, Ok _) =>
      match server_visit_packets_to_send s with
      | Some (s, Ok ps) =>
          c ← feed client_step 0 (addressed <$> ps) c;
          match client_visit_packets_to_send c with
          | Some (c, Ok qs) =>
              s ← feed (server_step salts) 0 (addressed <$> qs) s;
              Some (s, c, length ps, length qs)
          | _ => None
          end
      | _ => None
      end
  | _, _ => None
  end.

(** A harness whose pipes are disabled and empty, after [n] and [m] packets. *)
Record perfect (n m : Z) (h : ProtocolTestHarness) : Prop := {
  pf_server : fifo n [] (ph_server_pipe h);
  pf_client : fifo m [] (ph_client_pipe h);
  pf_drops : ph_drop_indices h = None;
}.

(** Counters that stay below [bound]. *)
Definition stats_below (bound : Z) (s : TransmissionStats) : Prop :=
  0 <= server_sent s <= bound /\ 0 <= server_received s <= bound /\ 0 <= client_sent s <= bound /\ 0 <= client_received s <= bound.

Lemma stats_below_mono b b' s : stats_below b s -> b <= b' -> stats_below b' s.
Proof. unfold stats_below. lia. Qed.

Lemma add_stats_run ss sr cr bound s : stats_below bound s -> 0 <= ss -> 0 <= sr -> 0 <= cr ->
  bound + ss + sr + cr < 2 ^ 32 ->
  exists s', add_stats ss sr 0 cr s = Some s' /\ stats_below (bound + ss + sr + cr) s'.
Proof.
  intros (H1 & H2 & H3 & H4) Hss Hsr Hcr Hb. unfold add_stats.
  rewrite !arith32_in_range by lia. cbn [mbind option_bind]. eexists. split; [done|]. unfold stats_below. cbn. lia.
Qed.

Lemma client_body_run (i : nat) x h c' : client_step i x (ph_client h) = Some c' ->
  (st_try (on_ph_client (client_receive (vdata (ap_packet x)) (ap_address x)));; mret tt) h = Some (set_ph_client c' h, Ok tt).
Proof.
  unfold client_step, mbind, ST_bind, st_try, on_ph_client, st_zoom.
  destruct (client_receive _ _ (ph_client h)) as [[c1 r]|]; [|done]. by intros [= <-].
Qed.

Lemma server_body_run salts i x h s' : server_step salts i x (ph_server h) = Some s' ->
  (st_try (on_ph_server (server_receive (salts i) (vdata (ap_packet x)) (ap_address x)));; mret tt) h = Some (set_ph_server s' h, Ok tt).
Proof.
  unfold server_step, mbind, ST_bind, st_try, on_ph_server, st_zoom.
  destruct (server_receive _ _ _ (ph_server h)) as [[s1 r]|]; [|done]. by intros [= <-].
Qed.

(** Through the server's pipe to the client, and through the client's pipe to
    the server. *)
Lemma to_client_run draws sent ps n h c' : fifo n [] (ph_server_pipe h) -> 0 <= n -> 0 <= sent ->
  n + Z.of_nat (length ps) < 2 ^ 24 -> sent + Z.of_nat (length ps) < 2 ^ 32 ->
  feed client_step 0 (addressed <$> ps) (ph_client h) = Some c' ->
  exists p1 p2, insert_all (fun d p => on_ph_server_pipe (pipe_insert d p)) draws (not_dropped None) 0 sent (addressed <$> ps) h =
      Some (set_ph_server_pipe p1 h, Ok (sent + Z.of_nat (length ps))) /\
    take_all (S (length (heap p1))) (on_ph_server_pipe take_next)
      (fun _ p => st_try (on_ph_client (client_receive (vdata (ap_packet p)) (ap_address p)));; mret tt) 0 0 (set_ph_server_pipe p1 h) =
      Some (set_ph_server_pipe p2 (set_ph_client c' h), Ok (Z.of_nat (length ps))) /\
    fifo (n + Z.of_nat (length ps)) [] p2.
Proof.
  rewrite <- (length_fmap addressed ps). intros Hf ?????.
  eapply (carry_run ph_server_pipe set_ph_server_pipe ltac:(done) ltac:(done) ltac:(by intros []) ph_client set_ph_client client_step); try done.
  - by intros [].
  - exact client_body_run.
Qed.

Lemma to_server_run salts draws sent qs n h s' : fifo n [] (ph_client_pipe h) -> 0 <= n -> 0 <= sent ->
  n + Z.of_nat (length qs) < 2 ^ 24 -> sent + Z.of_nat (length qs) < 2 ^ 32 ->
  feed (server_step salts) 0 (addressed <$> qs) (ph_server h) = Some s' ->
  exists p1 p2, insert_all (fun d p => on_ph_client_pipe (pipe_insert d p)) draws (fun _ => true) 0 sent (addressed <$> qs) h =
      Some (set_ph_client_pipe p1 h, Ok (sent + Z.of_nat (length qs))) /\
    take_all (S (length (heap p1))) (on_ph_client_pipe take_next)
      (fun i p => st_try (on_ph_server (server_receive (salts i) (vdata (ap_packet p)) (ap_address p)));; mret tt) 0 0 (set_ph_client_pipe p1 h) =
      Some (set_ph_client_pipe p2 (set_ph_server s' h), Ok (Z.of_nat (length qs))) /\
    fifo (n + Z.of_nat (length qs)) [] p2.
Proof.
  rewrite <- (length_fmap addressed qs). intros Hf ?????.
  eapply (carry_run ph_client_pipe set_ph_client_pipe ltac:(done) ltac:(done) ltac:(by intros []) ph_server set_ph_server (server_step salts)); try done.
  - by intros [].
  - exact (server_body_run salts).
Qed.

Lemma tick_run r dt n m bound h s' c' k l : perfect n m h -> 0 <= n -> 0 <= m -> stats_below bound (ph_stats h) ->
  exchange (tick_salts r) dt (ph_server h) (ph_client h) = Some (s', c', k, l) ->
  n + Z.of_nat k < 2 ^ 24 -> m + Z.of_nat l < 2 ^ 24 -> bound <= 2 ^ 30 ->
  exists h', protocol_advance r dt h = Some (h', Ok tt) /\ ph_server h' = s' /\ ph_client h' = c' /\
    perfect (n + Z.of_nat k) (m + Z.of_nat l) h' /\
    stats_below (bound + 2 * (Z.of_nat k + Z.of_nat l)) (ph_stats h').
Proof.
  intros [Hsp Hcp Hdrop] Hn Hm Hst Hex Hk Hl Hb. destruct h as [s c sp cp drops st]. cbn in Hsp, Hcp, Hdrop, Hex, Hst. subst drops.
  unfold exchange in Hex.
  destruct (server_update dt s) as [[s1 [[]|e]]|] eqn:Hsu; [|done..].
  destruct (client_update dt c) as [[c1 [[]|e]]|] eqn:Hcu; [|done..].
  destruct (server_visit_packets_to_send s1) as [[s2 [ps|e]]|] eqn:Hsv; [|done..].
  destruct (feed client_step 0 (addressed <$> ps) c1) as [c2|] eqn:Hcf; [|done].
  cbn [mbind option_bind] in Hex.
  destruct (client_visit_packets_to_send c2) as [[c3 [qs|e]]|] eqn:Hcv; [|done..].
  destruct (feed (server_step (tick_salts r)) 0 (addressed <$> qs) s2) as [s3|] eqn:Hsf; [|done].
  injection Hex as <- <- <- <-.
  unfold protocol_advance.
  erewrite run_bind_ok by (unfold on_ph_server, st_zoom; cbn [ph_server]; rewrite Hsu; done). cbn beta.
  erewrite run_bind_ok by (unfold on_ph_client, st_zoom; cbn [ph_client set_ph_server]; rewrite Hcu; done). cbn beta.
  rewrite run_get.
  erewrite run_bind_ok by (unfold on_ph_server, st_zoom; cbn [ph_server set_ph_server set_ph_client]; rewrite Hsv; done). cbn beta.
  set (h1 := set_ph_server s2 _).
  destruct (to_client_run (server_draws r) 0 ps n h1 c2 Hsp) as (sp1 & sp2 & Hins & Htake & Hsp2); [done|done|lia|lia|exact Hcf|].
  cbn [ph_drop_indices set_ph_server set_ph_client].
  run_step Hins. rewrite run_get. cbn [ph_server_pipe set_ph_server_pipe]. run_step Htake.
  erewrite run_bind_ok by (unfold on_ph_client, st_zoom; cbn [ph_client set_ph_client set_ph_server_pipe]; rewrite Hcv; done). cbn beta.
  set (h2 := set_ph_client c3 _).
  destruct (to_server_run (tick_salts r) (client_draws r) (0 + Z.of_nat (length ps)) qs m h2 s3 Hcp)
    as (cp1 & cp2 & Hins2 & Htake2 & Hcp2); [done|lia|lia|lia|exact Hsf|].
  run_step Hins2. rewrite run_get. cbn [ph_client_pipe set_ph_client_pipe]. run_step Htake2. rewrite run_get.
  destruct (add_stats_run (0 + Z.of_nat (length ps) + Z.of_nat (length qs)) (Z.of_nat (length qs)) (Z.of_nat (length ps))
    bound st Hst) as (st' & Hadd & Hst'); [lia..|].
  change (ph_stats (set_ph_client_pipe _ _)) with st. rewrite Hadd. run_done.
  eexists. split; [done|]. split; [done|]. split; [done|]. split; [by split|].
  eapply stats_below_mono; [exact Hst'|]. lia.
Qed.
End tick.

(** ** The three exchanges of a handshake *)
Section handshake.
Context `{BP : BuildProfile, BO : ByteOrder, BL : !ByteOrderLaws BO, SM : SmallMap, SL : !SmallMapLaws SM}.
Implicit Types (t lp lr ls dt : f64) (p q : Pickleback) (cfg : PicklebackConfig) (bp : BufPool) (ev : list ServerEvent) (tr : list ClientState).

Lemma feed_one {S0 T} (step : nat -> T -> S0 -> option S0) x s s' : step 0%nat x s = Some s' -> feed step 0 [x] s = Some s'.
Proof. cbn. by intros ->. Qed.

Lemma feed_two {S0 T} (step : nat -> T -> S0 -> option S0) x y s s1 s' : step 0%nat x s = Some s1 -> step 1%nat y s1 = Some s' ->
  feed step 0 [x; y] s = Some s'.
Proof. cbn. intros -> . cbn. by intros ->. Qed.

(** The request reaches the server. *)
Lemma exchange_request salts a sa t dt lp lr ls tr p ts cfg bp ev : calm 0 0 None [] p -> u64 a ->
  timely (f64_add t dt) lr -> resend_due (f64_add t dt) lp ->
  exists p' q, exchange salts dt (MkServer ts [] [] cfg bp [] ev)
      (MkClient t SendingConnectionRequest (Some a) None None lp lr ls p (Some sa) tr) =
    Some (MkServer (f64_add ts dt) [MkPending a (salts 0%nat) (f64_add ts dt) zero sa q] [] cfg bp [] ev,
          MkClient (f64_add t dt) SendingConnectionRequest (Some a) None None (f64_add t dt) lr (f64_add t dt) p' (Some sa) tr, 0%nat, 1%nat) /\
    calm 1 0 None [] p' /\ calm 0 1 None [] q.
Proof.
  intros Hc Ha Ht Hdue. set (t' := f64_add t dt) in *.
  destruct (client_update_calm 0 0 None [] dt t SendingConnectionRequest (Some a) None None lp lr ls p (Some sa) tr Hc Ht) as (p1 & Hcu & Hc1).
  fold t' in Hcu. destruct (visit_request 0 0 a t' lp lr ls sa tr p1 Hc1) as (h & p2 & Hcv & Hwf & Hid & Hc2); [lia|done|done|].
  destruct (receive_request_fresh a (salts 0%nat) h sa (f64_add ts dt) [] [] cfg bp [] ev) as (q & Hsr & Hq); [constructor|done|lia|].
  exists p2, q. rewrite Hid in Hq. split; [|done]. unfold exchange.
  assert (Hsu : server_update dt (MkServer ts [] [] cfg bp [] ev) = Some (MkServer (f64_add ts dt) [] [] cfg bp [] ev, Ok tt)) by done.
  rewrite Hsu, Hcu.
  assert (Hsv : server_visit_packets_to_send (MkServer (f64_add ts dt) [] [] cfg bp [] ev) =
    Some (MkServer (f64_add ts dt) [] [] cfg bp [] ev, Ok [])) by done.
  rewrite Hsv. cbn [fmap list_fmap feed mbind option_bind]. rewrite Hcv. cbn [fmap list_fmap].
  erewrite feed_one by (unfold server_step, addressed; cbn [ap_packet ap_address vdata fst snd]; rewrite Hsr; done). done.
Qed.

(** The challenge reaches the client, and its answer the server. *)
Lemma exchange_challenge salts a b sa t dt lp lr ls tr p q ts ft lc cfg bp ev : calm 1 0 None [] p -> calm 0 1 None [] q ->
  u64 a -> u64 b -> timely (f64_add t dt) lr -> timely (f64_add ts dt) ft -> resend_due (f64_add ts dt) lc ->
  resend_due (f64_add t dt) zero ->
  exists o p' q', exchange salts dt (MkServer ts [MkPending a b ft lc sa q] [] cfg bp [] ev)
      (MkClient t SendingConnectionRequest (Some a) None None lp lr ls p (Some sa) tr) =
    Some (MkServer (f64_add ts dt) [] [MkConnected (Z.lxor a b) sa false None (f64_add ts dt) (f64_add ts dt) q'] cfg bp []
            (ev ++ [ClientConnected (Z.lxor a b)]),
          MkClient (f64_add t dt) SendingChallengeResponse (Some a) (Some b) (Some (Z.lxor a b)) (f64_add t dt) (f64_add t dt)
            (f64_add t dt) p' (Some sa) (tr ++ [SendingChallengeResponse]), 1%nat, 1%nat) /\
    calm 2 1 (Some (Z.lxor a b)) [] p' /\
    (exists h, o = packet_bytes (keepalive_of (Z.lxor a b) h) /\ wf_packet (keepalive_of (Z.lxor a b) h) /\ h_id h = 2) /\
    calm 2 2 (Some (Z.lxor a b)) [o] q'.
Proof.
  intros Hc Hq Ha Hb Ht Hts Hch Hdue. set (t' := f64_add t dt) in *. set (ts' := f64_add ts dt) in *. set (x := Z.lxor a b).
  assert (Hx : u64 x) by (by apply lxor_u64).
  destruct (client_update_calm 1 0 None [] dt t SendingConnectionRequest (Some a) None None lp lr ls p (Some sa) tr Hc Ht) as (p1 & Hcu & Hc1).
  destruct (update_challenges 0 1 a b ft lc sa q ts dt cfg bp [] ev Hq) as (h1 & q1 & Hsu & Hwf1 & Hid1 & Hq1); [lia|done..|].
  fold t' ts' in Hcu, Hsu.
  destruct (visit_calm_pending _ _ _ a b ft ts' sa q1 ts' cfg bp ev Hq1) as (q2 & Hsv & Hq2).
  destruct (receive_challenge 1 0 a b t' lp lr ls sa tr p1 h1 Hc1 Hwf1) as (p2 & Hcr & Hc2); [lia|].
  rewrite (Z.lxor_comm b a) in Hcr, Hc2. fold x in Hcr, Hc2.
  destruct (visit_response 1 (h_id h1) a b x t' zero t' ls sa (tr ++ [SendingChallengeResponse]) p2 Hc2) as (h2 & p3 & Hcv & Hwf2 & Hid2 & Hc3);
    [lia|done..|].
  destruct (receive_response_connects (0 + 1) 1 a b h2 sa (salts 0%nat) ft ts' q2 ts' cfg bp [] ev Hq2) as (h3 & q3 & Hsr & Hwf3 & Hid3 & Hq3);
    [lia|done|done|lia|]. fold x in Hsr, Hwf3, Hq3.
  exists (packet_bytes (keepalive_of x h3)), p3, q3. split.
  2: { replace (h_id h1) with 1 in Hc3 by lia. replace (h_id h2) with 2 in Hq3 by lia. split; [done|]. split; [exists h3; split_and!; lia || done|done]. }
  unfold exchange. rewrite Hsu, Hcu, Hsv. cbn [fmap list_fmap app].
  erewrite feed_one by (unfold client_step, addressed; cbn [ap_packet ap_address vdata fst snd]; rewrite Hcr; done).
  cbn [mbind option_bind fst]. rewrite Hcv. cbn [fmap list_fmap].
  erewrite feed_one by (unfold server_step, addressed; cbn [ap_packet ap_address vdata fst snd]; fold x in Hsr; rewrite Hsr; done).
  done.
Qed.

(** The keep-alives reach the client, which confirms the connection. *)
Lemma exchange_confirm salts x a b sa t dt lp lr ls tr p q ts lrs lss o cfg bp ev : calm 2 1 (Some x) [] p ->
  (exists h, o = packet_bytes (keepalive_of x h) /\ wf_packet (keepalive_of x h) /\ h_id h = 2) ->
  calm 2 2 (Some x) [o] q -> u64 x -> timely (f64_add t dt) lr -> timely (f64_add ts dt) lrs ->
  f_ge (f64_sub (f64_add t dt) ls) KEEPALIVE_INTERVAL = true ->
  exists lp' p' q', exchange salts dt (MkServer ts [] [MkConnected x sa false None lrs lss q] cfg bp [] ev)
      (MkClient t SendingChallengeResponse (Some a) (Some b) (Some x) lp lr ls p (Some sa) tr) =
    Some (MkServer (f64_add ts dt) [] [MkConnected x sa true None (f64_add ts dt) (f64_add ts dt) q'] cfg bp [] ev,
          MkClient (f64_add t dt) Connected (Some a) (Some b) (Some x) lp' (f64_add t dt) (f64_add t dt) p' (Some sa)
            (tr ++ [Connected]), 2%nat, 1%nat) /\
    calm 3 3 (Some x) [] p' /\ calm 3 3 (Some x) [] q'.
Proof.
  intros Hc (h1 & -> & Hwf1 & Hid1) Hq Hx Ht Hts Hka. set (t' := f64_add t dt) in *. set (ts' := f64_add ts dt) in *.
  destruct (client_update_calm 2 1 (Some x) [] dt t SendingChallengeResponse (Some a) (Some b) (Some x) lp lr ls p (Some sa) tr Hc Ht) as (p1 & Hcu & Hc1).
  destruct (update_unconfirmed 2 2 x lrs lss sa q ts dt _ cfg bp [] ev Hq) as (h2 & q1 & Hsu & Hwf2 & Hid2 & Hq1); [lia|done..|].
  fold t' ts' in Hcu, Hsu.
  destruct (visit_calm_connected _ _ _ x lrs lss sa false q1 ts' cfg bp ev Hq1) as (q2 & Hsv & Hq2); [done|].
  destruct (receive_keepalive 2 1 a b x SendingChallengeResponse t' lp lr ls sa tr p1 h1) as (lp2 & p2 & Hcr1 & Hc2); [by left|done|done|lia|].
  destruct (receive_keepalive 2 (h_id h1) a b x Connected t' lp2 t' ls sa (tr ++ [Connected]) p2 h2) as (lp3 & p3 & Hcr2 & Hc3);
    [by right|done|done|lia|].
  destruct (visit_keepalive 2 (h_id h2) a b x t' lp3 t' ls sa ((tr ++ [Connected]) ++ []) p3 Hc3) as (h3 & p4 & Hcv & Hwf3 & Hid3 & Hc4); [lia|done|done|].
  destruct (receive_keepalive_confirms (2 + 1) 2 x h3 sa (salts 0%nat) false lrs ts' q2 ts' cfg bp [] ev Hq2) as (q3 & Hsr & Hq3); [done|lia|].
  exists lp3, p4, q3. split.
  2: { replace (h_id h2) with 3 in Hc4 by lia. replace (h_id h3) with 3 in Hq3 by lia. done. }
  unfold exchange. rewrite Hsu, Hcu, Hsv. cbn [fmap list_fmap].
  erewrite feed_two by (unfold client_step, addressed; cbn [ap_packet ap_address vdata fst snd];
    rewrite ?Hcr1, ?Hcr2; done).
  cbn [mbind option_bind fst]. rewrite Hcv. cbn [fmap list_fmap].
  erewrite feed_one by (unfold server_step, addressed; cbn [ap_packet ap_address vdata fst snd]; rewrite Hsr; done).
  by rewrite app_nil_r.
Qed.
End handshake.

(** ** The properties *)

(** Three ticks at times [t1], [t2], [t3]: more than 0.1 s after the start, so
    that the handshake's packets are due, with no pause of more than 5 s, and
    the third at least 16 ms after the second. *)
Record handshake_times (t1 t2 t3 : f64) : Prop := {
  ht_due1 : resend_due t1 zero;
  ht_due2 : resend_due t2 zero;
  ht_start1 : timely t1 zero;
  ht_start2 : timely t2 zero;
  ht_second : timely t2 t1;
  ht_third : timely t3 t2;
  ht_keepalive : f_ge (f64_sub t3 t2) KEEPALIVE_INTERVAL = true;
}.

(** A tick whose random draws are all zero and whose server draws [salt]. *)
Definition quiet_tick (salt : Z) : TickRandom :=
  let draws := fun _ : nat => MkDraws (S754_zero false) (S754_zero false) (S754_zero false, true) (S754_zero false, true) in
  MkTick draws draws (fun _ => salt).

(** The ends of a fresh connection; the client's salt is 5. *)
Definition example_harness : ProtocolTestHarness :=
  MkProtocolHarness (PicklebackServer_new zero PicklebackConfig_default)
    (MkClient zero SendingConnectionRequest (Some 5) None None zero zero zero
      (set_xor_salt None (fresh_endpoint PicklebackConfig_default zero)) (Some harness_addr) [SendingConnectionRequest])
    (JitterPipe_new disabled) (JitterPipe_new disabled) None TransmissionStats_default.

(** C40. A tick over disabled pipes is one synchronous exchange: the harness,
    with its heaps, counters and loops, leaves both ends exactly as calling
    [receive] with the other end's packets in the order sent does, and leaves
    its pipes empty. *)
Theorem tick_is_an_exchange `{BP : BuildProfile, BO : ByteOrder, SM : SmallMap} r dt n m bound h s' c' k l :
  perfect n m h -> 0 <= n -> 0 <= m -> stats_below bound (ph_stats h) ->
  exchange (tick_salts r) dt (ph_server h) (ph_client h) = Some (s', c', k, l) ->
  n + Z.of_nat k < 2 ^ 24 -> m + Z.of_nat l < 2 ^ 24 -> bound <= 2 ^ 30 ->
  exists h', protocol_advance r dt h = Some (h', Ok tt) /\ ph_server h' = s' /\ ph_client h' = c' /\
    perfect (n + Z.of_nat k) (m + Z.of_nat l) h' /\
    stats_below (bound + 2 * (Z.of_nat k + Z.of_nat l)) (ph_stats h').
Proof. apply tick_run. Qed.

Lemma tick_is_an_exchange_witness : exists h',
  @protocol_advance debug_build big_endian elements_order (quiet_tick 9) (f64_lit 1 5) example_harness = Some (h', Ok tt) /\
  state (ph_client h') = SendingConnectionRequest /\ length (pending_clients (ph_server h')) = 1%nat.
Proof.
  destruct (exchange_request (BO := big_endian) (BL := big_endian_laws) (SM := elements_order) (SL := elements_order_laws) (BP := debug_build)
    (tick_salts (quiet_tick 9)) 5 harness_addr zero (f64_lit 1 5) zero zero zero [SendingConnectionRequest]
    (set_xor_salt None (fresh_endpoint PicklebackConfig_default zero)) zero PicklebackConfig_default BufPool_full_packets_only [])
    as (p' & q & Hex & _); [eapply calm_set_salt, default_calm|lia|vm_compute; reflexivity..|].
  destruct (tick_is_an_exchange (BP := debug_build) (BO := big_endian) (SM := elements_order) (quiet_tick 9) (f64_lit 1 5) 0 0 0
    example_harness _ _ _ _ ltac:(split; [apply fifo_new; reflexivity..|reflexivity]) ltac:(lia) ltac:(lia)
    ltac:(unfold stats_below; cbn; lia) Hex ltac:(lia) ltac:(lia) ltac:(lia)) as (h' & Hrun & Hs & Hc & _).
  exists h'. rewrite Hs, Hc. split; [exact Hrun|split; reflexivity].
Defined.

(** The three ticks, and what they leave of both ends: after three packets
    each way, the endpoints wait for the first message. *)
Lemma handshake_run `{BP : BuildProfile, BO : ByteOrder, BL : !ByteOrderLaws BO, SM : SmallMap, SL : !SmallMapLaws SM}
    cfg a r1 r2 r3 dt1 dt2 dt3 : enabled cfg = false -> u64 a -> u64 (tick_salts r1 0%nat) ->
  let t1 := f64_add zero dt1 in let t2 := f64_add t1 dt2 in let t3 := f64_add t2 dt3 in
  handshake_times t1 t2 t3 ->
  let x := Z.lxor a (tick_salts r1 0%nat) in
  exists h0 h1 h2 h3 lp p q, ProtocolTestHarness_new a cfg = Some h0 /\
    protocol_advance r1 dt1 h0 = Some (h1, Ok tt) /\ protocol_advance r2 dt2 h1 = Some (h2, Ok tt) /\
    protocol_advance r3 dt3 h2 = Some (h3, Ok tt) /\
    ph_client h3 = MkClient t3 Connected (Some a) (Some (tick_salts r1 0%nat)) (Some x) lp t3 t3 p (Some harness_addr)
      [SendingConnectionRequest; SendingChallengeResponse; Connected] /\
    ph_server h3 = MkServer t3 [] [MkConnected x harness_addr true None t3 t3 q] PicklebackConfig_default
      BufPool_full_packets_only [] [ClientConnected x] /\
    u64 x /\ calm 3 3 (Some x) [] p /\ calm 3 3 (Some x) [] q.
Proof.
  intros Hoff Ha Hb t1 t2 t3 [] x. set (b := tick_salts r1 0%nat) in *.
  assert (Hx : u64 x) by (by apply lxor_u64).
  set (p0 := fresh_endpoint PicklebackConfig_default zero).
  set (c0 := MkClient zero SendingConnectionRequest (Some a) None None zero zero zero (set_xor_salt None p0) (Some harness_addr)
    [SendingConnectionRequest]).
  set (h0 := MkProtocolHarness (PicklebackServer_new zero PicklebackConfig_default) c0 (JitterPipe_new cfg) (JitterPipe_new cfg)
    None TransmissionStats_default).
  assert (Hnew : ProtocolTestHarness_new a cfg = Some h0).
  { unfold ProtocolTestHarness_new, PicklebackClient_new. rewrite Pickleback_new_run. done. }
  assert (Hp0 : calm 0 0 None [] (set_xor_salt None p0)) by (eapply calm_set_salt, default_calm).
  assert (Hh0 : perfect 0 0 h0) by (by split; [apply fifo_new..|]).
  assert (Hs0 : stats_below 0 (ph_stats h0)) by (unfold stats_below; cbn; lia).
  destruct (exchange_request (tick_salts r1) a harness_addr zero dt1 zero zero zero [SendingConnectionRequest] _ zero
    PicklebackConfig_default BufPool_full_packets_only [] Hp0 Ha) as (p1 & q1 & Hex1 & Hp1 & Hq1); [done..|].
  destruct (tick_run r1 dt1 0 0 0 h0 _ _ _ _ Hh0 ltac:(lia) ltac:(lia) Hs0 Hex1) as (h1 & Hadv1 & Hhs1 & Hhc1 & Hh1 & Hst1); [cbn; lia..|].
  destruct (exchange_challenge (tick_salts r2) a b harness_addr t1 dt2 t1 zero t1 [SendingConnectionRequest] p1 q1 t1 t1 zero
    PicklebackConfig_default BufPool_full_packets_only [] Hp1 Hq1 Ha Hb) as (o & p2 & q2 & Hex2 & Hp2 & Ho & Hq2); [done..|].
  destruct (tick_run r2 dt2 _ _ _ h1 _ _ _ _ Hh1 ltac:(lia) ltac:(lia) Hst1 ltac:(rewrite Hhs1, Hhc1; exact Hex2))
    as (h2 & Hadv2 & Hhs2 & Hhc2 & Hh2 & Hst2); [lia..|].
  destruct (exchange_confirm (tick_salts r3) x a b harness_addr t2 dt3 t2 t2 t2 [SendingConnectionRequest; SendingChallengeResponse]
    p2 q2 t2 t2 t2 o PicklebackConfig_default BufPool_full_packets_only [ClientConnected x] Hp2 Ho Hq2 Hx)
    as (lp & p3 & q3 & Hex3 & Hp3 & Hq3); [done..|].
  destruct (tick_run r3 dt3 _ _ _ h2 _ _ _ _ Hh2 ltac:(lia) ltac:(lia) Hst2 ltac:(rewrite Hhs2, Hhc2; exact Hex3))
    as (h3 & Hadv3 & Hhs3 & Hhc3 & _); [lia..|].
  exists h0, h1, h2, h3, lp, p3, q3. split; [exact Hnew|]. split; [exact Hadv1|]. split; [exact Hadv2|]. split; [exact Hadv3|].
  split; [exact Hhc3|]. split; [exact Hhs3|]. split; [exact Hx|]. split; [exact Hp3|exact Hq3].
Qed.

(** C11. Over a perfect network (the harness's pipes disabled) a connection is
    established in three ticks, whatever the 64-bit salts: the client requests,
    the server challenges, the client answers, and the server's keep-alive,
    answered by the client's, makes both ends consider themselves connected,
    with the exclusive or of the two salts as the salt of the session on both
    sides.  The ticks must be long enough and not too long
    ([handshake_times]): the first longer than the resend interval of 0.1 s,
    which the code compares strictly (after exactly 0.1 s nothing is sent yet),
    the third at least the keep-alive interval of 16 ms, the second and third
    each at most 5 s, and the first two together at most 5 s. *)
Theorem handshake_completes `{BP : BuildProfile, BO : ByteOrder, BL : !ByteOrderLaws BO, SM : SmallMap, SL : !SmallMapLaws SM}
    cfg a r1 r2 r3 dt1 dt2 dt3 : enabled cfg = false -> u64 a -> u64 (tick_salts r1 0%nat) ->
  let t1 := f64_add zero dt1 in let t2 := f64_add t1 dt2 in let t3 := f64_add t2 dt3 in
  handshake_times t1 t2 t3 ->
  let x := Z.lxor a (tick_salts r1 0%nat) in
  exists h0 h1 h2 h3, ProtocolTestHarness_new a cfg = Some h0 /\
    protocol_advance r1 dt1 h0 = Some (h1, Ok tt) /\ protocol_advance r2 dt2 h1 = Some (h2, Ok tt) /\
    protocol_advance r3 dt3 h2 = Some (h3, Ok tt) /\
    state (ph_client h3) = Connected /\ c_xor_salt (ph_client h3) = Some x /\ xor_salt (pickleback (ph_client h3)) = Some x /\
    state_transitions (ph_client h3) = [SendingConnectionRequest; SendingChallengeResponse; Connected] /\
    pending_clients (ph_server h3) = [] /\ server_events (ph_server h3) = [ClientConnected x] /\
    exists cc, connected_clients (ph_server h3) = [cc] /\ cc_xor_salt cc = x /\ confirmed cc = true /\
      cc_socket_addr cc = harness_addr /\ xor_salt (cc_pickleback cc) = Some x.
Proof.
  intros Hoff Ha Hb t1 t2 t3 Ht x.
  destruct (handshake_run cfg a r1 r2 r3 dt1 dt2 dt3 Hoff Ha Hb Ht)
    as (h0 & h1 & h2 & h3 & lp & p & q & H0 & H1 & H2 & H3 & Hc & Hs & _ & Hp & Hq).
  exists h0, h1, h2, h3. do 4 (split; [done|]). rewrite Hc, Hs. cbn.
  do 2 (split; [done|]). split; [apply Hp|]. do 3 (split; [done|]). eexists. split; [done|]. cbn. do 3 (split; [done|]). apply Hq.
Qed.

Lemma handshake_completes_witness : exists h0 h1 h2 h3,
  @ProtocolTestHarness_new debug_build big_endian 5 disabled = Some h0 /\
  @protocol_advance debug_build big_endian elements_order (quiet_tick 9) (f64_lit 1 5) h0 = Some (h1, Ok tt) /\
  @protocol_advance debug_build big_endian elements_order (quiet_tick 0) (f64_lit 1 5) h1 = Some (h2, Ok tt) /\
  @protocol_advance debug_build big_endian elements_order (quiet_tick 0) (f64_lit 1 5) h2 = Some (h3, Ok tt) /\
  state (ph_client h3) = Connected /\ c_xor_salt (ph_client h3) = Some 12.
Proof.
  destruct (handshake_completes (BP := debug_build) (BO := big_endian) (BL := big_endian_laws) (SM := elements_order)
    (SL := elements_order_laws) disabled 5 (quiet_tick 9) (quiet_tick 0) (quiet_tick 0) (f64_lit 1 5) (f64_lit 1 5) (f64_lit 1 5)
    eq_refl ltac:(lia) ltac:(cbn; lia) ltac:(constructor; vm_compute; reflexivity))
    as (h0 & h1 & h2 & h3 & H0 & H1 & H2 & H3 & Hst & Hx & _).
  exists h0, h1, h2, h3. split_and!; assumption.
Defined.
