(* ===== verification/Acts.v ===== *)
(** * A connection and what can happen to it

    The state of a connected client of client.rs, and of a server of server.rs
    with the client's entry in it; the calls their users make and the packets
    that arrive, and when ([client_allowed], [server_allowed]). *)

From S2P Require Import Prelude Floats Types SequenceBuffer Cursor BufferPool AckHeader Message Packets Reassembler Channel Dispatcher Endpoint Compose Acks Incoming Control Pieces Reports Lifetime Calm Link Client ClientFacts Server Session.

(** ** The two ends *)

(** What an end has done: the messages its user has sent, the packets it has
    handed to the network, the messages and acks its user has taken. *)
Record Log := MkLog {
  lg_sent : list Sent;
  lg_wire : list (list Z);
  lg_taken : list (Z * ReceivedMessage);
  lg_acked : list (Z * MessageId);
}.

Definition half_of (ep : Pickleback) (g : Log) : Half := MkHalf ep (lg_sent g) (lg_wire g) (lg_taken g) (lg_acked g).

Definition log_sent (l : list Sent) (g : Log) : Log := MkLog (lg_sent g ++ l) (lg_wire g) (lg_taken g) (lg_acked g).
Definition log_wire (l : list (list Z)) (g : Log) : Log := MkLog (lg_sent g) (lg_wire g ++ l) (lg_taken g) (lg_acked g).
Definition log_taken {E} (channel : Z) (r : result (list ReceivedMessage) E) (g : Log) : Log :=
  MkLog (lg_sent g) (lg_wire g) (lg_taken g ++ match r with Ok l => (fun rm => (channel, rm)) <$> l | Err _ => [] end) (lg_acked g).
Definition log_acked {E} (channel : Z) (r : result (list MessageId) E) (g : Log) : Log :=
  MkLog (lg_sent g) (lg_wire g) (lg_taken g) (lg_acked g ++ match r with Ok l => (fun id => (channel, id)) <$> l | Err _ => [] end).

Record Connection := MkConnection {
  cn_client : PicklebackClient;
  cn_client_log : Log;
  cn_server : PicklebackServer;
  cn_server_log : Log;
}.

(** What happens at one end: [Receive n] is the arrival of packet [n] of
    those the other end has handed out, [Stray] that of any other bytes. *)
Inductive Act :=
| Send (channel : Z) (payload : list Z)
| Hand
| Receive (n : nat)
| Stray (bytes : list Z) (from : SocketAddr) (draw : Z)
| Update (dt : f64)
| Take (channel : Z)
| TakeAcks (channel : Z).

(** What the server does besides. *)
Inductive Aside :=
| SendTo (id channel : Z) (payload : list Z)
| Broadcast (channel : Z) (payload : list Z)
| Dismiss (id : Z)
| DrainEvents.

Inductive Doing :=
| AtClient (a : Act)
| AtServer (a : Act)
| Besides (a : Aside).

Section connection.
Context `{BP : BuildProfile, BO : ByteOrder, SM : SmallMap}.

(** The message that the next [send_message] of an endpoint queues. *)
Definition next_of (ep : Pickleback) (channel : Z) (payload : list Z) : Sent :=
  MkSent (next_message_id (dispatcher ep)) channel payload.

(** The client's end.  (client.rs has no method that sends a message; [Send]
    is [send_message] of its endpoint.) *)
Definition client_act (wire : list (list Z)) (a : Act) (c : PicklebackClient) (g : Log) : option (PicklebackClient * Log) :=
  match a with
  | Send channel payload =>
      '(c', r) ← on_pickleback (send_message channel payload) c;
      Some (c', log_sent (taken (next_of (pickleback c) channel payload) r) g)
  | Hand =>
      '(c', r) ← client_visit_packets_to_send c;
      Some (c', log_wire (match r with Ok packets => snd <$> packets | Err _ => [] end) g)
  | Receive n =>
      match wire !! n, server_addr c with
      | Some bytes, Some from => '(c', _) ← client_receive bytes from c; Some (c', g)
      | _, _ => Some (c, g)
      end
  | Stray bytes from _ => '(c', _) ← client_receive bytes from c; Some (c', g)
  | Update dt => '(c', _) ← client_update dt c; Some (c', g)
  | Take channel => '(c', r) ← on_pickleback (take_messages channel) c; Some (c', log_taken channel r g)
  | TakeAcks channel => '(c', r) ← client_drain_message_acks channel c; Some (c', log_acked channel r g)
  end.

(** The client that the session with the salt [q] is with. *)
Definition client_of (q : Z) (s : PicklebackServer) : option ConnectedClient := head (List.filter (has_salt q) (connected_clients s)).

(** What [visit_packets_to_send] hands out for it. *)
Definition handed_to (q : Z) (s : PicklebackServer) : list (list Z) :=
  match client_of q s ≫= visit_client (s_time s) with Some (_, Ok packets) => snd <$> packets | _ => [] end.

(** What the user sends to it, by the result for it. *)
Definition queued_for (q : Z) (s : PicklebackServer) (channel : Z) (payload : list Z) : list Sent :=
  match client_of q s with
  | Some cc =>
      match send_message channel payload (cc_pickleback cc) with
      | Some (_, r) => taken (next_of (cc_pickleback cc) channel payload) r
      | None => []
      end
  | None => []
  end.

(** A call on it, as through [connected_clients_mut]. *)
Definition on_client {A} (q : Z) (m : M ConnectedClient A) : M PicklebackServer (option A) :=
  on_connected (on_first (has_salt q) m).

Definition of_client {A} (r : result (option (list A)) PicklebackError) : result (list A) PicklebackError :=
  match r with Ok (Some l) => Ok l | Ok None => Ok [] | Err e => Err e end.

(** The server's end of the session [q], whose client is at [addr]. *)
Definition server_act (q : Z) (addr : SocketAddr) (wire : list (list Z)) (a : Act) (s : PicklebackServer) (g : Log)
    : option (PicklebackServer * Log) :=
  match a with
  | Send channel payload =>
      '(s', _) ← server_send_message q channel payload s;
      Some (s', log_sent (queued_for q s channel payload) g)
  | Hand => '(s', _) ← server_visit_packets_to_send s; Some (s', log_wire (handed_to q s) g)
  | Receive n =>
      match wire !! n with
      | Some bytes => '(s', _) ← server_receive 0 bytes addr s; Some (s', g)
      | None => Some (s, g)
      end
  | Stray bytes from draw => '(s', _) ← server_receive draw bytes from s; Some (s', g)
  | Update dt => '(s', _) ← server_update dt s; Some (s', g)
  | Take channel => '(s', r) ← on_client q (on_cc (take_messages channel)) s; Some (s', log_taken channel (of_client r) g)
  | TakeAcks channel => '(s', r) ← on_client q (drain_acks channel) s; Some (s', log_acked channel (of_client r) g)
  end.

Definition server_aside (q : Z) (a : Aside) (s : PicklebackServer) (g : Log) : option (PicklebackServer * Log) :=
  match a with
  | SendTo id channel payload => '(s', _) ← server_send_message id channel payload s; Some (s', g)
  | Broadcast channel payload =>
      '(s', _) ← broadcast_message channel payload s;
      Some (s', log_sent (queued_for q s channel payload) g)
  | Dismiss id => '(s', _) ← disconnect_client id s; Some (s', g)
  | DrainEvents => '(s', _) ← drain_server_events s; Some (s', g)
  end.

(** Bytes that are no packet with the salt [q]. *)
Definition foreign (q : Z) (bytes : list Z) : Prop :=
  forall c p, read_packet (Cursor_new bytes) = Some (c, Ok p) -> packet_salt p <> Some q.

(** How long the connection may last, as in [Link]; strays are foreign, or do
    not come from the server's address; and the server does not break the
    connection off itself. *)
Definition act_allowed (ep : Pickleback) (a : Act) : Prop :=
  match a with
  | Send channel payload => good_sent (next_of ep channel payload)
  | Hand => sequence_id ep <= 15500
  | Update _ => sequence_id ep < 16000
  | _ => True
  end.

Definition client_allowed (q : Z) (c : PicklebackClient) (a : Act) : Prop :=
  act_allowed (pickleback c) a /\ forall bytes from draw, a = Stray bytes from draw -> server_addr c <> Some from \/ foreign q bytes.

Definition server_allowed (q : Z) (s : PicklebackServer) (a : Act) : Prop :=
  (forall cc, client_of q s = Some cc -> act_allowed (cc_pickleback cc) a) /\
  forall bytes from draw, a = Stray bytes from draw -> foreign q bytes.

Definition aside_allowed (q : Z) (s : PicklebackServer) (a : Aside) : Prop :=
  match a with
  | SendTo id _ _ | Dismiss id => id <> q
  | Broadcast channel payload => forall cc, client_of q s = Some cc -> good_sent (next_of (cc_pickleback cc) channel payload)
  | DrainEvents => True
  end.

(** A connected client. *)
Record client_in (q : Z) (c : PicklebackClient) : Prop := {
  ci_state : state c = Connected;
  ci_salt : c_xor_salt c = Some q;
  ci_addr : is_Some (server_addr c);
}.

(** The server's only client with the salt [q]. *)
Record server_in (q : Z) (addr : SocketAddr) (cc : ConnectedClient) (s : PicklebackServer) : Prop := {
  si_only : List.filter (has_salt q) (connected_clients s) = [cc];
  si_addr : cc_socket_addr cc = addr;
  si_index : u32 (default 0 (client_index cc));
}.
End connection.
