(* ===== verification/ClientEnd.v ===== *)
(** * The client's end of a connection

    A connected client does to its endpoint what an end of [Link] does, and
    none of its calls panics. *)

From S2P Require Import Prelude Floats Types SequenceBuffer Cursor BufferPool AckHeader Message Packets Reassembler Channel Dispatcher Endpoint Compose Acks Incoming Control Pieces Reports Lifetime Calm Link Client ClientFacts Server Session Acts.

(** ** What each call does to the endpoint *)
Section client.
Context `{BP : BuildProfile, BO : ByteOrder, BL : !ByteOrderLaws BO, SM : SmallMap}.

Lemma moves_one wire e h h' : allowed e h -> half_step wire e h = Some h' -> moves wire h [e] h'.
Proof. intros He Hrun. eapply moves_cons; [exact He|exact Hrun|constructor]. Qed.

Lemma on_pickleback_inv {A} (m : M Pickleback A) c c' r : on_pickleback m c = Some (c', r) ->
  exists p, m (pickleback c) = Some (p, r) /\ c' = set_pickleback p c.
Proof.
  unfold on_pickleback, st_zoom. destruct (m (pickleback c)) as [[p x]|]; [|done]. intros [= <- <-]. by exists p.
Qed.

(** Only the endpoint and times have changed. *)
Lemma client_in_same q c c' : state c' = state c -> c_xor_salt c' = c_xor_salt c -> server_addr c' = server_addr c ->
  client_in q c -> client_in q c'.
Proof. intros H1 H2 H3 []. split; congruence. Qed.

(** A connected client's keep-alive. *)
Lemma client_keepalive q c c' r : c_xor_salt c = Some q -> send_with_header TKeepAlive keepalive_packet c = Some (c', r) ->
  exists p, send_keepalive q 0 (pickleback c) = Some (p, Ok tt) /\ pickleback c' = p /\
    state c' = state c /\ c_xor_salt c' = c_xor_salt c /\ server_addr c' = server_addr c /\ exists b, r = Ok b.
Proof.
  intros Hq. unfold send_with_header, send_keepalive, mbind, ST_bind, st_try, on_pickleback, st_zoom.
  destruct (next_packet_header TKeepAlive (pickleback c)) as [[p1 [h|e]]|]; [| |done].
  2: { intros [= <- <-]. exists p1. split_and!; try done. by eexists. }
  cbn beta iota. unfold st_get, keepalive_packet. cbn [c_xor_salt set_pickleback]. rewrite Hq.
  unfold mbind, option_bind, st_lift, st_asks, client_send, mbind, ST_bind, on_pickleback, st_zoom. cbn [pickleback set_pickleback].
  change (KeepAlive _) with (keepalive_with q 0 h).
  destruct (send_packet (keepalive_with q 0 h) p1) as [[p2 [u|e]]|]; [| |done]; intros [= <- <-];
    (exists p2; split_and!; try done; by eexists).
Qed.

Lemma return_buffer_infallible b : infallible (return_buffer b).
Proof. intros bp bp' r. unfold return_buffer. destruct (on_pool _ _ _) as [[]|]; [|done]. intros [= _ <-]. by eexists. Qed.

Lemma visit_infallible : infallible visit_packets_to_send.
Proof. unfold visit_packets_to_send, on_pool_field. infallible_tac; apply return_buffer_infallible. Qed.

(** [visit_packets_to_send], when connected: what is waiting, or else, if it is
    time, a keep-alive. *)
Lemma client_visit_run q c c' r : client_in q c -> client_visit_packets_to_send c = Some (c', r) ->
  client_in q c' /\ exists sa p1 packets, visit_packets_to_send (pickleback c) = Some (p1, Ok packets) /\
    ((pickleback c' = p1 /\ r = Ok ((fun p => (sa, p)) <$> packets)) \/
     exists p2 p3 packets2, packets = [] /\ send_keepalive q 0 p1 = Some (p2, Ok tt) /\
       visit_packets_to_send p2 = Some (p3, Ok packets2) /\ pickleback c' = p3 /\ r = Ok ((fun p => (sa, p)) <$> packets2)).
Proof.
  intros [Hst Hq [sa Hsa]]. unfold client_visit_packets_to_send. rewrite run_get, Hsa.
  assert (Hproto : exists b, send_protocol_packets c = Some (c, Ok b)).
  { unfold send_protocol_packets. rewrite run_get, Hst. by eexists. }
  destruct Hproto as [b Hproto]. run_step Hproto.
  assert (Hin : forall c1, state c1 = state c -> c_xor_salt c1 = c_xor_salt c -> server_addr c1 = server_addr c -> client_in q c1)
    by (intros c1 H1 H2 H3; split; [congruence..|rewrite H3; by exists sa]).
  intros [(c1 & packets & (p1 & Hv & ->)%on_pickleback_inv & H)|(e & (p1 & Hv & _)%on_pickleback_inv & _)]%run_bind_inv;
    [|by destruct (visit_infallible _ _ _ Hv)].
  destruct (Nat.eqb_spec (length packets) 0) as [Hz|]; [destruct b|]; cbn [andb] in H.
  2, 3: injection H as <- <-; split; [by apply Hin|]; exists sa, p1, packets; split; [done|]; by left.
  apply nil_length_inv in Hz as ->.
  apply run_bind_inv in H as [(c2 & b & Hka & H)|(e & Hka & _)];
    destruct (client_keepalive q (set_pickleback p1 c) _ _ Hq Hka) as (p2 & Hsend & Hp2 & Hs2 & Hq2 & Ha2 & [? Hb]); [|done].
  apply run_bind_inv in H as [(c3 & packets2 & (p3 & Hv3 & ->)%on_pickleback_inv & H)|(e & (p3 & Hv3 & _)%on_pickleback_inv & _)];
    [|by destruct (visit_infallible _ _ _ Hv3)].
  injection H as <- <-. split; [by apply Hin|]. exists sa, p1, []. split; [done|]. right. subst p2. by exists (pickleback c2), p3, packets2.
Qed.

(** Any packet from the server. *)
Lemma client_receive_eq c bytes from cur p : server_addr c = Some from -> read_packet (Cursor_new bytes) = Some (cur, Ok p) ->
  client_receive bytes from c =
    match handle_packet p (set_last_receive_time (c_time c) c, cur) with
    | Some ((c', _), Ok (Some ns)) => state_transition ns c'
    | Some ((c', _), Ok None) => Some (c', Ok tt)
    | Some ((c', _), Err e) => Some (c', Err e)
    | None => None
    end.
Proof.
  intros Hfrom Hread. unfold client_receive. rewrite run_get, Hfrom, bool_decide_true by done. cbn [negb].
  unfold mbind at 1, ST_bind at 1, st_with. erewrite run_bind_ok by (unfold st_snd, st_zoom; cbn [fst snd]; rewrite Hread; done).
  run_done. by destruct (handle_packet _ _) as [[[c' cur'] [[ns|]|e]]|].
Qed.

Lemma client_receive_bad c bytes from : (forall cur p, read_packet (Cursor_new bytes) <> Some (cur, Ok p)) ->
  forall c' r, client_receive bytes from c = Some (c', r) -> c' = c.
Proof.
  intros Hread c' r. unfold client_receive. rewrite run_get. destruct (server_addr c) as [sa|]; [|by intros [= <- _]].
  destruct (negb _); [by intros [= <- _]|]. unfold mbind at 1, ST_bind at 1, st_with, mbind at 1, ST_bind at 1, st_snd, st_zoom.
  cbn [fst snd]. destruct (read_packet (Cursor_new bytes)) as [[cur [p|e]]|] eqn:H; [by destruct (Hread cur p)|by intros [= <- _]|done].
Qed.

(** A packet of the session, of which the endpoint processes [h]. *)
Lemma handle_session q c0 cur p h : let c := set_last_receive_time (c_time c0) c0 in client_in q c ->
  match p with KeepAlive k => ka_xor_salt k = q /\ ka_header k = h | Messages m => mp_xor_salt m = q /\ mp_header m = h | _ => False end ->
  handle_packet p (c, cur) =
    match process_incoming_packet h (pickleback c, cur) with
    | Some ((p', cur'), r) => Some ((set_pickleback p' c, cur'), match r with Ok _ => Ok None | Err e => Err e end)
    | None => None
    end.
Proof.
  intros c [Hst Hq _] Hp. unfold handle_packet. rewrite run_get. cbn beta iota. destruct p; try done; destruct Hp as [Hs ->]; rewrite Hst, Hq.
  - rewrite bool_decide_true by congruence. unfold mbind at 1, ST_bind at 1, client_process, st_zoom. cbn [pickleback c].
    by destruct (process_incoming_packet h _) as [[[p' cur'] [u|e]]|].
  - rewrite bool_decide_true by congruence. erewrite (run_bind_ok _ _ _ (c, cur)) by reflexivity. unfold mbind at 1, ST_bind at 1, client_process, st_zoom. cbn [pickleback set_last_receive_time c].
    destruct (process_incoming_packet h _) as [[[p' cur'] [u|e]]|]; [|done..]. rewrite run_get. cbn beta iota.
    by rewrite bool_decide_false by (cbn; cbn in Hst; congruence).
Qed.

Lemma client_receive_run q c bytes from c' r : client_in q c -> server_addr c = Some from -> speaks q bytes ->
  client_receive bytes from c = Some (c', r) ->
  client_in q c' /\ exists r', receive_bytes bytes (pickleback c) = Some (pickleback c', r').
Proof.
  intros Hc Hfrom (cur & p & Hread & Hp). rewrite (client_receive_eq c bytes from cur p Hfrom Hread).
  set (c1 := set_last_receive_time (c_time c) c). assert (Hc1 : client_in q c1) by (by apply (client_in_same q c)).
  set (h := match p with KeepAlive k => ka_header k | Messages m => mp_header m | _ => packet_header p end).
  assert (Hrb : receive_bytes bytes (pickleback c) = process_at cur h (pickleback c)).
  { unfold receive_bytes. rewrite Hread. by destruct p. }
  assert (Hh : match p with KeepAlive k => ka_xor_salt k = q /\ ka_header k = h | Messages m => mp_xor_salt m = q /\ mp_header m = h | _ => False end)
    by (by destruct p).
  pose proof (handle_session q c cur p h Hc1 Hh) as Heq. fold c1 in Heq. rewrite Heq. rewrite Hrb. unfold process_at.
  change (pickleback c1) with (pickleback c).
  destruct (process_incoming_packet h (pickleback c, cur)) as [[[p' cur'] [u|e]]|]; [| |done];
    intros [= <- _]; (split; [by apply (client_in_same q c)|by eexists]).
Qed.

(** Anything else. *)
Lemma handle_foreign q c cur p : client_in q c -> packet_salt p <> Some q -> handle_packet p (c, cur) = Some ((c, cur), Ok None).
Proof.
  intros [Hst Hq _] Hp. unfold handle_packet. rewrite run_get. cbn beta iota. destruct p; try done; rewrite Hst, ?Hq; try done.
  - by rewrite bool_decide_false by (cbn in Hp; congruence).
  - by rewrite bool_decide_false by (cbn in Hp; congruence).
Qed.

Lemma client_receive_foreign q c bytes from c' r : client_in q c -> server_addr c <> Some from \/ foreign q bytes ->
  client_receive bytes from c = Some (c', r) -> client_in q c' /\ pickleback c' = pickleback c.
Proof.
  intros Hc Hstray Hrun. destruct (decide (server_addr c = Some from)) as [Hfrom|Hne].
  2: { revert Hrun. unfold client_receive. rewrite run_get. destruct (server_addr c) as [sa|]; [|by intros [= <- _]].
       rewrite bool_decide_false by congruence. cbn [negb]. by intros [= <- _]. }
  destruct Hstray as [|Hf]; [done|].
  destruct (read_packet (Cursor_new bytes)) as [[cur [p|e]]|] eqn:Hread.
  2, 3: apply client_receive_bad in Hrun as ->; [done|intros ? ?; by rewrite Hread].
  rewrite (client_receive_eq c bytes from cur p Hfrom Hread) in Hrun.
  set (c1 := set_last_receive_time (c_time c) c) in *. assert (Hc1 : client_in q c1) by (by apply (client_in_same q c)).
  rewrite (handle_foreign q c1 cur p Hc1) in Hrun by (by eapply Hf). by injection Hrun as <- _.
Qed.

(** Time passes, without a timeout. *)
Lemma client_update_run q c dt c' r : client_in q c -> client_update dt c = Some (c', r) -> state c' = Connected ->
  client_in q c' /\ exists r', update dt (pickleback c) = Some (pickleback c', r').
Proof.
  intros Hc. unfold client_update. run_done.
  intros [(c1 & u & (p & Hup & ->)%on_pickleback_inv & H)|(e & (p & Hup & ->)%on_pickleback_inv & _)]%run_bind_inv Hst;
    [|split; [by apply (client_in_same q c)|by eexists]].
  rewrite run_get in H. destruct (_ && _).
  - apply state_transition_run in H as (_ & Hst' & _). congruence.
  - injection H as <- _. split; [by apply (client_in_same q c)|by eexists].
Qed.

(** ** No call of a connected client panics *)
Lemma state_transition_total ns c : exists c', state_transition ns c = Some (c', Ok tt).
Proof.
  unfold state_transition. do 2 run_done. rewrite run_get. run_done. destruct (is_disconnected ns); [|eexists; by run_done].
  unfold client_reset. rewrite run_assoc, run_get, Pickleback_new_run. by eexists.
Qed.

Lemma on_pickleback_total {A} (m : M Pickleback A) c : is_Some (m (pickleback c)) -> is_Some (on_pickleback m c).
Proof. intros [[p r] Hm]. exists (set_pickleback p c, r). unfold on_pickleback, st_zoom. by rewrite Hm. Qed.

Lemma client_keepalive_total q c : c_xor_salt c = Some q -> is_Some (send_keepalive q 0 (pickleback c)) ->
  exists c' b, send_with_header TKeepAlive keepalive_packet c = Some (c', Ok b).
Proof.
  intros Hq. unfold send_with_header, send_keepalive, mbind, ST_bind, st_try, on_pickleback, st_zoom.
  destruct (next_packet_header TKeepAlive (pickleback c)) as [[p1 [h|e]]|]; [|by do 2 eexists|by intros [? ?]].
  cbn beta iota. unfold st_get, keepalive_packet. cbn [c_xor_salt set_pickleback]. rewrite Hq.
  unfold mbind, option_bind, st_lift, st_asks, client_send, mbind, ST_bind, on_pickleback, st_zoom. cbn [pickleback set_pickleback].
  change (KeepAlive _) with (keepalive_with q 0 h).
  destruct (send_packet (keepalive_with q 0 h) p1) as [[p2 [u|e]]|]; [by do 2 eexists..|by intros [? ?]].
Qed.

Lemma client_visit_total q c p1 packets : client_in q c -> visit_packets_to_send (pickleback c) = Some (p1, Ok packets) ->
  (packets = [] -> exists p2, send_keepalive q 0 p1 = Some (p2, Ok tt) /\ is_Some (visit_packets_to_send p2)) ->
  is_Some (client_visit_packets_to_send c).
Proof.
  intros [Hst Hq [sa Hsa]] Hv Hka. unfold client_visit_packets_to_send. rewrite run_get, Hsa.
  assert (Hproto : exists b, send_protocol_packets c = Some (c, Ok b)).
  { unfold send_protocol_packets. rewrite run_get, Hst. by eexists. }
  destruct Hproto as [b Hproto]. run_step Hproto.
  erewrite run_bind_ok by (unfold on_pickleback, st_zoom; rewrite Hv; done).
  destruct (Nat.eqb_spec (length packets) 0) as [Hz|]; [destruct b|]; cbn [andb]; [|by eexists..].
  apply nil_length_inv in Hz. destruct (Hka Hz) as (p2 & Hk & Hv2).
  destruct (client_keepalive_total q (set_pickleback p1 c) Hq) as (c2 & b & Hrun); [by exists (p2, Ok tt)|].
  destruct (client_keepalive q (set_pickleback p1 c) _ _ Hq Hrun) as (p2' & Hk' & Hp2 & _). cbn [pickleback set_pickleback] in Hk'.
  run_step Hrun. assert (p2' = p2) as -> by congruence. rewrite <- Hp2 in Hv2.
  destruct (on_pickleback_total visit_packets_to_send c2 Hv2) as [[c3 [l|e]] Hrun3]; unfold mbind, ST_bind; rewrite Hrun3; by eexists.
Qed.

Lemma client_receive_total q c bytes from : client_in q c -> server_addr c = Some from -> speaks q bytes ->
  is_Some (receive_bytes bytes (pickleback c)) -> is_Some (client_receive bytes from c).
Proof.
  intros Hc Hfrom (cur & p & Hread & Hp). rewrite (client_receive_eq c bytes from cur p Hfrom Hread).
  set (c1 := set_last_receive_time (c_time c) c). assert (Hc1 : client_in q c1) by (by apply (client_in_same q c)).
  set (h := match p with KeepAlive k => ka_header k | Messages m => mp_header m | _ => packet_header p end).
  assert (Hrb : receive_bytes bytes (pickleback c) = process_at cur h (pickleback c)).
  { unfold receive_bytes. rewrite Hread. by destruct p. }
  assert (Hh : match p with KeepAlive k => ka_xor_salt k = q /\ ka_header k = h | Messages m => mp_xor_salt m = q /\ mp_header m = h | _ => False end)
    by (by destruct p).
  pose proof (handle_session q c cur p h Hc1 Hh) as Heq. fold c1 in Heq. rewrite Heq, Hrb. unfold process_at.
  change (pickleback c1) with (pickleback c).
  destruct (process_incoming_packet h (pickleback c, cur)) as [[[p' cur'] [u|e]]|]; [by eexists..|by intros [? ?]].
Qed.

Lemma client_stray_total q c bytes from : client_in q c -> server_addr c <> Some from \/ foreign q bytes -> is_Some (client_receive bytes from c).
Proof.
  intros Hc Hstray. destruct (decide (server_addr c = Some from)) as [Hfrom|Hne].
  2: { unfold client_receive. rewrite run_get. destruct (server_addr c) as [sa|]; [|by eexists].
       rewrite bool_decide_false by congruence. by eexists. }
  destruct Hstray as [|Hf]; [done|].
  destruct (read_packet_no_panic (Cursor_new bytes)) as (cur & r & Hread).
  destruct r as [p|e].
  - rewrite (client_receive_eq c bytes from cur p Hfrom Hread).
    set (c1 := set_last_receive_time (c_time c) c) in *. assert (Hc1 : client_in q c1) by (by apply (client_in_same q c)).
    rewrite (handle_foreign q c1 cur p Hc1) by (by eapply Hf). by eexists.
  - unfold client_receive. rewrite run_get, Hfrom, bool_decide_true by done. cbn [negb].
    unfold mbind at 1, ST_bind at 1, st_with, mbind at 1, ST_bind at 1, st_snd, st_zoom. cbn [fst snd]. rewrite Hread. by eexists.
Qed.

Lemma client_act_total q cap G Q D P acc wire a c g : u64 q -> client_in q c ->
  half_ok q cap G Q D P acc (half_of (pickleback c) g) -> (forall bytes, bytes ∈ wire -> speaks q bytes) ->
  (forall e, allowed e (half_of (pickleback c) g) -> is_Some (half_step wire e (half_of (pickleback c) g))) ->
  client_allowed q c a -> is_Some (client_act wire a c g).
Proof.
  intros Hq Hc Hh Hwire Htot [Ha Hstray].
  assert (Hlift : forall {A} (m : M Pickleback A) (k : PicklebackClient * result A PicklebackError -> option (PicklebackClient * Log)),
    is_Some (m (pickleback c)) -> (forall x, is_Some (k x)) -> is_Some (on_pickleback m c ≫= k)).
  { intros A m k Hm Hk. destruct (on_pickleback_total m c Hm) as [x ->]. apply Hk. }
  destruct a as [channel payload| |n|bytes from draw|dt|channel|channel]; cbn [client_act].
  - apply Hlift; [|intros [? ?]; by eexists]. destruct (Htot (SendMessage channel payload) Ha) as [h' H]. cbn [half_step half_of hf_ep] in H.
    apply bind_Some in H as (x & -> & _). by eexists.
  - cbn in Ha. destruct (visit_step q cap G Q D P acc _ Hh) as (ep & packets & P' & Hrun & Hh1 & _ & _ & _ & _ & Hlen); [cbn; lia|].
    cbn [half_of hf_ep] in Hrun, Hlen. destruct (client_visit_total q c ep packets Hc Hrun) as [[c' r] ->]; [|by eexists].
    intros ->. cbn [length] in Hlen.
    destruct (keepalive_step q cap G Q D (P ++ P') acc _ 0 Hh1 Hq) as (ep2 & P2 & Hka2 & Hh2 & Hlen2); [split; [cbn; lia|lia]|].
    cbn [hf_ep] in Hka2, Hlen2. exists ep2. split; [done|].
    destruct (visit_step q cap G Q D ((P ++ P') ++ P2) acc _ Hh2) as (ep3 & ? & ? & Hrun3 & _); [cbn; lia|]. cbn [hf_ep set_ep] in Hrun3. by rewrite Hrun3.
  - destruct (wire !! n) as [bytes|] eqn:Hn; [|by eexists]. destruct (server_addr c) as [from|] eqn:Hfrom; [|by eexists].
    destruct (client_receive_total q c bytes from Hc Hfrom) as [[c' r] ->]; [by eapply Hwire, list_elem_of_lookup_2| |by eexists].
    destruct (Htot (Arrive n) I) as [h' H]. cbn [half_step half_of hf_ep] in H. rewrite Hn in H. apply bind_Some in H as (x & -> & _). by eexists.
  - destruct (client_stray_total q c bytes from Hc) as [[c' r] ->]; [by eapply Hstray|by eexists].
  - unfold client_update. run_done.
    erewrite (run_bind_ok (on_pickleback (update dt))) by done. rewrite run_get. destruct (_ && _); [|by eexists].
    match goal with |- context [state_transition ?ns ?c1] => destruct (state_transition_total ns c1) as [c' Hst] end.
    rewrite Hst. by eexists.
  - apply Hlift; [|intros [? ?]; by eexists]. destruct (Htot (Drain channel) I) as [h' H]. cbn [half_step half_of hf_ep] in H.
    apply bind_Some in H as (x & -> & _). by eexists.
  - apply Hlift; [|intros [? ?]; by eexists]. destruct (Htot (DrainAcks channel) I) as [h' H]. cbn [half_step half_of hf_ep] in H.
    apply bind_Some in H as (x & -> & _). by eexists.
Qed.

(** Whatever happens at the client's end. *)
Lemma client_act_moves q cap G Q D P acc wire a c g c' g' : u64 q -> client_in q c ->
  half_ok q cap G Q D P acc (half_of (pickleback c) g) -> (forall bytes, bytes ∈ wire -> speaks q bytes) ->
  client_allowed q c a -> client_act wire a c g = Some (c', g') -> state c' = Connected ->
  client_in q c' /\ exists es, moves wire (half_of (pickleback c) g) es (half_of (pickleback c') g') /\
    forall n, a = Receive n -> (n < length wire)%nat -> Arrive n ∈ es.
Proof.
  intros Hq Hc Hh Hwire [Ha Hstray] Hrun Hst. destruct a as [channel payload| |n|bytes from draw|dt|channel|channel]; cbn [client_act] in Hrun.
  - apply bind_Some in Hrun as ([c1 r] & (p & Hsend & ->)%on_pickleback_inv & [= <- <-]). split; [by apply (client_in_same q c)|].
    exists [(SendMessage channel payload)]. split; [|done]. apply (moves_one _ (SendMessage channel payload)); [done|]. cbn [half_step half_of hf_ep]. by rewrite Hsend.
  - apply bind_Some in Hrun as ([c1 r] & Hv & [= <- <-]).
    destruct (client_visit_run q c c1 r Hc Hv) as (Hc' & sa & p1 & packets & Hv1 & Hcase). split; [done|].
    assert (Hsnd : forall l : list (list Z), snd <$> ((fun p => (sa, p)) <$> l) = l).
    { intros l. rewrite <- list_fmap_compose. apply list_fmap_id. }
    cbn in Ha. destruct (visit_step q cap G Q D P acc _ Hh) as (ep & packets' & P' & Hrun' & Hh1 & _ & _ & _ & _ & Hlen); [cbn; lia|].
    cbn [half_of hf_ep] in Hrun', Hlen. assert (ep = p1 /\ packets' = packets) as [-> ->] by (split; congruence).
    assert (Hm : exists es, moves wire (half_of p1 (log_wire packets g)) es
      (half_of (pickleback c1) (log_wire (match r with Ok packets => snd <$> packets | Err _ => [] end) g))).
    2: { destruct Hm as [es Hm]. exists (Visit :: es). split; [|done].
         eapply moves_cons; [|cbn [half_step half_of hf_ep]; by rewrite Hv1|exact Hm]. cbn. lia. }
    destruct Hcase as [[-> ->]|(p2 & p3 & packets2 & -> & Hka & Hv3 & <- & ->)]; rewrite Hsnd; [eexists; constructor|].
    cbn [length] in Hlen.
    destruct (keepalive_step q cap G Q D (P ++ P') acc _ 0 Hh1 Hq) as (ep2 & P2 & Hka2 & Hh2 & Hlen2); [split; [cbn; lia|lia]|].
    cbn [hf_ep] in Hka2, Hlen2. assert (ep2 = p2) as -> by congruence.
    eexists. apply (moves_cons _ (SendKeepalive 0) _ (half_of p2 (log_wire [] g))); [split; [cbn; lia|lia]| |].
    { cbn [half_step half_of hf_ep]. pose proof (sn_salt _ _ _ _ _ (ho_sending _ _ _ _ _ _ _ _ Hh1)) as Hsalt. cbn [hf_ep] in Hsalt.
      rewrite Hsalt, Hka. done. }
    apply (moves_one _ Visit); [cbn; lia|]. cbn [half_step half_of hf_ep]. rewrite Hv3. cbn. by rewrite app_nil_r.
  - destruct (wire !! n) as [bytes|] eqn:Hn.
    2: { injection Hrun as <- <-. split; [done|]. exists []. split; [constructor|]. intros ? [= <-] Hlt. apply lookup_ge_None in Hn. lia. }
    destruct (server_addr c) as [from|] eqn:Hfrom; [|by destruct (ci_addr _ _ Hc) as [? Hsome]; rewrite Hfrom in Hsome].
    apply bind_Some in Hrun as ([c1 r] & Hr & [= <- <-]).
    destruct (client_receive_run q c bytes from c1 r Hc Hfrom) as (Hc' & r' & Hrb); [by eapply Hwire, list_elem_of_lookup_2|done|].
    split; [done|]. exists [Arrive n]. split; [|intros ? [= <-] _; by left]. apply (moves_one _ (Arrive n)); [done|]. cbn [half_step half_of hf_ep]. rewrite Hn. cbn. by rewrite Hrb.
  - apply bind_Some in Hrun as ([c1 r] & Hr & [= <- <-]).
    destruct (client_receive_foreign q c bytes from c1 r Hc) as [Hc' ->]; [by eapply Hstray|done|]. split; [done|]. exists []. split; [constructor|done].
  - apply bind_Some in Hrun as ([c1 r] & Hr & [= <- <-]). destruct (client_update_run q c dt c1 r Hc Hr Hst) as (Hc' & r' & Hup).
    split; [done|]. exists [(Tick dt)]. split; [|done]. apply (moves_one _ (Tick dt)); [done|]. cbn [half_step half_of hf_ep]. by rewrite Hup.
  - apply bind_Some in Hrun as ([c1 r] & (p & Hr & ->)%on_pickleback_inv & [= <- <-]). split; [by apply (client_in_same q c)|].
    exists [(Drain channel)]. split; [|done]. apply (moves_one _ (Drain channel)); [done|]. cbn [half_step half_of hf_ep]. by rewrite Hr.
  - apply bind_Some in Hrun as ([c1 r] & (p & Hr & ->)%on_pickleback_inv & [= <- <-]). split; [by apply (client_in_same q c)|].
    exists [(DrainAcks channel)]. split; [|done]. apply (moves_one _ (DrainAcks channel)); [done|]. cbn [half_step half_of hf_ep]. by rewrite Hr.
Qed.
End client.
