(* ===== verification/ServerEnd.v ===== *)
(** * The server's end of a connection

    Whatever a server does for its other clients, to the endpoint of one of
    them it does what an end of [Link] does. *)

From S2P Require Import Prelude Floats Types SequenceBuffer Cursor BufferPool AckHeader Message Packets Reassembler Channel Dispatcher Endpoint Compose Acks Incoming Control Pieces Reports Lifetime Calm Link Client ClientFacts Server Session Acts ClientEnd.

(** ** Vectors with one element of interest *)
Section vectors.
Context {X A : Type} (p : X -> bool).

(** The only element that satisfies [p] is the one the call is made on. *)
Lemma on_first_only (sel : X -> bool) (m : M X A) l x l' r : List.filter p l = [x] -> (forall y, sel y = true -> p y = true) ->
  sel x = true -> on_first sel m l = Some (l', r) ->
  exists x' r', m x = Some (x', r') /\ r = match r' with Ok a => Ok (Some a) | Err e => Err e end /\
    (p x' = true -> List.filter p l' = [x']).
Proof.
  intros Hf Hsel Hx Hrun.
  destruct (on_first_change _ _ _ _ _ Hrun) as [(_ & _ & Hall)|(l1 & y & y' & l2 & r' & -> & -> & Hy & Hm & ->)].
  - assert (Hin : x ∈ l). { apply list_elem_of_In. assert (In x (List.filter p l)) as [? _]%filter_In by (rewrite Hf; by left). done. }
    rewrite Forall_forall in Hall. by rewrite (Hall x Hin) in Hx.
  - rewrite List.filter_app in Hf |- *. simpl in Hf |- *. rewrite (Hsel y Hy) in Hf.
    apply app_eq_unit in Hf as [[-> [= -> ->]]|[_ [=]]]. exists y', r'. do 2 (split; [done|]). by intros ->.
Qed.

(** A call on every element that never fails. *)
Lemma for_each_inv (body : M X A) l l' r : infallible body -> for_each body l = Some (l', r) ->
  exists zs : list (X * A), l' = zs.*1 /\ r = Ok zs.*2 /\ Forall2 (fun y z => body y = Some (z.1, Ok z.2)) l zs.
Proof.
  intros Hb. revert l' r. induction l as [|y l IH]; intros l' r; cbn [for_each]; [intros [= <- <-]; by exists []|].
  destruct (body y) as [[y' [a|e]]|] eqn:Hy; [|by destruct (Hb _ _ _ Hy)|done].
  destruct (for_each body l) as [[l1 r1]|]; [|done]. destruct (IH l1 r1 eq_refl) as (zs & -> & -> & Hzs).
  intros [= <- <-]. exists ((y', a) :: zs). split_and!; try done. by constructor.
Qed.

Lemma filter_images (body : M X A) l zs : (forall y y' r, body y = Some (y', r) -> p y' = p y) ->
  Forall2 (fun y z => body y = Some (z.1, Ok z.2)) l zs ->
  Forall2 (fun y y' => exists a : A, body y = Some (y', Ok a)) (List.filter p l) (List.filter p (zs.*1)).
Proof.
  intros Hp. induction 1 as [|y [y' a] l zs Hy _ IH]; [constructor|]. simpl in Hy |- *. rewrite (Hp _ _ _ Hy).
  destruct (p y); [|done]. constructor; [by exists a|done].
Qed.

Lemma for_each_only (body : M X A) l x l' r : (forall y y' r, body y = Some (y', r) -> p y' = p y) -> infallible body ->
  List.filter p l = [x] -> for_each body l = Some (l', r) ->
  exists x' a, body x = Some (x', Ok a) /\ List.filter p l' = [x'].
Proof.
  intros Hp Hb Hf Hrun. destruct (for_each_inv body l l' r Hb Hrun) as (zs & -> & _ & Hzs).
  pose proof (filter_images body l zs Hp Hzs) as H. rewrite Hf in H. inversion H as [|? x' ? l1 (a & Hx) Hnil]; subst.
  inversion Hnil; subst. by exists x', a.
Qed.

Lemma for_each_none (body : M X A) l l' r : (forall y y' r, body y = Some (y', r) -> p y' = p y) -> infallible body ->
  List.filter p l = [] -> for_each body l = Some (l', r) -> List.filter p l' = [].
Proof.
  intros Hp Hb Hf Hrun. destruct (for_each_inv body l l' r Hb Hrun) as (zs & -> & _ & Hzs).
  pose proof (filter_images body l zs Hp Hzs) as H. rewrite Hf in H. by inversion H.
Qed.

Lemma filter_sublist l l' : l' `sublist_of` l -> List.filter p l' `sublist_of` List.filter p l.
Proof.
  induction 1 as [|y l1 l2 _ IH|y l1 l2 _ IH]; cbn [List.filter]; [constructor| |];
    (destruct (p y); [constructor; exact IH|exact IH]).
Qed.

Lemma remove_indices_sublist idxs (l rest : list X) removed : remove_indices idxs l = Some (removed, rest) -> rest `sublist_of` l.
Proof.
  revert l removed. induction idxs as [|i idxs IH]; intros l removed; cbn [remove_indices]; [by intros [= _ <-]|].
  unfold vec_remove. destruct (l !! i) as [x|]; [|done]. cbn [mbind option_bind].
  destruct (remove_indices idxs (delete i l)) as [[xs l1]|] eqn:Hr; [|done]. intros [= _ <-].
  etrans; [by eapply IH|]. apply sublist_delete.
Qed.
End vectors.

(** ** The server's end *)
Section server.
Context `{BP : BuildProfile, BO : ByteOrder, BL : !ByteOrderLaws BO, SM : SmallMap}.

(** What of a client its endpoint's operations leave alone. *)
Definition who (cc : ConnectedClient) := (cc_xor_salt cc, cc_socket_addr cc, client_index cc).

Lemma who_salt q cc cc' : who cc' = who cc -> has_salt q cc' = has_salt q cc.
Proof. unfold who, has_salt. by intros [= -> _ _]. Qed.

Lemma on_cc_who {A} (m : M Pickleback A) : keeps who (on_cc m).
Proof. by apply keeps_zoom. Qed.
Hint Resolve on_cc_who : keeps.

Lemma on_cc_inv {A} (m : M Pickleback A) cc cc' r : on_cc m cc = Some (cc', r) ->
  exists p, m (cc_pickleback cc) = Some (p, r) /\ cc' = set_cc_pickleback p cc.
Proof. unfold on_cc, st_zoom. destruct (m (cc_pickleback cc)) as [[p x]|]; [|done]. intros [= <- <-]. by exists p. Qed.

Lemma server_in_client q addr cc s : server_in q addr cc s -> client_of q s = Some cc.
Proof. intros [H _ _]. unfold client_of. by rewrite H. Qed.

Lemma server_in_salt q addr cc s : server_in q addr cc s -> cc_xor_salt cc = q.
Proof.
  intros [H _ _]. assert (In cc (List.filter (has_salt q) (connected_clients s))) as [_ Hq]%filter_In by (rewrite H; by left).
  by apply Z.eqb_eq.
Qed.

Lemma server_in_same q addr cc s s' : connected_clients s' = connected_clients s -> server_in q addr cc s -> server_in q addr cc s'.
Proof. intros Heq []. split; by rewrite ?Heq. Qed.

(** Its client has become [cc']. *)
Lemma server_in_change q addr cc cc' s s' : server_in q addr cc s -> who cc' = who cc ->
  List.filter (has_salt q) (connected_clients s') = [cc'] -> server_in q addr cc' s'.
Proof. intros [_ Ha Hi] Hw Hf. injection Hw as _ Hw1 Hw2. split; [done|congruence|by rewrite Hw2]. Qed.

(** A call on the session's client. *)
Lemma on_client_run {A} q addr cc s s' sel (m : M ConnectedClient A) r : server_in q addr cc s -> keeps who m ->
  (forall y, sel y = true -> has_salt q y = true) -> sel cc = true -> on_connected (on_first sel m) s = Some (s', r) ->
  exists cc' r', m cc = Some (cc', r') /\ r = match r' with Ok a => Ok (Some a) | Err e => Err e end /\ server_in q addr cc' s'.
Proof.
  intros Hs Hm Hsel Hcc. unfold on_connected, st_zoom. destruct (on_first sel m (connected_clients s)) as [[l x]|] eqn:Hrun; [|done].
  intros [= <- <-]. destruct (on_first_only (has_salt q) sel m _ cc l x (si_only _ _ _ _ Hs) Hsel Hcc Hrun) as (cc' & r' & Hmc & -> & Hf).
  exists cc', r'. do 2 (split; [done|]). pose proof (Hm _ _ _ Hmc) as Hw. apply (server_in_change q addr cc cc' s); [done|done|].
  apply Hf. rewrite (who_salt q _ _ Hw). unfold has_salt. apply Z.eqb_eq. by apply (server_in_salt q addr cc s).
Qed.

Lemma has_salt_own q addr cc s : server_in q addr cc s -> has_salt q cc = true.
Proof. intros Hs. apply Z.eqb_eq. by apply (server_in_salt q addr cc s). Qed.

(** A message for the session's client. *)
Lemma server_send_run q addr cc s channel payload s' r : server_in q addr cc s ->
  server_send_message q channel payload s = Some (s', r) ->
  exists p r', send_message channel payload (cc_pickleback cc) = Some (p, r') /\ server_in q addr (set_cc_pickleback p cc) s'.
Proof.
  intros Hs. unfold server_send_message.
  assert (Hrun : forall x y, on_connected (on_first (has_salt q) (cc_send_message channel payload)) s = Some (x, y) ->
    exists p r', send_message channel payload (cc_pickleback cc) = Some (p, r') /\ server_in q addr (set_cc_pickleback p cc) x).
  { intros x y Hxy. destruct (on_client_run q addr cc s x (has_salt q) (cc_send_message channel payload) y Hs) as (cc' & r' & Hm & _ & Hs'); try done;
      [apply on_cc_who|by apply (has_salt_own q addr cc s)|]. apply on_cc_inv in Hm as (p & Hm & ->). by exists p, r'. }
  intros [(s1 & o & H & Hk)|(e & H & _)]%run_bind_inv; [|by eapply Hrun].
  assert (s' = s1) as -> by (destruct o; by injection Hk). by eapply Hrun.
Qed.

(** Another client is sent something, or dismissed. *)
Lemma other_salt q id : id <> q -> forall x, has_salt id x = true -> has_salt q x = false.
Proof. intros Hne x Hx%Z.eqb_eq. apply Z.eqb_neq. congruence. Qed.

Lemma on_other_run {A} q id addr cc s s' (m : M ConnectedClient A) r : id <> q -> server_in q addr cc s -> keeps_identity m ->
  on_connected (on_first (has_salt id) m) s = Some (s', r) -> server_in q addr cc s'.
Proof.
  intros Hne [Hf Ha Hi] Hm. unfold on_connected, st_zoom. destruct (on_first _ m (connected_clients s)) as [[l x]|] eqn:Hrun; [|done].
  intros [= <- _]. split; try done. cbn [connected_clients set_connected_clients]. rewrite <- Hf.
  by apply (on_first_other q _ m _ _ _ Hm Hrun), other_salt.
Qed.

Lemma send_to_run q id addr cc s channel payload s' r : id <> q -> server_in q addr cc s ->
  server_send_message id channel payload s = Some (s', r) -> server_in q addr cc s'.
Proof.
  intros Hne Hs. unfold server_send_message. intros [(s1 & o & H & Hk)|(e & H & _)]%run_bind_inv.
  - assert (s' = s1) as -> by (destruct o; by injection Hk). by apply (on_other_run q id addr cc s s1 _ _ Hne Hs (on_cc_identity _) H).
  - by apply (on_other_run q id addr cc s s' _ _ Hne Hs (on_cc_identity _) H).
Qed.

Lemma dismiss_run q id addr cc s s' r : id <> q -> server_in q addr cc s -> disconnect_client id s = Some (s', r) -> server_in q addr cc s'.
Proof.
  intros Hne Hs. unfold disconnect_client. intros [(s1 & o & H & Hk)|(e & H & _)]%run_bind_inv.
  2: by apply (on_other_run q id addr cc s s' _ _ Hne Hs (on_cc_identity _) H).
  pose proof (on_other_run q id addr cc s s1 _ _ Hne Hs (on_cc_identity _) H) as Hs1. destruct o; [|by injection Hk as <- _].
  injection Hk as <- _. destruct Hs1 as [Hf Ha Hi]. split; try done. cbn [connected_clients set_connected_clients]. rewrite <- Hf.
  generalize (connected_clients s1). intros l. induction l as [|x l IH]; [done|]. cbn [List.filter].
  destruct (has_salt id x) eqn:Hx; cbn [negb List.filter]; [by rewrite (other_salt q id Hne x Hx)|]. by rewrite IH.
Qed.

(** A message for every client. *)
Lemma broadcast_run q addr cc s channel payload s' r : server_in q addr cc s -> broadcast_message channel payload s = Some (s', r) ->
  exists p r', send_message channel payload (cc_pickleback cc) = Some (p, r') /\ server_in q addr (set_cc_pickleback p cc) s'.
Proof.
  intros Hs. unfold broadcast_message, on_connected, mbind at 1, ST_bind at 1, st_zoom.
  set (body := (st_try (cc_send_message channel payload);; mret tt) : M ConnectedClient unit).
  destruct (for_each body (connected_clients s)) as [[l x]|] eqn:Hrun; [|done].
  assert (Hb : infallible body) by (unfold body; infallible_tac).
  destruct (for_each_only (has_salt q) body (connected_clients s) cc l x) as (cc' & u & Hcc & Hf); try done; [|apply Hs|].
  { intros y y' z Hy. apply who_salt. revert Hy. apply (keeps_bind who); [apply keeps_try, on_cc_who|intros ?; apply keeps_ret]. }
  assert (Hsend : exists p r', send_message channel payload (cc_pickleback cc) = Some (p, r') /\ cc' = set_cc_pickleback p cc).
  { revert Hcc. unfold body, mbind, ST_bind, st_try. destruct (cc_send_message channel payload cc) as [[cc1 r1]|] eqn:Hm; [|done].
    intros [= <-]. apply on_cc_inv in Hm as (p & Hm & ->). by exists p, r1. }
  destruct Hsend as (p & r' & Hsend & ->). intros Hk. exists p, r'. split; [done|].
  apply (server_in_change q addr cc _ s); [done|done|]. destruct x; by injection Hk as <- _.
Qed.

(** A packet of the session. *)
Lemma process_eq cur h p : process cur h p = process_at cur h p.
Proof.
  unfold process, process_at, mbind, ST_bind, st_with. by destruct (process_incoming_packet h (p, cur)) as [[[p' cur'] [[]|e]]|].
Qed.

Lemma server_receive_run q addr cc s draw bytes s' r : server_in q addr cc s -> speaks q bytes ->
  server_receive draw bytes addr s = Some (s', r) ->
  exists cc' r', receive_bytes bytes (cc_pickleback cc) = Some (cc_pickleback cc', r') /\ server_in q addr cc' s'.
Proof.
  intros Hs (cur & p & Hread & Hp). unfold server_receive.
  erewrite run_bind_ok by (unfold st_local; rewrite Hread; done). cbn beta iota.
  set (h := match p with KeepAlive k => ka_header k | Messages m => mp_header m | _ => packet_header p end).
  assert (Hrb : receive_bytes bytes (cc_pickleback cc) = process_at cur h (cc_pickleback cc)).
  { unfold receive_bytes. rewrite Hread. by destruct p. }
  intros Hrun. assert (Hrun' : receive_from_client q h cur addr s = Some (s', r)) by (destruct p; try done; by rewrite Hp in Hrun).
  unfold receive_from_client in Hrun'. rewrite run_get in Hrun'.
  set (m := (st_modify (set_confirmed true);; st_modify (set_last_received_time (s_time s));; on_cc (process cur h))) in Hrun'.
  assert (Hm : forall x y, on_connected (on_first (is_client q addr) m) s = Some (x, y) ->
    exists cc' r', m cc = Some (cc', r') /\ server_in q addr cc' x).
  { intros x y Hxy. destruct (on_client_run q addr cc s x (is_client q addr) m y Hs) as (cc' & r' & Hm & _ & Hs'); try done.
    - unfold m. keeps_tac.
    - intros z [Hz _]%andb_prop. done.
    - unfold is_client. rewrite (has_salt_own q addr cc s Hs : (_ =? _) = true). rewrite (si_addr _ _ _ _ Hs). by rewrite bool_decide_true.
    - by exists cc', r'. }
  assert (Hend : exists cc' r', m cc = Some (cc', r') /\ server_in q addr cc' s').
  { apply run_bind_inv in Hrun' as [(s1 & o & H & Hk)|(e & H & _)]; [injection Hk as <- _|]; by eapply Hm. }
  destruct Hend as (cc' & r' & Hmc & Hs'). exists cc', r'. split; [|done]. rewrite Hrb, <- process_eq.
  revert Hmc. unfold m. run_done. run_done. intros (p' & Hpr & ->)%on_cc_inv. exact Hpr.
Qed.

(** Time passes at the server. *)
Lemma update_infallible dt : infallible (update dt).
Proof. unfold update. infallible_tac. Qed.

Lemma process_client_run time dt cc cc' r : process_connected_client time dt cc = Some (cc', r) ->
  who cc' = who cc /\ exists p u, update dt (cc_pickleback cc) = Some (p, Ok u) /\ (cc_pickleback cc' = p \/
    exists r', send_keepalive (cc_xor_salt cc) (default 0 (client_index cc)) p = Some (cc_pickleback cc', r')).
Proof.
  intros Hrun. split.
  { revert Hrun. unfold process_connected_client. apply keeps_bind; [apply on_cc_who|intros _]. apply keeps_bind; [apply keeps_get|intros c].
    destruct (_ || _); [apply on_cc_who|apply keeps_ret]. }
  revert Hrun. unfold process_connected_client.
  intros [(c1 & u & (p & Hup & ->)%on_cc_inv & H)|(e & (p & Hup & _)%on_cc_inv & _)]%run_bind_inv; [|by destruct (update_infallible dt _ _ _ Hup)].
  exists p, u. split; [done|]. rewrite run_get in H. destruct (_ || _).
  - apply on_cc_inv in H as (p2 & H & ->). right. by exists r.
  - injection H as <- _. by left.
Qed.

Lemma send_quietly_infallible t packet : infallible (send_quietly t packet).
Proof. unfold send_quietly. infallible_tac. Qed.

Lemma process_client_infallible time dt : infallible (process_connected_client time dt).
Proof.
  unfold process_connected_client, on_cc. infallible_tac.
Qed.

Lemma process_clients_run q addr cc s dt s' r : server_in q addr cc s -> process_connected_clients dt s = Some (s', r) ->
  is_Some (client_of q s') ->
  exists cc' u, process_connected_client (s_time s) dt cc = Some (cc', Ok u) /\ server_in q addr cc' s'.
Proof.
  intros Hs. unfold process_connected_clients. rewrite run_get.
  set (body := process_connected_client (s_time s) dt). unfold mbind at 1, ST_bind at 1, st_lift, st_asks.
  destruct (remove_indices _ (connected_clients s)) as [[removed rest]|] eqn:Hrem; [|done]. cbn beta iota. run_done.
  assert (Hsub : List.filter (has_salt q) rest `sublist_of` [cc]).
  { rewrite <- (si_only _ _ _ _ Hs). by eapply filter_sublist, remove_indices_sublist. }
  intros [(s1 & u & H & Hk)|(e & H & _)]%run_bind_inv.
  2: { assert (Hi : infallible (st_for removed (fun c => push_event (ClientDisconnected (cc_xor_salt c) TimedOut)))).
       { apply infallible_for. intros c. apply infallible_modify. } by destruct (Hi _ _ _ H). }
  assert (Hconn : connected_clients s1 = rest).
  { assert (Hke : keeps connected_clients (st_for removed (fun c => push_event (ClientDisconnected (cc_xor_salt c) TimedOut)))).
    { apply keeps_for. intros c. by apply keeps_modify. } by apply (Hke _ _ _ H). }
  revert Hk. unfold on_connected, mbind, ST_bind, st_zoom. rewrite Hconn.
  destruct (for_each body rest) as [[l x]|] eqn:Hrun; [|done].
  intros Hk. assert (Hs' : connected_clients s' = l) by (destruct x; by injection Hk as <- _).
  assert (Hwho : forall y y' z, body y = Some (y', z) -> has_salt q y' = has_salt q y).
  { intros y y' z Hy. by apply who_salt, (process_client_run (s_time s) dt y y' z). }
  intros [cc0 Hcc0]. unfold client_of in Hcc0. rewrite Hs' in Hcc0.
  destruct (List.filter (has_salt q) rest) as [|c0 rest0] eqn:Hrest.
  { by rewrite (for_each_none (has_salt q) body rest l x Hwho (process_client_infallible _ _) Hrest Hrun) in Hcc0. }
  assert (c0 = cc /\ rest0 = []) as [-> ->].
  { apply sublist_cons_r in Hsub as [Hn|(l0 & [= -> ->] & Hn)]; by apply sublist_nil_r in Hn as [=]. }
  destruct (for_each_only (has_salt q) body rest cc l x Hwho (process_client_infallible _ _) Hrest Hrun) as (cc' & a & Hcc & Hf).
  exists cc', a. split; [done|]. apply (server_in_change q addr cc cc' s); [done|by apply (process_client_run _ _ _ _ _ Hcc)|by rewrite Hs'].
Qed.

Lemma server_update_run q addr cc s dt s' r : server_in q addr cc s -> server_update dt s = Some (s', r) -> is_Some (client_of q s') ->
  exists cc', server_in q addr cc' s' /\ (cc' = cc \/ exists time u, process_connected_client time dt cc = Some (cc', Ok u)).
Proof.
  intros Hs. unfold server_update. run_done. set (s0 := set_s_time (f64_add (s_time s) dt) s).
  assert (Hp : keeps connected_clients (process_pending_clients dt)).
  { unfold process_pending_clients, on_pending. keeps_tac. }
  assert (Hs0 : server_in q addr cc s0) by (by apply (server_in_same q addr cc s)).
  intros [(s1 & u & H & Hk)|(e & H & _)]%run_bind_inv Hin.
  - pose proof (server_in_same q addr cc s0 s1 (Hp _ _ _ H) Hs0) as Hs1.
    destruct (process_clients_run q addr cc s1 dt s' r Hs1 Hk Hin) as (cc' & v & Hcc & Hs'). exists cc'. split; [done|]. right. by exists (s_time s1), v.
  - exists cc. split; [|by left]. by apply (server_in_same q addr cc s0 s' (Hp _ _ _ H)).
Qed.

(** What is handed out. *)
Lemma visit_client_run time cc cc' r : visit_client time cc = Some (cc', r) -> who cc' = who cc /\
  exists packets, visit_packets_to_send (cc_pickleback cc) = Some (cc_pickleback cc', Ok packets) /\
    r = Ok ((fun p => (cc_socket_addr cc, p)) <$> packets).
Proof.
  unfold visit_client. rewrite run_get.
  intros [(c1 & packets & (p & Hv & ->)%on_cc_inv & H)|(e & (p & Hv & _)%on_cc_inv & _)]%run_bind_inv; [|by destruct (visit_infallible _ _ _ Hv)].
  destruct packets; injection H as <- <-; (split; [done|]); by eexists.
Qed.

Lemma server_visit_run q addr cc s s' r : server_in q addr cc s -> server_visit_packets_to_send s = Some (s', r) ->
  exists cc' packets, visit_packets_to_send (cc_pickleback cc) = Some (cc_pickleback cc', Ok packets) /\ server_in q addr cc' s' /\
    handed_to q s = packets /\ exists before after, r = Ok (before ++ ((fun p => (addr, p)) <$> packets) ++ after).
Proof.
  intros Hs. unfold server_visit_packets_to_send. rewrite run_get. run_done. set (s0 := set_s_outbox [] s).
  assert (Hpi : infallible visit_pending).
  { unfold visit_pending, on_pc. infallible_tac; apply return_buffer_infallible. }
  assert (Hci : infallible (visit_client (s_time s))).
  { intros c c' x H. destruct (visit_client_run _ _ _ _ H) as (_ & packets & _ & ->). by eexists. }
  assert (Hwho : forall y y' z, visit_client (s_time s) y = Some (y', z) -> has_salt q y' = has_salt q y).
  { intros y y' z Hy. by apply who_salt, (visit_client_run (s_time s) y y' z). }
  intros [(s1 & pend & H & Hk)|(e & H & _)]%run_bind_inv.
  2: { revert H. unfold on_pending, st_zoom. destruct (for_each _ _) as [[l x]|] eqn:Hrun; [|done].
       destruct (for_each_inv _ _ _ _ Hpi Hrun) as (zs & _ & -> & _). done. }
  assert (Hs1 : server_in q addr cc s1).
  { apply (server_in_same q addr cc s); [|done]. assert (Hke : keeps connected_clients (on_pending (for_each visit_pending))) by (by apply keeps_zoom).
    by rewrite (Hke _ _ _ H). }
  revert Hk. unfold mbind, ST_bind, on_connected, st_zoom.
  destruct (for_each (visit_client (s_time s)) (connected_clients s1)) as [[l x]|] eqn:Hrun; [|done].
  destruct (for_each_inv _ _ _ _ Hci Hrun) as (zs & -> & -> & Hzs). intros [= <- <-].
  destruct (for_each_only (has_salt q) _ _ cc _ _ Hwho Hci (si_only _ _ _ _ Hs1) Hrun) as (cc' & a & Hcc & Hf).
  destruct (visit_client_run _ _ _ _ Hcc) as (Hw & packets & Hv & [= ->]). exists cc', packets. split; [done|].
  split; [by apply (server_in_change q addr cc cc' s1)|]. split.
  { unfold handed_to. rewrite (server_in_client q addr cc s Hs). cbn [mbind option_bind]. rewrite Hcc.
    rewrite <- list_fmap_compose. apply list_fmap_id. }
  assert (Hin : cc ∈ connected_clients s1).
  { apply list_elem_of_In. assert (In cc (List.filter (has_salt q) (connected_clients s1))) as [? _]%filter_In
      by (rewrite (si_only _ _ _ _ Hs1); by left). done. }
  apply list_elem_of_split in Hin as (l1 & l2 & Hl). rewrite Hl in Hzs.
  apply Forall2_app_inv_l in Hzs as (z1 & z2 & _ & Hz2 & ->). inversion Hz2 as [|? [cc2 b] ? z3 Hb _]; subst.
  cbn [fst snd] in Hb. rewrite Hcc in Hb. injection Hb as <- <-. rewrite (si_addr _ _ _ _ Hs).
  exists (((fun p => (ap_address p, vdata (ap_packet p))) <$> s_outbox s) ++ concat pend ++ concat z1.*2), (concat z3.*2).
  rewrite fmap_app, fmap_cons, concat_app. cbn [concat snd]. by rewrite <- !app_assoc.
Qed.

Lemma take_who {A} (m : M Pickleback (list A)) q addr cc s s' r : server_in q addr cc s -> on_client q (on_cc m) s = Some (s', r) ->
  exists p, m (cc_pickleback cc) = Some (p, of_client r) /\ server_in q addr (set_cc_pickleback p cc) s'.
Proof.
  intros Hs Hrun. destruct (on_client_run q addr cc s s' (has_salt q) (on_cc m) r Hs) as (cc' & r' & Hm & -> & Hs');
    [apply on_cc_who|done|by apply (has_salt_own q addr cc s)|done|]. apply on_cc_inv in Hm as (p & Hm & ->). exists p. by destruct r'.
Qed.

(** A keep-alive goes out when time passes. *)
Lemma server_tick q addr cap G Q D P acc wire s cc cc' g dt time u : u64 q -> server_in q addr cc s ->
  half_ok q cap G Q D P acc (half_of (cc_pickleback cc) g) -> sequence_id (cc_pickleback cc) < 16000 ->
  process_connected_client time dt cc = Some (cc', Ok u) -> exists es, moves wire (half_of (cc_pickleback cc) g) es (half_of (cc_pickleback cc') g).
Proof.
  intros Hq Hs Hh Hseq Hrun. destruct (process_client_run time dt cc cc' _ Hrun) as (_ & p & v & Hup & Hcase).
  assert (Htick : half_step wire (Tick dt) (half_of (cc_pickleback cc) g) = Some (half_of p g)).
  { cbn [half_step half_of hf_ep]. by rewrite Hup. }
  destruct Hcase as [->|[r' Hka]]; [eexists; by apply (moves_one _ (Tick dt))|]. eexists. apply (moves_cons _ (Tick dt) _ (half_of p g)); [done|done|].
  injection Hup as <- _. apply (moves_one _ (SendKeepalive (default 0 (client_index cc)))).
  - split; [done|apply Hs].
  - pose proof (sn_salt _ _ _ _ _ (ho_sending _ _ _ _ _ _ _ _ Hh)) as Hsalt. cbn [hf_ep half_of] in Hsalt.
    cbn [half_step half_of hf_ep]. change (xor_salt (set_ep_channels _ _)) with (xor_salt (cc_pickleback cc)). rewrite Hsalt.
    rewrite (server_in_salt q addr cc s Hs) in Hka. by rewrite Hka.
Qed.

(** Whatever happens at the server's end. *)
Lemma server_act_moves q addr cap G Q D P acc wire a s cc g s' g' : u64 q -> server_in q addr cc s ->
  half_ok q cap G Q D P acc (half_of (cc_pickleback cc) g) -> (forall bytes, bytes ∈ wire -> speaks q bytes) ->
  server_allowed q s a -> server_act q addr wire a s g = Some (s', g') -> is_Some (client_of q s') ->
  exists cc' es, server_in q addr cc' s' /\ moves wire (half_of (cc_pickleback cc) g) es (half_of (cc_pickleback cc') g') /\
    (forall n, a = Receive n -> (n < length wire)%nat -> Arrive n ∈ es) /\ (a = Hand -> es = [Visit]).
Proof.
  intros Hq Hs Hh Hwire [Ha Hstray] Hrun Hin. specialize (Ha cc (server_in_client q addr cc s Hs)).
  destruct a as [channel payload| |n|bytes from draw|dt|channel|channel]; cbn [server_act] in Hrun.
  - apply bind_Some in Hrun as ([s1 r] & Hr & [= <- <-]). destruct (server_send_run q addr cc s channel payload s1 r Hs Hr) as (p & r' & Hsend & Hs').
    exists (set_cc_pickleback p cc), [(SendMessage channel payload)]. split; [done|]. split; [|done]. apply (moves_one _ (SendMessage channel payload)); [done|].
    unfold queued_for. rewrite (server_in_client q addr cc s Hs). cbn [half_step half_of hf_ep]. by rewrite Hsend.
  - apply bind_Some in Hrun as ([s1 r] & Hr & [= <- <-]).
    destruct (server_visit_run q addr cc s s1 r Hs Hr) as (cc' & packets & Hv & Hs' & -> & _). exists cc', [Visit]. split; [done|]. split; [|done].
    apply (moves_one _ Visit); [cbn in Ha |- *; lia|]. cbn [half_step half_of hf_ep]. by rewrite Hv.
  - destruct (wire !! n) as [bytes|] eqn:Hn.
    2: { injection Hrun as <- <-. exists cc, []. split; [done|]. split; [constructor|]. split; [|done].
         intros ? [= <-] Hlt. apply lookup_ge_None in Hn. lia. }
    apply bind_Some in Hrun as ([s1 r] & Hr & [= <- <-]).
    destruct (server_receive_run q addr cc s 0 bytes s1 r Hs) as (cc' & r' & Hrb & Hs'); [by eapply Hwire, list_elem_of_lookup_2|done|].
    exists cc', [Arrive n]. split; [done|]. split; [|split; [intros ? [= <-] _; by left|done]]. apply (moves_one _ (Arrive n)); [done|]. cbn [half_step half_of hf_ep]. rewrite Hn. cbn. by rewrite Hrb.
  - apply bind_Some in Hrun as ([s1 r] & Hr & [= <- <-]). exists cc, []. split; [|by split; [constructor|]].
    pose proof (server_receive_gated draw bytes from s s1 r Hr) as Hg. pose proof (Hstray _ _ _ eq_refl) as Hf.
    destruct (read_packet (Cursor_new bytes)) as [[cur [p|e]]|] eqn:Hread; [|by rewrite Hg..].
    destruct Hs as [Hs Haddr Hi]. split; try done. rewrite (ga_other _ _ _ _ Hg); [done|]. by eapply Hf.
  - apply bind_Some in Hrun as ([s1 r] & Hr & [= <- <-]). destruct (server_update_run q addr cc s dt s1 r Hs Hr Hin) as (cc' & Hs' & Hcase).
    assert (Hm : exists es, moves wire (half_of (cc_pickleback cc) g) es (half_of (cc_pickleback cc') g)).
    { destruct Hcase as [->|(time & u & Hcc)]; [eexists; constructor|by eapply server_tick]. }
    destruct Hm as [es Hm]. by exists cc', es.
  - apply bind_Some in Hrun as ([s1 r] & Hr & [= <- <-]). destruct (take_who _ q addr cc s s1 r Hs Hr) as (p & Hm & Hs').
    exists (set_cc_pickleback p cc), [(Drain channel)]. split; [done|]. split; [|done]. apply (moves_one _ (Drain channel)); [done|]. cbn [half_step half_of hf_ep]. by rewrite Hm.
  - apply bind_Some in Hrun as ([s1 r] & Hr & [= <- <-]). destruct (take_who _ q addr cc s s1 r Hs Hr) as (p & Hm & Hs').
    exists (set_cc_pickleback p cc), [(DrainAcks channel)]. split; [done|]. split; [|done]. apply (moves_one _ (DrainAcks channel)); [done|]. cbn [half_step half_of hf_ep]. by rewrite Hm.
Qed.

Lemma server_aside_moves q addr wire a s cc g s' g' : server_in q addr cc s -> aside_allowed q s a ->
  server_aside q a s g = Some (s', g') ->
  exists cc' es, server_in q addr cc' s' /\ moves wire (half_of (cc_pickleback cc) g) es (half_of (cc_pickleback cc') g').
Proof.
  intros Hs Ha Hrun. destruct a as [id channel payload|channel payload|id|]; cbn [server_aside] in Hrun;
    apply bind_Some in Hrun as ([s1 r] & Hr & [= <- <-]).
  - exists cc, []. split; [by apply (send_to_run q id addr cc s channel payload s1 r)|constructor].
  - destruct (broadcast_run q addr cc s channel payload s1 r Hs Hr) as (p & r' & Hsend & Hs'). exists (set_cc_pickleback p cc). eexists. split; [done|].
    pose proof (server_in_client q addr cc s Hs) as Hcc. apply (moves_one _ (SendMessage channel payload)); [by apply Ha|].
    unfold queued_for. rewrite Hcc. cbn [half_step half_of hf_ep]. by rewrite Hsend.
  - exists cc, []. split; [by apply (dismiss_run q id addr cc s s1 r)|constructor].
  - exists cc, []. split; [|constructor]. injection Hr as <- _. by apply (server_in_same q addr cc s).
Qed.
End server.
