(* ===== verification/Connection.v ===== *)
(** * A client and a server, connected

    A client of client.rs and a server of server.rs, which serves other
    clients too, over a network that loses, repeats, delays and reorders
    packets and hands them forged ones: as long as both consider themselves
    connected, their endpoints do what the two of [Link] do, whatever else the
    server does and whatever arrives that does not carry the session's salt. *)

From S2P Require Import Prelude Floats Types SequenceBuffer Cursor BufferPool AckHeader Message Packets Reassembler Channel Dispatcher Endpoint Compose Acks Incoming Control Pieces Reports Lifetime Calm Link Client ClientFacts Server Session JitterPipe TestUtils Handshake Harness Acts ClientEnd ServerEnd.

(** ** What happens to a connection *)
Section connection.
Context `{BP : BuildProfile, BO : ByteOrder, SM : SmallMap}.

(** The two endpoints as the ends of a link. *)
Definition ends (q : Z) (x : Connection) : option (Half * Half) :=
  cc ← client_of q (cn_server x);
  Some (half_of (pickleback (cn_client x)) (cn_client_log x), half_of (cc_pickleback cc) (cn_server_log x)).

(** One thing happens, after which the client's state is still [Connected] and
    the server has not dropped it. *)
Inductive does (q : Z) (addr : SocketAddr) : Doing -> Connection -> Connection -> Prop :=
| does_client a c g s g' c2 g2 : client_allowed q c a -> client_act (lg_wire g') a c g = Some (c2, g2) -> state c2 = Connected ->
    does q addr (AtClient a) (MkConnection c g s g') (MkConnection c2 g2 s g')
| does_server a c g s g' s2 g2 : server_allowed q s a -> server_act q addr (lg_wire g) a s g' = Some (s2, g2) ->
    is_Some (client_of q s2) -> does q addr (AtServer a) (MkConnection c g s g') (MkConnection c g s2 g2)
| does_besides a c g s g' s2 g2 : aside_allowed q s a -> server_aside q a s g' = Some (s2, g2) ->
    does q addr (Besides a) (MkConnection c g s g') (MkConnection c g s2 g2).

Inductive does_all (q : Z) (addr : SocketAddr) : Connection -> list Doing -> Connection -> Prop :=
| all_nil x : does_all q addr x [] x
| all_cons d x x1 ds x2 : does q addr d x x1 -> does_all q addr x1 ds x2 -> does_all q addr x (d :: ds) x2.

(** The states of a connection, from the end of the handshake on. *)
Inductive connected (q : Z) (addr : SocketAddr) : Connection -> Prop :=
| conn_start P Q c g s g' cc : u64 q -> client_in q c -> server_in q addr cc s ->
    joined q P Q (half_of (pickleback c) g) -> joined q Q P (half_of (cc_pickleback cc) g') ->
    connected q addr (MkConnection c g s g')
| conn_step d x x' : connected q addr x -> does q addr d x x' -> connected q addr x'.
End connection.

(** ** Both ends *)
Section both.
Context `{BP : BuildProfile, BO : ByteOrder, BL : !ByteOrderLaws BO, SM : SmallMap}.

Definition halves (x : Connection) (cc : ConnectedClient) : Half * Half :=
  (half_of (pickleback (cn_client x)) (cn_client_log x), half_of (cc_pickleback cc) (cn_server_log x)).

(** The two endpoints are those of a link. *)
Record conn_ok (q : Z) (addr : SocketAddr) (x : Connection) (cc : ConnectedClient) : Prop := {
  co_salt : u64 q;
  co_client : client_in q (cn_client x);
  co_server : server_in q addr cc (cn_server x);
  co_link : reachable (halves x cc);
  co_pair : link_ok q (halves x cc);
}.

Lemma conn_ends q addr x cc : conn_ok q addr x cc -> ends q x = Some (halves x cc).
Proof. intros Hx. unfold ends. by rewrite (server_in_client q addr cc _ (co_server _ _ _ _ Hx)). Qed.

(** What happens to a connection happens to the link. *)
Lemma does_ok q addr d x x' cc : conn_ok q addr x cc -> does q addr d x x' ->
  exists cc' es, conn_ok q addr x' cc' /\ link_run (halves x cc) es (halves x' cc') /\
    (forall n, d = AtClient (Receive n) -> (n < length (lg_wire (cn_server_log x)))%nat -> (true, Arrive n) ∈ es) /\
    (d = AtServer Hand -> es = [(false, Visit)]).
Proof.
  intros [Hq Hc Hs Hr Hl] Hd. pose proof Hl as (cap & cap' & P & Q & acc & acc' & Hp).
  assert (Hend : forall left es h cc' y, moves (hf_wire (end_of (negb left) (halves x cc))) (end_of left (halves x cc)) es h ->
    client_in q (cn_client y) -> server_in q addr cc' (cn_server y) -> with_end left h (halves x cc) = halves y cc' ->
    conn_ok q addr y cc' /\ link_run (halves x cc) ((fun e => (left, e)) <$> es) (halves y cc')).
  { intros left es h cc' y Hm Hcy Hsy Heq. destruct (moves_link q left _ es h Hq Hl Hm) as [Hrun Hl2]. rewrite Heq in Hrun, Hl2.
    split; [|done]. split; try done. by eapply run_reachable. }
  destruct Hd as [a c g s g' c2 g2 Ha Hrun Hst|a c g s g' s2 g2 Ha Hrun Hin|a c g s g' s2 g2 Ha Hrun];
    unfold halves in Hp; cbn [cn_client cn_client_log cn_server cn_server_log fst snd] in *.
  - destruct (client_act_moves q cap _ Q _ P acc (lg_wire g') a c g c2 g2 Hq Hc (pr_here _ _ _ _ _ _ _ _ _ Hp)) as (Hc2 & es & Hm & Harr); try done.
    { intros bytes Hb. by eapply (wire_speaks q false). }
    destruct (Hend true es _ cc (MkConnection c2 g2 s g') Hm) as [Hok Hlr]; try done. eexists _, _. split; [exact Hok|]. split; [exact Hlr|].
    split; [|done]. intros n [= ->] Hn. apply list_elem_of_fmap. exists (Arrive n). split; [done|by apply Harr].
  - destruct (server_act_moves q addr cap' _ P _ Q acc' (lg_wire g) a s cc g' s2 g2 Hq Hs (pr_there _ _ _ _ _ _ _ _ _ Hp))
      as (cc2 & es & Hs2 & Hm & _ & Hhand); try done.
    { intros bytes Hb. by eapply (wire_speaks q true). }
    destruct (Hend false es _ cc2 (MkConnection c g s2 g2) Hm) as [Hok Hlr]; try done. eexists _, _. split; [exact Hok|]. split; [exact Hlr|].
    split; [done|]. intros [= ->]. by rewrite Hhand.
  - destruct (server_aside_moves q addr (lg_wire g) a s cc g' s2 g2 Hs Ha Hrun) as (cc2 & es & Hs2 & Hm).
    destruct (Hend false es _ cc2 (MkConnection c g s2 g2) Hm) as [Hok Hlr]; try done. eexists _, _. split; [exact Hok|]. by split.
Qed.

Lemma does_all_ok q addr x ds x' : does_all q addr x ds x' -> forall cc, conn_ok q addr x cc ->
  exists cc' es, conn_ok q addr x' cc' /\ link_run (halves x cc) es (halves x' cc') /\
    forall n, AtClient (Receive n) ∈ ds -> (n < length (lg_wire (cn_server_log x)))%nat -> (true, Arrive n) ∈ es.
Proof.
  induction 1 as [x|d x x1 ds x2 Hd _ IH]; intros cc Hx.
  { exists cc, []. split; [done|]. split; [constructor|]. by intros n ?%elem_of_nil. }
  destruct (does_ok q addr d x x1 cc Hx Hd) as (cc1 & es1 & Hx1 & Hr1 & Harr1 & _).
  destruct (IH cc1 Hx1) as (cc2 & es2 & Hx2 & Hr2 & Harr2). exists cc2, (es1 ++ es2). split; [done|].
  split; [by eapply run_app|]. intros n [Hn|Hn]%elem_of_cons Hlt; apply elem_of_app; [left; by apply Harr1|right].
  apply Harr2; [done|]. pose proof (run_wire false _ _ _ Hr1) as Hw. cbn in Hw. lia.
Qed.

Lemma connected_ok q addr x : connected q addr x -> exists cc, conn_ok q addr x cc.
Proof.
  induction 1 as [P Q c g s g' cc Hq Hc Hs Hj Hj'|d x x' _ [cc Hx] Hd].
  - exists cc. split; try done; unfold halves; cbn [cn_client cn_client_log cn_server cn_server_log]; [by eapply reach_joined|].
    destruct (joined_ok q P Q _ (has [] []) Hj (jo_posted _ _ _ _ Hj')) as [Hn1 H1].
    destruct (joined_ok q Q P _ (has [] []) Hj' (jo_posted _ _ _ _ Hj)) as [Hn2 H2].
    eexists _, _, P, Q, [], []. split; cbn [fst snd]; rewrite ?Hn1, ?Hn2; done.
  - destruct (does_ok q addr d x x' cc Hx Hd) as (cc' & _ & Hx' & _). by exists cc'.
Qed.
End both.

(** ** The properties *)

(** C2. A connection is a link.  Take a client of client.rs and its entry in a
    server of server.rs when the handshake is over, and let anything happen:
    at either end messages are sent, packets visited, messages and acks
    drained, time passes; the server serves, greets and drops other clients;
    the network loses, repeats, delays and reorders the session's packets and
    delivers anything else, from anywhere, that does not carry the session's
    salt.  As long as the client is connected and the server has not timed it
    out, the server has exactly one client with the session's salt, and its
    endpoint and the client's are in a state that two endpoints reach when
    nothing but each other's packets arrives: whatever holds of [Link] holds of
    the connection. *)
Theorem connection_refines_link `{BP : BuildProfile, BO : ByteOrder, BL : !ByteOrderLaws BO, SM : SmallMap} q addr x :
  connected q addr x ->
  (exists cc, List.filter (has_salt q) (connected_clients (cn_server x)) = [cc] /\ cc_socket_addr cc = addr) /\
  exists l, ends q x = Some l /\ reachable l /\
    forall ds x', does_all q addr x ds x' -> exists l' es, ends q x' = Some l' /\ link_run l es l'.
Proof.
  intros Hx. destruct (connected_ok q addr x Hx) as (cc & Hok). pose proof (conn_ends q addr x cc Hok) as He.
  split; [exists cc; split; apply (co_server _ _ _ _ Hok)|]. exists (halves x cc). split; [done|]. split; [apply Hok|].
  intros ds x' Hd. destruct (does_all_ok q addr x ds x' Hd cc Hok) as (cc' & es & Hok' & Hrun & _).
  exists (halves x' cc'), es. split; [by eapply conn_ends|done].
Qed.

(** C1. What arrives over a connection was sent over it, once.  While the
    client is connected and the server has not dropped it, whatever the server
    does for other clients and however the network loses, repeats, delays and
    reorders the session's packets, what the client's user has received on a
    channel are whole messages that the server's user sent to this client (or
    broadcast) on that channel, no message twice, and the same holds the other
    way round.  Other bytes may arrive from anywhere, except ones that carry
    the session's salt (at the client: from the server's address): packets
    forged with it, late copies of the handshake's challenge response and
    disconnects are excluded.  Messages are within the bounds the code handles, with ids below
    32768 (after the ids wrap the filters accept duplicates), and packet ids
    are at most 16000 ([act_allowed]). *)
Theorem connection_delivers_at_most_once `{BP : BuildProfile, BO : ByteOrder, BL : !ByteOrderLaws BO, SM : SmallMap} q addr x c :
  connected q addr x ->
  exists l, ends q x = Some l /\ hf_sent l.1 = lg_sent (cn_client_log x) /\ hf_sent l.2 = lg_sent (cn_server_log x) /\
    forall left, exists ss, arrivals (end_of left l) c = arrival <$> ss /\ NoDup (s_id <$> ss) /\
      forall s, s ∈ ss -> s ∈ hf_sent (end_of (negb left) l) /\ s_channel s = c.
Proof.
  intros Hx. destruct (connected_ok q addr x Hx) as (cc & Hok). exists (halves x cc). split; [by eapply conn_ends|].
  do 2 (split; [done|]). intros left. apply reachable_arrivals, Hok.
Qed.

(** C3. Reliable messages arrive over a connection.  From any state of a
    connection in which every message that waits in the reliable channel of
    the server's endpoint is ready to be sent (its resend interval of 0.1 s has
    elapsed, [all_ready]), let the server's [visit_packets_to_send] hand out
    packets.  If afterwards neither end is 350 packets behind with its acks,
    then once each of the packets for this client has reached it, in any
    order, again and again, among anything else that happens at both ends and
    in the network, every message that the server's user sent to this client
    on the reliable channel has arrived, whatever was lost before.  This is
    for ids within the first 10000 ([short]), for packets that arrive before
    so many more were sent that the client finds them too old, and, as in
    all theorems on connections, for strays without the session's salt. *)
Theorem connection_reliable_messages_arrive `{BP : BuildProfile, BO : ByteOrder, BL : !ByteOrderLaws BO, SM : SmallMap,
    SL : !SmallMapLaws SM} q addr x x1 ds x2 l l1 l2 s :
  connected q addr x -> does q addr (AtServer Hand) x x1 -> does_all q addr x1 ds x2 ->
  ends q x = Some l -> ends q x1 = Some l1 -> ends q x2 = Some l2 ->
  all_ready l.2 1 -> ~ window_full (hf_ep l1.2) -> short (lg_sent (cn_server_log x2)) ->
  (forall n, (length (lg_wire (cn_server_log x)) <= n < length (lg_wire (cn_server_log x1)))%nat -> AtClient (Receive n) ∈ ds) ->
  sequence_id (hf_ep l2.2) <= sequence_id (hf_ep l.2) + SeqBuf.len (received_buffer (hf_ep l.1)) ->
  s ∈ lg_sent (cn_server_log x) -> s_channel s = 1 -> arrival s ∈ arrivals l2.1 1.
Proof.
  intros Hx Hhand Hds He He1 He2 Hready Hroom Hshort Harr Hnear Hs Hc.
  destruct (connected_ok q addr x Hx) as (cc & Hok).
  destruct (does_ok q addr _ x x1 cc Hok Hhand) as (cc1 & es & Hok1 & Hrun1 & _ & Hes). rewrite (Hes eq_refl) in Hrun1.
  destruct (does_all_ok q addr x1 ds x2 Hds cc1 Hok1) as (cc2 & es2 & Hok2 & Hrun2 & Harr2).
  rewrite (conn_ends q addr x cc Hok) in He. injection He as <-. rewrite (conn_ends q addr x1 cc1 Hok1) in He1. injection He1 as <-.
  rewrite (conn_ends q addr x2 cc2 Hok2) in He2. injection He2 as <-.
  inversion Hrun1 as [|? ? ? la ? ? Hseq Hvisit Hnil]; subst. inversion Hnil; subst.
  apply (reachable_arrive false (halves x cc) (halves x1 cc1) es2 (halves x2 cc2) s); try done; [apply Hok|].
  intros n Hn. apply Harr2; [by apply Harr|]. cbn in Hn. lia.
Qed.

(** C4. A connected client never panics on its session's packets.  In every
    state of a connection, each call on the client returns: sending and
    visiting packets within the bounds of the ids and of the messages,
    receiving any packet of the session, however late or often, and any other
    bytes from any address but the server's, and from the server's any that do
    not carry the session's salt; passing time, also past the timeout; taking
    messages and acks.  (Bytes that do carry it can panic the client:
    [bad_fragment_panics].) *)
Theorem connected_client_never_panics `{BP : BuildProfile, BO : ByteOrder, BL : !ByteOrderLaws BO, SM : SmallMap} q addr x a :
  connected q addr x -> client_allowed q (cn_client x) a ->
  exists c g, client_act (lg_wire (cn_server_log x)) a (cn_client x) (cn_client_log x) = Some (c, g).
Proof.
  intros Hx Ha. destruct (connected_ok q addr x Hx) as (cc & [Hq Hc Hs Hr Hl]).
  pose proof Hl as (cap & cap' & P & Q & acc & acc' & Hp). unfold halves in Hp. cbn [fst snd] in Hp.
  destruct (client_act_total q cap _ Q _ P acc (lg_wire (cn_server_log x)) a (cn_client x) (cn_client_log x) Hq Hc
    (pr_here _ _ _ _ _ _ _ _ _ Hp)) as [[c g] Hrun]; try done; [| |by exists c, g].
  - intros bytes Hb. by eapply (wire_speaks q false).
  - intros e He. destruct (link_step_ok q true e _ Hq Hl He) as (l & Hrun & _). cbn [link_step fst snd] in Hrun.
    apply bind_Some in Hrun as (h & Hrun & _). by exists h.
Qed.

(** ** A connection to begin with *)
Section start.
Context `{BP : BuildProfile, BO : ByteOrder, BL : !ByteOrderLaws BO, SM : SmallMap, SL : !SmallMapLaws SM}.

(** Stand-ins for the [n] packets of the handshake. *)
Definition control_packet (i : Z) : Posted := MkPosted {| packet_type := TKeepAlive; h_id := i; ack_header := None |} [] (Some 0).
Definition controls (n : Z) : list Posted := control_packet <$> seqZ 1 n.

Definition first_log (q n : Z) : Log := MkLog [] (posted_bytes q <$> controls n) [] [].

Lemma controls_spec n pk : pk ∈ controls n <-> exists i, 0 < i <= n /\ pk = control_packet i.
Proof.
  unfold controls. rewrite list_elem_of_fmap. split; intros (i & H1 & H2); exists i; [apply elem_of_seqZ in H2; split; [lia|done]|].
  split; [done|]. apply elem_of_seqZ. lia.
Qed.

(** An endpoint after its part of the handshake. *)
Lemma calm_joined n m q p : calm n m (Some q) [] p -> joined q (controls n) (controls m) (half_of p (first_log q n)).
Proof.
  intros [Hid Hn Hm Hq Ho Hu]. pose proof (id_few _ Hid) as [Hfew _]. pose proof (id_received_len _ Hid) as Hlen.
  assert (Hctl : forall k, 0 < k <= m -> exists pk, pk ∈ controls m /\ posted_id pk = k).
  { intros k Hk. exists (control_packet k). split; [apply controls_spec; by exists k|done]. }
  assert (Hm0 : 0 <= m). { pose proof (SeqBufFacts.wf_sequence _ (eo_received _ (proj1 (id_ok _ Hid)))). lia. }
  split; try done; cbn [hf_ep half_of].
  - lia.
  - by apply fmap_nil_inv in Ho.
  - apply Forall_forall. intros pk (i & Hi & ->)%controls_spec. split; try done; cbn.
    + split; cbn; [lia|done].
    + intros index [= <-]. split; [lia|done].
  - intros pk (i & Hi & ->)%controls_spec. cbn. lia.
  - intros pk pk' (i & Hi & ->)%controls_spec (j & Hj & ->)%controls_spec. by cbn; intros ->.
  - intros pk k (i & Hi & ->)%controls_spec. by intros ?%elem_of_nil.
  - intros k Hk [x Hx]. apply Hctl. rewrite <- Hm. by eapply id_known.
  - rewrite Hm. destruct (decide (m = 0)); [by left|right]. apply Hctl. lia.
Qed.

(** The three ticks of the handshake begin a connection. *)
Lemma handshake_connected cfg a r1 r2 r3 dt1 dt2 dt3 : enabled cfg = false -> u64 a -> u64 (tick_salts r1 0%nat) ->
  let t1 := f64_add zero dt1 in let t2 := f64_add t1 dt2 in let t3 := f64_add t2 dt3 in
  handshake_times t1 t2 t3 ->
  let q := Z.lxor a (tick_salts r1 0%nat) in
  exists h0 h1 h2 h3, ProtocolTestHarness_new a cfg = Some h0 /\
    protocol_advance r1 dt1 h0 = Some (h1, Ok tt) /\ protocol_advance r2 dt2 h1 = Some (h2, Ok tt) /\
    protocol_advance r3 dt3 h2 = Some (h3, Ok tt) /\
    connected q harness_addr (MkConnection (ph_client h3) (first_log q 3) (ph_server h3) (first_log q 3)).
Proof.
  intros Hoff Ha Hb t1 t2 t3 Ht q.
  destruct (handshake_run cfg a r1 r2 r3 dt1 dt2 dt3 Hoff Ha Hb Ht)
    as (h0 & h1 & h2 & h3 & lp & p & p' & H0 & H1 & H2 & H3 & Hc & Hs & Hq & Hp & Hp').
  exists h0, h1, h2, h3. do 4 (split; [done|]). rewrite Hc, Hs. fold q in Hp, Hp', Hq |- *.
  apply (conn_start q harness_addr (controls 3) (controls 3) _ _ _ _ (MkConnected q harness_addr true None t3 t3 p')); [done|..].
  - split; [done..|by eexists].
  - split; [|done|cbn; lia]. cbn [connected_clients List.filter]. unfold has_salt. cbn. by rewrite Z.eqb_refl.
  - by apply calm_joined.
  - by apply calm_joined.
Qed.
End start.

(** ** An example *)

(** Checks that an act is allowed. *)
Definition act_now (ep : Pickleback) (a : Act) : bool :=
  match a with
  | Send channel payload =>
      (0 <=? next_message_id (dispatcher ep)) && (next_message_id (dispatcher ep) <? 1000) &&
      (0 <=? channel) && (channel <? 32) && (Z.of_nat (length payload) <=? 1024)
  | Hand => sequence_id ep <=? 15500
  | Update _ => sequence_id ep <? 16000
  | _ => true
  end.

Definition foreign_now (q : Z) (a : Act) : bool :=
  match a with
  | Stray bytes _ _ =>
      match @read_packet big_endian (Cursor_new bytes) with
      | Some (_, Ok p) => negb (bool_decide (packet_salt p = Some q))
      | _ => true
      end
  | _ => true
  end.

Lemma act_now_ok ep a : act_now ep a = true -> @act_allowed debug_build ep a.
Proof.
  destruct a as [channel payload| |n|bytes from draw|dt|channel|channel]; cbn -[Z.leb Z.ltb]; try done; [|lia..].
  intros Hb. assert (Hsmall : s_small (next_of ep channel payload) = true) by (unfold s_small, s_len; cbn; lia).
  split; cbn; unfold ID_LIMIT, MAX_CHANNELS, s_count; rewrite ?Hsmall; unfold s_len; cbn; lia.
Qed.

Lemma foreign_now_ok q a : foreign_now q a = true -> forall bytes from draw, a = Stray bytes from draw -> @foreign big_endian q bytes.
Proof. intros H bytes from draw ->. cbn in H. intros c p Hread. rewrite Hread in H. by apply negb_true_iff, bool_decide_eq_false in H. Qed.

Definition aside_now (q : Z) (s : PicklebackServer) (a : Aside) : bool :=
  match a with
  | SendTo id _ _ | Dismiss id => negb (id =? q)
  | Broadcast channel payload =>
      match client_of q s with Some cc => act_now (cc_pickleback cc) (Send channel payload) | None => true end
  | DrainEvents => true
  end.

Lemma aside_now_ok q s a : aside_now q s a = true -> @aside_allowed debug_build q s a.
Proof.
  destruct a as [id channel payload|channel payload|id|]; cbn; try (intros Hb; apply negb_true_iff, Z.eqb_neq in Hb; done); [|done].
  intros Hb cc Hcc. rewrite Hcc in Hb. exact (act_now_ok _ (Send channel payload) Hb).
Qed.

Definition doing_step (q : Z) (addr : SocketAddr) (d : Doing) (x : Connection) : option Connection :=
  let 'MkConnection c g s g' := x in
  match d with
  | AtClient a =>
      '(c2, g2) ← @client_act debug_build big_endian elements_order (lg_wire g') a c g;
      if act_now (pickleback c) a && foreign_now q a && bool_decide (state c2 = Connected)
      then Some (MkConnection c2 g2 s g') else None
  | AtServer a =>
      '(s2, g2) ← @server_act debug_build big_endian elements_order q addr (lg_wire g) a s g';
      if foreign_now q a && match client_of q s, client_of q s2 with Some cc, Some _ => act_now (cc_pickleback cc) a | _, _ => false end
      then Some (MkConnection c g s2 g2) else None
  | Besides a =>
      '(s2, g2) ← @server_aside debug_build big_endian q a s g';
      if aside_now q s a then Some (MkConnection c g s2 g2) else None
  end.

Lemma doing_does q addr d x x' : doing_step q addr d x = Some x' -> @does debug_build big_endian elements_order q addr d x x'.
Proof.
  destruct x as [c g s g'], d as [a|a|a]; cbn [doing_step]; intros ([y g2] & Hrun & H)%bind_Some.
  - destruct (_ && _) eqn:Hb; [|done]. injection H as <-. apply andb_prop in Hb as [[Ha Hf]%andb_prop Hst].
    apply does_client; [|exact Hrun|by eapply bool_decide_eq_true_1]. split; [by apply act_now_ok|].
    intros bytes from draw Heq. right. by eapply foreign_now_ok.
  - destruct (_ && _) eqn:Hb; [|done]. injection H as <-. apply andb_prop in Hb as [Hf Hb].
    destruct (client_of q s) as [cc|] eqn:Hcc; [|done]. destruct (client_of q y) as [cc2|] eqn:Hcc2; [|done].
    apply does_server; [|exact Hrun|by rewrite Hcc2]. split; [|by apply foreign_now_ok].
    rewrite Hcc. intros ? [= <-]. by apply act_now_ok.
  - destruct (aside_now q s a) eqn:Hb; [|done]. injection H as <-. apply does_besides; [by apply aside_now_ok|exact Hrun].
Qed.

Fixpoint doings (q : Z) (addr : SocketAddr) (l : list Doing) (x : Connection) : option Connection :=
  match l with
  | [] => Some x
  | d :: l => x ← doing_step q addr d x; doings q addr l x
  end.

Lemma doings_all q addr l x x' : doings q addr l x = Some x' -> @does_all debug_build big_endian elements_order q addr x l x'.
Proof.
  revert x. induction l as [|d l IH]; intros x; cbn [doings]; [intros [= <-]; constructor|].
  intros (x1 & H1 & H)%bind_Some. econstructor; [by apply doing_does|by apply IH].
Qed.

Lemma all_connected `{BP : BuildProfile, BO : ByteOrder, SM : SmallMap} q addr x ds x' :
  does_all q addr x ds x' -> connected q addr x -> connected q addr x'.
Proof. induction 1 as [|d x x1 ds x2 Hd _ IH]; [done|]. intros Hx. apply IH. by eapply conn_step. Qed.

(** The server sends the client three bytes, which arrive twice, between a
    packet of nobody's and a repeated greeting of the first; the client's next
    packet acks them. *)
Definition example_doings : list Doing :=
  [Besides (Broadcast 1 [1; 2; 3]); Besides (SendTo 5 1 [4]); AtServer (Update (f64_lit 1 5)); AtServer Hand; AtClient (Receive 3); AtClient (Receive 3);
   AtClient (Stray [0; 1; 2] harness_addr 0); AtClient (Update (f64_lit 1 5)); AtClient (Receive 4); AtClient Hand;
   AtServer (Receive 0); AtServer (Receive 3); AtServer (TakeAcks 1)].

Definition example_start : option Connection :=
  h0 ← @ProtocolTestHarness_new debug_build big_endian 5 disabled;
  '(h1, _) ← @protocol_advance debug_build big_endian elements_order (quiet_tick 9) (f64_lit 1 5) h0;
  '(h2, _) ← @protocol_advance debug_build big_endian elements_order (quiet_tick 0) (f64_lit 1 5) h1;
  '(h3, _) ← @protocol_advance debug_build big_endian elements_order (quiet_tick 0) (f64_lit 1 5) h2;
  Some (MkConnection (ph_client h3) (@first_log big_endian 12 3) (ph_server h3) (@first_log big_endian 12 3)).

Lemma example_connected : exists x, example_start = Some x /\ @connected debug_build big_endian elements_order 12 harness_addr x.
Proof.
  destruct (handshake_connected (BP := debug_build) (BO := big_endian) (BL := big_endian_laws) (SM := elements_order)
    (SL := elements_order_laws) disabled 5 (quiet_tick 9) (quiet_tick 0) (quiet_tick 0) (f64_lit 1 5) (f64_lit 1 5) (f64_lit 1 5)
    eq_refl ltac:(lia) ltac:(cbn; lia) ltac:(constructor; vm_compute; reflexivity))
    as (h0 & h1 & h2 & h3 & H0 & H1 & H2 & H3 & Hx).
  exists (MkConnection (ph_client h3) (@first_log big_endian 12 3) (ph_server h3) (@first_log big_endian 12 3)). split; [|exact Hx].
  unfold example_start. apply bind_Some. exists h0. split; [exact H0|]. apply bind_Some. exists (h1, Ok tt). split; [exact H1|].
  apply bind_Some. exists (h2, Ok tt). split; [exact H2|]. apply bind_Some. exists (h3, Ok tt). split; [exact H3|reflexivity].
Qed.

Lemma example_exchange : exists x, @connected debug_build big_endian elements_order 12 harness_addr x /\
  arrivals (half_of (pickleback (cn_client x)) (cn_client_log x)) 1 = [(Some 0, [1; 2; 3])] /\
  lg_acked (cn_server_log x) = [(1, 0)].
Proof.
  assert (H : (x ← example_start; x' ← doings 12 harness_addr example_doings x;
    Some (arrivals (half_of (pickleback (cn_client x')) (cn_client_log x')) 1, lg_acked (cn_server_log x'))) =
    Some ([(Some 0, [1; 2; 3])], [(1, 0)])) by (vm_compute; reflexivity).
  apply bind_Some in H as (x & Hx & (x' & Hd & H)%bind_Some). destruct example_connected as (x0 & Hx0 & Hc).
  rewrite Hx0 in Hx. injection Hx as ->. exists x'. split; [exact (all_connected _ _ _ _ _ (doings_all _ _ _ _ _ Hd) Hc)|].
  injection H as Ha Hk. by split.
Qed.

Lemma connection_refines_link_witness : exists x l, lg_acked (cn_server_log x) = [(1, 0)] /\
  ends 12 x = Some l /\ @reachable debug_build big_endian elements_order l.
Proof.
  destruct example_exchange as (x & Hx & _ & Hack).
  destruct (connection_refines_link (BP := debug_build) (BO := big_endian) (BL := big_endian_laws) (SM := elements_order) 12 harness_addr x Hx)
    as (_ & l & Hl & Hr & _).
  exists x, l. split; [exact Hack|]. split; [exact Hl|exact Hr].
Defined.

Lemma connection_delivers_at_most_once_witness : exists x l, lg_acked (cn_server_log x) = [(1, 0)] /\ ends 12 x = Some l /\
  exists ss, arrivals l.1 1 = arrival <$> ss /\ NoDup (s_id <$> ss) /\ forall s, s ∈ ss -> s ∈ hf_sent l.2 /\ s_channel s = 1.
Proof.
  destruct example_exchange as (x & Hx & _ & Hack).
  destruct (connection_delivers_at_most_once (BP := debug_build) (BO := big_endian) (BL := big_endian_laws) (SM := elements_order)
    12 harness_addr x 1 Hx) as (l & Hl & _ & _ & Hss).
  exists x, l. split; [exact Hack|]. split; [exact Hl|exact (Hss true)].
Defined.

(** The packet with the bytes is lost; a second later they are sent again. *)
Definition lossy_doings : list Doing := [AtServer (Send 1 [1; 2; 3]); AtServer Hand; AtServer (Update (f64_lit 1 1))].

Definition later_doings : list Doing :=
  [AtServer (Send 0 [5]); AtClient (Receive 5); AtClient Hand; AtClient (Receive 5); AtClient (Receive 4)].

(** What is seen of it, before the server's packets are visited again, and
    after. *)
Definition lossy_seen (x x1 x2 : Connection) :=
  (l ← ends 12 x; l1 ← ends 12 x1; l2 ← ends 12 x2;
   Some ((arrivals l.1 1, sequence_id (hf_ep l.2), SeqBuf.len (received_buffer (hf_ep l.1)), sequence_id (hf_ep l2.2)),
     (fun ch => (@ch_ready debug_build big_endian _ _ Channel_laws ch,
        length (@ch_messages debug_build big_endian _ _ Channel_laws ch))) <$> channels (ep_channels (hf_ep l.2)) !! 1,
     (sent_unacked_packets (hf_ep l1.2), received_unacked_packets (hf_ep l1.2)),
     (length (lg_wire (cn_server_log x)), length (lg_wire (cn_server_log x1))),
     (lg_sent (cn_server_log x), lg_sent (cn_server_log x2)))).

Lemma lossy_run : exists x x1 x2, @connected debug_build big_endian elements_order 12 harness_addr x /\
  doing_step 12 harness_addr (AtServer Hand) x = Some x1 /\ doings 12 harness_addr later_doings x1 = Some x2 /\
  lossy_seen x x1 x2 = Some (([], 5, 512, 6), Some (1%nat, 1%nat), (3, 1), (4%nat, 6%nat),
    ([MkSent 0 1 [1; 2; 3]], [MkSent 0 1 [1; 2; 3]; MkSent 1 0 [5]])).
Proof.
  assert (H : (x0 ← example_start; x ← doings 12 harness_addr lossy_doings x0; x1 ← doing_step 12 harness_addr (AtServer Hand) x;
    x2 ← doings 12 harness_addr later_doings x1; lossy_seen x x1 x2) =
    Some (([], 5, 512, 6), Some (1%nat, 1%nat), (3, 1), (4%nat, 6%nat),
      ([MkSent 0 1 [1; 2; 3]], [MkSent 0 1 [1; 2; 3]; MkSent 1 0 [5]]))) by (vm_compute; reflexivity).
  apply bind_Some in H as (x0 & H0 & (x & Hx & (x1 & Hx1 & (x2 & Hx2 & H)%bind_Some)%bind_Some)%bind_Some).
  destruct example_connected as (x0' & H0' & Hc). rewrite H0' in H0. injection H0 as ->. exists x, x1, x2.
  split; [exact (all_connected _ _ _ _ _ (doings_all _ _ _ _ _ Hx) Hc)|]. split; [exact Hx1|]. split; [exact Hx2|exact H].
Qed.

Lemma connection_reliable_messages_arrive_witness : exists x x1 x2 l l2,
  doing_step 12 harness_addr (AtServer Hand) x = Some x1 /\ doings 12 harness_addr later_doings x1 = Some x2 /\
  ends 12 x = Some l /\ arrivals l.1 1 = [] /\ ends 12 x2 = Some l2 /\ arrival (MkSent 0 1 [1; 2; 3]) ∈ arrivals l2.1 1.
Proof.
  destruct lossy_run as (x & x1 & x2 & Hx & Hx1 & Hx2 & H). unfold lossy_seen in H.
  apply bind_Some in H as (l & Hl & (l1 & Hl1 & (l2 & Hl2 & H)%bind_Some)%bind_Some).
  injection H as Ha Hq Hcap Hq2 Hready Hu1 Hu2 Hw Hw1 Hs Hs2. exists x, x1, x2, l, l2.
  split; [exact Hx1|]. split; [exact Hx2|]. split; [exact Hl|]. split; [exact Ha|]. split; [exact Hl2|].
  apply (connection_reliable_messages_arrive (BP := debug_build) (BO := big_endian) (BL := big_endian_laws) (SM := elements_order)
    (SL := elements_order_laws) 12 harness_addr x x1 later_doings x2 l l1 l2 (MkSent 0 1 [1; 2; 3]) Hx
    (doing_does _ _ _ _ _ Hx1) (doings_all _ _ _ _ _ Hx2) Hl Hl1 Hl2).
  - intros ch Hch. rewrite Hch in Hready. injection Hready as H1 H2. exact (eq_trans H1 (eq_sym H2)).
  - unfold window_full. rewrite Hu1, Hu2. unfold MAX_UNACKED_PACKETS, MAX_ACK_BYTES. lia.
  - apply short_now. rewrite Hs2. reflexivity.
  - intros n Hn. rewrite Hw, Hw1 in Hn. assert (n = 4 \/ n = 5)%nat as [-> | ->] by lia; unfold later_doings; set_solver.
  - rewrite Hq2, Hq, Hcap. lia.
  - rewrite Hs. apply list_elem_of_here.
  - reflexivity.
Defined.

(** Three bytes that are no packet. *)
Lemma connected_client_never_panics_witness : exists x c g,
  arrivals (half_of (pickleback (cn_client x)) (cn_client_log x)) 1 = [(Some 0, [1; 2; 3])] /\
  @client_act debug_build big_endian elements_order (lg_wire (cn_server_log x)) (Stray [0; 1; 2] harness_addr 0)
    (cn_client x) (cn_client_log x) = Some (c, g).
Proof.
  destruct example_exchange as (x & Hx & Harr & _).
  destruct (connected_client_never_panics (BP := debug_build) (BO := big_endian) (BL := big_endian_laws) (SM := elements_order)
    12 harness_addr x (Stray [0; 1; 2] harness_addr 0) Hx) as (c & g & Hrun).
  - split; [exact I|]. intros bytes from draw Heq. right. exact (foreign_now_ok 12 (Stray [0; 1; 2] harness_addr 0) eq_refl bytes from draw Heq).
  - exists x, c, g. split; [exact Harr|exact Hrun].
Defined.
